(* ===== verification/_CoqProject ===== *)
-Q . S2P
Prelude.v
Float32.v
FloatRound.v
EdgeUart.v
Kunteng.v
PowerStage.v
CurrentControl.v
Transforms.v
RotorAngle.v
Units.v
SettingsData.v
SettingsCodec.v
SettingsTypes.v
Observers.v
Isr.v
MotionControl.v
SettingsStore.v
SettingsLimits.v
RamStorage.v
SettingsPersistence.v
Registers.v
CartControl.v
OuterLoop.v
Ebike.v
SlowUpdate.v
HwStartup.v
Strtof.v
Commissioning.v
HandOver.v
Timing.v
DriveMessages.v
DriveNode.v
CyphalNode.v
CyphalTraffic.v
CyphalAnswers.v
CyphalRegisters.v
CyphalPortList.v
CyphalDemo.v
DriveDemo.v
DriveSafety.v
DriveSettings.v
CanMedia.v
Slcan.v
SlcanProofs.v
SlcanBus.v
CanardTransport.v
CanardLaws.v
CanardDemo.v
ZephyrStorage.v
DeadTime.v
FocStage.v
FocStm32.v
FocPipeline.v
BccBoard.v
BccSafety.v
BccEbikeIo.v
ZephyrCan.v
MachineTypes.v
SimPlant.v
SimPlantLaws.v
SimBoard.v
SimBoardLaws.v
SimPlatform.v
SimPlatformLaws.v
SimDemo.v
SimEbike.v
Threads.v
Json.v
RegisterFile.v
TraceNode.v
TraceSignals.v
