(* ===== verification/Prelude.v ===== *)
(** * UNIMOC motor-control firmware: verification library

    The firmware of a motor drive: a Zephyr application (src/app, src/src) over
    a portable library (src/lib) and a hardware layer (src/hardware) for two
    boards, the battery case controller (an STM32G473) and the simulation
    native_sim.  All paths below are relative to src/.

    ** The program and its parts

    Four contexts share the drive, from the highest priority to the lowest.
    - The sample interrupt copies the phase currents twice per PWM period, trips
      the power stage on an overcurrent, and every fourth time runs the control
      cycle, which reads the samples, controls the current in the rotor frame
      and hands four duty entries (a duty plan) to the timer.
    - The observer interrupt estimates angle and speed after every control cycle
      and prepares the angles of the next one.
    - The control thread runs the outer loop (torque, speed, position) and gives
      the current reference to the control cycle through a mailbox.
    - The Cyphal thread runs the node on the CAN bus, the drive node that owns the
      engagement of the power stage, the e-bike control and the startup aid, and
      saves settings.

    Data goes down through mailboxes and sequence locks, up through queues; the
    power stage is released only through one interface whose lock keeps it off
    while settings are written to flash.

    ** Where each part is modelled

    Foundations.
    - Prelude: record update, words, arrays, loops, and the tactics.
    - Float32, FloatRound: the [float] and [double] arithmetic of the code as IEEE
      754 with round to nearest even (the executable specification of the Rocq
      library), order, conversions, and bounds on rounded results.
    - Units: lib/units/units.hpp.  Transforms, RotorAngle: lib/motor_control/src
      (sin_cos, svm and the frames; rotor_angle, angle_wrap, position_tracker).

    Settings (lib/settings, src/settings_save_gate.hpp).
    - SettingsData, SettingsCodec: members, register table, stored form.
    - SettingsStore over [StorageOps] and [GateOps]: validation, load, commit and
      save of settings_store.hpp.  SettingsTypes has the interface its clients use.
    - SettingsLimits: what validated settings guarantee.  SettingsPersistence: the
      contract of the store over any storage that keeps [StorageLaws].
    - RamStorage (tests/common/ram_settings_storage.hpp) and ZephyrStorage
      (hardware/zephyr_common/zephyr_settings_storage.cpp) implement the storage.
    - Registers: lib/cyphal/register_value.cpp and the settings as registers.

    Control.
    - CurrentControl, Isr: src/current_control/current_control_isr.cpp with its PI
      controller, mailbox, sub-step buffer and dead-time compensation.
    - Observers, SlowUpdate: the observers and src/current_control/slow_update.cpp.
    - MotionControl, OuterLoop: speed, position and battery limits and
      src/current_control/outer_loop.cpp.
    - HandOver: mailbox, sequence lock and Hall queue as interleaved accesses.
    - MachineTypes: the control laws of other machines in lib/motor_control.
    - Timing: execution times (hardware/hot_path_timing.hpp) and their registers.

    Power stage and boards.
    - PowerStage: hardware/power_stage_interface.hpp, the save gate, and the
      simulated power stage, also as the steps an interrupt can come between.
    - DeadTime, FocStage, FocStm32, FocPipeline: hardware/zephyr_bcc/dead_time.hpp
      and foc_stm32g4.cpp: break unit, sample interrupt, duty plan.
    - BccBoard, BccSafety: hardware/zephyr_bcc/hardware_interface.cpp with
      analog_scaling.hpp, and the chain from a raw sample to the trip.
    - BccEbikeIo: hardware/zephyr_bcc/ebike_io.cpp.
    - ZephyrCan: hardware/zephyr_common/zephyr_can_media.cpp.
    - Threads: control_thread.cpp, cyphal_log_backend.c and the interfaces and log
      of cyphal_runtime.cpp, in hardware/zephyr_common.

    Simulation (lib/sim/src, hardware/zephyr_sim).
    - SimPlant, SimPlantLaws: inverter, machine, shaft, Hall sensors.
    - SimBoard, SimBoardLaws: hardware_interface.cpp, the control cycle on the
      plant.  SimPlatform, SimPlatformLaws: cyphal_platform.cpp, the registers of
      the plant.  SimDemo runs the application of main.cpp on it.
    - SimEbike: ebike_io.cpp.  RegisterFile (over the reader Json):
      register_file.cpp.  Slcan, SlcanProofs, SlcanBus: slcan_media.cpp.

    Bus and applications.
    - CanMedia, CanardTransport, CanardLaws: lib/cyphal/can_media.hpp and
      canard_transport.cpp over libcanard.
    - CyphalNode with CyphalTraffic, CyphalAnswers, CyphalRegisters and
      CyphalPortList: lib/cyphal/node.cpp over any transport.
    - DriveMessages, DriveNode, DriveSafety, DriveSettings: src/drive/drive_node.cpp
      and main() of src/main.cpp.  CartControl, Commissioning (over Strtof): the
      other files of src/drive.  HwStartup: src/startup/hw_startup.cpp.
    - TraceNode, TraceSignals: src/trace.
    - EdgeUart, Kunteng, Ebike: lib/ebike and src/ebike/ebike_control.cpp.
    - CyphalDemo, CanardDemo, DriveDemo, SimDemo: concrete instances for examples.

    ** How state and operations correspond to the code

    A class is a record with the members of the source by their names; a method
    is a function from the record to its results and the new record, every
    branch of the source a branch of the function.  Machine words are [Z] with
    the wrap written out ([u8], [u32], [u64]); floats are binary32 values, each
    operation rounded where the code rounds.  A conversion of a float outside the
    target type, a signed overflow, a write past an array or a loop that does not
    end is [None], so a theorem that gives [Some] also says that none of them
    happens.  Calls on code outside of the repository (Zephyr, libcanard,
    O1Heap, the generated DSDL code, the trace device, exp and atan2, the
    shortest text of a float) go through classes, and what the code relies on are
    the laws of those classes, which the witnesses and examples instantiate with
    concrete functions.  The interfaces between components are classes in the same way
    ([PowerStageOps], [SettingsClient], [StorageOps], [GateOps], [CanMedia],
    [TransportOps], [Application]): a client is proved against the laws and the
    implementation discharges them (the store as [SettingsClient], RAM and flash
    storage as [StorageOps], both power stages as [PowerStageOps], the canard
    transport as [TransportOps], serial line and CAN controller as [CanMedia]).

    ** What the theorems show

    - Outputs: the power stage is released only by an engaged drive or a run of
      the startup aid, a fault or an emergency stop holds until it is armed again
      (DriveSafety, an invariant over every operation); each state of the startup
      aid has the outputs it is meant to have, and a fault stops it (HwStartup);
      the save gate, a trip in the middle of a release and the settings store
      keep the outputs off (PowerStage, FocStage, SettingsPersistence).
    - Overcurrent: the window in raw counts is exactly the limit in amperes, and
      one sample outside it ends in tripped outputs and a latched control
      (BccBoard, BccSafety, Isr).
    - Duty plan: every entry of every plan is in force in its half period, on the
      timer (FocPipeline) and on the simulated board (SimBoardLaws): the same
      contract, two implementations.
    - Settings: what is saved is loaded again, over RAM and over flash with a
      loss of power at any write; updates are validated as a whole; validated
      settings are inside the described limits with distinct ports; written
      settings reach the running controller when they may (SettingsPersistence,
      ZephyrStorage, SettingsLimits, DriveSettings).
    - Control values: currents, torques and angles stay inside their limits with
      the rounding of the arithmetic; ramps reach zero; wraps end (OuterLoop,
      CartControl, Isr, Ebike, RotorAngle, DeadTime).
    - Bus: whose transfers a node sends, how they are numbered, that a request is
      answered at most once, that registers can be listed and accessed, and that
      the port list parses back (the Cyphal files); queues and subscriptions of
      the transport (CanardLaws); frames over a serial line (SlcanBus).
    - Codecs: display frames and UART bytes, register values, the description
      file of the registers and the lines of the log come back as they were sent
      (Kunteng, EdgeUart, RegisterFile, Threads).
    - Concurrency: sequence lock, mailboxes and queues give whole values in every
      interleaving (HandOver), no wake-up of the control thread is lost (Threads).
    - Simulation: the plant always runs with the inputs its registers show, its
      Hall codes are those the observer decodes, its timer does not drift
      (SimPlatformLaws, SimPlantLaws, SimBoardLaws).

    Deviations of the code from its comments, and plain errors, are theorems too:
    for example [WrapAngle_large], [one_radian_counts], [stalled_start],
    [fill_result_ignored], [mtpa_all_on_d_axis], [edge_age_grid], [crank_stalls].

    ** Bounds and fuel

    [while_ depth] runs a loop of the source for at most 2^depth iterations and
    is [None] if it has not ended; [RotorAngle.wrap_depth] is 21, and
    [WrapAngle_correct] proves that every angle up to 6 * 2^21 rad needs no more
    (beyond 2^27 rad the loop of the source does not end at all).  The loops that
    empty a queue have its capacity as fuel, and theorems say that the queue is
    empty afterwards ([pop_all_spec], [log_lines_all]).  The sampling loop of the
    UART decoder has 11 steps for the ten bits of a frame ([sample_loop_fuel]).
    A number is printed with 20 digits, enough for 64 bits ([decimal_spec]).  The JSON reader
    reports running out of fuel as [None]; its laws say that there is an amount
    from which on it reads the text.  Everything else is structural.

    ** Not modelled, and why

    - hardware/zephyr_bcc/cyphal_platform.cpp, system_interface.cpp: one pin and
      the log macros, no state.  Threads are created, hardware is identified and
      the board restarted by calls of Zephyr with nothing to say about the program.
    - The start of pins, timers and UART in hardware/zephyr_bcc: register values
      without a state the program reads back.  foc_stm32g4_dt.hpp,
      hardware_interface_config.hpp and sw_version.hpp are macros over the
      devicetree and the build; their values are parameters.
    - The DSDL files and the code generated from them, the cymon submodule,
      libcanard, O1Heap and Zephyr: outside of the repository (see the classes).
    - The literals of lib/units/units.hpp and the types of its results: the
      dimension of an expression is checked by the compiler; the arithmetic
      operators of the frame classes are written out where they are used.
    - Log texts, except the lines that go to the bus.  Tests and scripts. *)
From Stdlib Require Import ZArith Lia Bool.
From stdpp Require Import base list.

Declare Scope unimoc_scope.
Delimit Scope unimoc_scope with unimoc.
#[local] Open Scope Z_scope.

(** ** Record update

    A class object of the program is a record; a statement [x_ = v] becomes
    [s.{x_ := v}].  [Eta] lists the members of a record once; the setter of
    each member is derived from it, in projection form, so that [cbn] resolves
    a member of an updated record without looking at the other members. *)
Class Eta (R : Type) := eta : R -> R.
Class Setter {R T : Type} (f : R -> T) := set_field : T -> R -> R.
Arguments set_field {R T} f {_} v s /.

Ltac derive_setter :=
  lazymatch goal with
  | |- @Setter ?R ?T ?f =>
      let i := constr:(_ : Eta R) in
      let v := fresh "v" in
      let s := fresh "s" in
      refine (fun (v : T) (s : R) => _);
      let body := eval red in (i s) in
      let ab := eval pattern (f s) in body in
      lazymatch ab with
      | ?h _ => let r := eval cbv beta in (h v) in exact r
      end
  end.
#[export] Hint Extern 1 (Setter _) => derive_setter : typeclass_instances.

Notation "s '.{' f ':=' v '}'" := (set_field f v s)
  (at level 1, left associativity, f at level 0, format "s .{ f  :=  v }") : unimoc_scope.

(** ** Machine integers

    A [uintN_t] is a [Z] kept in range by an explicit wrap; the conversion to a
    signed type is the two's complement reinterpretation of C++20. *)
Definition wrap (w z : Z) : Z := (z mod 2 ^ w)%Z.
Abbreviation u8 := (wrap 8).
Abbreviation u16 := (wrap 16).
Abbreviation u32 := (wrap 32).
Abbreviation u64 := (wrap 64).
Definition i32 (z : Z) : Z := ((z + 2 ^ 31) mod 2 ^ 32 - 2 ^ 31)%Z.

(** [z] is a value of the unsigned type of [w] bits. *)
Definition in_u (w z : Z) : Prop := (0 <= z < 2 ^ w)%Z.
Definition in_ub (w z : Z) : bool := (0 <=? z)%Z && (z <? 2 ^ w)%Z.

Lemma wrap_in_u w z : (0 <= w)%Z -> in_u w (wrap w z).
Proof. intros Hw; apply Z.mod_pos_bound, Z.pow_pos_nonneg; lia. Qed.

Lemma wrap_id w z : in_u w z -> wrap w z = z.
Proof. apply Z.mod_small. Qed.

Lemma wrap_idem w z : (0 <= w)%Z -> wrap w (wrap w z) = wrap w z.
Proof. intros; now apply wrap_id, wrap_in_u. Qed.

Lemma in_ub_spec w z : in_ub w z = true <-> in_u w z.
Proof. unfold in_ub, in_u; rewrite andb_true_iff, Z.leb_le, Z.ltb_lt; lia. Qed.

Lemma i32_range z : (- 2 ^ 31 <= i32 z < 2 ^ 31)%Z.
Proof. unfold i32. pose proof (Z.mod_pos_bound (z + 2 ^ 31) (2 ^ 32)). lia. Qed.

Lemma i32_id z : (- 2 ^ 31 <= z < 2 ^ 31)%Z -> i32 z = z.
Proof. intros; unfold i32; rewrite Z.mod_small; lia. Qed.

Lemma i32_wrap z : i32 (u32 z) = i32 z.
Proof. unfold i32, wrap. now rewrite Zplus_mod_idemp_l. Qed.

(** The bitwise operators stay inside a width. *)
Lemma in_u_testbit w z : (0 <= w)%Z -> in_u w z <-> (forall i, (w <= i)%Z -> Z.testbit z i = false) /\ (0 <= z)%Z.
Proof.
  intros Hw; split.
  - intros [Hlo Hhi]; split; [|lia]. intros i Hi.
    destruct (Z.eq_dec z 0) as [->|Hz]; [apply Z.bits_0|].
    apply Z.bits_above_log2; [lia|]. apply Z.log2_lt_pow2; [lia|].
    eapply Z.lt_le_trans; [exact Hhi|]. apply Z.pow_le_mono_r; lia.
  - intros [Hb Hz]; split; [lia|].
    destruct (Z.eq_dec z 0) as [->|Hz0]; [apply Z.pow_pos_nonneg; lia|].
    destruct (Z_lt_ge_dec z (2 ^ w)) as [?|Hge]; [lia|exfalso].
    assert (w <= Z.log2 z)%Z by (apply Z.log2_le_pow2; lia).
    specialize (Hb (Z.log2 z) ltac:(lia)). rewrite Z.bit_log2 in Hb by lia. discriminate.
Qed.

Lemma in_u_lor w x y : (0 <= w)%Z -> in_u w x -> in_u w y -> in_u w (Z.lor x y).
Proof.
  intros Hw Hx Hy. apply in_u_testbit in Hx as [Hx ?], Hy as [Hy ?]; [|lia..].
  apply in_u_testbit; [lia|]. split; [|apply Z.lor_nonneg; lia].
  intros i Hi. now rewrite Z.lor_spec, Hx, Hy.
Qed.

Lemma in_u_lxor w x y : (0 <= w)%Z -> in_u w x -> in_u w y -> in_u w (Z.lxor x y).
Proof.
  intros Hw Hx Hy. apply in_u_testbit in Hx as [Hx ?], Hy as [Hy ?]; [|lia..].
  apply in_u_testbit; [lia|]. split; [|apply Z.lxor_nonneg; lia].
  intros i Hi. now rewrite Z.lxor_spec, Hx, Hy.
Qed.

Lemma in_u_land_l w x y : (0 <= w)%Z -> in_u w x -> (0 <= y)%Z -> in_u w (Z.land x y).
Proof.
  intros Hw Hx Hy. apply in_u_testbit in Hx as [Hx ?]; [|lia].
  apply in_u_testbit; [lia|]. split; [|apply Z.land_nonneg; lia].
  intros i Hi. now rewrite Z.land_spec, Hx.
Qed.

Create HintDb word.
#[export] Hint Resolve wrap_in_u in_u_lor in_u_lxor in_u_land_l i32_range : word.
#[export] Hint Extern 3 (_ <= _)%Z => lia : word.
#[export] Hint Extern 3 (in_u _ _) => (unfold in_u; lia) : word.
Create Rewrite HintDb wordrw.
#[export] Hint Rewrite i32_wrap : wordrw.

(** ** Boolean conditions

    [bool_cases] turns the boolean guards of the code into propositions. *)
Ltac bool_prop :=
  repeat match goal with
    | H : (_ && _)%bool = true |- _ => apply andb_true_iff in H; destruct H
    | H : (_ || _)%bool = false |- _ => apply orb_false_iff in H; destruct H
    | H : (_ || _)%bool = true |- _ => apply orb_true_iff in H
    | H : (_ && _)%bool = false |- _ => apply andb_false_iff in H
    | H : negb _ = true |- _ => apply negb_true_iff in H
    | H : negb _ = false |- _ => apply negb_false_iff in H
    | H : (_ <? _)%Z = true |- _ => apply Z.ltb_lt in H
    | H : (_ <? _)%Z = false |- _ => apply Z.ltb_ge in H
    | H : (_ <=? _)%Z = true |- _ => apply Z.leb_le in H
    | H : (_ <=? _)%Z = false |- _ => apply Z.leb_gt in H
    | H : (_ =? _)%Z = true |- _ => apply Z.eqb_eq in H
    | H : (_ =? _)%Z = false |- _ => apply Z.eqb_neq in H
    end.

(** Splits the first [if] of the goal, keeping the condition. *)
Ltac case_if :=
  match goal with
  | |- context [if ?b then _ else _] => let H := fresh "Hif" in destruct b eqn:H
  end.

(** Splits every [if] and [match] of the goal that blocks reduction. *)
Ltac case_all := repeat (case_if; cbn in *).

(** ** Lists as fixed-size arrays

    [array_get d l i] is [l[i]] of an array whose bounds the code guarantees;
    the default is never reached then, which the bounds theorems show. *)
Definition array_get {A} (d : A) (l : list A) (i : Z) : A := default d (l !! Z.to_nat i).
Definition array_set {A} (i : Z) (x : A) (l : list A) : list A := <[Z.to_nat i := x]> l.

Lemma length_array_set {A} i (x : A) l : length (array_set i x l) = length l.
Proof. apply length_insert. Qed.

Lemma array_get_set_eq {A} d i (x : A) l :
  (0 <= i < Z.of_nat (length l))%Z -> array_get d (array_set i x l) i = x.
Proof. intros; unfold array_get, array_set; rewrite list_lookup_insert_eq by lia; done. Qed.

Lemma array_get_set_ne {A} d i j (x : A) l :
  (0 <= i)%Z -> (0 <= j)%Z -> i <> j -> array_get d (array_set i x l) j = array_get d l j.
Proof. intros; unfold array_get, array_set; rewrite list_lookup_insert_ne by lia; done. Qed.

#[export] Hint Rewrite @length_array_set : wordrw.

(** The invariant of a fold: a step that preserves [P] preserves it over the
    whole list. *)
Lemma foldl_invariant {A B} (P : A -> Prop) (f : A -> B -> A) (l : list B) (a : A) :
  P a -> (forall a b, b ∈ l -> P a -> P (f a b)) -> P (foldl f a l).
Proof.
  revert a; induction l as [|b l IH]; intros a Ha Hf; [done|]. cbn.
  apply IH; [apply Hf; [left|done]|]. intros a' b' Hb'; apply Hf; now right.
Qed.

(** ** Properties of a bounded integer, checked by evaluation *)
Lemma forall_seqZ (P : Z -> bool) lo n :
  forallb P (seqZ lo n) = true -> forall z, lo <= z < lo + n -> P z = true.
Proof.
  intros H z Hz. rewrite forallb_forall in H. apply H. rewrite <- list_elem_of_In.
  apply elem_of_seqZ. lia.
Qed.

Lemma forall_bool (P : bool -> bool) : P true && P false = true -> forall b, P b = true.
Proof. intros H b; apply andb_true_iff in H as []; by destruct b. Qed.

(** A concrete list of machine words is in range. *)
Ltac words_ok := cbn; repeat (apply Forall_cons; split; [unfold in_u; lia|]); by apply Forall_nil.

(** ** Loops

    [while (cond(x)) x = body(x)]: [while_loop] runs at most [2 ^ depth]
    iterations and stops at the first state that fails the condition; [while_]
    is [None] when the loop still runs after them. *)
Fixpoint while_loop {A} (depth : nat) (cond : A -> bool) (body : A -> A) (x : A) : A :=
  match depth with
  | O => if cond x then body x else x
  | S d =>
      let y := while_loop d cond body x in
      if cond y then while_loop d cond body y else y
  end.
Definition while_ {A} (depth : nat) (cond : A -> bool) (body : A -> A) (x : A) : option A :=
  let y := while_loop depth cond body x in if cond y then None else Some y.

(** The loop is a number of iterations, all of which its condition allowed. *)
Lemma while_loop_iter {A} (cond : A -> bool) (body : A -> A) depth x :
  exists k, (k <= 2 ^ depth)%nat /\ while_loop depth cond body x = Nat.iter k body x /\
    (forall j, (j < k)%nat -> cond (Nat.iter j body x) = true) /\
    (k = (2 ^ depth)%nat \/ cond (Nat.iter k body x) = false).
Proof.
  revert x. induction depth as [|d IH]; intros x; cbn [while_loop].
  - destruct (cond x) eqn:C; [exists 1%nat|exists 0%nat]; cbn; repeat split; auto; try lia.
    intros [|j] Hj; [done|lia].
  - destruct (IH x) as (k & Hk & -> & Hc & He). cbn [Nat.pow].
    destruct (cond (Nat.iter k body x)) eqn:C; [|exists k; repeat split; auto; lia].
    destruct He as [->|]; [|done]. destruct (IH (Nat.iter (2 ^ d) body x)) as (l & Hl & -> & Hc' & He').
    exists (l + 2 ^ d)%nat. rewrite Nat.iter_add. split; [lia|]. split; [done|]. split; [|destruct He' as [->|]; [left; lia|by right]].
    intros j Hj. destruct (decide (j < 2 ^ d)%nat) as [?|N]; [by apply Hc|].
    replace j with ((j - 2 ^ d) + 2 ^ d)%nat by lia. rewrite Nat.iter_add. apply Hc'. lia.
Qed.

Lemma while_loop_stop {A} (cond : A -> bool) (body : A -> A) depth x : cond x = false -> while_loop depth cond body x = x.
Proof. intros C. induction depth as [|d IH]; cbn [while_loop]; [by rewrite C|]. by rewrite IH, C. Qed.

(** A loop whose measure falls with every iteration ends, and keeps what every
    iteration keeps. *)
Lemma while_ends {A} (P : A -> Prop) (m : A -> Z) cond body depth x :
  P x -> m x <= 2 ^ Z.of_nat depth ->
  (forall y, P y -> cond y = true -> P (body y) /\ m (body y) <= m y - 1) ->
  (forall y, P y -> m y <= 0 -> cond y = false) ->
  exists y, while_ depth cond body x = Some y /\ P y /\ cond y = false.
Proof.
  intros Px Hm Hstep Hend. unfold while_.
  destruct (while_loop_iter cond body depth x) as (k & Hk & -> & Hc & He).
  assert (forall j, (j <= k)%nat -> P (Nat.iter j body x) /\ m (Nat.iter j body x) <= m x - Z.of_nat j) as I.
  { induction j as [|j IHj]; intros Hj; [cbn [Nat.iter]; change (Nat.iter 0 body x) with x; split; [done|lia]|].
    destruct IHj as [IP IM]; [lia|]. rewrite Nat.iter_succ. destruct (Hstep _ IP (Hc j ltac:(lia))) as [? ?]. split; [done|lia]. }
  destruct (I k (Nat.le_refl k)) as [IP IM].
  assert (cond (Nat.iter k body x) = false) as Cf.
  { destruct He as [->|]; [|done]. apply Hend; [done|]. rewrite Nat2Z.inj_pow in IM. change (Z.of_nat 2) with 2 in IM. lia. }
  rewrite Cf. eauto.
Qed.

(** A signed 32-bit sum; its overflow is undefined in C++: [None]. *)
Definition add_i32 (a b : Z) : option Z :=
  let s := a + b in if (- 2 ^ 31 <=? s) && (s <? 2 ^ 31) then Some s else None.
(** The result of a signed 64-bit operation, likewise. *)
Definition check_i64 (z : Z) : option Z := if (- 2 ^ 63 <=? z) && (z <? 2 ^ 63) then Some z else None.
Lemma check_i64_Some z y : check_i64 z = Some y <-> y = z /\ - 2 ^ 63 <= z < 2 ^ 63.
Proof. unfold check_i64. case_if; split; intros H; bool_prop; simplify_eq; intuition (try lia; try done; f_equal; lia). Qed.
Lemma add_i32_Some a b s : add_i32 a b = Some s <-> s = a + b /\ - 2 ^ 31 <= s < 2 ^ 31.
Proof. unfold add_i32. case_if; split; intros H; bool_prop; try (simplify_eq); intuition (try lia; try done; f_equal; lia). Qed.
