(* ===== verification/Float32.v ===== *)
(** * IEEE 754 binary32 and binary64 arithmetic of the C++ code

    The program computes in [float] ([unit::Unit<float>]) and, for the startup
    statistics, in [double].  Both are the executable IEEE 754 specification of
    the Rocq library ([SpecFloat], round to nearest even): [f32] arithmetic is
    the one of a target without contracted operations, bit for bit, including
    signed zeros, infinities and NaN.  A NaN has no payload here; stored
    register values keep their bit pattern ([SettingsCodec]). *)
From Stdlib Require Import ZArith Lia Bool SpecFloat.
From stdpp Require Import base list.
From S2P Require Import Prelude.

#[local] Open Scope Z_scope.

Abbreviation float := spec_float.
Abbreviation double := spec_float.

(** ** Operations *)
Definition f_add : float -> float -> float := SFadd 24 128.
Definition f_sub : float -> float -> float := SFsub 24 128.
Definition f_mul : float -> float -> float := SFmul 24 128.
Definition f_div : float -> float -> float := SFdiv 24 128.
Definition f_sqrt : float -> float := SFsqrt 24 128.
Definition f_neg : float -> float := SFopp.

Definition d_add : double -> double -> double := SFadd 53 1024.
Definition d_sub : double -> double -> double := SFsub 53 1024.
Definition d_mul : double -> double -> double := SFmul 53 1024.
Definition d_div : double -> double -> double := SFdiv 53 1024.

(** Conversions: [static_cast<float>(int)], [static_cast<double>(int)], the
    exact [static_cast<double>(float)], the rounding [static_cast<float>(double)]. *)
Definition f_of_Z (z : Z) : float := binary_normalize 24 128 z 0 false.
Definition d_of_Z (z : Z) : double := binary_normalize 53 1024 z 0 false.
Definition d_of_f (x : float) : double :=
  match x with S754_finite s m e => binary_normalize 53 1024 (cond_Zopp s (Zpos m)) e s | _ => x end.
Definition f_of_d (x : double) : float :=
  match x with S754_finite s m e => binary_normalize 24 128 (cond_Zopp s (Zpos m)) e s | _ => x end.

(** A decimal literal [p / q]: one correctly rounded division. *)
Definition f_lit (p q : Z) : float := f_div (f_of_Z p) (f_of_Z q).

(** A decimal literal [p / q] of any length, correctly rounded from its exact value. *)
Definition dec (prec emax p q : Z) : spec_float :=
  match p, q with
  | Zpos a, Zpos b => SFdiv prec emax (S754_finite false a 0) (S754_finite false b 0)
  | Zneg a, Zpos b => SFdiv prec emax (S754_finite true a 0) (S754_finite false b 0)
  | _, _ => S754_zero false
  end.
Definition f_dec (p q : Z) : float := dec 24 128 p q.
Definition d_dec (p q : Z) : double := dec 53 1024 p q.

Definition f_zero : float := S754_zero false.
Definition f_one : float := Eval vm_compute in f_of_Z 1.
Definition f_half : float := Eval vm_compute in f_lit 1 2.
Definition f_inf : float := S754_infinity false.

(** Truncation toward zero, [static_cast] to an integer; undefined in C++ for
    a NaN, an infinity or a value outside the integer type: [None]. *)
Definition f_trunc (x : float) : option Z :=
  match x with
  | S754_zero _ => Some 0
  | S754_finite s m e => Some (cond_Zopp s (if 0 <=? e then Zpos m * 2 ^ e else Zpos m / 2 ^ (- e)))
  | _ => None
  end.
(** The conversion to an integer type with the given range. *)
Definition f_to_int (lo hi : Z) (x : float) : option Z :=
  match f_trunc x with Some z => if (lo <=? z) && (z <=? hi) then Some z else None | None => None end.
Definition f_to_i64 : float -> option Z := f_to_int (- 2 ^ 63) (2 ^ 63 - 1).
Definition f_to_u64 : float -> option Z := f_to_int 0 (2 ^ 64 - 1).
(** The truncation of a value the code has clamped: never [None] there. *)
Definition f_to_Z (x : float) : Z := default 0 (f_trunc x).

(** ** Comparisons *)
Definition f_ltb : float -> float -> bool := SFltb.
Definition f_leb : float -> float -> bool := SFleb.
Definition f_eqb : float -> float -> bool := SFeqb.
Abbreviation f_gtb x y := (f_ltb y x).
Abbreviation f_geb x y := (f_leb y x).
Definition is_nan (x : float) : bool := match x with S754_nan => true | _ => false end.
Definition is_finite (x : float) : bool :=
  match x with S754_zero _ | S754_finite _ _ _ => true | _ => false end.

(** [std::min], [std::max], [std::clamp] and the functions of units.hpp. *)
Definition std_min (a b : float) : float := if f_ltb b a then b else a.
Definition std_max (a b : float) : float := if f_ltb a b then b else a.
Definition std_clamp (v lo hi : float) : float :=
  if f_ltb v lo then lo else if f_ltb hi v then hi else v.
Definition Abs (x : float) : float := if f_ltb x f_zero then f_neg x else x.
Definition Min (lhs rhs : float) : float := if f_ltb rhs lhs then rhs else lhs.
Definition Max (lhs rhs : float) : float := if f_ltb lhs rhs then rhs else lhs.
Definition Clamp (val min_val max_val : float) : float := std_min (std_max val min_val) max_val.
Definition IsFinite (x : float) : bool := is_finite x.
Definition Hypot (first second : float) : float :=
  f_sqrt (f_add (f_mul first first) (f_mul second second)).

(** [std::numbers::pi_v]. *)
Definition d_pi : double := S754_finite false 7074237752028440 (-51).
Definition f_pi : float := S754_finite false 13176795 (-22).
Definition f_two_pi : float := Eval vm_compute in f_mul (f_of_Z 2) f_pi.

(** ** The order of the floats *)
Lemma pos_compare_cont_eq m n : Pos.compare_cont Eq m n = Pos.compare m n.
Proof. reflexivity. Qed.

Lemma SFcompare_swap x y : SFcompare y x = option_map CompOpp (SFcompare x y).
Proof.
  destruct x as [s|s| |s m e], y as [s'|s'| |s' m' e']; cbn; try destruct s; try destruct s'; try done;
    rewrite (Z.compare_antisym e e'); destruct (e ?= e'); cbn; try done;
    rewrite ?pos_compare_cont_eq, (Pos.compare_antisym m m'), ?CompOpp_involutive; done.
Qed.

Lemma SFcompare_None x y : SFcompare x y = None <-> is_nan x = true \/ is_nan y = true.
Proof.
  destruct x as [s|s| |s m e], y as [s'|s'| |s' m' e']; cbn; split; intros H; try done; intuition done.
Qed.

(** The key of a non-NaN float: the comparison is the lexicographic order of
    the keys. *)
Definition float_key (x : float) : Z * Z * Z :=
  match x with
  | S754_infinity true => (-2, 0, 0)
  | S754_finite true m e => (-1, - e, - Zpos m)
  | S754_zero _ | S754_nan => (0, 0, 0)
  | S754_finite false m e => (1, e, Zpos m)
  | S754_infinity false => (2, 0, 0)
  end.
Definition key_lt (k l : Z * Z * Z) : Prop :=
  let '(a, b, c) := k in let '(a', b', c') := l in
  a < a' \/ a = a' /\ (b < b' \/ b = b' /\ c < c').

Lemma SFcompare_key x y :
  is_nan x = false -> is_nan y = false ->
  match SFcompare x y with
  | Some Lt => key_lt (float_key x) (float_key y)
  | Some Eq => float_key x = float_key y
  | Some Gt => key_lt (float_key y) (float_key x)
  | None => False
  end.
Proof.
  destruct x as [s|s| |s m e], y as [s'|s'| |s' m' e']; intros Hx Hy; try done;
    try destruct s; try destruct s'; cbn; try lia; try done;
    destruct (Z.compare_spec e e'); cbn; try lia;
    rewrite pos_compare_cont_eq; destruct (Pos.compare_spec m m'); cbn; try lia; subst; done.
Qed.

Lemma f_ltb_key x y : is_nan x = false -> is_nan y = false ->
  f_ltb x y = true <-> key_lt (float_key x) (float_key y).
Proof.
  intros Hx Hy; pose proof (SFcompare_key x y Hx Hy) as H. unfold f_ltb, SFltb.
  destruct (float_key x) as [[a b] c], (float_key y) as [[a' b'] c']; cbn in *.
  destruct (SFcompare x y) as [[]|]; [|split..|]; try done; try lia. injection H; split; [done|lia].
Qed.

Lemma f_leb_key x y : is_nan x = false -> is_nan y = false ->
  f_leb x y = true <-> ~ key_lt (float_key y) (float_key x).
Proof.
  intros Hx Hy; pose proof (SFcompare_key x y Hx Hy) as H. unfold f_leb, SFleb.
  destruct (float_key x) as [[a b] c], (float_key y) as [[a' b'] c']; cbn in *.
  destruct (SFcompare x y) as [[]|]; [injection H|..]; split; try done; lia.
Qed.

Lemma f_ltb_not_nan x y : f_ltb x y = true -> is_nan x = false /\ is_nan y = false.
Proof. destruct x, y; done. Qed.
Lemma f_leb_not_nan x y : f_leb x y = true -> is_nan x = false /\ is_nan y = false.
Proof. destruct x, y; done. Qed.

(** [float_order] proves a goal about [f_ltb] and [f_leb] from hypotheses of
    the same kind, for non-NaN operands. *)
Ltac float_facts :=
  repeat match goal with
    | H : f_ltb ?x ?y = true |- _ =>
        lazymatch goal with
        | _ : is_nan x = false, _ : is_nan y = false |- _ => fail
        | _ => destruct (f_ltb_not_nan x y H)
        end
    | H : f_leb ?x ?y = true |- _ =>
        lazymatch goal with
        | _ : is_nan x = false, _ : is_nan y = false |- _ => fail
        | _ => destruct (f_leb_not_nan x y H)
        end
    end.
Ltac float_order :=
  float_facts;
  repeat match goal with
    | H : f_ltb _ _ = false |- _ => apply not_true_iff_false in H
    | H : f_leb _ _ = false |- _ => apply not_true_iff_false in H
    end;
  try apply not_true_iff_false;
  repeat match goal with
    | H : context [f_ltb ?x ?y = true] |- _ => rewrite (f_ltb_key x y) in H by done
    | H : context [f_leb ?x ?y = true] |- _ => rewrite (f_leb_key x y) in H by done
    | |- context [f_ltb ?x ?y = true] => rewrite (f_ltb_key x y) by done
    | |- context [f_leb ?x ?y = true] => rewrite (f_leb_key x y) by done
    end;
  repeat match goal with
    | |- context [float_key ?x] => destruct (float_key x) as [[? ?] ?]
    | H : context [float_key ?x] |- _ => destruct (float_key x) as [[? ?] ?]
    end; cbn in *; lia.

Lemma f_leb_refl x : is_nan x = false -> f_leb x x = true.
Proof. intros; float_order. Qed.

Lemma f_leb_trans x y z : f_leb x y = true -> f_leb y z = true -> f_leb x z = true.
Proof. intros; float_order. Qed.

Lemma f_ltb_leb x y : f_ltb x y = true -> f_leb x y = true.
Proof. intros; float_order. Qed.

Lemma f_ltb_ge x y : is_nan x = false -> is_nan y = false -> f_ltb x y = false -> f_leb y x = true.
Proof. intros; float_order. Qed.

Lemma f_ltb_irrefl x : f_ltb x x = false.
Proof. destruct (is_nan x) eqn:E; [by destruct x|]. float_order. Qed.

Lemma is_finite_not_nan x : is_finite x = true -> is_nan x = false.
Proof. by destruct x. Qed.

Create HintDb float.
#[export] Hint Resolve f_leb_refl f_ltb_leb f_ltb_ge is_finite_not_nan : float.

(** A clamp with ordered bounds: inside the bounds unless the value is NaN,
    which passes through. *)
Lemma std_clamp_range v lo hi :
  is_nan v = false -> f_leb lo hi = true ->
  f_leb lo (std_clamp v lo hi) = true /\ f_leb (std_clamp v lo hi) hi = true.
Proof.
  intros Hv Hb; float_facts. unfold std_clamp; repeat case_if; split; auto with float; float_order.
Qed.

Lemma Clamp_range v lo hi :
  is_nan v = false -> f_leb lo hi = true ->
  f_leb lo (Clamp v lo hi) = true /\ f_leb (Clamp v lo hi) hi = true.
Proof.
  intros Hv Hb; float_facts. unfold Clamp, std_min, std_max.
  repeat case_if; split; auto with float; float_order.
Qed.

Lemma Clamp_nan lo hi : Clamp S754_nan lo hi = S754_nan.
Proof. unfold Clamp, std_min, std_max; destruct lo, hi; done. Qed.

(** The truncation of a float between two integers is between them. *)
Lemma f_trunc_nonneg x : f_leb f_zero x = true -> is_finite x = true ->
  exists z, f_trunc x = Some z /\ 0 <= z.
Proof.
  destruct x as [s|s| |[] m e]; intros Hle Hf; try done; cbn; eexists; split; try done.
  case_if; bool_prop; [|apply Z.div_pos; [lia|apply Z.pow_pos_nonneg; lia]].
  pose proof (Z.pow_nonneg 2 e). lia.
Qed.

(** ** The mantissa of a binary32 value has at most 24 bits

    Every operation rounds its result to this format; the bounds of a
    truncation to an integer rest on it. *)
Definition f_ok (x : float) : bool :=
  match x with S754_finite _ m _ => Zpos m <? 2 ^ 24 | _ => true end.

Lemma iter_pos_nat {A} (f : A -> A) p x : SpecFloat.iter_pos f p x = Nat.iter (Pos.to_nat p) f x.
Proof.
  revert x. induction p as [p IH|p IH|]; intros x; cbn [SpecFloat.iter_pos]; rewrite ?IH.
  - rewrite Pos2Nat.inj_xI. replace (S (2 * Pos.to_nat p)) with (Pos.to_nat p + (Pos.to_nat p + 1))%nat by lia.
    by rewrite !Nat.iter_add.
  - rewrite Pos2Nat.inj_xO. replace (2 * Pos.to_nat p)%nat with (Pos.to_nat p + Pos.to_nat p)%nat by lia.
    by rewrite Nat.iter_add.
  - done.
Qed.

Lemma shr_1_m r : 0 <= shr_m r -> shr_m (shr_1 r) = shr_m r / 2.
Proof.
  destruct r as [[|[p|p|]|p] b s]; cbn; intros H; try lia; try done.
  - rewrite (Pos2Z.inj_xI p). replace (2 * Zpos p + 1) with (1 + Zpos p * 2) by lia.
    by rewrite Z.div_add.
  - rewrite (Pos2Z.inj_xO p), Z.mul_comm, Z.div_mul; done.
Qed.

Lemma shr_iter_m n r : 0 <= shr_m r ->
  shr_m (Nat.iter n shr_1 r) = shr_m r / 2 ^ Z.of_nat n /\ 0 <= shr_m (Nat.iter n shr_1 r).
Proof.
  intros Hr. induction n as [|n [IH IH']]; [cbn; by rewrite Z.div_1_r|].
  rewrite Nat.iter_succ. rewrite shr_1_m, IH by done. split; [|apply Z.div_pos; lia].
  rewrite Zdiv.Zdiv_Zdiv by lia. f_equal. rewrite Nat2Z.inj_succ, Z.pow_succ_r by lia. lia.
Qed.

Lemma digits2_bound p : Zpos p < 2 ^ Zpos (digits2_pos p).
Proof.
  induction p as [p IH|p IH|]; cbn [digits2_pos]; rewrite ?Pos2Z.inj_succ, ?Z.pow_succ_r by lia; lia.
Qed.

(** After the alignment to the format the mantissa has at most [prec] bits. *)
Lemma shr_fexp_bound prec emax m e l :
  0 < prec -> 0 <= m -> 0 <= shr_m (fst (shr_fexp prec emax m e l)) < 2 ^ prec.
Proof.
  intros Hp Hm. unfold shr_fexp.
  set (n := fexp prec emax (Zdigits2 m + e) - e).
  assert (Hn : Zdigits2 m - prec <= n) by (unfold n, fexp; lia).
  assert (Hsm : shr_m (shr_record_of_loc m l) = m) by (by destruct l as [|[]]).
  assert (Hd : m < 2 ^ Z.max 0 (Zdigits2 m) \/ m = 0).
  { destruct m as [|p|p]; [auto|left|lia]. cbn. apply digits2_bound. }
  assert (Hd0 : 0 <= Zdigits2 m) by (destruct m; cbn; lia).
  unfold shr. destruct n as [|p|p] eqn:En; cbn [fst]; rewrite ?Hsm.
  - split; [done|]. destruct Hd as [Hd| ->]; [|by apply Z.pow_pos_nonneg; lia].
    eapply Z.lt_le_trans; [exact Hd|]. apply Z.pow_le_mono_r; lia.
  - rewrite iter_pos_nat. destruct (shr_iter_m (Pos.to_nat p) (shr_record_of_loc m l)) as [-> H0]; [by rewrite Hsm|].
    rewrite Hsm, positive_nat_Z in *. split; [apply Z.div_pos; [done|by apply Z.pow_pos_nonneg]|].
    apply Z.div_lt_upper_bound; [by apply Z.pow_pos_nonneg|]. rewrite <- Z.pow_add_r by lia.
    destruct Hd as [Hd| ->]; [|apply Z.pow_pos_nonneg; lia].
    eapply Z.lt_le_trans; [exact Hd|]. apply Z.pow_le_mono_r; lia.
  - split; [done|]. destruct Hd as [Hd| ->]; [|by apply Z.pow_pos_nonneg; lia].
    eapply Z.lt_le_trans; [exact Hd|]. apply Z.pow_le_mono_r; lia.
Qed.

Lemma round_nearest_even_nonneg m l : 0 <= m -> 0 <= round_nearest_even m l.
Proof. intros H. unfold round_nearest_even. destruct l as [|[]]; try case_if; lia. Qed.

Lemma f_ok_round_aux s m e l : 0 <= m -> f_ok (binary_round_aux 24 128 s m e l) = true.
Proof.
  intros Hm. unfold binary_round_aux.
  pose proof (shr_fexp_bound 24 128 m e l ltac:(done) Hm) as H1.
  destruct (shr_fexp 24 128 m e l) as [r1 e1]; cbn [fst] in H1.
  pose proof (shr_fexp_bound 24 128 (round_nearest_even (shr_m r1) (loc_of_shr_record r1)) e1 loc_Exact
    ltac:(done) (round_nearest_even_nonneg _ _ (proj1 H1))) as H2.
  destruct (shr_fexp _ _ (round_nearest_even _ _) e1 loc_Exact) as [r2 e2]; cbn [fst] in H2.
  destruct (shr_m r2) as [|p|p]; try done. case_if; [|done]. apply Z.ltb_lt. lia.
Qed.

Lemma f_ok_normalize m e z : f_ok (binary_normalize 24 128 m e z) = true.
Proof.
  destruct m as [|p|p]; cbn [binary_normalize]; [done|..];
    unfold binary_round; destruct (shl_align _ _ _); apply f_ok_round_aux; lia.
Qed.

Lemma f_ok_of_Z z : f_ok (f_of_Z z) = true.
Proof. apply f_ok_normalize. Qed.

Lemma f_ok_add x y : f_ok x = true -> f_ok y = true -> f_ok (f_add x y) = true.
Proof.
  destruct x as [[]|[]| |s m e], y as [[]|[]| |s' m' e']; intros Hx Hy; try done; apply f_ok_normalize.
Qed.

Lemma f_ok_sub x y : f_ok x = true -> f_ok y = true -> f_ok (f_sub x y) = true.
Proof.
  destruct x as [[]|[]| |s m e], y as [[]|[]| |s' m' e']; intros Hx Hy; try done; apply f_ok_normalize.
Qed.

Lemma f_ok_mul x y : f_ok (f_mul x y) = true.
Proof. destruct x, y; try done. apply f_ok_round_aux. lia. Qed.

Lemma f_ok_div x y : f_ok (f_div x y) = true.
Proof.
  destruct x as [| | |s m e], y as [| | |s' m' e']; try done. unfold f_div, SFdiv.
  unfold SFdiv_core_binary.
  match goal with |- context [Z.div_eucl ?a ?b] => pose proof (Z.div_pos a b) as Hq; unfold Z.div in Hq;
    destruct (Z.div_eucl a b) as [q r] end.
  apply f_ok_round_aux. apply Hq; [|lia].
  destruct (e - e' - _); try lia. apply Z.shiftl_nonneg. lia.
Qed.

Lemma f_ok_neg x : f_ok (f_neg x) = f_ok x.
Proof. by destruct x. Qed.

#[export] Hint Resolve f_ok_of_Z f_ok_add f_ok_sub f_ok_mul f_ok_div : float.

(** A value at most a binade-exact bound truncates to at most the bound. *)
Lemma f_trunc_le x s m e n :
  f_ok x = true -> f_leb f_zero x = true -> f_leb x (S754_finite s m e) = true ->
  s = false -> e <= 0 -> 2 ^ 23 <= Zpos m -> n = Zpos m / 2 ^ (- e) ->
  exists z, f_trunc x = Some z /\ 0 <= z <= n.
Proof.
  intros Hok H0 Hle -> He Hm ->.
  destruct x as [sx|sx| |[] mx ex]; try done.
  - exists 0; split; [done|]. split; [lia|]. apply Z.div_pos; [lia|]. apply Z.pow_pos_nonneg; lia.
  - destruct sx; done.
  - cbn in Hok; apply Z.ltb_lt in Hok.
    assert (Hc : ex < e \/ ex = e /\ Zpos mx <= Zpos m).
    { unfold f_leb, SFleb in Hle. cbn in Hle. rewrite pos_compare_cont_eq in Hle.
      destruct (Z.compare_spec ex e); try done; [|lia].
      destruct (Pos.compare_spec mx m); try done; lia. }
    cbn [f_trunc cond_Zopp]. eexists; split; [done|]. case_if; bool_prop.
    + assert (ex = 0 /\ e = 0) as [-> ->] by lia. cbn [Z.opp]. rewrite Z.pow_0_r, Z.div_1_r. lia.
    + split; [apply Z.div_pos; [lia|by apply Z.pow_pos_nonneg; lia]|].
      destruct Hc as [Hlt|[-> Hm']]; [|apply Z.div_le_mono; [apply Z.pow_pos_nonneg; lia|lia]].
      transitivity (Zpos mx / (2 * 2 ^ (- e))).
      * apply Z.div_le_compat_l; [lia|]. rewrite <- Z.pow_succ_r by lia.
        split; [apply Z.pow_pos_nonneg; lia|apply Z.pow_le_mono_r; lia].
      * rewrite <- Zdiv.Zdiv_Zdiv by lia. apply Z.div_le_mono; [apply Z.pow_pos_nonneg; lia|].
        apply Z.div_le_upper_bound; lia.
Qed.

(** ** Bit patterns

    [std::bit_cast] between a float and its 32 bits.  A pattern of a NaN keeps
    no payload as a value, so only the patterns of numbers come back. *)
Definition float_of_bits (bits : Z) : float :=
  let s := Z.testbit bits 31 in
  let e := (bits / 2 ^ 23) mod 2 ^ 8 in
  let m := bits mod 2 ^ 23 in
  if e =? 0 then match m with Zpos p => S754_finite s p (-149) | _ => S754_zero s end
  else if e =? 255 then (if m =? 0 then S754_infinity s else S754_nan)
  else match 2 ^ 23 + m with Zpos p => S754_finite s p (e - 150) | _ => S754_nan end.
Definition bits_of_float (x : float) : Z :=
  let sign (s : bool) := if s then 2 ^ 31 else 0 in
  match x with
  | S754_zero s => sign s
  | S754_infinity s => sign s + 255 * 2 ^ 23
  | S754_nan => 0x7FC00000
  | S754_finite s m e =>
      sign s + (if Zpos m <? 2 ^ 23 then Zpos m else (e + 150) * 2 ^ 23 + (Zpos m - 2 ^ 23))
  end.

Lemma bits_fields (s : bool) e m : 0 <= e < 256 -> 0 <= m < 2 ^ 23 ->
  let b := (if s then 2 ^ 31 else 0) + (e * 2 ^ 23 + m) in
  Z.testbit b 31 = s /\ (b / 2 ^ 23) mod 2 ^ 8 = e /\ b mod 2 ^ 23 = m.
Proof.
  intros He Hm b. assert (b = (if s then 256 else 0) * 2 ^ 23 + e * 2 ^ 23 + m) as Hb by (subst b; destruct s; lia).
  assert (b / 2 ^ 23 = (if s then 256 else 0) + e) as Hd.
  { rewrite Hb. rewrite <- Z.mul_add_distr_r. rewrite Z.div_add_l by lia. rewrite (Z.div_small m) by lia. lia. }
  assert (b mod 2 ^ 23 = m) as Hmod.
  { rewrite Hb. rewrite <- Z.mul_add_distr_r, Z.add_comm, Z.mod_add by lia. apply Z.mod_small. lia. }
  split; [|split; [|exact Hmod]].
  - rewrite Z.testbit_eqb by lia. replace (2 ^ 31) with (2 ^ 23 * 256) by lia.
    rewrite <- Z.div_div, Hd by lia. destruct s.
    + replace (256 + e) with (e + 1 * 256) by lia. rewrite Z.div_add, (Z.div_small e) by lia. done.
    + rewrite Z.add_0_l, (Z.div_small e) by lia. done.
  - rewrite Hd. destruct s; [replace (256 + e) with (e + 1 * 2 ^ 8) by lia; rewrite Z.mod_add by lia|];
      apply Z.mod_small; lia.
Qed.

(** A float the format can hold: what [bits_of_float] is made for. *)
Definition f_valid (x : float) : bool :=
  match x with
  | S754_finite _ m e =>
      (Zpos m <? 2 ^ 24) && (-149 <=? e) && (e <=? 104) && ((2 ^ 23 <=? Zpos m) || (e =? -149))
  | _ => true
  end.

Lemma float_of_bits_of_float x : f_valid x = true -> float_of_bits (bits_of_float x) = x.
Proof.
  destruct x as [s|s| |s m e]; intros V.
  - by destruct s.
  - by destruct s.
  - done.
  - cbn [f_valid] in V. bool_prop. cbn [bits_of_float].
    destruct (Zpos m <? 2 ^ 23) eqn:E; bool_prop.
    + destruct (bits_fields s 0 (Zpos m)) as (B1 & B2 & B3); [lia|lia|].
      rewrite Z.mul_0_l, Z.add_0_l in B1, B2, B3. unfold float_of_bits. rewrite B1, B2, B3. cbn.
      f_equal. destruct H0; bool_prop; lia.
    + destruct (bits_fields s (e + 150) (Zpos m - 2 ^ 23)) as (B1 & B2 & B3); [lia|lia|].
      unfold float_of_bits. rewrite B1, B2, B3. rewrite (proj2 (Z.eqb_neq _ _)) by lia.
      rewrite (proj2 (Z.eqb_neq _ _)) by lia. replace (2 ^ 23 + (Zpos m - 2 ^ 23)) with (Zpos m) by lia.
      f_equal. lia.
Qed.

(** The patterns of finite numbers come back. *)
Lemma bits_of_float_of_bits b : 0 <= b < 2 ^ 32 -> is_finite (float_of_bits b) = true -> bits_of_float (float_of_bits b) = b.
Proof.
  intros Hb. unfold float_of_bits.
  pose proof (Z.div_mod b (2 ^ 23) ltac:(lia)) as E1. pose proof (Z.div_mod (b / 2 ^ 23) (2 ^ 8) ltac:(lia)) as E2.
  pose proof (Z.mod_pos_bound b (2 ^ 23) ltac:(lia)) as Hm. pose proof (Z.mod_pos_bound (b / 2 ^ 23) (2 ^ 8) ltac:(lia)) as He.
  assert (b / 2 ^ 23 / 2 ^ 8 = if Z.testbit b 31 then 1 else 0) as Es.
  { rewrite Z.testbit_eqb, Z.div_div by lia. change (2 ^ 23 * 2 ^ 8) with (2 ^ 31).
    assert (0 <= b / 2 ^ 31 < 2) as D by (split; [apply Z.div_pos; lia|apply Z.div_lt_upper_bound; lia]).
    destruct (Z.eqb_spec ((b / 2 ^ 31) mod 2) 1) as [M|M]; rewrite Z.mod_small in M by lia; lia. }
  set (m := b mod 2 ^ 23) in *. set (e := (b / 2 ^ 23) mod 2 ^ 8) in *. destruct (Z.testbit b 31) eqn:S;
    (destruct (Z.eqb_spec e 0) as [E0|E0];
      [destruct m as [|q|q] eqn:M; cbn [bits_of_float is_finite]; [lia|rewrite (proj2 (Z.ltb_lt _ _)) by lia; lia|lia]|];
     destruct (Z.eqb_spec e 255) as [E5|E5]; [destruct (m =? 0); done|];
     destruct (2 ^ 23 + m) as [|q|q] eqn:M; [lia| |lia]; intros _; cbn [bits_of_float];
     rewrite (proj2 (Z.ltb_ge _ _)) by lia; lia).
Qed.

(** ** Integers up to 24 bits are exact and ordered *)
Abbreviation digits p := (Zpos (digits2_pos p)).
Lemma digits2_lower p : 2 ^ (digits p - 1) <= Zpos p.
Proof.
  induction p as [p IH|p IH|]; cbn [digits2_pos]; [| |done];
    rewrite Pos2Z.inj_succ; replace (Z.succ (digits p) - 1) with (Z.succ (digits p - 1)) by lia;
    rewrite Z.pow_succ_r by lia; lia.
Qed.
Lemma digits2_unique p k : 0 <= k -> 2 ^ (k - 1) <= Zpos p < 2 ^ k -> digits p = k.
Proof.
  intros Hk [H1 H2]. pose proof (digits2_bound p) as H3. pose proof (digits2_lower p) as H4.
  destruct (Z_lt_ge_dec (digits p) k); [|destruct (Z_lt_ge_dec k (digits p)); [|lia]].
  - pose proof (Z.pow_le_mono_r 2 (digits p) (k - 1)). lia.
  - pose proof (Z.pow_le_mono_r 2 k (digits p - 1)). lia.
Qed.

Lemma shr_fexp_exact m e : digits m = 24 -> -149 <= e ->
  shr_fexp 24 128 (Zpos m) e loc_Exact = ({| shr_m := Zpos m; shr_r := false; shr_s := false |}, e).
Proof.
  intros Hd He. unfold shr_fexp. cbn [Zdigits2]. rewrite Hd. unfold fexp, emin.
  replace (Z.max (24 + e - 24) (3 - 128 - 24) - e) with 0 by lia. reflexivity.
Qed.

Lemma Pos_iter_xO p n : Zpos (Pos.iter xO p n) = Zpos p * 2 ^ Zpos n.
Proof.
  induction n as [|n IH] using Pos.peano_ind; [cbn; lia|].
  rewrite Pos.iter_succ, Pos2Z.inj_xO, IH, Pos2Z.inj_succ, Z.pow_succ_r by lia. lia.
Qed.

Lemma f_of_Z_exact p : Zpos p < 2 ^ 24 ->
  exists m, f_of_Z (Zpos p) = S754_finite false m (digits p - 24) /\ Zpos m = Zpos p * 2 ^ (24 - digits p).
Proof.
  intros Hp. pose proof (digits2_lower p) as L. pose proof (digits2_bound p) as U.
  assert (digits p <= 24) as Hd.
  { destruct (Z_lt_ge_dec 24 (digits p)); [|lia]. pose proof (Z.pow_le_mono_r 2 24 (digits p - 1)). lia. }
  assert (exists m, shl_align p 0 (fexp 24 128 (digits p + 0)) = (m, digits p - 24) /\
    Zpos m = Zpos p * 2 ^ (24 - digits p)) as (m & Hs & Hm).
  { unfold shl_align, fexp, emin. replace (Z.max (digits p + 0 - 24) (3 - 128 - 24) - 0) with (digits p - 24) by lia.
    destruct (digits p - 24) as [|q|q] eqn:E; [exists p|lia|exists (Pos.iter xO p q)].
    - replace (24 - digits p) with 0 by lia. rewrite Z.mul_1_r. done.
    - rewrite Pos_iter_xO. replace (24 - digits p) with (Zpos q) by lia. split; [f_equal; lia|done]. }
  exists m. split; [|done]. unfold f_of_Z, binary_normalize, binary_round. rewrite Hs.
  assert (digits m = 24) as Hdm.
  { apply digits2_unique; [lia|]. rewrite Hm. replace (2 ^ (24 - 1)) with (2 ^ (digits p - 1) * 2 ^ (24 - digits p)).
    2: { rewrite <- Z.pow_add_r by lia. f_equal. lia. }
    replace (2 ^ 24) with (2 ^ digits p * 2 ^ (24 - digits p)).
    2: { rewrite <- Z.pow_add_r by lia. f_equal. lia. }
    pose proof (Z.pow_pos_nonneg 2 (24 - digits p)). nia. }
  unfold binary_round_aux. rewrite shr_fexp_exact by lia. cbn [shr_m loc_of_shr_record round_nearest_even].
  rewrite shr_fexp_exact by lia. cbn [shr_m]. rewrite (proj2 (Z.leb_le _ _)) by lia. done.
Qed.

Lemma f_of_Z_le a b : 0 <= a -> a <= b -> b < 2 ^ 24 -> f_leb (f_of_Z a) (f_of_Z b) = true.
Proof.
  intros Ha Hab Hb. destruct a as [|p|p]; [|destruct b as [|q|q]; [lia| |lia]|lia].
  - destruct b as [|q|q]; [done| |lia]. destruct (f_of_Z_exact q) as (m & -> & _); [lia|done].
  - destruct (f_of_Z_exact p) as (m & -> & Hm); [lia|]. destruct (f_of_Z_exact q) as (n & -> & Hn); [lia|].
    apply f_leb_key; [done|done|]. cbn. pose proof (digits2_lower q) as L. pose proof (digits2_bound p) as U.
    pose proof (digits2_lower p). pose proof (digits2_bound q).
    intros [?|[_ [H1|[H1 H2]]]]; [lia| |].
    + pose proof (Z.pow_le_mono_r 2 (digits q) (digits p - 1)). lia.
    + replace (digits q) with (digits p) in * by lia. nia.
Qed.
