(* ===== verification/FloatRound.v ===== *)
(** * Rounding of binary32 arithmetic

    Round to nearest even never crosses a value the format can hold: what is
    exactly at most (at least) such a value is still at most (at least) it
    after the rounding.  The bounds on products, quotients and sums that the
    components rely on follow from that. *)
From Stdlib Require Import ZArith Lia Bool SpecFloat.
From stdpp Require Import base list.
From S2P Require Import Prelude Float32.

#[local] Open Scope Z_scope.

(** ** Mantissa and exponent of the format *)
Definition canon (q e : Z) : Prop := 0 <= q < 2 ^ 24 /\ -149 <= e /\ (2 ^ 23 <= q \/ e = -149).
Definition pack (s : bool) (q e : Z) : float :=
  match q with Zpos p => if e <=? 104 then S754_finite s p e else S754_infinity s | _ => S754_zero s end.
(** What the location of the discarded part may add. *)
Definition loc_up (l : location) : Z := match l with loc_Exact => 0 | loc_Inexact _ => 1 end.

Lemma pow_split a b c : c <= b -> b <= a -> 2 ^ (a - c) = 2 ^ (a - b) * 2 ^ (b - c).
Proof. intros. rewrite <- Z.pow_add_r by lia. f_equal. lia. Qed.

Lemma Zdigits2_bounds m : 0 < m -> 2 ^ (Zdigits2 m - 1) <= m < 2 ^ Zdigits2 m /\ 0 < Zdigits2 m.
Proof.
  destruct m as [|p|p]; intros H; try lia. cbn [Zdigits2].
  split; [split; [apply digits2_lower|apply digits2_bound]|lia].
Qed.
Lemma Zdigits2_le m n : 0 <= m -> 0 <= n -> m < 2 ^ n -> Zdigits2 m <= n.
Proof.
  intros Hm Hn H. destruct (Z.eq_dec m 0) as [->|N]; [cbn; lia|].
  destruct (Zdigits2_bounds m) as [[L U] P]; [lia|].
  destruct (Z_lt_ge_dec n (Zdigits2 m)); [|lia]. pose proof (Z.pow_le_mono_r 2 n (Zdigits2 m - 1)). lia.
Qed.
Lemma Zdigits2_ge m n : 0 <= n -> 2 ^ n <= m -> n < Zdigits2 m.
Proof.
  intros Hn H. pose proof (Z.pow_pos_nonneg 2 n). destruct (Zdigits2_bounds m) as [[L U] P]; [lia|].
  destruct (Z_lt_ge_dec n (Zdigits2 m)); [lia|]. pose proof (Z.pow_le_mono_r 2 (Zdigits2 m) n). lia.
Qed.

(** The order of the canonical pairs is that of the values. *)
Lemma canon_order q e r f K :
  canon q e -> canon r f -> K <= e -> K <= f ->
  q * 2 ^ (e - K) <= r * 2 ^ (f - K) -> q = 0 \/ e < f \/ e = f /\ q <= r.
Proof.
  intros (Hq & He & Cq) (Hr & Hf & Cr) HKe HKf H.
  destruct (Z.lt_trichotomy e f) as [L|[->|G]]; [auto|right; right; split; [done|]|].
  - pose proof (Z.pow_pos_nonneg 2 (f - K)). nia.
  - left. rewrite (pow_split e f K) in H by lia. pose proof (Z.pow_pos_nonneg 2 (f - K)).
    pose proof (Z.pow_le_mono_r 2 1 (e - f)). change (2 ^ 1) with 2 in *.
    destruct Cq as [Cq|Cq]; [|lia]. exfalso.
    assert (2 ^ 23 * 2 <= q * 2 ^ (e - f)) by nia. change (2 ^ 24) with (2 ^ 23 * 2) in *. nia.
Qed.

(** The first alignment: a shift by [n] with the discarded part in the location. *)
Lemma shr_location n r : 0 <= shr_m r ->
  loc_of_shr_record r = loc_Exact -> shr_m r = shr_m r / 2 ^ Z.of_nat n * 2 ^ Z.of_nat n ->
  loc_of_shr_record (Nat.iter n shr_1 r) = loc_Exact.
Proof.
  intros Hr Hl. induction n as [|n IH]; [done|]. intros Hm. rewrite Nat.iter_succ.
  assert (2 ^ Z.of_nat (S n) = 2 ^ Z.of_nat n * 2) as E by (rewrite Nat2Z.inj_succ, Z.pow_succ_r by lia; lia).
  pose proof (Z.pow_pos_nonneg 2 (Z.of_nat n)). set (k := shr_m r / 2 ^ Z.of_nat (S n)) in *.
  assert (shr_m r / 2 ^ Z.of_nat n = k * 2) as Hd.
  { rewrite Hm, E. replace (k * (2 ^ Z.of_nat n * 2)) with (k * 2 * 2 ^ Z.of_nat n) by lia. apply Z.div_mul. lia. }
  rewrite Hd in IH. specialize (IH ltac:(lia)).
  destruct (shr_iter_m n r Hr) as [H1 H2]. rewrite Hd in H1.
  destruct (Nat.iter n shr_1 r) as [m b s]. cbn [shr_m] in *. destruct b, s; try done.
  destruct m as [|p|p]; [done| |lia]. destruct p as [p|p|]; [lia|done|lia].
Qed.

Lemma shr_fexp_spec m e l :
  0 <= m -> e <= fexp 24 128 (Zdigits2 m + e) ->
  let n := fexp 24 128 (Zdigits2 m + e) - e in
  exists r, shr_fexp 24 128 m e l = (r, e + n) /\ shr_m r = m / 2 ^ n /\
    (l = loc_Exact -> m = m / 2 ^ n * 2 ^ n -> loc_of_shr_record r = loc_Exact).
Proof.
  intros Hm He n. assert (shr_m (shr_record_of_loc m l) = m) as Hsm by (by destruct l as [|[]]).
  unfold shr_fexp. fold n. unfold shr. destruct n as [|p|p] eqn:En; [| |lia].
  - exists (shr_record_of_loc m l). rewrite Z.div_1_r, Z.add_0_r. split; [done|]. split; [done|]. by intros ->.
  - exists (SpecFloat.iter_pos shr_1 p (shr_record_of_loc m l)). split; [done|]. rewrite iter_pos_nat.
    destruct (shr_iter_m (Pos.to_nat p) (shr_record_of_loc m l)) as [H1 _]; [by rewrite Hsm|].
    rewrite H1, Hsm, positive_nat_Z. split; [done|]. intros -> Hx. apply shr_location; [done|done|].
    cbn [shr_record_of_loc shr_m]. by rewrite positive_nat_Z.
Qed.

(** The second alignment only renormalises a carry. *)
Lemma shr_fexp_carry q e :
  0 <= q <= 2 ^ 24 -> -149 <= e -> 2 ^ 23 <= q \/ e = -149 ->
  exists r f, shr_fexp 24 128 q e loc_Exact = (r, f) /\ canon (shr_m r) f /\
    forall K, K <= e -> shr_m r * 2 ^ (f - K) = q * 2 ^ (e - K) /\ K <= f.
Proof.
  intros Hq He C. destruct (Z.eq_dec q (2 ^ 24)) as [->|N].
  - assert (Zdigits2 (2 ^ 24) = 25) as D by reflexivity.
    assert (fexp 24 128 (25 + e) = e + 1) as F by (unfold fexp, emin; lia).
    destruct (shr_fexp_spec (2 ^ 24) e loc_Exact) as (r & E & M & _); [lia|rewrite D, F; lia|].
    rewrite D, F in *. replace (e + 1 - e) with 1 in * by lia. exists r, (e + 1). split; [done|].
    rewrite M. change (2 ^ 24 / 2 ^ 1) with (2 ^ 23). split; [unfold canon; lia|]. intros K HK. split; [|lia].
    rewrite (pow_split (e + 1) e K) by lia. replace (e + 1 - e) with 1 by lia. lia.
  - assert (Zdigits2 q <= 24) as D by (apply Zdigits2_le; lia).
    assert (fexp 24 128 (Zdigits2 q + e) = e) as F.
    { unfold fexp, emin. destruct C as [C| ->]; [|lia]. pose proof (Zdigits2_ge q 23 ltac:(lia) C). lia. }
    destruct (shr_fexp_spec q e loc_Exact) as (r & E & M & _); [lia|lia|].
    rewrite F in *. rewrite Z.sub_diag in *. exists r, e. rewrite E, Z.add_0_r. split; [done|].
    rewrite M, Z.div_1_r. split; [unfold canon; lia|]. intros K HK. done.
Qed.

Lemma round_nearest_even_range q l : q <= round_nearest_even q l <= q + loc_up l.
Proof. unfold round_nearest_even, loc_up. destruct l as [|[]]; try case_if; lia. Qed.

(** Rounding does not cross a value of the format. *)
Lemma round_aux_spec s m e l :
  0 <= m -> e <= fexp 24 128 (Zdigits2 m + e) ->
  exists q f, binary_round_aux 24 128 s m e l = pack s q f /\ canon q f /\
    forall mx ex K, canon mx ex -> K <= e -> K <= -149 ->
      ((m + loc_up l) * 2 ^ (e - K) <= mx * 2 ^ (ex - K) -> q * 2 ^ (f - K) <= mx * 2 ^ (ex - K)) /\
      (mx * 2 ^ (ex - K) <= m * 2 ^ (e - K) -> mx * 2 ^ (ex - K) <= q * 2 ^ (f - K)).
Proof.
  intros Hm He. set (d := Zdigits2 m) in *. set (n := fexp 24 128 (d + e) - e) in *.
  destruct (shr_fexp_spec m e l Hm He) as (r & E & M & X). fold d n in E, M, X.
  pose proof (shr_fexp_bound 24 128 m e l ltac:(lia) Hm) as B. rewrite E in B. cbn [fst] in B.
  set (q1 := round_nearest_even (shr_m r) (loc_of_shr_record r)).
  pose proof (round_nearest_even_range (shr_m r) (loc_of_shr_record r)) as R. fold q1 in R.
  assert (-149 <= e + n) as Hen by (unfold n, fexp, emin; lia).
  assert (0 <= n) as Hn by (unfold n; lia).
  assert (2 ^ 23 <= shr_m r \/ e + n = -149) as Cn.
  { destruct (Z.eq_dec (e + n) (-149)) as [->|N]; [by right|left].
    assert (e + n = d + e - 24) as En by (unfold n, fexp, emin in *; lia).
    assert (0 < m) as Hm0.
    { destruct (Z.eq_dec m 0) as [Z0|]; [|lia]. assert (d = 0) by (unfold d; by rewrite Z0). lia. }
    destruct (Zdigits2_bounds m Hm0) as [[L U] P]. fold d in L, U, P. rewrite M.
    apply Z.div_le_lower_bound; [apply Z.pow_pos_nonneg; lia|]. rewrite <- Z.pow_add_r by lia.
    replace (n + 23) with (d - 1) by lia. exact L. }
  assert (loc_up (loc_of_shr_record r) <= 1) as Hu by (destruct (loc_of_shr_record r); cbn; lia).
  destruct (shr_fexp_carry q1 (e + n)) as (r2 & f & E2 & C2 & V2); [lia|done|lia|].
  exists (shr_m r2), f. split; [|split; [exact C2|]].
  { unfold binary_round_aux. rewrite E. fold q1. rewrite E2. destruct C2 as [Q _]. unfold pack.
    destruct (shr_m r2) as [|p|p]; [done|done|lia]. }
  intros mx ex K Cx HKe HK. destruct (V2 K ltac:(lia)) as [-> _].
  pose proof (Z.pow_pos_nonneg 2 n ltac:(lia) ltac:(lia)) as Pn.
  pose proof (Z.pow_pos_nonneg 2 (e - K) ltac:(lia) ltac:(lia)) as Pe.
  assert (forall z, z * 2 ^ (e + n - K) = z * 2 ^ n * 2 ^ (e - K)) as Sp.
  { intros z. rewrite (pow_split (e + n) e K) by lia. replace (e + n - e) with n by lia. lia. }
  pose proof (Z.mul_div_le m (2 ^ n) Pn) as F1. pose proof (Z.mul_succ_div_gt m (2 ^ n) Pn) as F2.
  rewrite <- M in F1, F2. destruct Cx as (Hx & Hex & Cx). rewrite Sp.
  destruct (Z_le_gt_dec (e + n) ex) as [Le|Gt].
  - (* the bound is a multiple of the unit of the result *)
    set (x1 := mx * 2 ^ (ex - (e + n))).
    assert (mx * 2 ^ (ex - K) = x1 * 2 ^ n * 2 ^ (e - K)) as Ex.
    { rewrite (pow_split ex (e + n) K) by lia. rewrite Z.mul_assoc. fold x1. by rewrite Sp. }
    rewrite Ex. split; intros H.
    + apply Z.mul_le_mono_pos_r in H; [|done]. apply Z.mul_le_mono_pos_r; [done|]. apply Z.mul_le_mono_pos_r; [done|].
      destruct (Z_lt_ge_dec (shr_m r) x1); [lia|].
      assert (0 <= loc_up l) by (destruct l; cbn; lia).
      assert (shr_m r = x1) as Eq by nia. assert (m = x1 * 2 ^ n /\ loc_up l = 0) as [Em El] by nia.
      assert (l = loc_Exact) as -> by (by destruct l).
      unfold q1. rewrite X; [cbn; lia|done|]. rewrite <- M. lia.
    + apply Z.mul_le_mono_pos_r in H; [|done]. apply Z.mul_le_mono_pos_r; [done|]. apply Z.mul_le_mono_pos_r; [done|].
      assert (x1 <= shr_m r); [|lia]. rewrite M. apply Z.div_le_lower_bound; lia.
  - (* the bound is below the binade of the result *)
    destruct Cn as [Cn|Cn]; [|lia].
    assert (mx * 2 ^ (ex - K) < 2 ^ 23 * 2 ^ n * 2 ^ (e - K)) as Lt.
    { rewrite <- Sp. rewrite (pow_split (e + n) ex K) by lia. rewrite Z.mul_assoc.
      apply Z.mul_lt_mono_pos_r; [apply Z.pow_pos_nonneg; lia|].
      pose proof (Z.pow_le_mono_r 2 1 (e + n - ex)). change (2 ^ 24) with (2 ^ 23 * 2 ^ 1) in Hx. nia. }
    split; intros H; [exfalso|].
    + assert (0 <= loc_up l) by (destruct l; cbn; lia). nia.
    + nia.
Qed.

(** ** The value of a finite float, in units of the smallest subnormal *)
Definition fval (x : float) : Z :=
  match x with
  | S754_finite s m e => (if s then -1 else 1) * (Zpos m * 2 ^ (e + 149))
  | _ => 0
  end.
(** A finite float of the format. *)
Definition fin (x : float) : Prop := is_finite x = true /\ f_valid x = true.

Lemma f_valid_canon s m e : f_valid (S754_finite s m e) = true <-> canon (Zpos m) e /\ e <= 104.
Proof.
  cbn [f_valid]. unfold canon. rewrite !andb_true_iff, orb_true_iff, Z.ltb_lt, !Z.leb_le, Z.eqb_eq. lia.
Qed.
Lemma f_valid_pack s q e : canon q e -> f_valid (pack s q e) = true.
Proof.
  intros C. unfold pack. destruct q as [|p|p]; [done| |done]. case_if; [|done]. bool_prop. by apply f_valid_canon.
Qed.
Lemma fin_not_nan x : fin x -> is_nan x = false.
Proof. intros [H _]. by apply is_finite_not_nan. Qed.
Lemma fin_neg x : fin (f_neg x) <-> fin x.
Proof. unfold fin. by destruct x. Qed.
Lemma fval_neg x : fval (f_neg x) = - fval x.
Proof. destruct x as [| | |[] m e]; cbn; lia. Qed.
Lemma f_neg_neg x : f_neg (f_neg x) = x.
Proof. destruct x; cbn; by rewrite ?negb_involutive. Qed.

Lemma SFcompare_neg x y : SFcompare (f_neg x) (f_neg y) = SFcompare y x.
Proof.
  rewrite (SFcompare_swap x y). destruct x as [[]|[]| |[] m e], y as [[]|[]| |[] m' e']; try done; cbn;
    destruct (e ?= e'); try done; by rewrite ?CompOpp_involutive.
Qed.
Lemma f_leb_neg x y : f_leb (f_neg x) (f_neg y) = f_leb y x.
Proof. unfold f_leb, SFleb. by rewrite SFcompare_neg. Qed.

(** The order of the floats is the order of the values. *)
Lemma f_leb_pos m e n f : canon (Zpos m) e -> canon (Zpos n) f ->
  f_leb (S754_finite false m e) (S754_finite false n f) = true <-> Zpos m * 2 ^ (e + 149) <= Zpos n * 2 ^ (f + 149).
Proof.
  intros Cm Cn. pose proof Cm as (_ & He & _). pose proof Cn as (_ & Hf & _).
  replace (e + 149) with (e - -149) by lia. replace (f + 149) with (f - -149) by lia. split.
  - intros H. destruct (Z_le_gt_dec (Zpos m * 2 ^ (e - -149)) (Zpos n * 2 ^ (f - -149))) as [|G]; [done|exfalso].
    apply Z.gt_lt, Z.lt_le_incl in G as G'. destruct (canon_order _ _ _ _ (-149) Cn Cm Hf He G') as [|[L|[-> L]]]; [lia|..].
    + revert H. unfold f_leb, SFleb. cbn. by rewrite (proj2 (Z.compare_gt_iff e f)).
    + revert H. unfold f_leb, SFleb. cbn. rewrite Z.compare_refl, pos_compare_cont_eq.
      destruct (Pos.compare_spec m n); try done; intros _; subst; lia.
  - intros H. destruct (canon_order _ _ _ _ (-149) Cm Cn He Hf H) as [|[L|[-> L]]]; [lia|..]; unfold f_leb, SFleb; cbn.
    + by rewrite (proj2 (Z.compare_lt_iff e f)).
    + rewrite Z.compare_refl, pos_compare_cont_eq. destruct (Pos.compare_spec m n); try done; lia.
Qed.

Lemma fval_sign (s : bool) m e : -149 <= e -> if s then fval (S754_finite s m e) < 0 else 0 < fval (S754_finite s m e).
Proof. intros. pose proof (Z.pow_pos_nonneg 2 (e + 149)). destruct s; cbn [fval]; nia. Qed.

Lemma f_leb_val x y : fin x -> fin y -> f_leb x y = true <-> fval x <= fval y.
Proof.
  intros [Fx Vx] [Fy Vy].
  destruct x as [sx| | |sx m e]; try done; destruct y as [sy| | |sy n f]; try done.
  - apply f_valid_canon in Vy as [[_ [Hf _]] _]. pose proof (fval_sign sy n f Hf) as S.
    change (fval (S754_zero sx)) with 0. destruct sy; (split; [intros H|intros H]); try lia; by destruct sx.
  - apply f_valid_canon in Vx as [[_ [He _]] _]. pose proof (fval_sign sx m e He) as S.
    change (fval (S754_zero sy)) with 0. destruct sx; (split; [intros H|intros H]); try lia; by destruct sy.
  - apply f_valid_canon in Vx as [Cm Le], Vy as [Cn Lf].
    pose proof (fval_sign sx m e (proj1 (proj2 Cm))) as S1. pose proof (fval_sign sy n f (proj1 (proj2 Cn))) as S2.
    destruct sx, sy.
    + change (S754_finite true m e) with (f_neg (S754_finite false m e)).
      change (S754_finite true n f) with (f_neg (S754_finite false n f)). rewrite f_leb_neg, f_leb_pos by done.
      rewrite !fval_neg. cbn [fval]. lia.
    + split; [lia|done].
    + split; [done|lia].
    + rewrite f_leb_pos by done. cbn [fval]. lia.
Qed.

(** ** Bounds of a rounded value

    [v]: the exact value is between [m] and [m + loc_up l] units of [2 ^ e]. *)
Lemma pack_le q f z : canon q f -> fin z -> q * 2 ^ (f + 149) <= fval z -> f_leb (pack false q f) z = true.
Proof.
  intros C Fz H. pose proof C as (Hq & Hf & _). pose proof (Z.pow_pos_nonneg 2 (f + 149)) as P.
  assert (fval z = 0 -> q = 0) as H0 by nia.
  unfold pack. destruct q as [|p|p]; [| |lia].
  - apply f_leb_val; [done|done|cbn; lia].
  - destruct z as [sz| | |sz n g]; try (by destruct Fz); [cbn in H; nia|].
    pose proof (proj2 Fz) as Vz. apply f_valid_canon in Vz as [Cn Lg]. pose proof (fval_sign sz n g (proj1 (proj2 Cn))) as S.
    destruct sz; [nia|]. cbn [fval] in H. rewrite Z.mul_1_l in H.
    assert (f <= g) as Lfg.
    { destruct (canon_order (Zpos p) f (Zpos n) g (-149)) as [|[|[]]]; try done; try lia; by apply Cn. }
    rewrite (proj2 (Z.leb_le f 104)) by lia. by apply f_leb_pos.
Qed.
Lemma pack_ge q f z : canon q f -> fin z -> fval z <= q * 2 ^ (f + 149) -> f_leb z (pack false q f) = true.
Proof.
  intros C Fz H. pose proof C as (Hq & Hf & _). pose proof (Z.pow_pos_nonneg 2 (f + 149)) as P.
  unfold pack. destruct q as [|p|p]; [| |lia].
  - apply f_leb_val; [done|done|cbn; lia].
  - case_if.
    + bool_prop. apply f_leb_val; [done|split; [done|by apply f_valid_canon]|]. cbn [fval]. lia.
    + destruct z as [[]| | |[] n g]; try done; by destruct Fz.
Qed.

Lemma binary_round_aux_neg m e l : 0 <= m ->
  binary_round_aux 24 128 true m e l = f_neg (binary_round_aux 24 128 false m e l).
Proof.
  intros Hm. unfold binary_round_aux. destruct (shr_fexp _ _ m e l) as [r e1]. destruct (shr_fexp _ _ _ e1 loc_Exact) as [r2 e2].
  destruct (shr_m r2) as [|p|p]; try done. by destruct (e2 <=? 128 - 24).
Qed.

Lemma fval_scale z k : fin z -> 0 <= k ->
  exists mz ez, canon mz ez /\ Z.abs (fval z) = mz * 2 ^ (ez + 149).
Proof.
  intros [Fz Vz] _. destruct z as [| | |s n g]; try done.
  - exists 0, (-149). split; [unfold canon; lia|done].
  - apply f_valid_canon in Vz as [Cn _]. exists (Zpos n), g. split; [done|].
    pose proof Cn as (_ & Hg & _). pose proof (Z.pow_pos_nonneg 2 (g + 149)). destruct s; cbn [fval]; nia.
Qed.

Lemma rescale x k : -149 <= x -> 149 <= k -> 2 ^ (x - - k) = 2 ^ (x + 149) * 2 ^ (k - 149).
Proof. intros. rewrite <- Z.pow_add_r by lia. f_equal. lia. Qed.

Section Rounded.
Context (m e k : Z) (l : location).
Hypothesis Hm : 0 <= m.
Hypothesis He : e <= fexp 24 128 (Zdigits2 m + e).
(** The scale at which the bounds are compared. *)
Hypothesis Hk : 149 <= k /\ 0 <= e + k.

Lemma round_pos_valid s : f_valid (binary_round_aux 24 128 s m e l) = true.
Proof. destruct (round_aux_spec s m e l Hm He) as (q & f & -> & C & _). by apply f_valid_pack. Qed.

Lemma round_pos_le z : fin z -> (m + loc_up l) * 2 ^ (e + k) <= fval z * 2 ^ (k - 149) ->
  f_leb (binary_round_aux 24 128 false m e l) z = true.
Proof.
  intros Fz H. destruct (round_aux_spec false m e l Hm He) as (q & f & -> & C & B).
  destruct (fval_scale z 0 Fz) as (mz & ez & Cz & Ez); [lia|].
  pose proof (Z.pow_pos_nonneg 2 (e + k)) as P1. pose proof (Z.pow_pos_nonneg 2 (k - 149)) as P2.
  assert (0 <= loc_up l) by (destruct l; cbn; lia).
  assert (0 <= fval z) as Nz by nia. rewrite Z.abs_eq in Ez by done.
  destruct (B mz ez (- k) Cz) as [B1 _]; [lia|lia|].
  pose proof Cz as (_ & Hez & _). pose proof C as (_ & Hf & _).
  replace (e - - k) with (e + k) in B1 by lia. rewrite (rescale ez), (rescale f) in B1 by lia.
  apply pack_le; [done|done|]. rewrite Ez in *. nia.
Qed.
Lemma round_pos_ge z : fin z -> fval z * 2 ^ (k - 149) <= m * 2 ^ (e + k) ->
  f_leb z (binary_round_aux 24 128 false m e l) = true.
Proof.
  intros Fz H. destruct (round_aux_spec false m e l Hm He) as (q & f & -> & C & B).
  destruct (fval_scale z 0 Fz) as (mz & ez & Cz & Ez); [lia|]. pose proof C as (Hq & Hf & _).
  pose proof (Z.pow_pos_nonneg 2 (e + k)) as P1. pose proof (Z.pow_pos_nonneg 2 (k - 149)) as P2.
  pose proof (Z.pow_pos_nonneg 2 (f + 149)) as P3.
  apply pack_ge; [done|done|]. destruct (Z_le_gt_dec (fval z) 0) as [|G]; [nia|]. rewrite Z.abs_eq in Ez by lia.
  destruct (B mz ez (- k) Cz) as [_ B2]; [lia|lia|]. pose proof Cz as (_ & Hez & _).
  replace (e - - k) with (e + k) in B2 by lia. rewrite (rescale ez), (rescale f) in B2 by lia. rewrite Ez in *. nia.
Qed.
End Rounded.

(** ** Signed results *)
Lemma f_leb_neg_l x z : f_leb (f_neg x) z = f_leb (f_neg z) x.
Proof. rewrite <- (f_neg_neg z) at 1. apply f_leb_neg. Qed.
Lemma f_leb_neg_r x z : f_leb z (f_neg x) = f_leb x (f_neg z).
Proof. rewrite <- (f_neg_neg z) at 1. apply f_leb_neg. Qed.

Section Signed.
Context (m e k : Z).
Hypothesis Hm : 0 <= m.
Hypothesis He : e <= fexp 24 128 (Zdigits2 m + e).
Hypothesis Hk : 149 <= k /\ 0 <= e + k.

Lemma round_exact_le s z : fin z ->
  (if s : bool then - m else m) * 2 ^ (e + k) <= fval z * 2 ^ (k - 149) ->
  f_leb (binary_round_aux 24 128 s m e loc_Exact) z = true.
Proof.
  intros Fz H. destruct s.
  - rewrite binary_round_aux_neg by done. rewrite f_leb_neg_l.
    apply (round_pos_ge m e k loc_Exact Hm He Hk); [by apply fin_neg|]. rewrite fval_neg. lia.
  - apply (round_pos_le m e k loc_Exact Hm He Hk); [done|]. cbn [loc_up]. lia.
Qed.
Lemma round_exact_ge s z : fin z ->
  fval z * 2 ^ (k - 149) <= (if s : bool then - m else m) * 2 ^ (e + k) ->
  f_leb z (binary_round_aux 24 128 s m e loc_Exact) = true.
Proof.
  intros Fz H. destruct s.
  - rewrite binary_round_aux_neg by done. rewrite f_leb_neg_r.
    apply (round_pos_le m e k loc_Exact Hm He Hk); [by apply fin_neg|]. rewrite fval_neg. cbn [loc_up]. lia.
  - by apply (round_pos_ge m e k loc_Exact Hm He Hk).
Qed.
End Signed.

(** ** Products *)
Lemma mul_aligned m e n f : canon (Zpos m) e -> canon (Zpos n) f ->
  e + f <= fexp 24 128 (Zdigits2 (Zpos (m * n)) + (e + f)).
Proof.
  intros (_ & He & Cm) (_ & Hf & Cn). unfold fexp, emin.
  destruct Cm as [Cm|Em]; [|destruct Cn as [Cn|En]]; [| |lia];
    assert (23 < Zdigits2 (Zpos (m * n))) by (apply Zdigits2_ge; lia); lia.
Qed.

Lemma mul_value (sx sy : bool) m e n f : -149 <= e -> -149 <= f ->
  fval (S754_finite sx m e) * fval (S754_finite sy n f) =
  (if xorb sx sy then - Zpos (m * n) else Zpos (m * n)) * 2 ^ (e + f + 298).
Proof.
  intros. replace (e + f + 298) with ((e + 149) + (f + 149)) by lia. rewrite Z.pow_add_r by lia.
  rewrite Pos2Z.inj_mul. destruct sx, sy; cbn [fval xorb]; ring.
Qed.

Lemma f_mul_valid x y : fin x -> fin y -> f_valid (f_mul x y) = true.
Proof.
  intros [Fx Vx] [Fy Vy]. destruct x as [| | |sx m e], y as [| | |sy n f]; try reflexivity.
  apply f_valid_canon in Vx as [Cm _], Vy as [Cn _]. apply round_pos_valid; [lia|by apply mul_aligned].
Qed.

Lemma f_mul_le x y z : fin x -> fin y -> fin z ->
  fval x * fval y <= fval z * 2 ^ 149 -> f_leb (f_mul x y) z = true.
Proof.
  intros [Fx Vx] [Fy Vy] Fz H.
  destruct x as [sx| | |sx m e], y as [sy| | |sy n f]; try done;
    try (unfold f_mul; cbn [SFmul]; apply f_leb_val; [done|done|cbn [fval] in *; lia]).
  apply f_valid_canon in Vx as [Cm _], Vy as [Cn _]. pose proof Cm as (_ & He & _). pose proof Cn as (_ & Hf & _).
  rewrite mul_value in H by done.
  apply (round_exact_le _ _ 298); [lia|by apply mul_aligned|lia|done|exact H].
Qed.
Lemma f_mul_ge x y z : fin x -> fin y -> fin z ->
  fval z * 2 ^ 149 <= fval x * fval y -> f_leb z (f_mul x y) = true.
Proof.
  intros [Fx Vx] [Fy Vy] Fz H.
  destruct x as [sx| | |sx m e], y as [sy| | |sy n f]; try done;
    try (unfold f_mul; cbn [SFmul]; apply f_leb_val; [done|done|cbn [fval] in *; lia]).
  apply f_valid_canon in Vx as [Cm _], Vy as [Cn _]. pose proof Cm as (_ & He & _). pose proof Cn as (_ & Hf & _).
  rewrite mul_value in H by done.
  apply (round_exact_ge _ _ 298); [lia|by apply mul_aligned|lia|done|exact H].
Qed.

Lemma f_mul_comm x y : f_mul x y = f_mul y x.
Proof.
  destruct x as [sx|sx| |sx m e], y as [sy|sy| |sy n f]; unfold f_mul, SFmul; try done; rewrite (xorb_comm sx sy); try done.
  by rewrite (Pos.mul_comm m n), (Z.add_comm e f).
Qed.

(** ** Sums *)
Lemma shl_align_spec m e e' : e' <= e -> exists n,
  shl_align m e e' = (n, e') /\ Zpos n = Zpos m * 2 ^ (e - e').
Proof.
  intros H. unfold shl_align. destruct (e' - e) as [|p|p] eqn:E; [| lia|].
  - exists m. replace (e - e') with 0 by lia. split; [f_equal; lia|lia].
  - exists (Pos.iter xO m p). split; [done|]. rewrite Pos_iter_xO. f_equal. f_equal. lia.
Qed.
Lemma shl_align_keep m e e' : e <= e' -> shl_align m e e' = (m, e).
Proof. intros H. unfold shl_align. destruct (e' - e) eqn:E; [done|done|lia]. Qed.

Lemma Zdigits2_shift m n k : 0 <= k -> Zpos n = Zpos m * 2 ^ k -> Zdigits2 (Zpos n) = Zdigits2 (Zpos m) + k.
Proof.
  intros Hk H. destruct (Zdigits2_bounds (Zpos m)) as [[L U] P]; [lia|]. pose proof (Z.pow_pos_nonneg 2 k).
  change (Zdigits2 (Zpos n)) with (digits n). apply digits2_unique; [lia|]. rewrite H. split.
  - replace (Zdigits2 (Zpos m) + k - 1) with ((Zdigits2 (Zpos m) - 1) + k) by lia. rewrite Z.pow_add_r by lia. nia.
  - rewrite Z.pow_add_r by lia. nia.
Qed.

(** The aligned mantissa of [binary_round]. *)
Lemma binary_round_aligned m e : -149 <= e -> exists n f,
  (forall s, binary_round 24 128 s m e = binary_round_aux 24 128 s (Zpos n) f loc_Exact) /\
  f <= fexp 24 128 (Zdigits2 (Zpos n) + f) /\ -149 <= f /\ Zpos n * 2 ^ (f + 149) = Zpos m * 2 ^ (e + 149).
Proof.
  intros He. unfold binary_round. set (g := fexp 24 128 (digits m + e)).
  assert (-149 <= g) as Hg by (unfold g, fexp, emin; lia).
  destruct (Z_le_gt_dec e g) as [Le|Gt].
  - rewrite shl_align_keep by done. exists m, e. split; [done|]. cbn [Zdigits2]. fold g. split; [done|]. done.
  - destruct (shl_align_spec m e g) as (n & -> & En); [lia|]. exists n, g. split; [done|].
    rewrite (Zdigits2_shift m n (e - g)) by (lia || done). cbn [Zdigits2].
    replace (digits m + (e - g) + g) with (digits m + e) by lia. fold g. split; [lia|]. split; [done|].
    rewrite En, <- Z.mul_assoc, <- Z.pow_add_r by lia. f_equal. f_equal. lia.
Qed.

Lemma normalize_le M e z : -149 <= e -> fin z -> M * 2 ^ (e + 149) <= fval z ->
  f_leb (binary_normalize 24 128 M e false) z = true.
Proof.
  intros He Fz H. destruct M as [|p|p]; cbn [binary_normalize].
  - apply f_leb_val; [done|done|cbn; lia].
  - destruct (binary_round_aligned p e He) as (n & f & -> & A & Hf & V).
    apply (round_exact_le _ _ 149); [lia|done|lia|done|]. cbn. lia.
  - destruct (binary_round_aligned p e He) as (n & f & -> & A & Hf & V).
    apply (round_exact_le _ _ 149); [lia|done|lia|done|]. rewrite Z.sub_diag. change (2 ^ 0) with 1. nia.
Qed.
Lemma normalize_ge M e z : -149 <= e -> fin z -> fval z <= M * 2 ^ (e + 149) ->
  f_leb z (binary_normalize 24 128 M e false) = true.
Proof.
  intros He Fz H. destruct M as [|p|p]; cbn [binary_normalize].
  - apply f_leb_val; [done|done|cbn; lia].
  - destruct (binary_round_aligned p e He) as (n & f & -> & A & Hf & V).
    apply (round_exact_ge _ _ 149); [lia|done|lia|done|]. cbn. lia.
  - destruct (binary_round_aligned p e He) as (n & f & -> & A & Hf & V).
    apply (round_exact_ge _ _ 149); [lia|done|lia|done|]. rewrite Z.sub_diag. change (2 ^ 0) with 1. nia.
Qed.
Lemma normalize_valid M e : -149 <= e -> f_valid (binary_normalize 24 128 M e false) = true.
Proof.
  intros He. destruct M as [|p|p]; cbn [binary_normalize]; [done|..];
    destruct (binary_round_aligned p e He) as (n & f & -> & A & Hf & V); apply round_pos_valid; (lia || done).
Qed.

Lemma f_of_Z_valid z : f_valid (f_of_Z z) = true.
Proof. by apply normalize_valid. Qed.

(** The sum of two finite floats as one normalisation. *)
Lemma f_add_normalize sx m e sy n f : -149 <= e -> -149 <= f ->
  exists M, f_add (S754_finite sx m e) (S754_finite sy n f) = binary_normalize 24 128 M (Z.min e f) false /\
    M * 2 ^ (Z.min e f + 149) = fval (S754_finite sx m e) + fval (S754_finite sy n f).
Proof.
  intros He Hf. unfold f_add, SFadd.
  destruct (shl_align_spec m e (Z.min e f)) as (m' & E1 & V1); [lia|].
  destruct (shl_align_spec n f (Z.min e f)) as (n' & E2 & V2); [lia|]. rewrite E1, E2. cbn [fst].
  eexists. split; [done|]. cbn [fval].
  assert (Z.min e f <= e /\ Z.min e f <= f /\ -149 <= Z.min e f) as Hg by lia.
  generalize dependent (Z.min e f). intros g E1 V1 E2 V2 Hg.
  assert (forall x, g <= x -> 2 ^ (x + 149) = 2 ^ (x - g) * 2 ^ (g + 149)) as Sp.
  { intros x Hx. rewrite <- Z.pow_add_r by lia. f_equal. lia. }
  rewrite (Sp e), (Sp f) by lia. destruct sx, sy; cbn [cond_Zopp]; rewrite ?Pos2Z.opp_pos, ?V1, ?V2; ring_simplify; nia.
Qed.

Lemma f_add_zero_l s y : fin y -> exists t, f_add (S754_zero s) y = t /\ fval t = fval y /\ fin t.
Proof. intros Fy. destruct y as [[]|[]| |sy n f], s; try (by destruct Fy); eexists; (split; [reflexivity|]); done. Qed.
Lemma f_add_zero_r s x : fin x -> exists t, f_add x (S754_zero s) = t /\ fval t = fval x /\ fin t.
Proof. intros Fx. destruct x as [[]|[]| |sx n f], s; try (by destruct Fx); eexists; (split; [reflexivity|]); done. Qed.

Section Sum.
Context (x y : float).
Hypothesis Fx : fin x.
Hypothesis Fy : fin y.

(** Exact when an operand is zero, else a rounded sum. *)
Lemma f_add_cases :
  (exists t, f_add x y = t /\ fval t = fval x + fval y /\ fin t) \/
  exists M e, f_add x y = binary_normalize 24 128 M e false /\ -149 <= e /\ M * 2 ^ (e + 149) = fval x + fval y.
Proof.
  destruct x as [sx| | |sx m e]; try (by destruct Fx).
  - left. destruct (f_add_zero_l sx y Fy) as (t & E & V & F). exists t. split; [done|]. split; [|done]. rewrite V. cbn. lia.
  - destruct y as [sy| | |sy n f]; try (by destruct Fy).
    + left. destruct (f_add_zero_r sy _ Fx) as (t & E & V & F). exists t. split; [done|]. split; [|done]. rewrite V. cbn [fval]. lia.
    + right. pose proof (proj2 Fx) as Vx. pose proof (proj2 Fy) as Vy.
      apply f_valid_canon in Vx as [(_ & He & _) _], Vy as [(_ & Hf & _) _].
      destruct (f_add_normalize sx m e sy n f He Hf) as (M & E & V). exists M, (Z.min e f). split; [done|]. split; [lia|done].
Qed.
Lemma f_add_le z : fin z -> fval x + fval y <= fval z -> f_leb (f_add x y) z = true.
Proof.
  intros Fz H. destruct f_add_cases as [(t & -> & V & F)|(M & e & -> & He & V)].
  - apply f_leb_val; [done|done|lia].
  - apply normalize_le; [done|done|lia].
Qed.
Lemma f_add_ge z : fin z -> fval z <= fval x + fval y -> f_leb z (f_add x y) = true.
Proof.
  intros Fz H. destruct f_add_cases as [(t & -> & V & F)|(M & e & -> & He & V)].
  - apply f_leb_val; [done|done|lia].
  - apply normalize_ge; [done|done|lia].
Qed.
Lemma f_add_valid : f_valid (f_add x y) = true.
Proof. destruct f_add_cases as [(t & -> & _ & [_ F])|(M & e & -> & He & _)]; [done|by apply normalize_valid]. Qed.
End Sum.

Lemma f_sub_add x y : f_sub x y = f_add x (f_neg y).
Proof.
  destruct x as [[]|[]| |sx m e], y as [[]|[]| |sy n f]; try reflexivity. unfold f_sub, f_add. cbn [SFsub SFadd f_neg SFopp].
  f_equal. destruct sy; cbn [cond_Zopp negb]; lia.
Qed.
Lemma f_sub_le x y z : fin x -> fin y -> fin z -> fval x - fval y <= fval z -> f_leb (f_sub x y) z = true.
Proof. intros. rewrite f_sub_add. apply f_add_le; [done|by apply fin_neg|done|]. rewrite fval_neg. lia. Qed.
Lemma f_sub_ge x y z : fin x -> fin y -> fin z -> fval z <= fval x - fval y -> f_leb z (f_sub x y) = true.
Proof. intros. rewrite f_sub_add. apply f_add_ge; [done|by apply fin_neg|done|]. rewrite fval_neg. lia. Qed.

(** ** Quotients *)
Lemma new_location_exact b r : (new_location b r = loc_Exact -> r = 0) /\ (r = 0 -> new_location b r = loc_Exact).
Proof.
  unfold new_location, new_location_even, new_location_odd.
  destruct (Z.even b), (Z.eqb_spec r 0); split; intros; done.
Qed.
Lemma loc_up_new_location b r : loc_up (new_location b r) = if r =? 0 then 0 else 1.
Proof. unfold new_location, new_location_even, new_location_odd. by destruct (Z.even b), (r =? 0). Qed.

Lemma div_aligned m e n f : canon (Zpos m) e -> canon (Zpos n) f -> exists q g r,
  (forall sx sy, f_div (S754_finite sx m e) (S754_finite sy n f) = binary_round_aux 24 128 (xorb sx sy) q g (new_location (Zpos n) r)) /\
  0 <= q /\ g <= fexp 24 128 (Zdigits2 q + g) /\ g <= e - f /\ 0 <= r < Zpos n /\
  Zpos m * 2 ^ (e - f - g) = q * Zpos n + r.
Proof.
  intros Cm Cn. set (d1 := digits m). set (d2 := digits n).
  set (g := Z.min (fexp 24 128 (d1 + e - (d2 + f))) (e - f)).
  assert (g <= e - f) as Hg by lia. pose proof (Z.pow_pos_nonneg 2 (e - f - g) ltac:(lia) ltac:(lia)) as P.
  set (m' := Zpos m * 2 ^ (e - f - g)). exists (m' / Zpos n), g, (m' mod Zpos n).
  assert (0 <= m') as Hm' by (unfold m'; lia).
  assert (0 <= m' / Zpos n) as Hq by (apply Z.div_pos; lia).
  split; [|split; [done|split; [|split; [done|split; [apply Z.mod_pos_bound; lia|rewrite (Z.mul_comm (m' / Zpos n)); apply Z.div_mod; lia]]]]].
  - intros sx sy. unfold f_div, SFdiv, SFdiv_core_binary. cbn [Zdigits2]. fold d1 d2 g.
    assert ((match e - f - g with 0 => Zpos m | Zpos _ => Z.shiftl (Zpos m) (e - f - g) | Zneg _ => 0 end) = m') as ->.
    { unfold m'. destruct (e - f - g) as [|p|p] eqn:E; [lia| |lia]. rewrite Z.shiftl_mul_pow2 by lia. done. }
    unfold Z.div, Z.modulo. by destruct (Z.div_eucl m' (Zpos n)).
  - destruct (Zdigits2_bounds (Zpos m)) as [[L1 U1] P1]; [lia|]. destruct (Zdigits2_bounds (Zpos n)) as [[L2 U2] P2]; [lia|].
    cbn [Zdigits2] in *. fold d1 in L1, U1, P1. fold d2 in L2, U2, P2.
    assert (d1 + e - (d2 + f) <= Zdigits2 (m' / Zpos n) + g) as Hd.
    { destruct (Z_le_gt_dec (d1 + e - (d2 + f) - g - 1) (-1)) as [|G].
      - assert (0 <= Zdigits2 (m' / Zpos n)) by (destruct (m' / Zpos n); cbn; lia). lia.
      - assert (d1 + e - (d2 + f) - g - 1 < Zdigits2 (m' / Zpos n)); [|lia]. apply Zdigits2_ge; [lia|].
        apply Z.div_le_lower_bound; [lia|].
        replace (d1 + e - (d2 + f) - g - 1) with ((d1 - 1) + (e - f - g) - d2) by lia.
        pose proof (Z.pow_pos_nonneg 2 (d1 - 1 + (e - f - g) - d2)).
        assert (2 ^ d2 * 2 ^ (d1 - 1 + (e - f - g) - d2) = 2 ^ (d1 - 1) * 2 ^ (e - f - g)) as S.
        { rewrite <- !Z.pow_add_r by lia. f_equal. lia. }
        unfold m'. nia. }
    unfold g, fexp, emin in *. lia.
Qed.

Lemma f_div_le x y z : fin x -> fin y -> fin z -> 0 <= fval x -> 0 < fval y ->
  fval x * 2 ^ 149 <= fval z * fval y -> f_leb (f_div x y) z = true.
Proof.
  intros Fx Fy Fz Hx Hy H.
  destruct y as [| | |sy n f]; try (cbn in Hy; lia).
  destruct x as [sx| | |sx m e]; try (by destruct Fx).
  { unfold f_div. cbn [SFdiv]. apply f_leb_val; [done|done|]. change (fval (S754_zero (xorb sx sy))) with 0. change (fval (S754_zero sx)) with 0 in H. clear - H Hy. nia. }
  pose proof (proj2 Fx) as Vx. pose proof (proj2 Fy) as Vy. apply f_valid_canon in Vx as [Cm _], Vy as [Cn _].
  pose proof Cm as (_ & He & _). pose proof Cn as (_ & Hf & _).
  pose proof (fval_sign sx m e He). pose proof (fval_sign sy n f Hf). destruct sx; [lia|]. destruct sy; [lia|].
  destruct (div_aligned m e n f Cm Cn) as (q & g & r & -> & Hq & A & Hg & Hr & D).
  cbn [xorb]. destruct (round_aux_spec false q g (new_location (Zpos n) r) Hq A) as (q' & f' & -> & C' & B).
  destruct (fval_scale z 0 Fz) as (mz & ez & Cz & Ez); [lia|].
  assert (0 <= fval z) as Nz by nia. rewrite Z.abs_eq in Ez by done. pose proof Cz as (Hmz & Hez & _). pose proof C' as (_ & Hf' & _).
  set (K := Z.min g (-149)). destruct (B mz ez K Cz) as [B1 _]; [lia|lia|].
  apply pack_le; [done|done|]. rewrite Ez.
  assert (forall u, -149 <= u -> 2 ^ (u - K) = 2 ^ (u + 149) * 2 ^ (-149 - K)) as Sp.
  { intros u Hu. rewrite <- Z.pow_add_r by lia. f_equal. lia. }
  rewrite (Sp ez), (Sp f') in B1 by lia. pose proof (Z.pow_pos_nonneg 2 (-149 - K) ltac:(lia) ltac:(lia)) as PK.
  rewrite !Z.mul_assoc in B1. apply (Z.mul_le_mono_pos_r _ _ (2 ^ (-149 - K))); [done|]. apply B1. clear B B1.
  (* the exact quotient is at most the bound *)
  assert (Zpos m * 2 ^ (e - f - g) * 2 ^ (g - K) <= mz * 2 ^ (ez - K) * Zpos n) as HX.
  { cbn [fval] in H. rewrite !Z.mul_1_l in H. cbn [fval] in Ez. rewrite Ez in H.
    pose proof (Z.pow_pos_nonneg 2 (f + 149) ltac:(lia) ltac:(lia)) as Pf.
    apply (Z.mul_le_mono_pos_r _ _ (2 ^ (f + 149))); [done|].
    replace (Zpos m * 2 ^ (e - f - g) * 2 ^ (g - K) * 2 ^ (f + 149)) with (Zpos m * 2 ^ (e + 149) * 2 ^ (-149 - K) * 2 ^ 149).
    - rewrite (Sp ez) by lia. nia.
    - rewrite <- !Z.mul_assoc. f_equal. rewrite <- !Z.pow_add_r by lia. f_equal. lia. }
  rewrite D in HX. rewrite loc_up_new_location. rewrite <- Z.mul_assoc, <- (Sp ez) by lia.
  pose proof (Z.pow_pos_nonneg 2 (g - K) ltac:(lia) ltac:(lia)) as Pg.
  destruct (Z.eqb_spec r 0) as [->|Nr]; [nia|].
  destruct (Z_le_gt_dec g ez) as [Le|Gt].
  - assert (2 ^ (ez - K) = 2 ^ (ez - g) * 2 ^ (g - K)) as S2 by (apply pow_split; lia). rewrite S2 in *.
    set (t := mz * 2 ^ (ez - g)). replace (mz * (2 ^ (ez - g) * 2 ^ (g - K))) with (t * 2 ^ (g - K)) in * by (unfold t; lia).
    apply Z.mul_le_mono_pos_r; [done|]. assert (q * Zpos n + r <= t * Zpos n) by nia. nia.
  - exfalso. assert (2 ^ 23 <= q) as Hq23.
    { assert (g = Zdigits2 q + g - 24 \/ Zdigits2 q + g - 24 > g) as Hd by (unfold fexp, emin in A; lia).
      assert (0 < q) by (destruct (Z.eq_dec q 0) as [->|]; [cbn in Hd; lia|lia]).
      destruct (Zdigits2_bounds q) as [[L _] _]; [done|]. pose proof (Z.pow_le_mono_r 2 23 (Zdigits2 q - 1)). lia. }
    assert (2 ^ (g - K) = 2 ^ (g - ez) * 2 ^ (ez - K)) as S2 by (apply pow_split; lia). rewrite S2 in HX.
    pose proof (Z.pow_le_mono_r 2 1 (g - ez)). pose proof (Z.pow_pos_nonneg 2 (ez - K) ltac:(lia) ltac:(lia)).
    assert (2 ^ 24 <= q * 2 ^ (g - ez)) by (change (2 ^ 24) with (2 ^ 23 * 2 ^ 1); nia).
    assert (mz * Zpos n < q * 2 ^ (g - ez) * Zpos n) by nia.
    assert ((q * Zpos n + r) * 2 ^ (g - ez) <= mz * Zpos n) by nia. nia.
Qed.
Lemma f_div_valid x y : fin x -> fin y -> f_valid (f_div x y) = true.
Proof.
  intros Fx Fy. destruct x as [sx| | |sx m e]; try (by destruct Fx); destruct y as [sy| | |sy n f]; try (by destruct Fy); try reflexivity.
  pose proof (proj2 Fx) as Vx. pose proof (proj2 Fy) as Vy. apply f_valid_canon in Vx as [Cm _], Vy as [Cn _].
  destruct (div_aligned m e n f Cm Cn) as (q & g & r & -> & Hq & A & _). by apply round_pos_valid.
Qed.
Lemma f_div_nonneg x y : fin x -> fin y -> 0 <= fval x -> 0 < fval y -> f_leb f_zero (f_div x y) = true.
Proof.
  intros Fx Fy Hx Hy.
  destruct y as [sy| | |sy n f]; try (cbn in Hy; lia). destruct x as [sx| | |sx m e]; try (by destruct Fx).
  pose proof (proj2 Fx) as Vx. pose proof (proj2 Fy) as Vy. apply f_valid_canon in Vx as [Cm _], Vy as [Cn _].
  pose proof (fval_sign sx m e (proj1 (proj2 Cm))). pose proof (fval_sign sy n f (proj1 (proj2 Cn))).
  destruct sx; [lia|]. destruct sy; [lia|].
  destruct (div_aligned m e n f Cm Cn) as (q & g & r & -> & Hq & A & _). cbn [xorb].
  destruct (round_aux_spec false q g (new_location (Zpos n) r) Hq A) as (q' & f' & -> & C' & _).
  apply pack_ge; [done|done|]. destruct C' as (? & ? & _). change (fval f_zero) with 0. pose proof (Z.pow_pos_nonneg 2 (f' + 149)). nia.
Qed.

(** ** What the components use *)

(** A result between two finite floats is finite. *)
Lemma fin_between x a b : f_valid x = true -> f_leb a x = true -> f_leb x b = true -> is_finite a = true -> is_finite b = true -> fin x.
Proof. intros V H1 H2 Fa Fb. split; [|done]. destruct x as [|[]| |], a as [|[]| |[]], b as [|[]| |[]]; done. Qed.

Lemma fin_zero : fin f_zero.
Proof. done. Qed.
Lemma fin_one : fin f_one.
Proof. done. Qed.
Lemma fval_one : fval f_one = 2 ^ 149.
Proof. vm_compute. reflexivity. Qed.
Lemma fval_zero : fval f_zero = 0.
Proof. done. Qed.

(** A non-negative value times a ratio between 0 and 1 stays between 0 and the value. *)
Lemma f_mul_ratio x r : fin x -> fin r -> f_leb f_zero x = true -> f_leb f_zero r = true -> f_leb r f_one = true ->
  fin (f_mul x r) /\ f_leb f_zero (f_mul x r) = true /\ f_leb (f_mul x r) x = true.
Proof.
  intros Fx Fr Hx Hr H1. apply f_leb_val in Hx, Hr, H1; try done. rewrite fval_one in H1. rewrite fval_zero in *.
  assert (f_leb f_zero (f_mul x r) = true) as L by (apply f_mul_ge; rewrite ?fval_zero; done || nia).
  assert (f_leb (f_mul x r) x = true) as U by (apply f_mul_le; done || nia).
  split; [|done]. eapply (fin_between _ f_zero x); try done; [by apply f_mul_valid|apply Fx].
Qed.

(** A quotient of a smaller by a larger non-negative value is a ratio. *)
Lemma f_div_ratio x y : fin x -> fin y -> f_leb f_zero x = true -> f_ltb f_zero y = true -> f_leb x y = true ->
  fin (f_div x y) /\ f_leb f_zero (f_div x y) = true /\ f_leb (f_div x y) f_one = true.
Proof.
  intros Fx Fy Hx Hy H. assert (0 < fval y) as Py.
  { destruct (Z_lt_ge_dec 0 (fval y)) as [|G]; [done|]. assert (f_leb y f_zero = true) as C by (apply f_leb_val; rewrite ?fval_zero; done || lia).
    exfalso. apply f_leb_key in C; [|by apply fin_not_nan|done]. apply f_ltb_key in Hy; [done|done|by apply fin_not_nan]. }
  apply f_leb_val in Hx, H; try done. rewrite fval_zero in *.
  assert (f_leb f_zero (f_div x y) = true) as L by by apply f_div_nonneg.
  assert (f_leb (f_div x y) f_one = true) as U by (apply f_div_le; rewrite ?fval_one; done || nia).
  split; [|done]. eapply (fin_between _ f_zero f_one); try done. by apply f_div_valid.
Qed.

(** Adding a non-negative value does not decrease, subtracting it does not increase. *)
Lemma f_add_above x s : fin x -> fin s -> f_leb f_zero s = true -> f_leb x (f_add x s) = true.
Proof. intros Fx Fs H. apply f_leb_val in H; try done. rewrite fval_zero in H. apply f_add_ge; done || lia. Qed.
Lemma f_sub_below x s : fin x -> fin s -> f_leb f_zero s = true -> f_leb (f_sub x s) x = true.
Proof. intros Fx Fs H. apply f_leb_val in H; try done. rewrite fval_zero in H. apply f_sub_le; done || lia. Qed.
Lemma f_sub_nonneg x y : fin x -> fin y -> f_leb y x = true -> f_leb f_zero (f_sub x y) = true.
Proof. intros Fx Fy H. apply f_leb_val in H; try done. apply f_sub_ge; rewrite ?fval_zero; done || lia. Qed.

(** The sign of a product. *)
Lemma f_mul_nonneg x y : fin x -> fin y -> f_leb f_zero x = true -> f_leb f_zero y = true -> f_leb f_zero (f_mul x y) = true.
Proof. intros Fx Fy Hx Hy. apply f_leb_val in Hx, Hy; try done. rewrite fval_zero in *. apply f_mul_ge; rewrite ?fval_zero; done || nia. Qed.

#[export] Hint Resolve fin_zero fin_one fin_not_nan f_mul_valid f_div_valid : float.

(** Every mantissa of 24 bits and exponent of the range has a float. *)
Lemma representable m e : 0 <= m < 2 ^ 24 -> -149 <= e <= 104 -> exists z, fin z /\ fval z = m * 2 ^ (e + 149).
Proof.
  intros Hm He. destruct (Z.eq_dec m 0) as [->|N]; [by exists f_zero|].
  destruct (Zdigits2_bounds m) as [[L U] P]; [lia|]. set (d := Zdigits2 m) in *.
  assert (d <= 24) as Hd by (apply Zdigits2_le; lia).
  set (k := Z.min (24 - d) (e + 149)). assert (0 <= k /\ k <= 24 - d /\ k <= e + 149 /\ (k = 24 - d \/ k = e + 149)) as Hk by lia.
  pose proof (Z.pow_pos_nonneg 2 k ltac:(lia) ltac:(lia)) as Pk.
  destruct (m * 2 ^ k) as [|p|p] eqn:E; [nia| |nia].
  assert (canon (Zpos p) (e - k)) as C.
  { assert (m * 2 ^ k < 2 ^ 24) as U2.
    { replace 24 with (d + (24 - d)) by lia. rewrite Z.pow_add_r by lia.
      pose proof (Z.pow_le_mono_r 2 k (24 - d) ltac:(lia) ltac:(lia)). nia. }
    split; [lia|]. split; [lia|]. destruct Hk as (_ & _ & _ & [Hk|Hk]); [left|right; lia].
    rewrite <- E. replace 23 with ((d - 1) + k) by lia. rewrite Z.pow_add_r by lia. nia. }
  exists (S754_finite false p (e - k)). split; [split; [done|apply f_valid_canon; split; [exact C|lia]]|].
  cbn [fval]. rewrite Z.mul_1_l, <- E, <- Z.mul_assoc, <- Z.pow_add_r by lia. f_equal. f_equal. lia.
Qed.

(** ** Ramps

    One step of a ramp to zero: the target zero within a step of the value. *)
Lemma f_ltb_val x y : fin x -> fin y -> f_ltb x y = true <-> fval x < fval y.
Proof.
  intros Fx Fy. split.
  - intros H. destruct (Z_lt_ge_dec (fval x) (fval y)) as [|G]; [done|exfalso].
    assert (f_leb y x = true) as C by (apply f_leb_val; done || lia).
    apply f_leb_key in C; [|by apply fin_not_nan..]. by apply f_ltb_key in H; [|by apply fin_not_nan..].
  - intros H. destruct (f_ltb x y) eqn:E; [done|exfalso].
    apply f_ltb_ge in E; [|by apply fin_not_nan..]. apply f_leb_val in E; try done. lia.
Qed.

(** A float that bounds what a step leaves of a magnitude, and is smaller by at
    least half a step. *)
Lemma ramp_room t s : fin t -> fin s -> 0 < fval s -> Z.abs (fval t) <= 2 ^ 23 * fval s ->
  exists z, fin z /\ 0 <= fval z /\ Z.abs (fval t) - fval s <= fval z /\
    (fval z = 0 \/ 2 * fval z <= 2 * Z.abs (fval t) - fval s).
Proof.
  intros Ft Fs Hs H. destruct t as [st| | |st m e]; try (by destruct Ft).
  { exists f_zero. cbn in *. split; [done|]. lia. }
  pose proof (proj2 Ft) as Vt. apply f_valid_canon in Vt as [(Hm & He & C) Le].
  set (u := 2 ^ (e + 149)). assert (0 < u) as Pu by (apply Z.pow_pos_nonneg; lia).
  assert (Z.abs (fval (S754_finite st m e)) = Zpos m * u) as Et by (cbn [fval]; fold u; destruct st; nia). rewrite Et in *.
  assert (u <= fval s) as Hu by (destruct C as [C| ->]; [nia|cbn in u; lia]).
  set (j := fval s / u). assert (1 <= j) as Hj by (apply Z.div_le_lower_bound; lia).
  pose proof (Z.mul_div_le (fval s) u Pu) as J1. pose proof (Z.mul_succ_div_gt (fval s) u Pu) as J2. fold j in J1, J2.
  destruct (Z_le_gt_dec (Zpos m) j) as [|G].
  - exists f_zero. rewrite fval_zero. split; [done|]. nia.
  - destruct (representable (Zpos m - j) e) as (z & Fz & Vz); [lia|lia|]. fold u in Vz. exists z. split; [done|]. nia.
Qed.

Definition ramp_to_zero (t s : float) : float := Clamp f_zero (f_sub t s) (f_add t s).

(** One step: the magnitude does not grow and loses at least half a step until it is zero. *)
Lemma ramp_to_zero_step t s : fin t -> fin s -> 0 < fval s -> Z.abs (fval t) <= 2 ^ 23 * fval s ->
  fin (ramp_to_zero t s) /\
  (fval (ramp_to_zero t s) = 0 \/ 2 * Z.abs (fval (ramp_to_zero t s)) <= 2 * Z.abs (fval t) - fval s).
Proof.
  intros Ft Fs Hs H. destruct (ramp_room t s Ft Fs Hs H) as (z & Fz & Nz & Hz & Dz).
  assert (forall a, f_leb (f_neg z) a = true -> f_leb a z = true -> f_valid a = true ->
    fin a /\ (fval a = 0 \/ 2 * Z.abs (fval a) <= 2 * Z.abs (fval t) - fval s)) as Hin.
  { intros a L U V. assert (fin a) as Fa by (eapply (fin_between a (f_neg z) z); try done; [apply fin_neg, Fz|apply Fz]).
    split; [done|]. apply f_leb_val in L, U; try done; [|by apply fin_neg]. rewrite fval_neg in L. lia. }
  assert (fin f_zero) as F0 by done.
  unfold ramp_to_zero, Clamp, std_max, std_min.
  destruct (Z_le_gt_dec 0 (fval t)) as [Ht|Ht].
  - (* down from above *)
    assert (f_leb (f_sub t s) z = true) as U by (apply f_sub_le; done || lia).
    assert (f_leb (f_neg s) (f_sub t s) = true) as L by (apply f_sub_ge; rewrite ?fval_neg; done || (by apply fin_neg) || lia).
    assert (fin (f_sub t s)) as Fd.
    { eapply (fin_between _ (f_neg s) z); try done; [|apply fin_neg, Fs|apply Fz]. rewrite f_sub_add. apply f_add_valid; [done|by apply fin_neg]. }
    assert (f_leb t (f_add t s) = true) as A by (apply f_add_ge; done || lia).
    assert (f_ltb f_zero (f_sub t s) = true -> f_ltb (f_add t s) (f_sub t s) = false) as N1.
    { intros _. apply not_true_iff_false. intros B. assert (f_leb (f_sub t s) t = true) as D by (apply f_sub_le; done || lia).
      apply f_ltb_leb in B as B'. destruct (f_leb_not_nan _ _ A) as [? ?]. apply f_ltb_key in B; [|done|by apply fin_not_nan].
      pose proof (f_leb_trans _ _ _ D A) as T. apply f_leb_key in T; [done|by apply fin_not_nan|done]. }
    assert (f_ltb (f_add t s) f_zero = false) as N0.
    { apply not_true_iff_false. intros B. assert (f_leb f_zero t = true) as D by (apply f_leb_val; rewrite ?fval_zero; done || lia).
      pose proof (f_leb_trans _ _ _ D A) as T. destruct (f_leb_not_nan _ _ A) as [? ?].
      apply f_ltb_key in B; [|done|done]. apply f_leb_key in T; done. }
    destruct (f_ltb f_zero (f_sub t s)) eqn:P.
    + rewrite N1 by done. apply Hin; [|done|apply Fd]. apply f_ltb_val in P; try done. rewrite fval_zero in P.
      apply f_leb_val; [by apply fin_neg|done|]. rewrite fval_neg. lia.
    + rewrite N0. split; [done|by left].
  - (* up from below *)
    assert (f_leb (f_neg z) (f_add t s) = true) as L by (apply f_add_ge; rewrite ?fval_neg; done || (by apply fin_neg) || lia).
    assert (f_leb (f_add t s) s = true) as U by (apply f_add_le; done || lia).
    assert (fin (f_add t s)) as Fa.
    { eapply (fin_between _ (f_neg z) s); try done; [by apply f_add_valid|apply fin_neg, Fz|apply Fs]. }
    assert (f_ltb f_zero (f_sub t s) = false) as N1.
    { apply not_true_iff_false. intros B. assert (f_leb (f_sub t s) f_zero = true) as D by (apply f_sub_le; rewrite ?fval_zero; done || lia).
      destruct (f_leb_not_nan _ _ D) as [? _]. apply f_ltb_key in B; [|done|done]. apply f_leb_key in D; done. }
    rewrite N1. destruct (f_ltb (f_add t s) f_zero) eqn:P.
    + apply Hin; [done| |apply Fa]. apply f_ltb_val in P; try done. rewrite fval_zero in P. apply f_leb_val; done || lia.
    + split; [done|by left].
Qed.

(** A ramp of steps of at least [s] is at zero after [2 * |t| / s] of them. *)
Lemma ramp_to_zero_reaches s n t : fin t -> fin s -> 0 < fval s -> Z.abs (fval t) <= 2 ^ 23 * fval s ->
  let t' := Nat.iter n (fun x => ramp_to_zero x s) t in
  fin t' /\ (fval t' = 0 \/ 2 * Z.abs (fval t') <= 2 * Z.abs (fval t) - Z.of_nat n * fval s).
Proof.
  intros Ft Fs Hs H. cbv zeta. induction n as [|n [Fn IH]]; [change (Nat.iter 0 _ t) with t; split; [done|right; change (Z.of_nat 0) with 0; lia]|].
  rewrite Nat.iter_succ.
  set (x := Nat.iter n _ t) in *. assert (0 <= Z.of_nat n * fval s) by (apply Z.mul_nonneg_nonneg; lia). destruct (ramp_to_zero_step x s Fn Fs Hs) as [F D]; [lia|]. split; [done|].
  destruct D as [D|D]; [by left|]. rewrite Nat2Z.inj_succ. destruct IH as [IH|IH]; [rewrite IH in D; left; lia|right; lia].
Qed.

(** ** Exact operations and integers *)

(** An operation whose exact value is representable gives it. *)
Lemma f_sub_exact x y z : fin x -> fin y -> fin z -> fval z = fval x - fval y -> fin (f_sub x y) /\ fval (f_sub x y) = fval z.
Proof.
  intros Fx Fy Fz E. assert (f_leb (f_sub x y) z = true) as U by (apply f_sub_le; done || lia).
  assert (f_leb z (f_sub x y) = true) as L by (apply f_sub_ge; done || lia).
  assert (fin (f_sub x y)) as F.
  { eapply (fin_between _ z z); try done; [rewrite f_sub_add; apply f_add_valid; [done|by apply fin_neg]|apply Fz..]. }
  split; [done|]. apply f_leb_val in L, U; done || lia.
Qed.
Lemma f_add_exact x y z : fin x -> fin y -> fin z -> fval z = fval x + fval y -> fin (f_add x y) /\ fval (f_add x y) = fval z.
Proof.
  intros Fx Fy Fz E. assert (f_leb (f_add x y) z = true) as U by (apply f_add_le; done || lia).
  assert (f_leb z (f_add x y) = true) as L by (apply f_add_ge; done || lia).
  assert (fin (f_add x y)) as F by (eapply (fin_between _ z z); try done; [by apply f_add_valid|apply Fz..]).
  split; [done|]. apply f_leb_val in L, U; done || lia.
Qed.

(** The bounds of a sum, a difference and a product between finite values are finite. *)
Lemma f_sub_range x y a b : fin x -> fin y -> fin a -> fin b -> fval a <= fval x - fval y <= fval b ->
  fin (f_sub x y) /\ fval a <= fval (f_sub x y) <= fval b.
Proof.
  intros Fx Fy Fa Fb [L U]. apply f_sub_ge in L; try done. apply f_sub_le in U; try done.
  assert (fin (f_sub x y)) as F.
  { eapply (fin_between _ a b); try done; [rewrite f_sub_add; apply f_add_valid; [done|by apply fin_neg]|apply Fa|apply Fb]. }
  split; [done|]. apply f_leb_val in L, U; done || lia.
Qed.
Lemma f_add_range x y a b : fin x -> fin y -> fin a -> fin b -> fval a <= fval x + fval y <= fval b ->
  fin (f_add x y) /\ fval a <= fval (f_add x y) <= fval b.
Proof.
  intros Fx Fy Fa Fb [L U]. apply f_add_ge in L; try done. apply f_add_le in U; try done.
  assert (fin (f_add x y)) as F by (eapply (fin_between _ a b); try done; [by apply f_add_valid|apply Fa|apply Fb]).
  split; [done|]. apply f_leb_val in L, U; done || lia.
Qed.
Lemma f_mul_range x y a b : fin x -> fin y -> fin a -> fin b ->
  fval a * 2 ^ 149 <= fval x * fval y <= fval b * 2 ^ 149 ->
  fin (f_mul x y) /\ fval a <= fval (f_mul x y) <= fval b.
Proof.
  intros Fx Fy Fa Fb [L U]. apply f_mul_ge in L; try done. apply f_mul_le in U; try done.
  assert (fin (f_mul x y)) as F by (eapply (fin_between _ a b); try done; [by apply f_mul_valid|apply Fa|apply Fb]).
  split; [done|]. apply f_leb_val in L, U; done || lia.
Qed.

(** The conversion of an integer that some float equals. *)
Lemma f_of_Z_fval z x : fin x -> fval x = z * 2 ^ 149 -> fin (f_of_Z z) /\ fval (f_of_Z z) = z * 2 ^ 149.
Proof.
  intros Fx E. assert (f_leb (f_of_Z z) x = true) as U by (apply normalize_le; [lia|done|]; cbn; lia).
  assert (f_leb x (f_of_Z z) = true) as L by (apply normalize_ge; [lia|done|]; cbn; lia).
  assert (fin (f_of_Z z)) as F by (eapply (fin_between _ x x); try done; [apply f_of_Z_valid|apply Fx..]).
  split; [done|]. apply f_leb_val in L, U; done || lia.
Qed.
Lemma f_of_Z_small z : Z.abs z < 2 ^ 24 -> fin (f_of_Z z) /\ fval (f_of_Z z) = z * 2 ^ 149.
Proof.
  intros H. destruct (representable (Z.abs z) 0) as (x & Fx & Vx); [lia|lia|].
  destruct (Z_le_gt_dec 0 z); [apply (f_of_Z_fval z x)|apply (f_of_Z_fval z (f_neg x))];
    rewrite ?fin_neg, ?fval_neg; done || (change (0 + 149) with 149 in Vx; lia).
Qed.

(** Truncation: toward zero in units of one, and representable. *)
Lemma f_trunc_val x : fin x -> exists z, f_trunc x = Some z /\ z = Z.quot (fval x) (2 ^ 149) /\
  fin (f_of_Z z) /\ fval (f_of_Z z) = z * 2 ^ 149.
Proof.
  intros F. destruct x as [s| | |s m e]; try (by destruct F). { by exists 0. }
  pose proof (proj2 F) as V. apply f_valid_canon in V as [(Hm & He & _) Le].
  cbn [f_trunc]. eexists; split; [reflexivity|].
  assert ((if 0 <=? e then Zpos m * 2 ^ e else Zpos m / 2 ^ (- e)) = Zpos m * 2 ^ (e + 149) / 2 ^ 149) as Ez.
  { case_if; bool_prop.
    - rewrite Z.pow_add_r, Z.mul_assoc, Z.div_mul by lia. done.
    - replace 149 with ((e + 149) + (- e)) at 2 by lia. rewrite (Z.pow_add_r 2 (e + 149)) by lia.
      rewrite (Z.mul_comm (Zpos m)), Z.div_mul_cancel_l; [done|apply Z.pow_nonzero; lia..]. }
  pose proof (Z.pow_pos_nonneg 2 (e + 149) ltac:(lia) ltac:(lia)) as P.
  assert (cond_Zopp s (if 0 <=? e then Zpos m * 2 ^ e else Zpos m / 2 ^ (- e)) = Z.quot (fval (S754_finite s m e)) (2 ^ 149)) as Eq.
  { rewrite Ez. cbn [fval]. destruct s; cbn [cond_Zopp].
    - replace (-1 * Zpos m * 2 ^ (e + 149)) with (- (Zpos m * 2 ^ (e + 149))) by lia.
      rewrite Z.quot_opp_l by lia. rewrite Z.quot_div_nonneg by lia. done.
    - rewrite Z.mul_1_l, Z.quot_div_nonneg by lia. done. }
  split; [exact Eq|]. case_if; bool_prop.
  - apply (f_of_Z_fval _ (S754_finite s m e) F). cbn [fval]. rewrite Z.pow_add_r by lia. destruct s; cbn [cond_Zopp]; lia.
  - apply f_of_Z_small. assert (Zpos m / 2 ^ (- e) <= Zpos m) by (apply Z.div_le_upper_bound; [apply Z.pow_pos_nonneg; lia|];
      pose proof (Z.pow_pos_nonneg 2 (- e) ltac:(lia) ltac:(lia)); nia).
    assert (0 <= Zpos m / 2 ^ (- e)) by (apply Z.div_pos; [lia|apply Z.pow_pos_nonneg; lia]). destruct s; cbn [cond_Zopp]; lia.
Qed.

(** The next float above a positive one is one unit in the last place away. *)
Lemma next_above m e y : canon (Zpos m) e -> fin y -> fval (S754_finite false m e) < fval y ->
  fval (S754_finite false m e) + 2 ^ (e + 149) <= fval y.
Proof.
  intros (Hm & He & C) Fy H. destruct y as [s| | |s n f]; try (by destruct Fy).
  { cbn in H. pose proof (Z.pow_pos_nonneg 2 (e + 149)). lia. }
  pose proof (proj2 Fy) as V. apply f_valid_canon in V as [(Hn & Hf & _) _].
  pose proof (Z.pow_pos_nonneg 2 (e + 149) ltac:(lia) ltac:(lia)) as Pe. pose proof (Z.pow_pos_nonneg 2 (f + 149) ltac:(lia) ltac:(lia)) as Pf.
  cbn [fval] in *. destruct s; [nia|]. rewrite !Z.mul_1_l in *.
  destruct (Z_le_gt_dec e f) as [Le|Gt].
  - replace (2 ^ (f + 149)) with (2 ^ (f - e) * 2 ^ (e + 149)) in H |- * by (rewrite <- Z.pow_add_r by lia; f_equal; lia).
    rewrite Z.mul_assoc in H |- *. apply Z.mul_lt_mono_pos_r in H; [|done].
    rewrite <- (Z.mul_1_l (2 ^ (e + 149))) at 2. rewrite <- Z.mul_add_distr_r. apply Z.mul_le_mono_nonneg_r; lia.
  - exfalso. assert (2 ^ (f + 149) * 2 <= 2 ^ (e + 149)).
    { replace (2 ^ (f + 149) * 2) with (2 ^ (f + 149 + 1)) by (rewrite Z.pow_add_r by lia; lia). apply Z.pow_le_mono_r; lia. }
    destruct C as [C|C]; [|lia].
    assert (2 ^ 23 * 2 ^ (e + 149) <= Zpos m * 2 ^ (e + 149)) by (apply Z.mul_le_mono_nonneg_r; lia).
    assert (Zpos n * 2 ^ (f + 149) <= 2 ^ 24 * 2 ^ (f + 149)) by (apply Z.mul_le_mono_nonneg_r; lia).
    change (2 ^ 24) with (2 ^ 23 * 2) in *. lia.
Qed.

(** ** Results of valid operands are valid, the infinite ones too *)
Lemma valid_cases x : f_valid x = true -> fin x \/ is_finite x = false.
Proof. intros V. destruct (is_finite x) eqn:F; [by left|by right]. Qed.
Lemma f_mul_v x y : f_valid x = true -> f_valid y = true -> f_valid (f_mul x y) = true.
Proof.
  intros Vx Vy. destruct (valid_cases x Vx) as [Fx|Fx], (valid_cases y Vy) as [Fy|Fy]; [by apply f_mul_valid|..];
    destruct x, y; done.
Qed.
Lemma f_div_v x y : f_valid x = true -> f_valid y = true -> f_valid (f_div x y) = true.
Proof.
  intros Vx Vy. destruct (valid_cases x Vx) as [Fx|Fx], (valid_cases y Vy) as [Fy|Fy]; [by apply f_div_valid|..];
    destruct x, y; done.
Qed.
Lemma f_add_v x y : f_valid x = true -> f_valid y = true -> f_valid (f_add x y) = true.
Proof.
  intros Vx Vy. destruct (valid_cases x Vx) as [Fx|Fx], (valid_cases y Vy) as [Fy|Fy]; [by apply f_add_valid|..];
    destruct x as [[]|[]| |], y as [[]|[]| |]; done.
Qed.

Lemma sqrt_aligned m e : canon (Zpos m) e -> exists q g l,
  f_sqrt (S754_finite false m e) = binary_round_aux 24 128 false q g l /\ 0 <= q /\ g <= fexp 24 128 (Zdigits2 q + g).
Proof.
  intros (Hm & He & _). unfold f_sqrt, SFsqrt, SFsqrt_core_binary.
  set (d := Zdigits2 (Zpos m)). set (g := Z.min (fexp 24 128 (Z.div2 (d + e + 1))) (Z.div2 e)).
  assert (0 <= e - 2 * g) as Hs.
  { pose proof (Z.div2_odd e) as O. destruct (Z.odd e); cbn [Z.b2z] in O; unfold g; lia. }
  set (m' := Zpos m * 2 ^ (e - 2 * g)).
  assert ((match e - 2 * g with 0 => Zpos m | Zpos _ => Z.shiftl (Zpos m) (e - 2 * g) | Zneg _ => 0 end) = m') as ->.
  { unfold m'. destruct (e - 2 * g) as [|p|p] eqn:E; [lia| |lia]. rewrite Z.shiftl_mul_pow2 by lia. done. }
  assert (0 <= m') as Hm' by (unfold m'; pose proof (Z.pow_pos_nonneg 2 (e - 2 * g)); lia).
  pose proof (Z.sqrtrem_spec m' Hm') as S. destruct (Z.sqrtrem m') as [q r] eqn:Eq. destruct S as [S1 S2].
  assert (0 <= q) as Hq by (pose proof (Z.sqrtrem_sqrt m') as T; rewrite Eq in T; cbn in T; subst q; apply Z.sqrt_nonneg).
  eexists q, g, _. split; [reflexivity|]. split; [done|].
  (* the digits of the root *)
  destruct (Zdigits2_bounds (Zpos m)) as [[L U] P]; [lia|]. fold d in L, U, P.
  assert (Z.div2 (d + e + 1) <= Zdigits2 q + g) as Hd.
  { set (h := Z.div2 (d + e + 1) - g). destruct (Z_le_gt_dec h 0) as [|G]; [pose proof (eq_refl : h = Z.div2 (d + e + 1) - g);
      assert (0 <= Zdigits2 q) by (destruct q; cbn; lia); lia|].
    assert (h - 1 < Zdigits2 q); [|unfold h in *; lia]. apply Zdigits2_ge; [lia|].
    assert (2 * (h - 1) <= (d - 1) + (e - 2 * g)) as Hh.
    { unfold h. pose proof (Z.div2_odd (d + e + 1)). destruct (Z.odd (d + e + 1)); cbn [Z.b2z] in *; lia. }
    assert (2 ^ (h - 1) * 2 ^ (h - 1) <= m') as Hle.
    { rewrite <- Z.pow_add_r by lia. unfold m'. transitivity (2 ^ ((d - 1) + (e - 2 * g))); [apply Z.pow_le_mono_r; lia|].
      rewrite Z.pow_add_r by lia. apply Z.mul_le_mono_nonneg_r; [apply Z.pow_nonneg; lia|done]. }
    destruct (Z_le_gt_dec (2 ^ (h - 1)) q) as [|C]; [done|exfalso]. nia. }
  clear S1 S2 Eq m' Hm' Hs. unfold g, fexp, emin in *. lia.
Qed.
Lemma f_sqrt_v x : f_valid x = true -> f_valid (f_sqrt x) = true.
Proof.
  intros V. destruct x as [|[]| |[] m e]; try done. apply f_valid_canon in V as [C _].
  destruct (sqrt_aligned m e C) as (q & g & l & -> & Hq & A). by apply round_pos_valid.
Qed.
#[export] Hint Resolve f_mul_v f_div_v f_add_v f_sqrt_v : float.

(** ** Ratios and scaling *)

(** A ratio: finite, between 0 and 1. *)
Definition ratio (r : float) : Prop := fin r /\ f_leb f_zero r = true /\ f_leb r f_one = true.

(** [y] is [x] scaled down: the same direction, not larger. *)
Definition scaled (x y : float) : Prop :=
  fin y /\ (0 <= fval x -> 0 <= fval y <= fval x) /\ (fval x <= 0 -> fval x <= fval y <= 0).

Lemma scaled_refl x : fin x -> scaled x x.
Proof. intros F. split; [done|]. lia. Qed.
Lemma scaled_trans x y z : scaled x y -> scaled y z -> scaled x z.
Proof. intros (F1 & A1 & B1) (F2 & A2 & B2). split; [done|]. lia. Qed.
Lemma scaled_mul x r : fin x -> ratio r -> scaled x (f_mul x r).
Proof.
  intros Fx (Fr & R0 & R1). apply f_leb_val in R0, R1; try done. rewrite fval_one in R1. rewrite fval_zero in R0.
  destruct (Z_le_gt_dec 0 (fval x)) as [H|H].
  - destruct (f_mul_range x r f_zero x) as [F B]; [done..|rewrite fval_zero; nia|]. rewrite fval_zero in B. split; [done|]. lia.
  - destruct (f_mul_range x r x f_zero) as [F B]; [done..|rewrite fval_zero; nia|]. rewrite fval_zero in B. split; [done|]. lia.
Qed.

Lemma f_mul_square x : fin x -> f_leb f_zero (f_mul x x) = true.
Proof. intros F. apply f_mul_ge; [done..|]. rewrite fval_zero. nia. Qed.
Lemma f_add_nonneg x y : f_valid x = true -> f_valid y = true -> f_leb f_zero x = true -> f_leb f_zero y = true ->
  f_leb f_zero (f_add x y) = true.
Proof.
  intros Vx Vy Hx Hy. destruct (valid_cases x Vx) as [Fx|Fx], (valid_cases y Vy) as [Fy|Fy].
  - apply f_leb_val in Hx, Hy; try done. apply f_add_ge; try done. rewrite fval_zero in *. lia.
  - destruct y as [|[]| |], x as [[]|[]| |[]]; done.
  - destruct y as [[]|[]| |[]], x as [|[]| |]; done.
  - destruct y as [|[]| |], x as [|[]| |]; done.
Qed.
Lemma f_sqrt_nonneg x : f_valid x = true -> f_leb f_zero x = true -> f_leb f_zero (f_sqrt x) = true.
Proof.
  intros V H. destruct x as [|[]| |[] m e]; try done. apply f_valid_canon in V as [C _].
  destruct (sqrt_aligned m e C) as (q & g & l & -> & Hq & A).
  destruct (round_aux_spec false q g l Hq A) as (q' & f' & -> & C' & _).
  apply pack_ge; [done|done|]. destruct C' as (? & ? & _). rewrite fval_zero. pose proof (Z.pow_pos_nonneg 2 (f' + 149)). nia.
Qed.
Lemma Hypot_nonneg x y : fin x -> fin y -> f_valid (Hypot x y) = true /\ f_leb f_zero (Hypot x y) = true.
Proof.
  intros Fx Fy. unfold Hypot. pose proof (f_mul_valid x x Fx Fx). pose proof (f_mul_valid y y Fy Fy).
  split; [auto with float|]. apply f_sqrt_nonneg; [auto with float|]. apply f_add_nonneg; auto using f_mul_square.
Qed.

(** The quotient of a smaller by a larger, possibly infinite, value. *)
Lemma f_div_smaller x y : fin x -> f_valid y = true -> f_leb f_zero x = true -> f_ltb x y = true -> ratio (f_div x y).
Proof.
  intros Fx Vy Hx H. destruct (valid_cases y Vy) as [Fy|Fy].
  - assert (f_ltb f_zero y = true) as P.
    { apply f_leb_val in Hx; try done. apply f_ltb_val in H; try done. apply f_ltb_val; try done. lia. }
    destruct (f_div_ratio x y Fx Fy Hx P) as (F & L & U); [by apply f_ltb_leb|done].
  - destruct y as [|[]| |]; try done.
    + by destruct x as [|[]| |[]].
    + by destruct x as [[]|[]| |[]]; destruct Fx.
    + by destruct x as [|[]| |[]].
Qed.
Lemma f_div_neg_neg x y : f_div (f_neg x) (f_neg y) = f_div x y.
Proof. by destruct x as [[]|[]| |[]], y as [[]|[]| |[]]. Qed.
Lemma f_ltb_neg x y : f_ltb (f_neg x) (f_neg y) = f_ltb y x.
Proof. unfold f_ltb, SFltb. rewrite SFcompare_neg. done. Qed.
Lemma f_sub_pos x y : fin x -> fin y -> fval y < fval x -> f_leb f_zero (f_sub x y) = true /\ f_ltb f_zero (f_sub x y) = true.
Proof.
  intros Fx Fy H. assert (f_leb (S754_finite false 1 (-149)) (f_sub x y) = true) as L by (apply f_sub_ge; try done; cbn; lia).
  assert (f_ltb f_zero (f_sub x y) = true); [|split; [by apply f_ltb_leb|done]].
  destruct (f_sub x y) as [|[]| |[]]; done.
Qed.

(** Not negative, or not a number. *)
Definition nn (x : float) : Prop := f_valid x = true /\ (is_nan x = true \/ f_leb f_zero x = true).
Lemma nn_of x : f_valid x = true -> f_leb f_zero x = true -> nn x.
Proof. intros V L. split; [done|by right]. Qed.
Lemma nn_mul x y : nn x -> nn y -> nn (f_mul x y).
Proof.
  intros [Vx Hx] [Vy Hy]. split; [auto with float|].
  destruct Hx as [Hx|Hx]; [left; destruct x; try done; by destruct y|].
  destruct Hy as [Hy|Hy]; [left; destruct y; try done; by destruct x as [[]|[]| |[]]|].
  destruct (valid_cases x Vx) as [Fx|Fx], (valid_cases y Vy) as [Fy|Fy].
  - right. by apply f_mul_nonneg.
  - destruct y as [|[]| |], x as [[]|[]| |[]]; try done; auto.
  - destruct x as [|[]| |], y as [[]|[]| |[]]; try done; auto.
  - destruct x as [|[]| |], y as [|[]| |]; try done; auto.
Qed.
Lemma nn_div x y : nn x -> f_valid y = true -> f_ltb f_zero y = true -> nn (f_div x y).
Proof.
  intros [Vx Hx] Vy Hy. split; [auto with float|].
  destruct Hx as [Hx|Hx]; [left; destruct x; try done; by destruct y|].
  destruct (valid_cases x Vx) as [Fx|Fx], (valid_cases y Vy) as [Fy|Fy].
  - right. apply f_leb_val in Hx; try done. apply f_ltb_val in Hy; try done. by apply f_div_nonneg.
  - destruct y as [|[]| |], x as [[]|[]| |[]]; try done; auto.
  - destruct x as [|[]| |], y as [[]|[]| |[]]; try done; auto.
  - destruct x as [|[]| |], y as [|[]| |]; try done; auto.
Qed.
