(* ===== verification/EdgeUart.v ===== *)
(** * Edge-timed UART decoder of the e-bike display line

    lib/ebike/src/edge_uart_decoder.hpp: class [EdgeUartDecoder] decodes 8N1
    frames from time-stamped level edges.  The 32-bit tick counter wraps; the
    sample instant is compared by the sign of the 32-bit difference. *)
From Stdlib Require Import ZArith Lia Bool.
From stdpp Require Import base list.
From S2P Require Import Prelude.

#[local] Open Scope Z_scope.
#[local] Open Scope unimoc_scope.

Module EdgeUart.

(** ** State and operations *)
Record UartEdge := mkUartEdge { ticks : Z; level : bool }.

Record t := mk {
  ticks_per_bit_ : Z;
  level_ : bool;
  in_frame_ : bool;
  start_ticks_ : Z;
  bit_ : Z;
  data_ : Z;
  fifo_ : list Z;
  read_ : Z;
  count_ : Z;
  framing_errors_ : Z;
  overruns_ : Z }.
#[export] Instance eta_t : Eta t := fun s =>
  mk (ticks_per_bit_ s) (level_ s) (in_frame_ s) (start_ticks_ s) (bit_ s) (data_ s)
     (fifo_ s) (read_ s) (count_ s) (framing_errors_ s) (overruns_ s).

Definition kFifoSize : Z := 32.
Definition kStopBit : Z := 9.

Definition EdgeUartDecoder (ticks_per_bit : Z) : t :=
  mk ticks_per_bit true false 0 0 0 (replicate 32 0) 0 0 0 0.

Definition Store (byte : Z) (s : t) : t :=
  if count_ s =? kFifoSize then s.{overruns_ := u32 (overruns_ s + 1)}
  else s.{fifo_ := array_set ((read_ s + count_ s) mod kFifoSize) byte (fifo_ s)}
        .{count_ := count_ s + 1}.

(** The instant of the middle of bit [bit_]. *)
Definition kSampleAt (s : t) : Z :=
  u32 (start_ticks_ s + u32 (u32 (2 * bit_ s + 1) * ticks_per_bit_ s) / 2).

(** One iteration of the loop of SampleUntil(): [None] when the body returns. *)
Definition sample_step (until : Z) (s : t) : t * bool :=
  if i32 (until - kSampleAt s) <=? 0 then (s, false)
  else if bit_ s =? 0 then
    if level_ s then (s.{in_frame_ := false}, false)
    else (s.{bit_ := bit_ s + 1}, true)
  else if bit_ s <? kStopBit then
    (s.{data_ := u8 (Z.lor (data_ s) (Z.shiftl (if level_ s then 1 else 0) (bit_ s - 1)))}
      .{bit_ := bit_ s + 1}, true)
  else
    let s := s.{in_frame_ := false} in
    if level_ s then (Store (data_ s) s, false)
    else (s.{framing_errors_ := u32 (framing_errors_ s + 1)}, false).

Fixpoint sample_loop (fuel : nat) (until : Z) (s : t) : t :=
  match fuel with
  | O => s
  | S fuel =>
      if in_frame_ s then
        let '(s, continue) := sample_step until s in
        if continue then sample_loop fuel until s else s
      else s
  end.

(** The bit counter of a frame runs from 0 to 9: ten iterations end the loop
    ([sample_loop_fuel]). *)
Definition SampleUntil (until : Z) (s : t) : t := sample_loop 11 until s.

Definition Push (edge : UartEdge) (s : t) : t :=
  let s := SampleUntil (ticks edge) s in
  let s := if negb (in_frame_ s) && level_ s && negb (level edge)
           then s.{in_frame_ := true}.{start_ticks_ := ticks edge}.{bit_ := 0}.{data_ := 0}
           else s in
  s.{level_ := level edge}.

Definition Poll (now : Z) (s : t) : t := SampleUntil now s.

Definition Pop (s : t) : option Z * t :=
  if count_ s =? 0 then (None, s)
  else (Some (array_get 0 (fifo_ s) (read_ s)),
        s.{read_ := (read_ s + 1) mod kFifoSize}.{count_ := count_ s - 1}).


(** ** Invariant, abstract queue and transmitted frame *)
Record wf (s : t) : Prop := {
  wf_fifo : length (fifo_ s) = 32%nat;
  wf_read : 0 <= read_ s < kFifoSize;
  wf_count : 0 <= count_ s <= kFifoSize;
  wf_bit : 0 <= bit_ s <= kStopBit;
  wf_data : in_u 8 (data_ s);
  wf_bytes : Forall (in_u 8) (fifo_ s) }.

(** The received bytes, oldest first. *)
Definition contents (s : t) : list Z :=
  (fun i => array_get 0 (fifo_ s) ((read_ s + Z.of_nat i) mod kFifoSize)) <$>
  seq 0 (Z.to_nat (count_ s)).

(** A frame of the byte [b] that starts at tick [start], with [T] ticks per
    bit. *)
Section FrameDefinitions.
Context (b start T : Z).

(** The line levels of the ten bits: start, data (LSB first), stop. *)
Definition frame_level (k : Z) : bool :=
  if k <=? 0 then false else if k <=? 8 then Z.testbit b (k - 1) else true.
Definition boundary (k : Z) : Z := u32 (start + k * T).

(** The edges of the frame from bit [k] on, after a line level [prev]. *)
Fixpoint frame_edges (n : nat) (k : Z) (prev : bool) : list UartEdge :=
  match n with
  | O => []
  | S n =>
      let l := frame_level k in
      (if Bool.eqb l prev then [] else [mkUartEdge (boundary k) l]) ++ frame_edges n (k + 1) l
  end.

(** The decoder in bit [j] of the frame, the line at level [L]. *)
Definition mid (s : t) (j : Z) (L : bool) : t :=
  s.{in_frame_ := true}.{start_ticks_ := u32 start}.{bit_ := j}
   .{data_ := b mod 2 ^ Z.max 0 (j - 1)}.{level_ := L}.

(** The whole frame, received by an idle decoder. *)
Definition receive_frame (s : t) : t :=
  Poll (boundary 10) (foldl (fun s e => Push e s) s (frame_edges 10 0 true)).

End FrameDefinitions.

(** Every state a caller can bring the decoder into. *)
Inductive reachable (tpb : Z) : t -> Prop :=
| reachable_init : reachable tpb (EdgeUartDecoder tpb)
| reachable_push e s : reachable tpb s -> reachable tpb (Push e s)
| reachable_poll now s : reachable tpb s -> reachable tpb (Poll now s)
| reachable_pop s : reachable tpb s -> reachable tpb (Pop s).2.

(** ** Lemmas *)

Lemma EdgeUartDecoder_wf tpb : wf (EdgeUartDecoder tpb).
Proof. split; cbn; unfold kFifoSize, kStopBit, in_u; try lia. repeat constructor; lia. Qed.

Lemma Store_wf byte s : in_u 8 byte -> wf s -> wf (Store byte s).
Proof.
  intros Hb [? ? ? ? ? ?]. unfold Store. case_if; bool_prop; split; cbn; try done.
  - now rewrite length_array_set.
  - lia.
  - now apply Forall_insert.
Qed.

Lemma sample_step_wf until s : wf s -> wf (sample_step until s).1.
Proof.
  intros H. pose proof H as [? ? ? ? ? ?]. unfold sample_step, kStopBit in *.
  repeat (case_if; bool_prop); cbn; try done;
    first [ apply Store_wf; [done|]; by split
          | split; cbn; unfold kStopBit; first [done | lia | apply wrap_in_u; lia] ].
Qed.

Lemma sample_loop_wf fuel until s : wf s -> wf (sample_loop fuel until s).
Proof.
  revert s; induction fuel as [|fuel IH]; intros s Hs; cbn; [done|].
  case_if; [|done]. pose proof (sample_step_wf until s Hs) as Hw.
  destruct (sample_step until s) as [s' []]; cbn in *; auto.
Qed.

Lemma Push_wf e s : wf s -> wf (Push e s).
Proof.
  intros Hs. pose proof (sample_loop_wf 11 (ticks e) s Hs) as [? ? ? ? ? ?].
  unfold Push, SampleUntil. cbv zeta. case_if; split; cbn; unfold kStopBit, in_u; done || lia.
Qed.

Lemma Pop_wf s : wf s -> wf (Pop s).2.
Proof.
  intros H. pose proof H as [? ? ? ? ? ?]. unfold Pop. case_if; bool_prop; [done|].
  split; cbn; try done; [|lia]. apply Z.mod_pos_bound. done.
Qed.

(** ** The loop ends *)

(** A step that asks for another one advances [bit_], inside a frame. *)
Lemma sample_step_progress until s s' :
  0 <= bit_ s <= kStopBit -> sample_step until s = (s', true) ->
  bit_ s' = bit_ s + 1 /\ bit_ s < kStopBit.
Proof.
  intros Hb. unfold sample_step, kStopBit in *.
  repeat case_if; bool_prop; intros [=]; subst; cbn; lia.
Qed.

Lemma sample_loop_fuel fuel until s :
  wf s -> (Z.to_nat (kStopBit - bit_ s) < fuel)%nat ->
  sample_loop (S fuel) until s = sample_loop fuel until s.
Proof.
  revert s; induction fuel as [|fuel IH]; intros s Hs Hf; [lia|].
  change (sample_loop (S (S fuel)) until s) with
    (if in_frame_ s then
       let '(s, continue) := sample_step until s in
       if continue then sample_loop (S fuel) until s else s
     else s).
  change (sample_loop (S fuel) until s) with
    (if in_frame_ s then
       let '(s, continue) := sample_step until s in
       if continue then sample_loop fuel until s else s
     else s).
  destruct (in_frame_ s); [|done]. pose proof (sample_step_wf until s Hs) as Hw.
  destruct (sample_step until s) as [s' []] eqn:E; [|done].
  destruct (sample_step_progress until s s') as [? ?]; [apply Hs|done|].
  apply IH; [done|]. unfold kStopBit in *. lia.
Qed.

(** ** The received bytes as a queue *)
Lemma length_contents s : wf s -> Z.of_nat (length (contents s)) = count_ s.
Proof. intros Hs. unfold contents. rewrite length_fmap, length_seq. pose proof (wf_count s Hs). lia. Qed.

Lemma contents_Store byte s : wf s -> count_ s < kFifoSize -> contents (Store byte s) = contents s ++ [byte].
Proof.
  intros [Hf Hr Hc _ _ _] Hlt. unfold Store, contents, kFifoSize in *.
  case_if; bool_prop; [lia|]. cbn.
  replace (Z.to_nat (count_ s + 1)) with (Z.to_nat (count_ s) + 1)%nat by lia.
  rewrite seq_app, fmap_app. f_equal.
  - apply list_fmap_ext. intros i x Hi. apply lookup_seq in Hi as [-> Hi].
    rewrite array_get_set_ne; try apply Z.mod_pos_bound; try done.
    intros Heq. assert ((read_ s + count_ s - (read_ s + Z.of_nat (0 + i))) mod 32 = 0) as H0.
    { rewrite Zminus_mod, Heq, Z.sub_diag. done. }
    rewrite Z.mod_small in H0; lia.
  - cbn. f_equal. rewrite Z2Nat.id by lia.
    apply array_get_set_eq. pose proof (Z.mod_pos_bound (read_ s + count_ s) 32). lia.
Qed.

Lemma contents_Pop s : wf s ->
  match contents s with
  | [] => Pop s = (None, s)
  | byte :: rest => (Pop s).1 = Some byte /\ contents (Pop s).2 = rest
  end.
Proof.
  intros [Hf Hr Hc _ _ _]. unfold contents, Pop, kFifoSize in *.
  destruct (Z.eqb_spec (count_ s) 0) as [->|Hn]; [done|].
  replace (Z.to_nat (count_ s)) with (S (Z.to_nat (count_ s - 1))) by lia.
  cbn. rewrite Z.add_0_r, Z.mod_small by lia. split; [done|].
  rewrite <- fmap_S_seq, <- list_fmap_compose. apply list_fmap_ext. intros i x Hi. cbn.
  f_equal. rewrite Zplus_mod_idemp_l. f_equal. lia.
Qed.

(** ** Reception of an 8N1 frame *)
Section Frame.
(** A frame of the byte [b] that starts at tick [start], with [T] ticks per
    bit; the bit period is short enough for the signed 32-bit difference. *)
Context (b start T : Z) (Hb : in_u 8 b) (HT : 0 < T) (HT' : 20 * T < 2 ^ 31).

#[local] Abbreviation frame_level := (frame_level b).
#[local] Abbreviation boundary := (boundary start T).
#[local] Abbreviation frame_edges := (frame_edges b start T).
#[local] Abbreviation mid := (mid b start).
#[local] Abbreviation receive_frame := (receive_frame b start T).

Lemma sample_offset s j m L :
  0 <= j <= 9 -> 0 <= m <= 10 -> ticks_per_bit_ s = T ->
  i32 (boundary m - kSampleAt (mid s j L)) = m * T - (2 * j + 1) * T / 2.
Proof.
  intros Hj Hm HTs. unfold kSampleAt, boundary, mid. cbn. rewrite HTs.
  rewrite !(wrap_id 32 (2 * j + 1)) by (unfold in_u; lia).
  rewrite (wrap_id 32 ((2 * j + 1) * T)) by (unfold in_u; nia).
  set (q := (2 * j + 1) * T / 2).
  assert (2 * q <= (2 * j + 1) * T < 2 * q + 2) by
    (unfold q; generalize ((2 * j + 1) * T); intros p; pose proof (Z.div_mod p 2); pose proof (Z.mod_pos_bound p 2); lia).
  unfold i32, wrap.
  replace (((start + m * T) mod 2 ^ 32 - (start mod 2 ^ 32 + q) mod 2 ^ 32 + 2 ^ 31) mod 2 ^ 32)
    with ((m * T - q + 2 ^ 31) mod 2 ^ 32).
  - rewrite Z.mod_small by nia. lia.
  - rewrite (Zplus_mod_idemp_l start q).
    rewrite <- (Zplus_mod_idemp_l ((start + m * T) mod 2 ^ 32 - (start + q) mod 2 ^ 32)).
    rewrite <- Zminus_mod. rewrite Zplus_mod_idemp_l. f_equal. lia.
Qed.

(** Bit [j] is sampled before boundary [m] exactly when [j < m]. *)
Lemma offset_sign j m : (m * T - (2 * j + 1) * T / 2 <=? 0) = (m <=? j).
Proof.
  pose proof (Z.div_mod ((2 * j + 1) * T) 2 ltac:(done)).
  pose proof (Z.mod_pos_bound ((2 * j + 1) * T) 2 ltac:(done)).
  destruct (Z.leb_spec m j); [apply Z.leb_le | apply Z.leb_gt]; nia.
Qed.

#[local] Ltac bits_tac t :=
  repeat match goal with |- context [?x <? ?y] => destruct (Z.ltb_spec x y) end;
  try lia; destruct t; done.

Lemma data_step j : 1 <= j <= 8 ->
  u8 (Z.lor (b mod 2 ^ Z.max 0 (j - 1))
            (Z.shiftl (if Z.testbit b (j - 1) then 1 else 0) (j - 1))) = b mod 2 ^ Z.max 0 j.
Proof.
  intros Hj. unfold wrap. rewrite <- !Z.land_ones by lia.
  apply Z.bits_inj'; intros i Hi.
  rewrite !Z.land_spec, Z.lor_spec, Z.land_spec, !Z.testbit_ones_nonneg, Z.shiftl_spec by lia.
  assert ((if Z.testbit b (j - 1) then 1 else 0) = Z.b2z (Z.testbit b (j - 1))) as -> by (by case_if).
  destruct (Z.lt_trichotomy i (j - 1)) as [?|[->|?]].
  - rewrite (Z.testbit_neg_r _ (i - (j - 1))) by lia.
    bits_tac (Z.testbit b i).
  - rewrite Z.sub_diag, Z.b2z_bit0. bits_tac (Z.testbit b (j - 1)).
  - assert (Z.testbit (Z.b2z (Z.testbit b (j - 1))) (i - (j - 1)) = false) as ->
      by (destruct (Z.testbit b (j - 1)); cbn [Z.b2z]; [apply Z.bits_above_log2; cbn; lia | apply Z.bits_0]).
    bits_tac (Z.testbit b i).
Qed.

(** Between two bit boundaries of equal line level every pending bit is sampled. *)
Lemma sample_loop_advance s L n : forall j fuel m,
  0 <= j -> j + Z.of_nat n = m -> m <= 9 -> (n < fuel)%nat -> ticks_per_bit_ s = T ->
  (forall i, j <= i < m -> frame_level i = L) ->
  sample_loop fuel (boundary m) (mid s j L) = mid s m L.
Proof.
  induction n as [|n IH]; intros j fuel m Hj Hm Hm9 Hfuel HTs HL.
  - replace m with j by lia. destruct fuel as [|fuel]; [lia|].
    cbn. unfold sample_step. rewrite sample_offset, offset_sign by (done || lia).
    by rewrite Z.leb_refl.
  - destruct fuel as [|fuel]; [lia|]. cbn [sample_loop].
    change (in_frame_ (mid s j L)) with true. cbv iota. unfold sample_step.
    rewrite sample_offset, offset_sign, (proj2 (Z.leb_gt m j)) by (done || lia).
    change (bit_ (mid s j L)) with j. change (level_ (mid s j L)) with L.
    pose proof (HL j ltac:(lia)) as HLj. unfold frame_level in HLj.
    destruct (Z.eqb_spec j 0) as [->|Hj0].
    + cbn in HLj. subst L. rewrite <- (IH 1 fuel m); try done; try lia.
      intros i Hi; apply HL; lia.
    + unfold kStopBit. rewrite (proj2 (Z.ltb_lt j 9)) by lia.
      rewrite (proj2 (Z.leb_gt j 0)), (proj2 (Z.leb_le j 8)) in HLj by lia.
      rewrite <- (IH (j + 1) fuel m); try done; try lia; [|intros i Hi; apply HL; lia].
      f_equal. unfold mid. cbn. rewrite <- HLj, data_step by lia.
      now replace (j + 1 - 1) with j by lia.
Qed.

(** An edge inside the frame samples what lies before it. *)
Lemma Push_mid s j m L L' :
  0 <= j <= m -> m <= 9 -> ticks_per_bit_ s = T ->
  (forall i, j <= i < m -> frame_level i = L) ->
  Push (mkUartEdge (boundary m) L') (mid s j L) = mid s m L'.
Proof.
  intros Hj Hm HTs HL. unfold Push, SampleUntil. cbn [ticks level].
  rewrite (sample_loop_advance s L (Z.to_nat (m - j)) j 11 m); try done; lia.
Qed.

Lemma frame_edges_mid s n : forall k j L,
  0 <= j <= k -> k + Z.of_nat n = 10 -> ticks_per_bit_ s = T ->
  (forall i, j <= i < k -> frame_level i = L) ->
  exists j', 0 <= j' <= 9 /\ (forall i, j' <= i < 10 -> frame_level i = true \/ n = O) /\
    (n <> O -> foldl (fun s e => Push e s) (mid s j L) (frame_edges n k L) = mid s j' true).
Proof.
  induction n as [|n IH]; intros k j L Hj Hk HTs HL.
  - exists 0. split; [lia|]. split; [auto|done].
  - cbn [frame_edges]. destruct (Bool.eqb (frame_level k) L) eqn:E; cbn [app].
    + apply Bool.eqb_prop in E. destruct n as [|n'].
      * assert (k = 9) as -> by lia. cbn in E. subst L. exists j. split; [lia|]. split; [|done].
        intros i Hi; left. destruct (Z.eq_dec i 9) as [->|]; [done|]. apply HL; lia.
      * destruct (IH (k + 1) j L) as (j' & Hj' & Hl & Hf); try done; try lia.
        { intros i Hi. destruct (Z.eq_dec i k) as [->|]; [done|]. apply HL; lia. }
        exists j'. split; [done|]. split; [intros i Hi; left; destruct (Hl i Hi); done|].
        intros _. rewrite E. by apply Hf.
    + cbn [foldl]. rewrite Push_mid by (done || lia).
      destruct n as [|n'].
      * assert (k = 9) as -> by lia. cbn. exists 9. split; [lia|]. split; [|done].
        intros i Hi; left. by replace i with 9 by lia.
      * destruct (IH (k + 1) k (frame_level k)) as (j' & Hj' & Hl & Hf); try done; try lia.
        { intros i Hi. by replace i with k by lia. }
        exists j'. split; [done|]. split; [intros i Hi; left; destruct (Hl i Hi); done|].
        intros _. by apply Hf.
Qed.

(** The stop bit: the byte is stored and the frame ends. *)
Lemma Poll_stop s j :
  0 <= j <= 9 -> ticks_per_bit_ s = T -> (forall i, j <= i < 10 -> frame_level i = true) ->
  Poll (boundary 10) (mid s j true) =
    Store b ((mid s 9 true).{in_frame_ := false}).
Proof.
  intros Hj HTs HL. unfold Poll, SampleUntil.
  assert (Hstep : forall i, 1 <= i <= 8 -> frame_level i = true ->
    sample_step (boundary 10) (mid s i true) = (mid s (i + 1) true, true)).
  { intros i Hi HLi. unfold sample_step. rewrite sample_offset, offset_sign, (proj2 (Z.leb_gt 10 i)) by (done || lia).
    change (bit_ (mid s i true)) with i. change (level_ (mid s i true)) with true.
    rewrite (proj2 (Z.eqb_neq i 0)) by lia. unfold kStopBit. rewrite (proj2 (Z.ltb_lt i 9)) by lia.
    unfold frame_level in HLi. rewrite (proj2 (Z.leb_gt i 0)), (proj2 (Z.leb_le i 8)) in HLi by lia.
    f_equal. unfold mid. cbn. pose proof (data_step i Hi) as Hd. rewrite HLi in Hd. rewrite Hd.
    now replace (i + 1 - 1) with i by lia. }
  assert (Hdata : data_ ((mid s 9 true).{in_frame_ := false}) = b) by exact (Z.mod_small b (2 ^ 8) Hb).
  assert (Hlast : forall fuel, sample_loop (S fuel) (boundary 10) (mid s 9 true) =
    Store b ((mid s 9 true).{in_frame_ := false})).
  { intros fuel. cbn [sample_loop]. change (in_frame_ (mid s 9 true)) with true. cbv iota.
    unfold sample_step. rewrite sample_offset, offset_sign by (done || lia).
    transitivity (Store (data_ ((mid s 9 true).{in_frame_ := false})) ((mid s 9 true).{in_frame_ := false})).
    - done.
    - by rewrite Hdata. }
  assert (Hrun : forall n i, i + Z.of_nat n = 9 -> 1 <= i -> (forall l, i <= l < 10 -> frame_level l = true) ->
    forall fuel, sample_loop (S (n + fuel)) (boundary 10) (mid s i true) =
                 Store b ((mid s 9 true).{in_frame_ := false})).
  { induction n as [|n IH]; intros i Hi Hi1 Hl fuel.
    - replace i with 9 by lia. apply Hlast.
    - change (S n + fuel)%nat with (S (n + fuel)). cbn [sample_loop].
      change (in_frame_ (mid s i true)) with true. cbv iota.
      rewrite Hstep by (try apply Hl; lia). apply (IH (i + 1)); try lia. intros l Hll; apply Hl; lia. }
  destruct (Z.eq_dec j 0) as [->|]; [specialize (HL 0 ltac:(lia)); done|].
  replace 11%nat with (S (Z.to_nat (9 - j) + (10 - Z.to_nat (9 - j))))%nat by lia.
  apply Hrun; try done; lia.
Qed.

Lemma receive_frame_idle s :
  ticks_per_bit_ s = T -> in_frame_ s = false -> level_ s = true ->
  receive_frame s = Store b ((mid s 9 true).{in_frame_ := false}).
Proof.
  intros HTs Hidle Hlev. unfold receive_frame.
  assert (H0 : Push (mkUartEdge (boundary 0) false) s = mid s 0 false).
  { unfold Push, SampleUntil. cbn [sample_loop ticks level]. rewrite Hidle. cbv iota zeta.
    rewrite Hidle, Hlev. cbn. unfold mid, boundary. cbn. by rewrite Z.mod_1_r, Z.add_0_r. }
  change (frame_edges 10 0 true) with ([mkUartEdge (boundary 0) false] ++ frame_edges 9 1 false).
  rewrite foldl_app. cbn [foldl]. rewrite H0.
  destruct (frame_edges_mid s 9 1 0 false) as (j & Hj & Hl & Hf); try done; try lia.
  { intros i Hi. by replace i with 0 by lia. }
  rewrite Hf by done. apply Poll_stop; try done.
  intros i Hi. destruct (Hl i Hi); done.
Qed.
End Frame.

(** ** Properties *)

(** C11. An 8N1 frame of any byte, started at any tick of the wrapping counter,
    is received by an idle decoder: the byte is appended to the received bytes
    and the decoder is idle again, without a framing error. *)
Theorem frame_received (b start T : Z) (s : t) :
  in_u 8 b -> 0 < T -> 20 * T < 2 ^ 31 ->
  wf s -> ticks_per_bit_ s = T -> in_frame_ s = false -> level_ s = true -> count_ s < kFifoSize ->
  let s' := receive_frame b start T s in
  contents s' = contents s ++ [b] /\ in_frame_ s' = false /\ level_ s' = true /\
  framing_errors_ s' = framing_errors_ s /\ overruns_ s' = overruns_ s.
Proof.
  intros Hb HT HT' Hs HTs Hidle Hlev Hc. cbv zeta.
  rewrite receive_frame_idle by done.
  set (s0 := (mid b start s 9 true).{in_frame_ := false}).
  assert (Hs0 : wf s0).
  { destruct Hs as [? ? ? ? ? ?]. split; cbn -[Z.pow Z.modulo]; try done;
      first [apply (Z.mod_pos_bound b (2 ^ 8)); done | unfold kStopBit; lia]. }
  change (contents s) with (contents s0). rewrite contents_Store by done.
  unfold Store. change (count_ s0) with (count_ s). by rewrite (proj2 (Z.eqb_neq _ _)) by lia.
Qed.

Lemma frame_received_witness :
  contents (receive_frame 90 4294967200 104 (EdgeUartDecoder 104)) = [] ++ [90] /\
  in_u 8 90.
Proof.
  split; [|unfold in_u; lia].
  apply (frame_received 90 4294967200 104 (EdgeUartDecoder 104)).
  all: first [apply EdgeUartDecoder_wf | unfold in_u; lia | done].
Defined.

(** The ring buffer is a bounded queue of 32 bytes: Store() appends, or
    counts an overrun and keeps the queue when it is full; Pop() takes the
    oldest byte. *)
Theorem fifo_refines_queue (s : t) (byte : Z) :
  wf s ->
  (if Z.of_nat (length (contents s)) =? 32
   then contents (Store byte s) = contents s /\ overruns_ (Store byte s) = u32 (overruns_ s + 1)
   else contents (Store byte s) = contents s ++ [byte] /\ overruns_ (Store byte s) = overruns_ s) /\
  match contents s with
  | [] => Pop s = (None, s)
  | oldest :: rest => (Pop s).1 = Some oldest /\ contents (Pop s).2 = rest
  end.
Proof.
  intros Hs. split; [|by apply contents_Pop].
  rewrite length_contents by done. destruct (Z.eqb_spec (count_ s) 32) as [E|E].
  - unfold Store. by rewrite E.
  - rewrite contents_Store by (pose proof (wf_count s Hs); unfold kFifoSize in *; done || lia).
    split; [done|]. unfold Store, kFifoSize. by rewrite (proj2 (Z.eqb_neq _ _) E).
Qed.

Lemma fifo_refines_queue_witness :
  contents (Store 7 (EdgeUartDecoder 104)) = [7].
Proof. apply (fifo_refines_queue (EdgeUartDecoder 104) 7). apply EdgeUartDecoder_wf. Defined.

(** Every reachable state keeps the array index, the bit number and the
    bytes in range, and the sampling loop of such a state ends after at most
    ten iterations: more fuel gives the same state. *)
Theorem reachable_wf (tpb : Z) (s : t) :
  reachable tpb s ->
  wf s /\ forall (now : Z) (fuel : nat), (10 <= fuel)%nat -> sample_loop fuel now s = SampleUntil now s.
Proof.
  intros H. assert (Hs : wf s).
  { induction H; auto using EdgeUartDecoder_wf, Push_wf, Pop_wf. by apply sample_loop_wf. }
  split; [done|]. intros now fuel Hf. unfold SampleUntil.
  assert (Hk : forall n, sample_loop (10 + n) now s = sample_loop 10 now s).
  { induction n as [|n IH]; [done|].
    rewrite <- IH. replace (10 + S n)%nat with (S (10 + n)) by lia.
    apply sample_loop_fuel; [done|]. pose proof (wf_bit s Hs). unfold kStopBit in *. lia. }
  replace fuel with (10 + (fuel - 10))%nat by lia. rewrite Hk. symmetry. exact (Hk 1%nat).
Qed.

Lemma reachable_wf_witness :
  wf (Push (mkUartEdge 5 false) (EdgeUartDecoder 104)).
Proof. apply (reachable_wf 104). apply reachable_push, reachable_init. Defined.

End EdgeUart.
