(* ===== verification/Kunteng.v ===== *)
(** * Kunteng e-bike display protocol

    lib/ebike/src/kunteng_protocol.hpp: the 12-byte controller frame, the
    13-byte display frame and the stream decoder [DisplayDecoder] with its
    learned checksum seed.  A byte is a [Z] below 256, an array a list of its
    size, a [float] a binary32 value. *)
From Stdlib Require Import ZArith Lia Bool SpecFloat.
From stdpp Require Import base list.
From S2P Require Import Prelude Float32.

#[local] Open Scope Z_scope.
#[local] Open Scope unimoc_scope.

Module Kunteng.

Definition kControllerFrameSize : nat := 12.
Definition kDisplayFrameSize : nat := 13.

(** The enumerators carry the byte of the protocol. *)
Inductive BatteryLevel := kBelowEmpty | kEmpty | kOneBar | kTwoBars | kThreeBars | kFourBars.
Definition battery_level_byte (l : BatteryLevel) : Z :=
  match l with
  | kBelowEmpty => 1 | kEmpty => 3 | kOneBar => 4 | kTwoBars => 8 | kThreeBars => 12 | kFourBars => 16
  end.

Record ControllerStatus := mkControllerStatus {
  battery_level : BatteryLevel;
  nominal_voltage : Z;
  wheel_period : float;
  error_code : Z;
  throttle : bool;
  cruise : bool;
  pas : bool;
  brake : bool;
  battery_current : float;
  motor_temperature : float }.

Record DisplayRequest := mkDisplayRequest {
  assist_level : Z;
  light : bool;
  wheel_size_code : Z;
  max_speed : Z;
  motor_characteristic : Z;
  power_assist_mode : bool;
  max_current_code : Z;
  raw : list Z }.

Definition kControllerStart : Z := 65.
Definition kDisplayEnd : Z := 0x0E.
Definition kDisplayEndMarkerA : Z := 0x32.
Definition kDisplayEndMarkerB : Z := 0x37.
Definition kDisplayChecksumIndex : nat := 5.
Definition kDefaultChecksumSeed : Z := 10.
Definition kMaxChecksumSeed : Z := 50.
Definition kCurrentCountsPerAmp : float := f_of_Z 4.
Definition kTemperatureOffset : float := f_of_Z 15.
Definition kThrottleBit : Z := Z.shiftl 1 1.
Definition kCruiseBit : Z := Z.shiftl 1 3.
Definition kPasBit : Z := Z.shiftl 1 4.
Definition kBrakeBit : Z := Z.shiftl 1 5.

(** The XOR of the bytes of a frame, one of them left out. *)
Fixpoint xor_from (i : nat) (skipped : nat) (frame : list Z) (sum : Z) : Z :=
  match frame with
  | [] => sum
  | byte :: rest => xor_from (S i) skipped rest (if bool_decide (i <> skipped) then u8 (Z.lxor sum byte) else sum)
  end.
Definition XorExcept (frame : list Z) (skipped : nat) : Z := xor_from 0 skipped frame 0.

Definition ClampByte (value : float) : Z :=
  u8 (f_to_Z (std_clamp (f_add value f_half) f_zero (f_of_Z 255))).

(** [status.wheel_period / 1.0_ms]: a quotient with the ratio 1000, converted
    to the plain ratio. *)
Definition kPeriodMs (period : float) : float :=
  f_div (f_mul (f_div (f_mul (f_div period f_one) (f_of_Z 1000)) f_one) f_one) f_one.

Definition bit_if (set : bool) (bit : Z) : Z := if set then bit else 0.

Definition EncodeControllerFrame (status : ControllerStatus) : list Z :=
  let frame := replicate kControllerFrameSize 0 in
  let kPeriod := u16 (f_to_Z (std_clamp (kPeriodMs (wheel_period status)) f_zero (f_of_Z 65535))) in
  let frame := <[0%nat := kControllerStart]> frame in
  let frame := <[1%nat := battery_level_byte (battery_level status)]> frame in
  let frame := <[2%nat := nominal_voltage status]> frame in
  let frame := <[3%nat := u8 (Z.shiftr kPeriod 8)]> frame in
  let frame := <[4%nat := u8 (Z.land kPeriod 0xFF)]> frame in
  let frame := <[5%nat := error_code status]> frame in
  let mode := u8 (Z.lor 0 (bit_if (throttle status) kThrottleBit)) in
  let mode := u8 (Z.lor mode (bit_if (cruise status) kCruiseBit)) in
  let mode := u8 (Z.lor mode (bit_if (pas status) kPasBit)) in
  let mode := u8 (Z.lor mode (bit_if (brake status) kBrakeBit)) in
  let frame := <[7%nat := mode]> frame in
  let frame := <[8%nat := ClampByte (f_mul (f_div (battery_current status) f_one) kCurrentCountsPerAmp)]> frame in
  let frame := <[9%nat := ClampByte (f_div (f_sub (motor_temperature status) kTemperatureOffset) f_one)]> frame in
  <[6%nat := XorExcept frame 0]> frame.

(** [frame[i]] of an array of fixed size. *)
Definition at_ (frame : list Z) (i : nat) : Z := default 0 (frame !! i).

Definition clamp_u8 (v lo hi : Z) : Z := if v <? lo then lo else if hi <? v then hi else v.

Definition EncodeDisplayRequest (request : DisplayRequest) (checksum_seed : Z) : list Z :=
  let frame := raw request in
  let kSpeed := clamp_u8 (max_speed request) 10 63 in
  let kSpeedBit := 41 <? kSpeed in
  let kSpeedField := u8 ((if kSpeedBit then Z.land kSpeed 0x1F else kSpeed) - 10) in
  let frame := <[1%nat := u8 (Z.lor (Z.land (assist_level request) 7) (bit_if (light request) 0x80))]> frame in
  let frame := <[2%nat := u8 (Z.lor (Z.land (Z.shiftr (wheel_size_code request) 2) 7)
                                    (Z.shiftl kSpeedField 3))]> frame in
  let frame := <[3%nat := motor_characteristic request]> frame in
  let frame := <[4%nat := u8 (Z.lor (Z.lor (Z.lor (Z.land (at_ frame 4) 0x17)
                                                   (Z.shiftl (Z.land (wheel_size_code request) 3) 6))
                                            (bit_if kSpeedBit 0x20))
                                    (bit_if (power_assist_mode request) 0x08))]> frame in
  let frame := <[7%nat := u8 (Z.lor (Z.land (at_ frame 7) 0xF0) (Z.land (max_current_code request) 0x0F))]> frame in
  let frame := <[11%nat := kDisplayEndMarkerB]> frame in
  let frame := <[12%nat := kDisplayEnd]> frame in
  <[kDisplayChecksumIndex := u8 (Z.lxor (XorExcept frame kDisplayChecksumIndex) checksum_seed)]> frame.

(** ** The stream decoder *)
Record DisplayDecoder := mkDisplayDecoder {
  window_ : list Z;
  count_ : Z;
  seed_ : Z;
  candidate_ : Z;
  candidate_count_ : Z }.
#[export] Instance eta_DisplayDecoder : Eta DisplayDecoder := fun s =>
  mkDisplayDecoder (window_ s) (count_ s) (seed_ s) (candidate_ s) (candidate_count_ s).

Definition init_DisplayDecoder : DisplayDecoder :=
  mkDisplayDecoder (replicate kDisplayFrameSize 0) 0 kDefaultChecksumSeed 0 0.

Definition kSeedFrames : Z := 2.

Definition Decode (frame : list Z) : DisplayRequest :=
  {| assist_level := u8 (Z.land (at_ frame 1) 7);
     light := negb (Z.land (at_ frame 1) 0x80 =? 0);
     wheel_size_code := u8 (Z.lor (Z.shiftr (Z.land (at_ frame 4) 0xC0) 6)
                                  (Z.shiftl (Z.land (at_ frame 2) 7) 2));
     max_speed := u8 (Z.lor (10 + Z.shiftr (Z.land (at_ frame 2) 0xF8) 3) (Z.land (at_ frame 4) 0x20));
     motor_characteristic := at_ frame 3;
     power_assist_mode := negb (Z.land (at_ frame 4) 0x08 =? 0);
     max_current_code := u8 (Z.land (at_ frame 7) 0x0F);
     raw := frame |}.

Definition HasEndMarker (s : DisplayDecoder) : bool :=
  let kMarker := at_ (window_ s) 11 in
  ((kMarker =? kDisplayEndMarkerA) || (kMarker =? kDisplayEndMarkerB)) && (at_ (window_ s) 12 =? kDisplayEnd).

Definition LearnSeed (seed : Z) (s : DisplayDecoder) : DisplayDecoder :=
  if kMaxChecksumSeed <? seed then s.{candidate_count_ := 0}
  else
    let s := if (seed =? candidate_ s) && (0 <? candidate_count_ s)
             then s.{candidate_count_ := u32 (candidate_count_ s + 1)}
             else s.{candidate_ := seed}.{candidate_count_ := 1} in
    if kSeedFrames <=? candidate_count_ s then s.{seed_ := seed}.{candidate_count_ := 0} else s.

(** The seed that would make the checksum of the window correct. *)
Definition frame_seed (frame : list Z) : Z :=
  u8 (Z.lxor (XorExcept frame kDisplayChecksumIndex) (at_ frame kDisplayChecksumIndex)).

(** The acceptance of the window: [Some request] when Push() returns true. *)
Definition accept (s : DisplayDecoder) : option DisplayRequest * DisplayDecoder :=
  (Some (Decode (window_ s)), s.{candidate_count_ := 0}.{count_ := 0}).

Definition Push (byte : Z) (s : DisplayDecoder) : option DisplayRequest * DisplayDecoder :=
  let s := s.{window_ := tail (window_ s) ++ [byte] }.{count_ := Z.min (count_ s + 1) 13} in
  if (count_ s <? 13) || negb (HasEndMarker s) then (None, s)
  else
    let kSeed := frame_seed (window_ s) in
    if negb (kSeed =? seed_ s) then
      let s := LearnSeed kSeed s in
      if negb (kSeed =? seed_ s) then (None, s) else accept s
    else accept s.

(** The requests a stream of bytes yields. *)
Fixpoint PushAll (bytes : list Z) (s : DisplayDecoder) : list (option DisplayRequest) * DisplayDecoder :=
  match bytes with
  | [] => ([], s)
  | byte :: rest =>
      let '(r, s) := Push byte s in
      let '(rs, s) := PushAll rest s in (r :: rs, s)
  end.

(** A request whose fields fit the bit fields of the frame, as the display
    sends it. *)
Definition request_ok (r : DisplayRequest) : Prop :=
  0 <= assist_level r < 8 /\ 0 <= wheel_size_code r < 32 /\ 10 <= max_speed r <= 63 /\
  in_u 8 (motor_characteristic r) /\ 0 <= max_current_code r < 16 /\
  length (raw r) = kDisplayFrameSize /\ Forall (in_u 8) (raw r).

(** The field of the speed from 10 to 63 km/h in five bits and the bit 0x20. *)
Definition speed_field (v : Z) : Z := u8 ((if 41 <? v then Z.land v 0x1F else v) - 10).

Record wf (s : DisplayDecoder) : Prop := {
  wf_window : length (window_ s) = kDisplayFrameSize;
  wf_bytes : Forall (in_u 8) (window_ s);
  wf_count : 0 <= count_ s <= 13;
  wf_seed : 0 <= seed_ s <= kMaxChecksumSeed;
  wf_candidate : 0 <= candidate_count_ s < kSeedFrames }.

(** ** The checksum *)
Lemma xor_from_in_u frame : forall i k sum,
  in_u 8 sum -> in_u 8 (xor_from i k frame sum).
Proof.
  induction frame as [|b frame IH]; intros i k sum Hs; cbn; [done|].
  apply IH. case_if; [apply wrap_in_u; lia|done].
Qed.

Lemma xor_from_sum frame : forall i k sum,
  Forall (in_u 8) frame -> in_u 8 sum ->
  xor_from i k frame sum = Z.lxor sum (xor_from i k frame 0).
Proof.
  induction frame as [|b frame IH]; intros i k sum Hf Hs; cbn.
  - by rewrite Z.lxor_0_r.
  - apply Forall_cons in Hf as [Hb Hf]. case_if; [|by apply IH].
    rewrite !wrap_id by (rewrite ?Z.lxor_0_l; auto using in_u_lxor with lia).
    rewrite IH by auto using in_u_lxor with lia. rewrite (IH _ _ (Z.lxor 0 b)) by (by rewrite ?Z.lxor_0_l).
    by rewrite Z.lxor_0_l, Z.lxor_assoc.
Qed.

(** Overwriting a byte of the frame changes the sum by the two bytes. *)
Lemma xor_from_insert frame : forall i k j x y,
  Forall (in_u 8) frame -> in_u 8 x -> frame !! j = Some y -> (i + j)%nat <> k ->
  xor_from i k (<[j:=x]> frame) 0 = Z.lxor (Z.lxor (xor_from i k frame 0) y) x.
Proof.
  induction frame as [|b frame IH]; intros i k j x y Hf Hx Hy Hk; [done|].
  apply Forall_cons in Hf as [Hb Hf]. destruct j as [|j]; cbn in *.
  - injection Hy as ->. rewrite Nat.add_0_r in Hk. rewrite bool_decide_true by done.
    rewrite !wrap_id by (by rewrite Z.lxor_0_l). rewrite !Z.lxor_0_l.
    rewrite (xor_from_sum _ _ _ x), (xor_from_sum _ _ _ y) by done.
    set (R := xor_from _ _ frame 0). rewrite (Z.lxor_comm (Z.lxor y R) y), <- (Z.lxor_assoc y y R).
    rewrite Z.lxor_nilpotent, Z.lxor_0_l. apply Z.lxor_comm.
  - assert (in_u 8 (Z.lxor 0 b)) by (by rewrite Z.lxor_0_l).
    case_if; [|by eapply IH; [..|lia]].
    rewrite (wrap_id 8) by done. rewrite !(xor_from_sum _ _ _ (Z.lxor 0 b)) by (try apply Forall_insert; done).
    rewrite (IH _ _ _ _ y) by (done || lia). by rewrite !Z.lxor_assoc.
Qed.

Lemma XorExcept_in_u frame k : in_u 8 (XorExcept frame k).
Proof. apply xor_from_in_u. unfold in_u; lia. Qed.

Lemma xor_from_insert_skipped frame : forall i j x sum,
  xor_from i (i + j) (<[j:=x]> frame) sum = xor_from i (i + j) frame sum.
Proof.
  induction frame as [|b frame IH]; intros i j x sum; [done|]. destruct j as [|j]; cbn.
  - by rewrite bool_decide_false by lia.
  - rewrite Nat.add_succ_r, <- Nat.add_succ_l, IH. done.
Qed.

(** ** Bit fields, by evaluation over the values of the fields *)
Ltac in_range H := apply (forall_seqZ _ _ _ H); lia.

Lemma field1 a (l : bool) : 0 <= a < 8 ->
  let f := u8 (Z.lor (Z.land a 7) (bit_if l 0x80)) in
  u8 (Z.land f 7) = a /\ negb (Z.land f 0x80 =? 0) = l.
Proof.
  intros Ha. cbv zeta.
  assert (H : forallb (fun a => forallb (fun l =>
    let f := u8 (Z.lor (Z.land a 7) (bit_if l 0x80)) in
    (u8 (Z.land f 7) =? a) && Bool.eqb (negb (Z.land f 0x80 =? 0)) l) [true; false]) (seqZ 0 8) = true)
    by (by vm_compute).
  pose proof (forall_seqZ _ _ _ H a ltac:(lia)) as Hr. rewrite forallb_forall in Hr.
  specialize (Hr l ltac:(destruct l; cbn; auto)). cbv beta zeta in Hr. bool_prop. split; [done|]. by apply Bool.eqb_prop.
Qed.

Lemma field2 w v : 0 <= w < 8 -> 0 <= v < 32 ->
  let f := u8 (Z.lor (Z.land w 7) (Z.shiftl v 3)) in
  Z.land f 7 = w /\ Z.shiftr (Z.land f 0xF8) 3 = v.
Proof.
  intros Hw Hv. cbv zeta.
  assert (H : forallb (fun w => forallb (fun v =>
    let f := u8 (Z.lor (Z.land w 7) (Z.shiftl v 3)) in
    (Z.land f 7 =? w) && (Z.shiftr (Z.land f 0xF8) 3 =? v)) (seqZ 0 32)) (seqZ 0 8) = true)
    by (by vm_compute).
  pose proof (forall_seqZ _ _ _ H w ltac:(lia)) as Hr. pose proof (forall_seqZ _ _ _ Hr v ltac:(lia)) as Hr'.
  cbv beta zeta in Hr'. bool_prop. done.
Qed.

Lemma field4 x w (b p : bool) : in_u 8 x -> 0 <= w < 4 ->
  let f := u8 (Z.lor (Z.lor (Z.lor (Z.land x 0x17) (Z.shiftl w 6)) (bit_if b 0x20)) (bit_if p 0x08)) in
  Z.shiftr (Z.land f 0xC0) 6 = w /\ Z.land f 0x20 = bit_if b 0x20 /\ negb (Z.land f 0x08 =? 0) = p.
Proof.
  intros Hx Hw. cbv zeta.
  assert (H : forallb (fun x => forallb (fun w => forallb (fun b => forallb (fun p =>
    let f := u8 (Z.lor (Z.lor (Z.lor (Z.land x 0x17) (Z.shiftl w 6)) (bit_if b 0x20)) (bit_if p 0x08)) in
    (Z.shiftr (Z.land f 0xC0) 6 =? w) && (Z.land f 0x20 =? bit_if b 0x20) &&
    Bool.eqb (negb (Z.land f 0x08 =? 0)) p) [true; false]) [true; false]) (seqZ 0 4)) (seqZ 0 256) = true)
    by (by vm_compute).
  pose proof (forall_seqZ _ _ _ H x ltac:(unfold in_u in Hx; lia)) as Hr.
  pose proof (forall_seqZ _ _ _ Hr w ltac:(lia)) as Hr'. rewrite forallb_forall in Hr'.
  specialize (Hr' b ltac:(destruct b; cbn; auto)). rewrite forallb_forall in Hr'.
  specialize (Hr' p ltac:(destruct p; cbn; auto)). cbv beta zeta in Hr'. apply andb_prop in Hr' as [Hr' H3].
  apply andb_prop in Hr' as [H1 H2]. apply Z.eqb_eq in H1, H2. apply Bool.eqb_prop in H3. exact (conj H1 (conj H2 H3)).
Qed.

Lemma field7 x c : in_u 8 x -> 0 <= c < 16 ->
  u8 (Z.land (u8 (Z.lor (Z.land x 0xF0) (Z.land c 0x0F))) 0x0F) = c.
Proof.
  intros Hx Hc.
  assert (H : forallb (fun x => forallb (fun c =>
    u8 (Z.land (u8 (Z.lor (Z.land x 0xF0) (Z.land c 0x0F))) 0x0F) =? c) (seqZ 0 16)) (seqZ 0 256) = true)
    by (by vm_compute).
  pose proof (forall_seqZ _ _ _ H x ltac:(unfold in_u in Hx; lia)) as Hr.
  apply Z.eqb_eq, (forall_seqZ _ _ _ Hr); lia.
Qed.

(** The wheel code is split over two bytes. *)
Lemma wheel_split w : 0 <= w < 32 ->
  0 <= Z.land (Z.shiftr w 2) 7 < 8 /\ 0 <= Z.land w 3 < 4 /\
  Z.land (Z.land (Z.shiftr w 2) 7) 7 = Z.land (Z.shiftr w 2) 7 /\
  u8 (Z.lor (Z.land w 3) (Z.shiftl (Z.land (Z.shiftr w 2) 7) 2)) = w.
Proof.
  intros Hw.
  assert (H : forallb (fun w => (0 <=? Z.land (Z.shiftr w 2) 7) && (Z.land (Z.shiftr w 2) 7 <? 8) &&
    (0 <=? Z.land w 3) && (Z.land w 3 <? 4) && (Z.land (Z.land (Z.shiftr w 2) 7) 7 =? Z.land (Z.shiftr w 2) 7) &&
    (u8 (Z.lor (Z.land w 3) (Z.shiftl (Z.land (Z.shiftr w 2) 7) 2)) =? w)) (seqZ 0 32) = true)
    by (by vm_compute).
  pose proof (forall_seqZ _ _ _ H w ltac:(lia)) as Hr. cbv beta zeta in Hr. bool_prop. lia.
Qed.

Lemma speed_split v : 10 <= v <= 63 ->
  clamp_u8 v 10 63 = v /\ 0 <= speed_field v < 32 /\
  u8 (Z.lor (10 + speed_field v) (bit_if (41 <? v) 0x20)) = v.
Proof.
  intros Hv.
  assert (H : forallb (fun v => (clamp_u8 v 10 63 =? v) && (0 <=? speed_field v) && (speed_field v <? 32) &&
    (u8 (Z.lor (10 + speed_field v) (bit_if (41 <? v) 0x20)) =? v)) (seqZ 10 54) = true) by (by vm_compute).
  pose proof (forall_seqZ _ _ _ H v ltac:(lia)) as Hr. cbv beta zeta in Hr. bool_prop. lia.
Qed.

(** An array of 13 bytes as its elements. *)
Ltac explode_list l H :=
  do 13 (let x := fresh "a" in destruct l as [|x l]; [discriminate H|]);
  destruct l; [clear H|discriminate H].

Lemma encode_shape r seed : request_ok r -> in_u 8 seed ->
  let f := EncodeDisplayRequest r seed in
  length f = kDisplayFrameSize /\ at_ f 11 = kDisplayEndMarkerB /\ at_ f 12 = kDisplayEnd /\
  frame_seed f = seed.
Proof.
  intros (_ & _ & _ & _ & _ & Hlen & Hraw) Hseed. cbv zeta. unfold EncodeDisplayRequest.
  repeat apply conj.
  - by rewrite !length_insert.
  - unfold at_. rewrite list_lookup_insert_ne, list_lookup_insert_ne, list_lookup_insert_eq
      by (rewrite ?length_insert, ?Hlen; unfold kDisplayChecksumIndex, kDisplayFrameSize; lia). done.
  - unfold at_. rewrite list_lookup_insert_ne, list_lookup_insert_eq
      by (rewrite ?length_insert, ?Hlen; unfold kDisplayChecksumIndex, kDisplayFrameSize; lia). done.
  - unfold frame_seed.
    match goal with |- u8 (Z.lxor (XorExcept (<[_ := _]> ?F) _) _) = _ => set (frame := F) end.
    assert (HF : length frame = 13%nat) by (unfold frame; by rewrite !length_insert).
    unfold XorExcept at 1. rewrite (xor_from_insert_skipped frame 0 kDisplayChecksumIndex).
    change (xor_from 0 (0 + kDisplayChecksumIndex) frame 0) with (XorExcept frame kDisplayChecksumIndex).
    pose proof (XorExcept_in_u frame kDisplayChecksumIndex) as HX.
    set (X := XorExcept frame kDisplayChecksumIndex) in *.
    unfold at_. rewrite list_lookup_insert_eq by (rewrite HF; unfold kDisplayChecksumIndex; lia). cbn [from_option]; unfold id.
    rewrite (wrap_id 8 (Z.lxor X seed)) by auto using in_u_lxor with lia.
    by rewrite <- Z.lxor_assoc, Z.lxor_nilpotent, Z.lxor_0_l, wrap_id.
Qed.

Lemma Push_short byte s : count_ s < 12 ->
  Push byte s = (None, s.{window_ := tail (window_ s) ++ [byte] }.{count_ := count_ s + 1}).
Proof.
  intros Hc. unfold Push. cbn [window_ count_ set_field]. rewrite Z.min_l by lia.
  cbv zeta. rewrite (proj2 (Z.ltb_lt _ _)) by (cbn; lia). done.
Qed.

(** A frame pushed after an accepted one: twelve bytes are only stored. *)
Lemma PushAll_short bytes : forall s,
  count_ s + Z.of_nat (length bytes) <= 12 -> (length bytes <= length (window_ s))%nat ->
  PushAll bytes s = (replicate (length bytes) None,
    s.{window_ := drop (length bytes) (window_ s) ++ bytes}.{count_ := count_ s + Z.of_nat (length bytes)}).
Proof.
  induction bytes as [|b bytes IH]; intros s Hc Hl; cbn in Hc, Hl.
  - cbn. rewrite app_nil_r, Z.add_0_r. by destruct s.
  - cbn [PushAll length replicate]. rewrite Push_short by lia.
    destruct (window_ s) as [|w0 ws] eqn:Hw; [cbn in Hl; lia|]. cbn in Hl.
    rewrite IH; cbn -[Z.of_nat]; [|lia|rewrite length_app; cbn; lia].
    f_equal. f_equal; [|lia].
    rewrite drop_app_le by lia. by rewrite <- app_assoc.
Qed.

Lemma PushAll_app b1 b2 s :
  PushAll (b1 ++ b2) s =
  let '(r1, s1) := PushAll b1 s in let '(r2, s2) := PushAll b2 s1 in (r1 ++ r2, s2).
Proof.
  revert s; induction b1 as [|b b1 IH]; intros s; cbn [PushAll app].
  - by destruct (PushAll b2 s).
  - destruct (Push b s) as [r s']. rewrite IH.
    destruct (PushAll b1 s') as [r1 s1]. by destruct (PushAll b2 s1).
Qed.

Lemma PushAll_frame f s :
  length (window_ s) = kDisplayFrameSize -> count_ s = 0 -> length f = kDisplayFrameSize ->
  at_ f 11 = kDisplayEndMarkerB -> at_ f 12 = kDisplayEnd -> frame_seed f = seed_ s ->
  PushAll f s = (replicate 12 None ++ [Some (Decode f)],
                 s.{window_ := f}.{count_ := 0}.{candidate_count_ := 0}).
Proof.
  intros Hw Hc Hf H11 H12 Hseed. unfold kDisplayFrameSize in *.
  destruct (exists_last (l := f)) as (f0 & x & Ef); [by intros ->|].
  assert (Hf0 : length f0 = 12%nat) by (subst f; rewrite length_app in Hf; cbn in Hf; lia).
  rewrite Ef at 1. rewrite PushAll_app, PushAll_short by (rewrite ?Hf0, ?Hw, ?Hc; cbn; lia). rewrite Hf0.
  cbn [PushAll]. unfold Push. cbn [window_ count_ set_field].
  rewrite Hc. change (Z.min (0 + Z.of_nat 12 + 1) 13) with 13.
  assert (Hwin : tail (drop 12 (window_ s) ++ f0) ++ [x] = f).
  { destruct (drop 12 (window_ s)) as [|w0 [|]] eqn:E.
    - apply (f_equal length) in E. rewrite length_drop in E. cbn in E. lia.
    - cbn. by rewrite Ef.
    - apply (f_equal length) in E. rewrite length_drop in E. cbn in E. lia. }
  rewrite Hwin. unfold HasEndMarker. cbv zeta. cbn [window_ count_ seed_].
  rewrite H11, H12, Hseed. cbn [orb andb negb Z.eqb Z.ltb Z.compare Pos.compare Pos.compare_cont Pos.eqb].
  change (13 <? 13) with false. cbn. rewrite Z.eqb_refl. cbn. by destruct s.
Qed.

Lemma LearnSeed_cases kSeed s :
  let s' := LearnSeed kSeed s in
  window_ s' = window_ s /\ count_ s' = count_ s /\
  (seed_ s' = seed_ s \/
   seed_ s' = kSeed /\ kSeed <= kMaxChecksumSeed /\ kSeed = candidate_ s /\ 1 <= candidate_count_ s).
Proof.
  cbv zeta. unfold LearnSeed, kSeedFrames, kMaxChecksumSeed.
  destruct (Z.ltb_spec 50 kSeed); [auto|].
  destruct ((kSeed =? candidate_ s) && (0 <? candidate_count_ s)) eqn:E; cbn.
  - bool_prop. case_if; cbn; auto with lia.
  - auto.
Qed.

Lemma init_wf : wf init_DisplayDecoder.
Proof.
  split; cbn; unfold in_u, kMaxChecksumSeed, kSeedFrames; try done; try lia; words_ok.
Qed.

Lemma LearnSeed_wf kSeed s : wf s -> 0 <= kSeed -> wf (LearnSeed kSeed s).
Proof.
  intros [Hw Hb Hc Hs Hn] Hk. unfold LearnSeed, kSeedFrames, kMaxChecksumSeed in *.
  destruct (Z.ltb_spec 50 kSeed); [by split|].
  destruct ((kSeed =? candidate_ s) && (0 <? candidate_count_ s)) eqn:E; cbn.
  - bool_prop. assert (candidate_count_ s = 1) as -> by lia. cbn. split; cbn; unfold kMaxChecksumSeed; done || lia.
  - split; cbn; unfold kSeedFrames; done || lia.
Qed.

Lemma frame_seed_in_u f : in_u 8 (frame_seed f).
Proof. apply wrap_in_u. lia. Qed.

Lemma Push_decoder_wf byte s : in_u 8 byte -> wf s -> wf (Push byte s).2.
Proof.
  intros Hb Hs. unfold Push.
  set (s1 := s.{window_ := tail (window_ s) ++ [byte] }.{count_ := Z.min (count_ s + 1) 13}).
  assert (H1 : wf s1).
  { destruct Hs as [Hw Hby Hc Hsd Hcd]. split; cbn; try done; [|..|lia].
    - destruct (window_ s) as [|w0 ws]; [done|]. cbn in *. rewrite length_app. cbn. unfold kDisplayFrameSize in *. lia.
    - destruct (window_ s) as [|w0 ws]; [done|]. cbn. apply Forall_app; split; [by inversion Hby|by constructor]. }
  clearbody s1. cbv zeta. pose proof (frame_seed_in_u (window_ s1)) as Hk.
  assert (Hacc : forall s', wf s' -> wf (accept s').2) by (intros s' []; split; cbn; unfold kSeedFrames; done || lia).
  repeat case_if; auto using LearnSeed_wf. 
  - apply LearnSeed_wf; [done|]. unfold in_u in Hk; lia.
  - apply Hacc, LearnSeed_wf; [done|]. unfold in_u in Hk; lia.
Qed.

Lemma at_insert_ne f i j x : i <> j -> at_ (<[i:=x]> f) j = at_ f j.
Proof. intros; unfold at_; by rewrite list_lookup_insert_ne. Qed.

Lemma at_insert_eq f i x : (i < length f)%nat -> at_ (<[i:=x]> f) i = x.
Proof. intros; unfold at_; by rewrite list_lookup_insert_eq. Qed.

Lemma at_in_u f i : Forall (in_u 8) f -> in_u 8 (at_ f i).
Proof.
  intros Hf. unfold at_. destruct (f !! i) as [x|] eqn:E; [|unfold in_u; cbn; lia].
  by apply (Forall_lookup_1 _ _ _ _ Hf E).
Qed.

(** The bytes of an encoded request that carry its fields. *)
Lemma encode_bytes r seed : length (raw r) = kDisplayFrameSize ->
  let f := EncodeDisplayRequest r seed in
  let v := clamp_u8 (max_speed r) 10 63 in
  at_ f 1 = u8 (Z.lor (Z.land (assist_level r) 7) (bit_if (light r) 0x80)) /\
  at_ f 2 = u8 (Z.lor (Z.land (Z.shiftr (wheel_size_code r) 2) 7) (Z.shiftl (speed_field v) 3)) /\
  at_ f 3 = motor_characteristic r /\
  at_ f 4 = u8 (Z.lor (Z.lor (Z.lor (Z.land (at_ (raw r) 4) 0x17) (Z.shiftl (Z.land (wheel_size_code r) 3) 6))
                              (bit_if (41 <? v) 0x20)) (bit_if (power_assist_mode r) 0x08)) /\
  at_ f 7 = u8 (Z.lor (Z.land (at_ (raw r) 7) 0xF0) (Z.land (max_current_code r) 0x0F)).
Proof.
  intros Hl. cbv zeta. unfold EncodeDisplayRequest, kDisplayChecksumIndex, kDisplayFrameSize in *.
  repeat apply conj;
    repeat (rewrite at_insert_ne by done);
    rewrite at_insert_eq by (rewrite ?length_insert, Hl; lia);
    repeat (rewrite at_insert_ne by done); reflexivity.
Qed.

(** ** Properties *)

(** C12. Encoding a display request and decoding the frame gives the request
    back, for every combination of field values the bit fields can hold
    (speeds from 10 to 63 km/h, whose sixth bit is in another byte). *)
Theorem display_request_roundtrip (r : DisplayRequest) (seed : Z) :
  request_ok r -> in_u 8 seed ->
  let f := EncodeDisplayRequest r seed in
  Decode f = mkDisplayRequest (assist_level r) (light r) (wheel_size_code r) (max_speed r)
    (motor_characteristic r) (power_assist_mode r) (max_current_code r) f.
Proof.
  intros (Ha & Hw & Hv & Hm & Hc & Hlen & Hraw) Hseed. cbv zeta. unfold Decode.
  destruct (encode_bytes r seed Hlen) as (E1 & E2 & E3 & E4 & E7).
  destruct (speed_split (max_speed r) Hv) as (Hcl & Hsf & Hsp). rewrite Hcl in *.
  destruct (wheel_split (wheel_size_code r) Hw) as (Hw2 & Hw3 & Hwi & Hwh).
  rewrite E1, E2, E3, E4, E7.
  destruct (field1 (assist_level r) (light r) Ha) as [-> ->].
  destruct (field2 _ _ Hw2 Hsf) as [F2 F2']. rewrite Hwi in F2, F2'.
  destruct (field4 (at_ (raw r) 4) _ (41 <? max_speed r) (power_assist_mode r) (at_in_u _ 4 Hraw) Hw3)
    as (F4 & F4' & F4'').
  rewrite F2, F2', F4, F4', F4'', Hwh, Hsp.
  rewrite field7 by (done || apply at_in_u, Hraw). done.
Qed.

Lemma display_request_roundtrip_witness :
  let r := mkDisplayRequest 3 true 21 55 46 true 9 (replicate 13 0) in
  max_speed (Decode (EncodeDisplayRequest r 10)) = 55.
Proof.
  cbv zeta. rewrite display_request_roundtrip; [done|..].
  - unfold request_ok, in_u; cbn. repeat split; try lia; words_ok.
  - unfold in_u; lia.
Defined.

(** Whatever was received before, a decoder that has just started or just
    accepted a frame accepts the next valid frame at its thirteenth byte, not
    earlier, delivers its content and is ready for the next frame. *)
Theorem stream_accepts_frame (r : DisplayRequest) (s : DisplayDecoder) :
  request_ok r -> wf s -> count_ s = 0 ->
  let f := EncodeDisplayRequest r (seed_ s) in
  let '(out, s') := PushAll f s in
  out = replicate 12 None ++ [Some (Decode f)] /\ count_ s' = 0 /\ seed_ s' = seed_ s /\ window_ s' = f.
Proof.
  intros Hr [Hw Hb Hc Hs Hn] H0. cbv zeta.
  destruct (encode_shape r (seed_ s) Hr) as (Hlen & H11 & H12 & Hseed).
  { unfold in_u, kMaxChecksumSeed in *; lia. }
  rewrite (PushAll_frame _ s); done.
Qed.

Lemma stream_accepts_frame_witness :
  let r := mkDisplayRequest 3 true 21 55 46 true 9 (replicate 13 0) in
  seed_ (PushAll (EncodeDisplayRequest r 10) init_DisplayDecoder).2 = 10.
Proof.
  cbv zeta.
  pose proof (stream_accepts_frame (mkDisplayRequest 3 true 21 55 46 true 9 (replicate 13 0)) init_DisplayDecoder) as H.
  cbv zeta in H. change (seed_ init_DisplayDecoder) with 10 in H.
  destruct (PushAll _ init_DisplayDecoder) as [out s']. apply H.
  - unfold request_ok, in_u; cbn. repeat split; try lia; words_ok.
  - apply init_wf.
  - done.
Defined.


(** Whatever bytes arrive, the decoder keeps its window of 13 bytes, its
    counters in range and a seed of at most 50. *)
Theorem PushAll_wf (bytes : list Z) (s : DisplayDecoder) :
  Forall (in_u 8) bytes -> wf s -> wf (PushAll bytes s).2.
Proof.
  revert s; induction bytes as [|b bytes IH]; intros s Hb Hs; [done|].
  apply Forall_cons in Hb as [Hb Hbs]. cbn. pose proof (Push_decoder_wf b s Hb Hs) as Hw.
  destruct (Push b s) as [r s']. specialize (IH s' Hbs Hw). by destruct (PushAll bytes s').
Qed.

Lemma PushAll_wf_witness : wf (PushAll [1; 55; 14] init_DisplayDecoder).2.
Proof.
  apply (PushAll_wf [1; 55; 14] init_DisplayDecoder).
  - words_ok.
  - apply init_wf.
Defined.



End Kunteng.
