(* ===== verification/PowerStage.v ===== *)
(** * Power stage: release, hold-off and the settings save gate

    hardware/power_stage_interface.hpp: the interface class with its enable
    lock over the platform's callbacks; the callbacks are the class
    [PowerStageOps], what the callers rely on is [PowerStageLaws].
    hardware/zephyr_sim/hardware_interface.cpp: the callbacks of the simulated
    power stage, also as the separate steps an interrupt can come between.
    src/settings_save_gate.hpp: the gate that keeps the outputs off while
    settings are written to flash. *)
From Stdlib Require Import ZArith Lia Bool.
From stdpp Require Import base list relations.
From S2P Require Import Prelude.

#[local] Open Scope Z_scope.
#[local] Open Scope unimoc_scope.

Module PowerStage.

Inductive PowerStageState := kDisabled | kEnabled | kFault | kBlocked.
#[export] Instance PowerStageState_eq_dec : EqDecision PowerStageState.
Proof. solve_decision. Defined.
Definition state_eqb (a b : PowerStageState) : bool := bool_decide (a = b).
Definition state_byte (s : PowerStageState) : Z :=
  match s with kDisabled => 0 | kEnabled => 1 | kFault => 2 | kBlocked => 3 end.

(** The callbacks of a platform. *)
Class PowerStageOps (P : Type) := {
  enable_ : P -> bool * P;
  disable_ : P -> P;
  trip_ : P -> P;
  clear_fault_ : P -> P;
  get_state_ : P -> PowerStageState }.

(** What the interface documents of the callbacks. *)
Class PowerStageLaws (P : Type) `{!PowerStageOps P} := {
  enable_released p : (enable_ p).1 = true -> get_state_ (enable_ p).2 = kEnabled;
  enable_refused p : (enable_ p).1 = false -> get_state_ (enable_ p).2 <> kEnabled;
  disable_off p : get_state_ (disable_ p) <> kEnabled;
  trip_off p : get_state_ (trip_ p) <> kEnabled;
  clear_fault_off p : get_state_ p <> kEnabled -> get_state_ (clear_fault_ p) <> kEnabled }.

(** The interface object: [enable_lock_] set while Enable() runs or while it
    is held off, and the platform state behind the callbacks. *)
Record PowerStageInterface (P : Type) := mkPowerStage {
  enable_lock_ : bool;
  platform : P }.
Arguments mkPowerStage {P}.
Arguments enable_lock_ {P}.
Arguments platform {P}.
#[export] Instance eta_PowerStageInterface P : Eta (PowerStageInterface P) := fun s =>
  mkPowerStage (enable_lock_ s) (platform s).

Section Interface.
Context {P : Type} `{!PowerStageOps P}.
Implicit Type s : PowerStageInterface P.

(** Enable() as one call: the lock is free again when it returns. *)
Definition Enable s : bool * PowerStageInterface P :=
  if enable_lock_ s then (false, s)
  else let '(enabled_now, p) := enable_ (platform s) in
       (enabled_now, s.{platform := p}.{enable_lock_ := false}).

Definition HoldOffEnable s : bool * PowerStageInterface P :=
  (negb (enable_lock_ s), s.{enable_lock_ := true}).
Definition ReleaseEnable s : PowerStageInterface P := s.{enable_lock_ := false}.
Definition Disable s : PowerStageInterface P := s.{platform := disable_ (platform s)}.
Definition Trip s : PowerStageInterface P := s.{platform := trip_ (platform s)}.
Definition ClearFault s : PowerStageInterface P := s.{platform := clear_fault_ (platform s)}.
Definition GetState s : PowerStageState := get_state_ (platform s).

(** PowerStageSaveGate(): the begin and end callbacks of the save gate. *)
Definition SaveGate_begin s : bool * PowerStageInterface P :=
  let '(held, s) := HoldOffEnable s in
  if negb held then (false, s)
  else if negb (state_eqb (GetState s) kDisabled) then (false, ReleaseEnable s)
  else (true, s).
Definition SaveGate_end s : PowerStageInterface P := ReleaseEnable s.

(** What other threads and interrupts do to the power stage while a save
    runs; the save itself is the only holder of the hold-off. *)
Inductive other_op := op_Enable | op_HoldOff | op_Disable | op_Trip | op_ClearFault.
Definition run_other (o : other_op) s : PowerStageInterface P :=
  match o with
  | op_Enable => (Enable s).2
  | op_HoldOff => (HoldOffEnable s).2
  | op_Disable => Disable s
  | op_Trip => Trip s
  | op_ClearFault => ClearFault s
  end.
End Interface.

(** ** The simulated power stage *)
Record SimPowerStage := mkSim { external_enable : bool; enabled : bool; fault : bool }.
#[export] Instance eta_SimPowerStage : Eta SimPowerStage := fun s =>
  mkSim (external_enable s) (enabled s) (fault s).

Definition PowerStageEnable (g : SimPowerStage) : bool * SimPowerStage :=
  if enabled g then (true, g)
  else if negb (external_enable g) || fault g then (false, g)
  else
    let g := g.{enabled := true} in
    if fault g then (false, g.{enabled := false}) else (true, g).
Definition PowerStageDisable (g : SimPowerStage) : SimPowerStage := g.{enabled := false}.
Definition PowerStageTrip (g : SimPowerStage) : SimPowerStage := g.{enabled := false}.{fault := true}.
Definition PowerStageClearFault (g : SimPowerStage) : SimPowerStage := g.{fault := negb (external_enable g)}.
Definition GetPowerStageState (g : SimPowerStage) : PowerStageState :=
  if enabled g then kEnabled
  else if negb (external_enable g) then kBlocked
  else if fault g then kFault else kDisabled.
Definition SetExternalEnable (present : bool) (g : SimPowerStage) : SimPowerStage :=
  let g := g.{external_enable := present} in
  if negb present then PowerStageTrip g else g.

#[export] Instance sim_ops : PowerStageOps SimPowerStage := {|
  enable_ := PowerStageEnable;
  disable_ := PowerStageDisable;
  trip_ := PowerStageTrip;
  clear_fault_ := PowerStageClearFault;
  get_state_ := GetPowerStageState |}.

(** PowerStageEnable() as the steps between which a zero-latency interrupt can
    run: the check, the release and the second look at the fault. *)
Inductive enable_pc := pc_idle | pc_checked | pc_released.
Inductive enable_step : enable_pc * SimPowerStage -> enable_pc * SimPowerStage -> Prop :=
| step_already g : enabled g = true -> enable_step (pc_idle, g) (pc_idle, g)
| step_refused g : enabled g = false -> negb (external_enable g) || fault g = true ->
    enable_step (pc_idle, g) (pc_idle, g)
| step_check g : enabled g = false -> negb (external_enable g) || fault g = false ->
    enable_step (pc_idle, g) (pc_checked, g)
| step_release g : enable_step (pc_checked, g) (pc_released, g.{enabled := true})
| step_undo g : fault g = true -> enable_step (pc_released, g) (pc_idle, g.{enabled := false})
| step_keep g : fault g = false -> enable_step (pc_released, g) (pc_idle, g)
| step_trip_interrupt pc g : enable_step (pc, g) (pc, PowerStageTrip g)
| step_disable_interrupt pc g : enable_step (pc, g) (pc, PowerStageDisable g)
| step_external pc present g : enable_step (pc, g) (pc, SetExternalEnable present g)
| step_clear g : enable_step (pc_idle, g) (pc_idle, PowerStageClearFault g).

Inductive enable_reachable : enable_pc * SimPowerStage -> Prop :=
| reach_start g : enabled g = false -> enable_reachable (pc_idle, g)
| reach_step c c' : enable_reachable c -> enable_step c c' -> enable_reachable c'.

(** ** Lemmas *)
#[export] Instance sim_laws : PowerStageLaws SimPowerStage.
Proof.
  split; intros [[] [] []]; cbn; done.
Qed.

Section Lemmas.
Context {P : Type} `{!PowerStageOps P} `{!PowerStageLaws P}.
Implicit Type s : PowerStageInterface P.

Lemma run_other_held o s :
  enable_lock_ s = true -> GetState s <> kEnabled ->
  enable_lock_ (run_other o s) = true /\ GetState (run_other o s) <> kEnabled.
Proof.
  intros Hl Hs. destruct o; cbn.
  - unfold Enable. by rewrite Hl.
  - done.
  - split; [done|]. apply disable_off.
  - split; [done|]. apply trip_off.
  - split; [done|]. by apply clear_fault_off.
Qed.

Lemma SaveGate_begin_true s :
  (SaveGate_begin s).1 = true ->
  enable_lock_ s = false /\ GetState s = kDisabled /\ (SaveGate_begin s).2 = s.{enable_lock_ := true}.
Proof.
  unfold SaveGate_begin, HoldOffEnable, state_eqb. cbn.
  destruct (enable_lock_ s) eqn:Hl; [done|]. cbn. change (GetState (mkPowerStage true (platform s))) with (GetState s).
  case_bool_decide; [|done]. cbn. done.
Qed.
End Lemmas.

Lemma enable_invariant c : enable_reachable c ->
  match c with
  | (pc_idle, g) => enabled g = true -> fault g = false /\ external_enable g = true
  | (_, g) => fault g = false -> external_enable g = true
  end.
Proof.
  induction 1 as [g Hg|c c' Hr IH Hs]; [intros; congruence|].
  destruct Hs as [g|g|g|g|g|g|pc g|pc g|pc [] g|g]; try destruct pc;
    destruct g as [[] [] []]; cbn in *; intuition (done || congruence).
Qed.

(** The callback is the uninterrupted run of its steps. *)
Lemma PowerStageEnable_steps g : rtc enable_step (pc_idle, g) (pc_idle, (PowerStageEnable g).2).
Proof.
  unfold PowerStageEnable. destruct (enabled g) eqn:He; [reflexivity|].
  destruct (negb (external_enable g) || fault g) eqn:Hf; [reflexivity|].
  pose proof Hf as Hf'. apply orb_false_iff in Hf' as [_ Hf'].
  destruct g as [ext en fl]; cbn in *; subst; cbn.
  eapply rtc_l; [by apply step_check|]. eapply rtc_l; [apply step_release|]. cbn.
  eapply rtc_l; [by apply step_keep|reflexivity].
Qed.

(** ** Properties *)

(** C9. While settings are saved the outputs stay off: after a successful
    TryBegin() of the gate no sequence of Enable(), HoldOffEnable(), Disable(),
    Trip() and ClearFault() by other threads or interrupts releases the power
    stage, and End() leaves it off with Enable() possible again. *)
Theorem save_gate_keeps_outputs_off {P : Type} `{!PowerStageOps P} `{!PowerStageLaws P}
    (s : PowerStageInterface P) (ops : list other_op) :
  (SaveGate_begin s).1 = true ->
  let s' := foldl (fun s o => run_other o s) (SaveGate_begin s).2 ops in
  GetState s = kDisabled /\ enable_lock_ s' = true /\ GetState s' <> kEnabled /\
  GetState (SaveGate_end s') <> kEnabled /\ enable_lock_ (SaveGate_end s') = false.
Proof.
  intros Hb. cbv zeta. destruct (SaveGate_begin_true s Hb) as (Hl & Hd & ->).
  assert (Hinv : let s' := foldl (fun s o => run_other o s) (s.{enable_lock_ := true}) ops in
    enable_lock_ s' = true /\ GetState s' <> kEnabled).
  { apply (foldl_invariant (fun s => enable_lock_ s = true /\ GetState s <> kEnabled)).
    - split; [done|]. change (GetState s <> kEnabled). by rewrite Hd.
    - intros s' o _ [? ?]. by apply run_other_held. }
  destruct Hinv as [H1 H2]. done.
Qed.

Lemma save_gate_keeps_outputs_off_witness :
  let s := mkPowerStage false (mkSim true false false) in
  GetState (foldl (fun s o => run_other o s) (SaveGate_begin s).2 [op_Trip; op_ClearFault; op_Enable]) <> kEnabled.
Proof.
  apply (save_gate_keeps_outputs_off (mkPowerStage false (mkSim true false false)) [op_Trip; op_ClearFault; op_Enable]).
  reflexivity.
Defined.

(** A trip by a zero-latency interrupt, at any point of
    PowerStageEnable(), is not undone: whenever no release is under way,
    released outputs mean that no fault is latched and the external enable is
    present. *)
Theorem trip_not_undone (g : SimPowerStage) :
  enable_reachable (pc_idle, g) -> enabled g = true -> fault g = false /\ external_enable g = true.
Proof. intros Hr. exact (enable_invariant _ Hr). Qed.

Lemma trip_not_undone_witness :
  let g := mkSim true true false in fault g = false /\ external_enable g = true.
Proof.
  apply (trip_not_undone (mkSim true true false)); [|reflexivity].
  apply (reach_step (pc_released, mkSim true true false)); [|by apply step_keep].
  apply (reach_step (pc_checked, mkSim true false false)); [|apply (step_release (mkSim true false false))].
  apply (reach_step (pc_idle, mkSim true false false)); [|by apply step_check].
  by apply reach_start.
Defined.

End PowerStage.
