(* ===== verification/CurrentControl.v ===== *)
(** * Current control: hand-over of values and the PI controller

    lib/motor_control/src/current_controller.hpp: the PI current controller.
    src/current_control/mailbox.hpp: the hand-over of values between a thread
    and the interrupt. *)
From Stdlib Require Import ZArith Lia Bool SpecFloat.
From stdpp Require Import base list.
From S2P Require Import Prelude Float32.

#[local] Open Scope Z_scope.
#[local] Open Scope unimoc_scope.

Module CurrentControl.

Record ThreePhase := mkThreePhase { phase_a : float; phase_b : float; phase_c : float }.
Record Rotor := mkRotor { axis_d : float; axis_q : float }.

(** ** Mailbox: two slots and the index of the active one *)
Record Mailbox (T : Type) := mkMailbox { slots_ : list T; active_ : nat }.
Arguments mkMailbox {T}.
Arguments slots_ {T}.
Arguments active_ {T}.
#[export] Instance eta_Mailbox T : Eta (Mailbox T) := fun s => mkMailbox (slots_ s) (active_ s).

Definition Mailbox_init {T} (x : T) : Mailbox T := mkMailbox [x; x] 0.
Definition Mailbox_Write {T} (value : T) (s : Mailbox T) : Mailbox T :=
  let kNext := (1 - active_ s)%nat in
  s.{slots_ := <[kNext := value]> (slots_ s)}.{active_ := kNext}.
Definition Mailbox_Read {T} (d : T) (s : Mailbox T) : T := default d (slots_ s !! active_ s).

(** Two slots; a read returns the last value written. *)
Definition mailbox_ok {T} (m : Mailbox T) : Prop := length (slots_ m) = 2%nat /\ (active_ m < 2)%nat.
Lemma Mailbox_init_ok {T} (x : T) : mailbox_ok (Mailbox_init x).
Proof. split; cbn; lia. Qed.
Lemma Mailbox_Write_ok {T} (x : T) m : mailbox_ok m -> mailbox_ok (Mailbox_Write x m).
Proof. intros [L A]. split; cbn; [by rewrite length_insert|lia]. Qed.
Lemma Mailbox_Read_Write {T} (d x : T) m : mailbox_ok m -> Mailbox_Read d (Mailbox_Write x m) = x.
Proof. intros [L A]. unfold Mailbox_Read. cbn. by rewrite list_lookup_insert_eq by lia. Qed.
#[export] Hint Resolve Mailbox_init_ok Mailbox_Write_ok : core.

(** ** The PI current controller *)
Record CurrentController := mkCurrentController {
  L_d : float; L_q : float; psi : float;
  kp_d : float; ki_d : float; kp_q : float; ki_q : float;
  kb_d : float; kb_q : float; v_max : float;
  integrator_d : float; integrator_q : float }.
#[export] Instance eta_CurrentController : Eta CurrentController := fun s =>
  mkCurrentController (L_d s) (L_q s) (psi s) (kp_d s) (ki_d s) (kp_q s) (ki_q s) (kb_d s) (kb_q s)
    (v_max s) (integrator_d s) (integrator_q s).

Definition CurrentController_Update (i_ref i_meas : Rotor) (omega dt v_dc : float) (s : CurrentController)
    : Rotor * CurrentController :=
  let kED := f_sub (axis_d i_ref) (axis_d i_meas) in
  let kEQ := f_sub (axis_q i_ref) (axis_q i_meas) in
  let kVFfD := f_neg (f_mul omega (f_mul (L_q s) (axis_q i_meas))) in
  let kVFfQ := f_mul omega (f_add (f_mul (L_d s) (axis_d i_meas)) (psi s)) in
  let kUDRaw := f_add (f_add (f_mul (kp_d s) kED) (integrator_d s)) kVFfD in
  let kUQRaw := f_add (f_add (f_mul (kp_q s) kEQ) (integrator_q s)) kVFfQ in
  let kVLimit := f_mul (v_max s) v_dc in
  let kMagSq := f_add (f_mul kUDRaw kUDRaw) (f_mul kUQRaw kUQRaw) in
  let '(u_d, u_q) :=
    if f_gtb kMagSq (f_mul kVLimit kVLimit)
    then let kScale := f_div kVLimit (f_sqrt kMagSq) in (f_mul kUDRaw kScale, f_mul kUQRaw kScale)
    else (kUDRaw, kUQRaw) in
  (mkRotor u_d u_q,
   s.{integrator_d := f_add (integrator_d s)
        (f_mul (f_add (f_mul (ki_d s) kED) (f_mul (kb_d s) (f_sub u_d kUDRaw))) dt)}
    .{integrator_q := f_add (integrator_q s)
        (f_mul (f_add (f_mul (ki_q s) kEQ) (f_mul (kb_q s) (f_sub u_q kUQRaw))) dt)}).

Definition CurrentController_Reset (s : CurrentController) : CurrentController :=
  s.{integrator_d := f_zero}.{integrator_q := f_zero}.

Definition CurrentController_init : CurrentController :=
  mkCurrentController (f_dec 1 1000) (f_dec 1 1000) f_zero f_one (f_of_Z 100) f_one (f_of_Z 100) (f_of_Z 100) (f_of_Z 100)
    (f_lit 9 10) f_zero f_zero.

(** A value handed over with a sequence lock, between whole reads and writes
    ([HandOver] models the lock itself). *)
Definition SeqLock (T : Type) : Type := T.
Definition SeqLock_Write {T} (value : T) (s : SeqLock T) : SeqLock T := value.
Definition SeqLock_Read {T} (s : SeqLock T) : T := s.

End CurrentControl.
