(* ===== verification/Transforms.v ===== *)
(** * Reference frames: sine table, Clarke and Park transforms, space vectors

    lib/motor_control/src/sin_cos.hpp with rotor_angle_sin_table.hpp (the
    interpolated sine and cosine), three_phase_system.hpp, stator_system.hpp,
    rotor_system.hpp (the transforms between the frames) and svm.hpp (the
    duties of a phase voltage). *)
From Stdlib Require Import ZArith Lia Bool SpecFloat.
From stdpp Require Import base decidable list.
From S2P Require Import Prelude Float32 FloatRound CurrentControl.
Import CurrentControl.

#[local] Open Scope Z_scope.
#[local] Open Scope unimoc_scope.

Module Transforms.

(** ** Sine and cosine *)
Definition kSinTableQuarterSize : Z := 128.
(** The entries of the table in units of 1e-9, up to and after the negative zero at index 512. *)
Definition kSinTable_nano : list Z := [
  0; 12271538; 24541229; 36807223; 49067674; 61320736; 73564564; 85797312; 98017140; 110222207; 122410675;
  134580709; 146730474; 158858143; 170961889; 183039888; 195090322; 207111376; 219101240; 231058108; 242980180;
  254865660; 266712757; 278519689; 290284677; 302005949; 313681740; 325310292; 336889853; 348418680; 359895037;
  371317194; 382683432; 393992040; 405241314; 416429560; 427555093; 438616239; 449611330; 460538711; 471396737;
  482183772; 492898192; 503538384; 514102744; 524589683; 534997620; 545324988; 555570233; 565731811; 575808191;
  585797857; 595699304; 605511041; 615231591; 624859488; 634393284; 643831543; 653172843; 662415778; 671558955;
  680600998; 689540545; 698376249; 707106781; 715730825; 724247083; 732654272; 740951125; 749136395; 757208847;
  765167266; 773010453; 780737229; 788346428; 795836905; 803207531; 810457198; 817584813; 824589303; 831469612;
  838224706; 844853565; 851355193; 857728610; 863972856; 870086991; 876070094; 881921264; 887639620; 893224301;
  898674466; 903989293; 909167983; 914209756; 919113852; 923879533; 928506080; 932992799; 937339012; 941544065;
  945607325; 949528181; 953306040; 956940336; 960430519; 963776066; 966976471; 970031253; 972939952; 975702130;
  978317371; 980785280; 983105487; 985277642; 987301418; 989176510; 990902635; 992479535; 993906970; 995184727;
  996312612; 997290457; 998118113; 998795456; 999322385; 999698819; 999924702; 1000000000; 999924702; 999698819;
  999322385; 998795456; 998118113; 997290457; 996312612; 995184727; 993906970; 992479535; 990902635; 989176510;
  987301418; 985277642; 983105487; 980785280; 978317371; 975702130; 972939952; 970031253; 966976471; 963776066;
  960430519; 956940336; 953306040; 949528181; 945607325; 941544065; 937339012; 932992799; 928506080; 923879533;
  919113852; 914209756; 909167983; 903989293; 898674466; 893224301; 887639620; 881921264; 876070094; 870086991;
  863972856; 857728610; 851355193; 844853565; 838224706; 831469612; 824589303; 817584813; 810457198; 803207531;
  795836905; 788346428; 780737229; 773010453; 765167266; 757208847; 749136395; 740951125; 732654272; 724247083;
  715730825; 707106781; 698376249; 689540545; 680600998; 671558955; 662415778; 653172843; 643831543; 634393284;
  624859488; 615231591; 605511041; 595699304; 585797857; 575808191; 565731811; 555570233; 545324988; 534997620;
  524589683; 514102744; 503538384; 492898192; 482183772; 471396737; 460538711; 449611330; 438616239; 427555093;
  416429560; 405241314; 393992040; 382683432; 371317194; 359895037; 348418680; 336889853; 325310292; 313681740;
  302005949; 290284677; 278519689; 266712757; 254865660; 242980180; 231058108; 219101240; 207111376; 195090322;
  183039888; 170961889; 158858143; 146730474; 134580709; 122410675; 110222207; 98017140; 85797312; 73564564;
  61320736; 49067674; 36807223; 24541229; 12271538; 0; (-12271538); (-24541229); (-36807223); (-49067674);
  (-61320736); (-73564564); (-85797312); (-98017140); (-110222207); (-122410675); (-134580709); (-146730474);
  (-158858143); (-170961889); (-183039888); (-195090322); (-207111376); (-219101240); (-231058108); (-242980180);
  (-254865660); (-266712757); (-278519689); (-290284677); (-302005949); (-313681740); (-325310292); (-336889853);
  (-348418680); (-359895037); (-371317194); (-382683432); (-393992040); (-405241314); (-416429560); (-427555093);
  (-438616239); (-449611330); (-460538711); (-471396737); (-482183772); (-492898192); (-503538384); (-514102744);
  (-524589683); (-534997620); (-545324988); (-555570233); (-565731811); (-575808191); (-585797857); (-595699304);
  (-605511041); (-615231591); (-624859488); (-634393284); (-643831543); (-653172843); (-662415778); (-671558955);
  (-680600998); (-689540545); (-698376249); (-707106781); (-715730825); (-724247083); (-732654272); (-740951125);
  (-749136395); (-757208847); (-765167266); (-773010453); (-780737229); (-788346428); (-795836905); (-803207531);
  (-810457198); (-817584813); (-824589303); (-831469612); (-838224706); (-844853565); (-851355193); (-857728610);
  (-863972856); (-870086991); (-876070094); (-881921264); (-887639620); (-893224301); (-898674466); (-903989293);
  (-909167983); (-914209756); (-919113852); (-923879533); (-928506080); (-932992799); (-937339012); (-941544065);
  (-945607325); (-949528181); (-953306040); (-956940336); (-960430519); (-963776066); (-966976471); (-970031253);
  (-972939952); (-975702130); (-978317371); (-980785280); (-983105487); (-985277642); (-987301418); (-989176510);
  (-990902635); (-992479535); (-993906970); (-995184727); (-996312612); (-997290457); (-998118113); (-998795456);
  (-999322385); (-999698819); (-999924702); (-1000000000); (-999924702); (-999698819); (-999322385); (-998795456);
  (-998118113); (-997290457); (-996312612); (-995184727); (-993906970); (-992479535); (-990902635); (-989176510);
  (-987301418); (-985277642); (-983105487); (-980785280); (-978317371); (-975702130); (-972939952); (-970031253);
  (-966976471); (-963776066); (-960430519); (-956940336); (-953306040); (-949528181); (-945607325); (-941544065);
  (-937339012); (-932992799); (-928506080); (-923879533); (-919113852); (-914209756); (-909167983); (-903989293);
  (-898674466); (-893224301); (-887639620); (-881921264); (-876070094); (-870086991); (-863972856); (-857728610);
  (-851355193); (-844853565); (-838224706); (-831469612); (-824589303); (-817584813); (-810457198); (-803207531);
  (-795836905); (-788346428); (-780737229); (-773010453); (-765167266); (-757208847); (-749136395); (-740951125);
  (-732654272); (-724247083); (-715730825); (-707106781); (-698376249); (-689540545); (-680600998); (-671558955);
  (-662415778); (-653172843); (-643831543); (-634393284); (-624859488); (-615231591); (-605511041); (-595699304);
  (-585797857); (-575808191); (-565731811); (-555570233); (-545324988); (-534997620); (-524589683); (-514102744);
  (-503538384); (-492898192); (-482183772); (-471396737); (-460538711); (-449611330); (-438616239); (-427555093);
  (-416429560); (-405241314); (-393992040); (-382683432); (-371317194); (-359895037); (-348418680); (-336889853);
  (-325310292); (-313681740); (-302005949); (-290284677); (-278519689); (-266712757); (-254865660); (-242980180);
  (-231058108); (-219101240); (-207111376); (-195090322); (-183039888); (-170961889); (-158858143); (-146730474);
  (-134580709); (-122410675); (-110222207); (-98017140); (-85797312); (-73564564); (-61320736); (-49067674);
  (-36807223); (-24541229); (-12271538)].
Definition kSinTable_nano_tail : list Z := [
  12271538; 24541229; 36807223; 49067674; 61320736; 73564564; 85797312; 98017140; 110222207; 122410675; 134580709;
  146730474; 158858143; 170961889; 183039888; 195090322; 207111376; 219101240; 231058108; 242980180; 254865660;
  266712757; 278519689; 290284677; 302005949; 313681740; 325310292; 336889853; 348418680; 359895037; 371317194;
  382683432; 393992040; 405241314; 416429560; 427555093; 438616239; 449611330; 460538711; 471396737; 482183772;
  492898192; 503538384; 514102744; 524589683; 534997620; 545324988; 555570233; 565731811; 575808191; 585797857;
  595699304; 605511041; 615231591; 624859488; 634393284; 643831543; 653172843; 662415778; 671558955; 680600998;
  689540545; 698376249; 707106781; 715730825; 724247083; 732654272; 740951125; 749136395; 757208847; 765167266;
  773010453; 780737229; 788346428; 795836905; 803207531; 810457198; 817584813; 824589303; 831469612; 838224706;
  844853565; 851355193; 857728610; 863972856; 870086991; 876070094; 881921264; 887639620; 893224301; 898674466;
  903989293; 909167983; 914209756; 919113852; 923879533; 928506080; 932992799; 937339012; 941544065; 945607325;
  949528181; 953306040; 956940336; 960430519; 963776066; 966976471; 970031253; 972939952; 975702130; 978317371;
  980785280; 983105487; 985277642; 987301418; 989176510; 990902635; 992479535; 993906970; 995184727; 996312612;
  997290457; 998118113; 998795456; 999322385; 999698819; 999924702; 1000000000].
Definition kSinTable : list float :=
  Eval vm_compute in
    (let entry n := f_dec n 1000000000 in map entry kSinTable_nano ++ S754_zero true :: map entry kSinTable_nano_tail).

Definition kSinTableFractionBits : Z := 23.
Definition kSinTableFractionMask : Z := 2 ^ kSinTableFractionBits - 1.
Definition kSinTableFractionScale : float := f_div f_one (f_of_Z (2 ^ kSinTableFractionBits)).
Definition kCountsPerRevolution : Z := 2 ^ 32.
Definition kCountsPerHalfRevolution : Z := 2 ^ 31.
Definition kCountsPerRevolutionF : float := f_of_Z kCountsPerRevolution.
Definition kRadiansPerCount : float :=
  Eval vm_compute in f_of_d (d_div (d_mul (d_of_Z 2) d_pi) (d_of_Z kCountsPerRevolution)).
Definition kRevolutionsPerRadian : float := Eval vm_compute in f_of_d (d_div (d_of_Z 1) (d_mul (d_of_Z 2) d_pi)).
Definition kRadiansPerRevolution : float := f_two_pi.

Definition LinearInterpolate (function_value_start function_value_end interpolation_factor : float) : float :=
  f_add function_value_start (f_mul interpolation_factor (f_sub function_value_end function_value_start)).
Definition RoundToInt64 (value : float) : option Z :=
  f_to_i64 (if f_geb value f_zero then f_add value f_half else f_sub value f_half).

Record SinCos := mkSinCos { sin : float; cos : float }.
Definition SinCos_init : SinCos := mkSinCos f_zero f_one.

(** PortableSinCosProvider::Calculate() of a raw phase. *)
Definition Calculate_raw (raw : Z) : SinCos :=
  let kPhase := u32 raw in
  let kTableIndex := Z.shiftr kPhase kSinTableFractionBits in
  let kInterpolationFactor := f_mul (f_of_Z (Z.land kPhase kSinTableFractionMask)) kSinTableFractionScale in
  let kTable (i : Z) := array_get f_zero kSinTable (kTableIndex + i) in
  let kSinValue := LinearInterpolate (kTable 0) (kTable 1) kInterpolationFactor in
  let kCosValue := LinearInterpolate (kTable kSinTableQuarterSize) (kTable (kSinTableQuarterSize + 1)) kInterpolationFactor in
  let kNormalization := f_sub (f_lit 3 2) (f_mul f_half (f_add (f_mul kSinValue kSinValue) (f_mul kCosValue kCosValue))) in
  mkSinCos (f_mul kSinValue kNormalization) (f_mul kCosValue kNormalization).

(** An angle as whole revolutions and counts of the residual within half a
    revolution; [None] where a conversion to an integer is undefined. *)
Definition angle_counts (angle : float) : option (Z * Z) :=
  let kRevolutions := f_mul angle kRevolutionsPerRadian in
  carry ← f_to_i64 kRevolutions;
  let kFraction := f_sub kRevolutions (f_of_Z carry) in
  counts ← RoundToInt64 (f_mul kFraction kCountsPerRevolutionF);
  Some (if counts >=? kCountsPerHalfRevolution then (carry + 1, counts - kCountsPerRevolution)
        else if counts <? - kCountsPerHalfRevolution then (carry - 1, counts + kCountsPerRevolution)
        else (carry, counts)).
(** PortableSinCosProvider::Calculate() of an angle, SinCos(angle). *)
Definition Calculate_angle (angle : float) : option SinCos :=
  '(_, counts) ← angle_counts angle; Some (Calculate_raw (i32 counts)).

(** ** Frames *)
Record Stator := mkStator { alpha : float; beta : float }.

Definition kSqrt3By2_d : float := Eval vm_compute in f_of_d (d_dec 86602540378443864676 (10 ^ 20)).
Definition kTwoByThree : float := Eval vm_compute in f_of_d (d_div (d_of_Z 2) (d_of_Z 3)).
(** ThreePhase::ToStator(). *)
Definition ToStator (p : ThreePhase) : Stator :=
  mkStator (f_mul kTwoByThree (f_sub (f_sub (phase_a p) (f_mul f_half (phase_b p))) (f_mul f_half (phase_c p))))
           (f_mul kTwoByThree (f_sub (f_mul kSqrt3By2_d (phase_b p)) (f_mul kSqrt3By2_d (phase_c p)))).
Definition kSqrt3By2_f : float := Eval vm_compute in f_dec 86602540378443864676 (10 ^ 20).
(** Stator::ToThreePhase(). *)
Definition ToThreePhase (s : Stator) : ThreePhase :=
  let kHalf := f_neg f_half in
  mkThreePhase (alpha s) (f_add (f_mul kHalf (alpha s)) (f_mul kSqrt3By2_f (beta s)))
               (f_sub (f_mul kHalf (alpha s)) (f_mul kSqrt3By2_f (beta s))).
(** Stator::ToRotor() and Rotor::ToStator(). *)
Definition ToRotor (sc : SinCos) (s : Stator) : Rotor :=
  mkRotor (f_add (f_mul (alpha s) (cos sc)) (f_mul (beta s) (sin sc)))
          (f_sub (f_mul (beta s) (cos sc)) (f_mul (alpha s) (sin sc))).
Definition RotorToStator (sc : SinCos) (r : Rotor) : Stator :=
  mkStator (f_sub (f_mul (axis_d r) (cos sc)) (f_mul (axis_q r) (sin sc)))
           (f_add (f_mul (axis_d r) (sin sc)) (f_mul (axis_q r) (cos sc))).
(** Rotor::Length(). *)
Definition Length (r : Rotor) : float := Hypot (axis_d r) (axis_q r).

(** ** Space vector modulation *)
Record Svm := mkSvm { svm_min : float; svm_max : float }.
(** [std::max] and [std::min] of an initializer list. *)
Definition max3 (a b c : float) : float := std_max (std_max a b) c.
Definition min3 (a b c : float) : float := std_min (std_min a b) c.
Definition Svm_Calculate (p : ThreePhase) (s : Svm) : ThreePhase :=
  let ratio_max := max3 (phase_a p) (phase_b p) (phase_c p) in
  let ratio_min := min3 (phase_a p) (phase_b p) (phase_c p) in
  let ratio_mid := f_mul (f_add ratio_max ratio_min) (f_neg f_half) in
  let duty x := Clamp (f_add (f_add f_half x) ratio_mid) (svm_min s) (svm_max s) in
  mkThreePhase (duty (phase_a p)) (duty (phase_b p)) (duty (phase_c p)).
Definition InverseDcLinkVoltage (dc_link_voltage : float) : float := f_div f_one (Max dc_link_voltage f_one).
Definition CalculateWithInverseDcLinkVoltage (voltage : Stator) (inverse : float) (dead_time_ratio : Stator) (s : Svm)
    : ThreePhase :=
  Svm_Calculate (ToThreePhase (mkStator (f_add (f_mul (alpha voltage) inverse) (alpha dead_time_ratio))
                                        (f_add (f_mul (beta voltage) inverse) (beta dead_time_ratio)))) s.
Definition CalculateWithDeadTimeCompensation (voltage : Stator) (dc_link_voltage : float) (dead_time_ratio : Stator) (s : Svm)
    : ThreePhase :=
  CalculateWithInverseDcLinkVoltage voltage (InverseDcLinkVoltage dc_link_voltage) dead_time_ratio s.

End Transforms.
