(* ===== verification/RotorAngle.v ===== *)
(** * Rotor angle, wrapped angles and the position counter

    lib/motor_control/src/rotor_angle.hpp: the electrical angle as an integer
    phase and a revolution counter; angle_wrap.hpp: the wrap of a float angle to
    one revolution; position_tracker.hpp: the mechanical position relative to
    home. *)
From Stdlib Require Import ZArith Lia Bool SpecFloat.
From stdpp Require Import base decidable list option.
From S2P Require Import Prelude Float32 FloatRound CurrentControl Transforms.
Import Transforms.

#[local] Open Scope Z_scope.
#[local] Open Scope unimoc_scope.

Module RotorAngle.

(** ** The rotor angle *)
Record RotorAngle := mkRotorAngle { raw_ : Z; revolutions_ : Z; sin_cos_ : SinCos }.
#[export] Instance eta_RotorAngle : Eta RotorAngle := fun s => mkRotorAngle (raw_ s) (revolutions_ s) (sin_cos_ s).
Definition RotorAngle_init : RotorAngle := mkRotorAngle 0 0 SinCos_init.

Definition UpdateSinCos (a : RotorAngle) : RotorAngle := a.{sin_cos_ := Calculate_raw (raw_ a)}.
Definition FromRaw (raw revolutions : Z) : RotorAngle := UpdateSinCos (RotorAngle_init.{raw_ := raw}.{revolutions_ := revolutions}).
Definition FromAbsoluteRaw (absolute_raw : Z) : option RotorAngle :=
  kShifted ← check_i64 (absolute_raw + kCountsPerHalfRevolution);
  let revolutions := Z.quot kShifted kCountsPerRevolution in
  let revolutions := if Z.rem kShifted kCountsPerRevolution <? 0 then revolutions - 1 else revolutions in
  let kPhase := absolute_raw - revolutions * kCountsPerRevolution in
  Some (FromRaw (i32 kPhase) (i32 revolutions)).
(** AddRaw(); the overflow of the revolution counter is undefined. *)
Definition AddRaw (delta : Z) (a : RotorAngle) : option RotorAngle :=
  let kNext := i32 (u32 (raw_ a) + u32 delta) in
  revolutions ← (if Z.land (Z.lxor (raw_ a) kNext) (Z.lxor delta kNext) <? 0
                 then add_i32 (revolutions_ a) (if 0 <=? delta then 1 else -1) else Some (revolutions_ a));
  Some (a.{revolutions_ := revolutions}.{raw_ := kNext}).
Definition Advance (offset : float) (a : RotorAngle) : option RotorAngle :=
  '(carry, counts) ← angle_counts offset;
  revolutions ← add_i32 (revolutions_ a) (i32 carry);
  a' ← AddRaw (i32 counts) (a.{revolutions_ := revolutions});
  Some (UpdateSinCos a').
Definition FromAngle (angle : float) : option RotorAngle := Advance angle RotorAngle_init.
Definition AngleInRevolution (a : RotorAngle) : float := f_mul (f_of_Z (raw_ a)) kRadiansPerCount.
Definition AbsoluteAngle (a : RotorAngle) : float :=
  f_add (f_mul (f_of_Z (revolutions_ a)) kRadiansPerRevolution) (AngleInRevolution a).
Definition AbsoluteRaw (a : RotorAngle) : option Z := check_i64 (revolutions_ a * kCountsPerRevolution + raw_ a).
(** [operator-] of two rotor angles. *)
Definition Difference (a other : RotorAngle) : float :=
  f_mul (f_of_Z (i32 (u32 (u32 (raw_ a) - u32 (raw_ other))))) kRadiansPerCount.

(** ** Wrapped float angles *)
Definition wrap_depth : nat := 21.
Definition WrapAngle (angle : float) : option float :=
  if negb (is_finite angle) then Some angle
  else
    value ← while_ wrap_depth (fun value => f_gtb value f_pi) (fun value => f_sub value f_two_pi) angle;
    while_ wrap_depth (fun value => f_leb value (f_neg f_pi)) (fun value => f_add value f_two_pi) value.
Definition WrapAnglePositive (angle : float) : option float :=
  if negb (is_finite angle) then Some angle
  else
    value ← while_ wrap_depth (fun value => f_geb value f_two_pi) (fun value => f_sub value f_two_pi) angle;
    value ← while_ wrap_depth (fun value => f_ltb value f_zero) (fun value => f_add value f_two_pi) value;
    Some (if f_ltb value f_two_pi then value else f_zero).

(** ** The position relative to home *)
Record PositionTracker := mkPositionTracker {
  position_rad_ : float; position_rev_ : float; is_homed_ : bool; raw_position_rad_ : float; home_offset_rad_ : float }.
#[export] Instance eta_PositionTracker : Eta PositionTracker := fun s =>
  mkPositionTracker (position_rad_ s) (position_rev_ s) (is_homed_ s) (raw_position_rad_ s) (home_offset_rad_ s).
Definition PositionTracker_init : PositionTracker := mkPositionTracker f_zero f_zero false f_zero f_zero.
Definition UpdatePosition (t : PositionTracker) : PositionTracker :=
  let position := f_sub (raw_position_rad_ t) (home_offset_rad_ t) in
  t.{position_rad_ := position}.{position_rev_ := f_div position f_two_pi}.
Definition Update (electrical_angle : RotorAngle) (pole_pairs : Z) (t : PositionTracker) : PositionTracker :=
  if pole_pairs =? 0 then t
  else UpdatePosition (t.{raw_position_rad_ := f_div (AbsoluteAngle electrical_angle) (f_of_Z pole_pairs)}).
Definition SetHome (t : PositionTracker) : PositionTracker :=
  UpdatePosition (t.{home_offset_rad_ := raw_position_rad_ t}.{is_homed_ := true}).
Definition Reset (t : PositionTracker) : PositionTracker := PositionTracker_init.

(** ** Lemmas *)

(** A rotor angle the operations build: the counters in their types, sine and
    cosine of the phase. *)
Record angle_ok (a : RotorAngle) : Prop := mkAngleOk {
  ao_raw : - 2 ^ 31 <= raw_ a < 2 ^ 31;
  ao_revolutions : - 2 ^ 31 <= revolutions_ a < 2 ^ 31;
  ao_sin_cos : sin_cos_ a = Calculate_raw (raw_ a) \/ sin_cos_ a = SinCos_init /\ raw_ a = 0 }.

(** The exact position, without the range of an int64. *)
Definition position (a : RotorAngle) : Z := revolutions_ a * 2 ^ 32 + raw_ a.

(** The sign test of AddRaw() finds the signed overflow of the phase. *)
Lemma AddRaw_position delta a b : - 2 ^ 31 <= raw_ a < 2 ^ 31 -> - 2 ^ 31 <= delta < 2 ^ 31 ->
  - 2 ^ 31 <= revolutions_ a < 2 ^ 31 -> AddRaw delta a = Some b ->
  position b = position a + delta /\ - 2 ^ 31 <= raw_ b < 2 ^ 31 /\ - 2 ^ 31 <= revolutions_ b < 2 ^ 31.
Proof.
  intros Hr Hd Hv. unfold AddRaw, position.
  set (kNext := i32 (u32 (raw_ a) + u32 delta)).
  assert (kNext = i32 (raw_ a + delta)) as Ek.
  { unfold kNext, i32, wrap. f_equal. rewrite (Z.add_comm (_ mod _)), <- Z.add_assoc, Zplus_mod_idemp_l.
    rewrite Z.add_assoc, (Z.add_comm delta), <- Z.add_assoc, Zplus_mod_idemp_l. f_equal. lia. }
  assert (Z.land (Z.lxor (raw_ a) kNext) (Z.lxor delta kNext) < 0 <->
          ~ (0 <= raw_ a <-> 0 <= kNext) /\ ~ (0 <= delta <-> 0 <= kNext)) as Hs.
  { rewrite Z.land_neg. rewrite <- !Z.lxor_nonneg. lia. }
  assert (- 2 ^ 31 <= kNext < 2 ^ 31) as Hk by (rewrite Ek; apply i32_range).
  assert (kNext = raw_ a + delta \/ kNext = raw_ a + delta - 2 ^ 32 \/ kNext = raw_ a + delta + 2 ^ 32) as Hc.
  { rewrite Ek in *. unfold i32 in *. pose proof (Z.div_mod (raw_ a + delta + 2 ^ 31) (2 ^ 32) ltac:(lia)).
    assert (-1 <= (raw_ a + delta + 2 ^ 31) / 2 ^ 32 <= 1) by (split; [apply Z.div_le_lower_bound|apply Z.lt_succ_r, Z.div_lt_upper_bound]; lia).
    lia. }
  clearbody kNext. destruct (Z.ltb_spec (Z.land (Z.lxor (raw_ a) kNext) (Z.lxor delta kNext)) 0) as [Neg|Pos]; cbn [mbind option_bind].
  - destruct (add_i32 _ _) as [r|] eqn:A; [|done]. apply add_i32_Some in A as [-> Hr']. cbn. intros [= <-]. cbn.
    apply Hs in Neg. destruct (Z.leb_spec 0 delta); lia.
  - intros [= <-]. cbn. assert (kNext = raw_ a + delta); [|lia]. lia.
Qed.

Definition total_counts (cc : Z * Z) : Z := cc.1 * 2 ^ 32 + cc.2.

(** The residual of a conversion is within half a revolution. *)
Lemma RoundToInt64_range v : fin v -> Z.abs (fval v) <= 2 ^ 32 * 2 ^ 149 ->
  exists n, RoundToInt64 v = Some n /\ Z.abs n <= 2 ^ 32 + 512.
Proof.
  intros F B. unfold RoundToInt64, f_to_i64, f_to_int.
  assert (fin f_half /\ fval f_half = 2 ^ 148) as [Fh Vh] by done.
  assert (exists b, fin b /\ fval b = (2 ^ 32 + 512) * 2 ^ 149) as (b & Fb & Vb).
  { destruct (representable (2 ^ 23 + 1) 9) as (b & Fb & Vb); [lia|lia|]. exists b. split; [done|]. rewrite Vb. by vm_compute. }
  assert (fin (f_neg b)) as Fn by by apply fin_neg.
  assert (exists w, w = (if f_geb v f_zero then f_add v f_half else f_sub v f_half) /\ fin w /\
    Z.abs (fval w) <= (2 ^ 32 + 512) * 2 ^ 149) as (w & <- & Fw & Bw).
  { eexists; split; [reflexivity|]. case_if.
    - apply f_leb_val in Hif; [|done|done]. rewrite fval_zero in Hif.
      destruct (f_add_range v f_half (f_neg b) b F Fh Fn Fb) as [Fa Ba]; rewrite ?fval_neg in *; [lia|]. split; [done|lia].
    - destruct (f_sub_range v f_half (f_neg b) b F Fh Fn Fb) as [Fa Ba]; rewrite ?fval_neg in *; [lia|]. split; [done|lia]. }
  destruct (f_trunc_val w Fw) as (n & -> & En & _). exists n.
  assert (Z.abs n <= 2 ^ 32 + 512) as Bn.
  { rewrite En. rewrite <- (Z.quot_mul (2 ^ 32 + 512) (2 ^ 149)) by lia.
    rewrite <- Z.quot_abs by lia. apply Z.quot_le_mono; lia. }
  split; [|done]. replace ((- 2 ^ 63 <=? n) && (n <=? 2 ^ 63 - 1)) with true; [done|]. symmetry.
  apply andb_true_iff; split; apply Z.leb_le; lia.
Qed.

Lemma counts_of_revolutions r z : fin r -> f_trunc r = Some z ->
  exists n, RoundToInt64 (f_mul (f_sub r (f_of_Z z)) kCountsPerRevolutionF) = Some n /\ Z.abs n <= 2 ^ 32 + 512.
Proof.
  intros F E. destruct (f_trunc_val r F) as (z' & E' & Ez & Fz & Vz). rewrite E in E'. injection E' as <-.
  destruct (f_sub_range r (f_of_Z z) (f_neg f_one) f_one) as [Ff Bf]; [done|done|by apply fin_neg|done| |].
  { rewrite fval_neg, fval_one, Vz, Ez. pose proof (Z.quot_rem' (fval r) (2 ^ 149)). pose proof (Z.rem_bound_abs (fval r) (2 ^ 149)). lia. }
  rewrite fval_neg, fval_one in Bf.
  assert (fin kCountsPerRevolutionF /\ fval kCountsPerRevolutionF = 2 ^ 32 * 2 ^ 149) as [Fc Vc] by (split; vm_compute; done).
  destruct (f_mul_range (f_sub r (f_of_Z z)) kCountsPerRevolutionF (f_neg kCountsPerRevolutionF) kCountsPerRevolutionF) as [Fm Bm];
    [done|done|by apply fin_neg|done|rewrite fval_neg, Vc; nia|].
  rewrite fval_neg, Vc in Bm. apply RoundToInt64_range; [done|lia].
Qed.

Lemma angle_counts_residual x c n : f_valid x = true -> angle_counts x = Some (c, n) -> - 2 ^ 31 <= n < 2 ^ 31.
Proof.
  intros V. unfold angle_counts. set (r := f_mul x kRevolutionsPerRadian).
  destruct (f_to_i64 r) as [z|] eqn:E; [|done]. cbn [mbind option_bind].
  unfold f_to_i64, f_to_int in E. destruct (f_trunc r) as [z'|] eqn:T; [|done].
  assert (z' = z) as -> by (destruct (_ && _); congruence). clear E.
  assert (fin r) as Fr.
  { assert (is_finite r = true) as I by (by destruct r). split; [done|].
    apply f_mul_valid; [|done]. split; [|done]. by destruct x. }
  destruct (counts_of_revolutions r z Fr T) as (n' & -> & B). cbn [mbind option_bind].
  unfold kCountsPerHalfRevolution, kCountsPerRevolution. intros [= H]. revert H. repeat (case_if; bool_prop); intros [= <- <-]; lia.
Qed.

(** Angles up to 2^20 convert. *)
Lemma angle_counts_defined x : fin x -> Z.abs (fval x) <= 2 ^ 20 * 2 ^ 149 ->
  exists c n, angle_counts x = Some (c, n) /\ Z.abs c <= 2 ^ 18 + 1.
Proof.
  intros F B. unfold angle_counts. set (r := f_mul x kRevolutionsPerRadian).
  destruct (representable 1 18) as (b & Fb & Vb); [lia|lia|]. change (1 * 2 ^ (18 + 149)) with (2 ^ 18 * 2 ^ 149) in Vb.
  assert (fin kRevolutionsPerRadian /\ 0 < fval kRevolutionsPerRadian < 2 ^ 147) as [Fc Vc] by (split; vm_compute; done).
  destruct (f_mul_range x kRevolutionsPerRadian (f_neg b) b) as [Fr Br]; [done|done|by apply fin_neg|done|rewrite fval_neg, Vb; nia|].
  fold r in Fr, Br. rewrite fval_neg, Vb in Br. destruct (f_trunc_val r Fr) as (z & T & Ez & _).
  assert (Z.abs z <= 2 ^ 18) as Bz.
  { rewrite Ez. rewrite <- (Z.quot_mul (2 ^ 18) (2 ^ 149)) by lia. rewrite <- Z.quot_abs by lia. apply Z.quot_le_mono; lia. }
  unfold f_to_i64, f_to_int. rewrite T.
  replace ((- 2 ^ 63 <=? z) && (z <=? 2 ^ 63 - 1)) with true by (symmetry; apply andb_true_iff; split; apply Z.leb_le; lia).
  cbn [mbind option_bind]. destruct (counts_of_revolutions r z Fr T) as (n & -> & Bn). cbn [mbind option_bind].
  repeat case_if; do 2 eexists; (split; [reflexivity|lia]).
Qed.

(** What an offset adds to the position. *)
Definition moved (offset : float) : Z :=
  match angle_counts offset with Some (carry, counts) => i32 carry * 2 ^ 32 + counts | None => 0 end.

Lemma Advance_position x a b : f_valid x = true -> angle_ok a -> Advance x a = Some b ->
  position b = position a + moved x /\ angle_ok b.
Proof.
  intros V [Hr Hv _]. unfold Advance, moved. destruct (angle_counts x) as [[c n]|] eqn:E; [|done]. cbn [mbind option_bind].
  apply angle_counts_residual in E; [|done].
  destruct (add_i32 _ _) as [r|] eqn:A; [|done]. apply add_i32_Some in A as [-> Hr2]. cbn [mbind option_bind].
  destruct (AddRaw _ _) as [d|] eqn:B; [|done]. cbn [mbind option_bind]. intros [= <-].
  rewrite (i32_id n) in B by lia. apply AddRaw_position in B as (P & R1 & R2); [|done..].
  split; [|split; [exact R1|exact R2|by left]]. change (position (UpdateSinCos d)) with (position d). rewrite P. unfold position. cbn. lia.
Qed.

Lemma AddRaw_defined delta a : Z.abs (revolutions_ a) < 2 ^ 31 - 1 -> exists b, AddRaw delta a = Some b.
Proof.
  intros H. unfold AddRaw. case_if; cbn [mbind option_bind]; [|by eexists].
  assert (forall d, d = 1 \/ d = -1 -> add_i32 (revolutions_ a) d = Some (revolutions_ a + d)) as A
    by (intros d Hd; apply add_i32_Some; lia).
  rewrite A by (case_if; auto). cbn. by eexists.
Qed.

Definition angle_small (x : float) : Prop := fin x /\ Z.abs (fval x) <= 2 ^ 20 * 2 ^ 149.

Lemma Advance_defined x a : angle_small x -> angle_ok a -> Z.abs (revolutions_ a) + 2 ^ 18 + 2 < 2 ^ 31 ->
  exists b, Advance x a = Some b /\ Z.abs (revolutions_ b) <= Z.abs (revolutions_ a) + 2 ^ 18 + 2.
Proof.
  intros [F B] Ha H. pose proof (proj2 F) as V. destruct (angle_counts_defined x F B) as (c & n & E & Hc).
  pose proof E as E'. apply angle_counts_residual in E'; [|done].
  assert (exists b, Advance x a = Some b) as [b Eb].
  { unfold Advance. rewrite E. cbn [mbind option_bind]. rewrite (i32_id c) by lia.
    assert (add_i32 (revolutions_ a) c = Some (revolutions_ a + c)) as -> by (apply add_i32_Some; lia).
    cbn [mbind option_bind].
    destruct (AddRaw_defined (i32 n) (a.{revolutions_ := revolutions_ a + c})) as [d ->]; [cbn; lia|]. cbn. by eexists. }
  exists b. split; [done|]. destruct (Advance_position x a b V Ha Eb) as [P [R1 R2 _]]. destruct Ha as [A1 A2 _].
  unfold position, moved in P. rewrite E, (i32_id c) in P by lia. lia.
Qed.

Fixpoint advance_all (offsets : list float) (a : RotorAngle) : option RotorAngle :=
  match offsets with [] => Some a | x :: rest => b ← Advance x a; advance_all rest b end.

Lemma advance_all_exact offsets a : angle_ok a -> Forall angle_small offsets ->
  Z.abs (revolutions_ a) + Z.of_nat (length offsets) * (2 ^ 18 + 2) < 2 ^ 31 ->
  exists b, advance_all offsets a = Some b /\ angle_ok b /\ position b = position a + foldr Z.add 0 (map moved offsets) /\
    Z.abs (revolutions_ b) < 2 ^ 31.
Proof.
  revert a. induction offsets as [|x rest IH]; intros a Ha Hs Hb.
  - exists a. cbn in *. split; [done|]. split; [done|]. lia.
  - apply Forall_cons_1 in Hs as [Hx Hs]. cbn [length map foldr advance_all] in *. rewrite Nat2Z.inj_succ in Hb.
    destruct (Advance_defined x a Hx Ha) as (b & E & Hr); [lia|]. rewrite E. cbn [mbind option_bind].
    destruct (Advance_position x a b (proj2 (proj1 Hx)) Ha E) as [P Hok].
    destruct (IH b Hok Hs) as (d & -> & D1 & D2 & D3); [lia|]. exists d. split; [done|]. split; [done|]. lia.
Qed.

Lemma FromAbsoluteRaw_position b : angle_ok b -> - 2 ^ 63 <= position b ->
  exists d, FromAbsoluteRaw (position b) = Some d /\ raw_ d = raw_ b /\ revolutions_ d = revolutions_ b.
Proof.
  intros [R V _] L. unfold FromAbsoluteRaw, kCountsPerHalfRevolution, kCountsPerRevolution, position in *.
  assert (check_i64 (revolutions_ b * 2 ^ 32 + raw_ b + 2 ^ 31) = Some (revolutions_ b * 2 ^ 32 + raw_ b + 2 ^ 31)) as ->
    by (apply check_i64_Some; lia).
  cbn [mbind option_bind]. set (k := revolutions_ b * 2 ^ 32 + raw_ b + 2 ^ 31).
  pose proof (Z.quot_rem' k (2 ^ 32)) as Q. pose proof (Z.rem_bound_abs k (2 ^ 32) ltac:(lia)) as B.
  assert ((if Z.rem k (2 ^ 32) <? 0 then Z.quot k (2 ^ 32) - 1 else Z.quot k (2 ^ 32)) = revolutions_ b) as ->.
  { destruct (Z.ltb_spec (Z.rem k (2 ^ 32)) 0); lia. }
  eexists; split; [reflexivity|]. cbn. rewrite !i32_id by lia. lia.
Qed.

(** *** The wrap *)
Lemma two_pi_value : fval f_two_pi = 2 * fval f_pi /\ 6 * 2 ^ 149 < fval f_two_pi < 7 * 2 ^ 149.
Proof. vm_compute. done. Qed.

(** Within two revolutions one revolution is subtracted exactly. *)
Lemma sub_two_pi_exact y : fin y -> fval f_pi < fval y <= 4 * fval f_pi ->
  fin (f_sub y f_two_pi) /\ fval (f_sub y f_two_pi) = fval y - fval f_two_pi.
Proof.
  intros F [L U]. assert (0 < fval f_pi) as P by (vm_compute; done). pose proof (proj2 F) as V. destruct y as [s| | |s m e]; try (by destruct F).
  apply f_valid_canon in V as [(Hm & He & C) _]. pose proof (fval_sign s m e He) as S.
  destruct s; [lia|]. clear S.
  assert (fval f_pi = 13176795 * 2 ^ 127 /\ fval f_two_pi = 13176795 * 2 ^ 128) as [Vp V2] by (vm_compute; done).
  cbn [fval] in L, U. rewrite Z.mul_1_l, Vp in L, U.
  assert (e = -22 \/ e = -21 \/ e = -20) as He3.
  { destruct (Z_le_gt_dec e (-23)) as [B|B].
    - exfalso. pose proof (Z.pow_le_mono_r 2 (e + 149) 126 ltac:(lia) ltac:(lia)).
      change (13176795 * 2 ^ 127) with (26353590 * 2 ^ 126) in L. nia.
    - destruct (Z_le_gt_dec (-19) e) as [D|D]; [|lia]. exfalso. destruct C as [C|C]; [|lia].
      pose proof (Z.pow_le_mono_r 2 130 (e + 149) ltac:(lia) ltac:(lia)).
      change (4 * (13176795 * 2 ^ 127)) with (6588397 * 2 ^ 130 + 2 ^ 129) in U. nia. }
  assert (exists z, fin z /\ fval z = fval (S754_finite false m e) - fval f_two_pi) as (z & Fz & Vz).
  { assert (exists d k, Z.abs d < 2 ^ 24 /\ -149 <= k <= 104 /\ fval (S754_finite false m e) - fval f_two_pi = d * 2 ^ (k + 149)) as (d & k & Hd & Hk & E).
    { cbn [fval]. rewrite V2, Z.mul_1_l. destruct He3 as [-> | [-> | ->]]; cbn [Z.add Z.opp] in *.
      - exists (Zpos m - 26353590), (-22). cbn in *. lia.
      - exists (Zpos m - 13176795), (-21). cbn in *. lia.
      - exists (2 * Zpos m - 13176795), (-21). cbn in *. lia. }
    destruct (representable (Z.abs d) k) as (z & Fz & Vz); [lia|lia|].
    destruct (Z_le_gt_dec 0 d); [exists z|exists (f_neg z)]; rewrite ?fin_neg, ?fval_neg; (split; [done|]); rewrite E, Vz; lia. }
  destruct (f_sub_exact _ f_two_pi z F ltac:(done) Fz Vz) as [Fs Vs]. split; [done|]. lia.
Qed.

(** A multiple of 6 that bounds a value bounds the value less one revolution
    by the multiple before. *)
Definition sixes (y : Z) : Z := - (- y / (6 * 2 ^ 149)).
Lemma sixes_spec y : 6 * 2 ^ 149 * (sixes y - 1) < y <= 6 * 2 ^ 149 * sixes y.
Proof.
  unfold sixes. pose proof (Z.div_mod (- y) (6 * 2 ^ 149) ltac:(lia)). pose proof (Z.mod_pos_bound (- y) (6 * 2 ^ 149)). lia.
Qed.
Lemma sixes_le y n : y <= 6 * 2 ^ 149 * n -> sixes y <= n.
Proof. pose proof (sixes_spec y). intros. nia. Qed.

(** One iteration of the first loop of WrapAngle(), down from above pi. *)
Lemma wrap_step y : fin y -> fval f_pi < fval y -> sixes (fval y) <= 2 ^ 21 ->
  let z := f_sub y f_two_pi in
  fin z /\ - fval f_pi < fval z /\ sixes (fval z) <= sixes (fval y) - 1 /\ fval z <= fval y /\
  (fval y <= 4 * fval f_pi -> fval z = fval y - fval f_two_pi).
Proof.
  intros F L B z. pose proof (sixes_spec (fval y)) as S. set (n := sixes (fval y)) in *.
  destruct two_pi_value as [E [T1 T2]].
  assert (0 <= n - 1 < 2 ^ 21) as Hn.
  { assert (0 < fval f_pi) by (vm_compute; done). split; [|lia]. destruct (Z_le_gt_dec n 0); [nia|lia]. }
  destruct (representable (6 * (n - 1)) 0) as (b & Fb & Vb); [lia|lia|]. change (0 + 149) with 149 in Vb.
  assert (exists a, fin a /\ - fval f_pi < fval a /\ fval a = fval f_pi + 2 ^ 127 - fval f_two_pi) as (a & Fa & Va & Ea).
  { exists (S754_finite true 13176794 (-22)). split; [done|]. split; vm_compute; reflexivity. }
  assert (fval f_pi + 2 ^ 127 <= fval y) as Ny by (apply (next_above 13176795 (-22) y); [unfold canon; lia|done|exact L]).
  destruct (f_sub_range y f_two_pi a b) as [Fz [Lz Uz]]; [done|done|done|done|lia|]. fold z in Fz, Lz, Uz.
  split; [done|]. split; [lia|]. split; [apply sixes_le; lia|]. split.
  - assert (f_leb z y = true) as W by (apply f_sub_below; done). by apply f_leb_val in W.
  - intros H4. by apply sub_two_pi_exact.
Qed.

(** One iteration of the second loop, up from -pi and below. *)
Lemma wrap_step_up y : fin y -> fval y <= - fval f_pi -> sixes (- fval y) <= 2 ^ 21 ->
  let z := f_add y f_two_pi in
  fin z /\ fval z <= fval f_pi /\ sixes (- fval z) <= sixes (- fval y) - 1 /\ fval y <= fval z /\
  (- fval y <= 4 * fval f_pi -> fval z = fval y + fval f_two_pi).
Proof.
  intros F L B z. pose proof (sixes_spec (- fval y)) as S. set (n := sixes (- fval y)) in *.
  destruct two_pi_value as [E [T1 T2]]. assert (0 < fval f_pi) as Ppi by (vm_compute; done).
  assert (0 <= n - 1 < 2 ^ 21) as Hn by (split; [destruct (Z_le_gt_dec n 0); [nia|lia]|lia]).
  destruct (representable (6 * (n - 1)) 0) as (b & Fb & Vb); [lia|lia|]. change (0 + 149) with 149 in Vb.
  destruct (f_add_range y f_two_pi (f_neg b) f_pi) as [Fz [Lz Uz]]; [done|done|by apply fin_neg|done|rewrite fval_neg; lia|].
  fold z in Fz, Lz, Uz. rewrite fval_neg in Lz.
  split; [done|]. split; [lia|]. split; [apply sixes_le; lia|]. split.
  - assert (f_leb y z = true) as W by (apply f_add_above; done). by apply f_leb_val in W.
  - intros H4. destruct (Z.eq_dec (fval y) (- fval f_pi)) as [Eq|Ne].
    + destruct (f_add_exact y f_two_pi f_pi) as [_ V]; [done|done|done|lia|]. fold z in V. lia.
    + destruct (sub_two_pi_exact (f_neg y)) as [Fs Vs]; [by apply fin_neg|rewrite fval_neg; lia|]. rewrite fval_neg in Vs.
      destruct (f_add_exact y f_two_pi (f_neg (f_sub (f_neg y) f_two_pi))) as [_ V];
        [done|done|by apply fin_neg|rewrite fval_neg; lia|]. fold z in V. rewrite fval_neg in V. lia.
Qed.

Lemma sixes_pos y : 0 < y -> 1 <= sixes y.
Proof. pose proof (sixes_spec y). nia. Qed.

(** The first loop: ends, and leaves the angle in or below the range. *)
Lemma wrap_down x : fin x -> sixes (fval x) <= 2 ^ 21 ->
  exists y, while_ wrap_depth (fun value => f_gtb value f_pi) (fun value => f_sub value f_two_pi) x = Some y /\
    fin y /\ fval y <= fval f_pi /\ (fval y = fval x \/ - fval f_pi < fval y) /\
    (fval x <= 4 * fval f_pi -> exists k, fval y = fval x - k * fval f_two_pi).
Proof.
  intros F B.
  destruct (while_ends (fun y => fin y /\ sixes (fval y) <= 2 ^ 21 /\ (fval y = fval x \/ - fval f_pi < fval y) /\
      fval y <= fval x /\ (fval x <= 4 * fval f_pi -> exists k, fval y = fval x - k * fval f_two_pi))
    (fun y => sixes (fval y)) (fun value => f_gtb value f_pi) (fun value => f_sub value f_two_pi) wrap_depth x)
    as (y & E & (Fy & By & Hy & Uy & Ky) & C).
  - repeat split; auto; try apply F; try lia. intros _. exists 0. lia.
  - exact B.
  - intros y (Fy & By & Hy & Uy & Ky) C. apply f_ltb_val in C; [|done|done].
    destruct (wrap_step y Fy C By) as (Fz & Lz & Sz & Uz & Ez). split; [|exact Sz].
    split; [done|]. split; [lia|]. split; [by right|]. split; [lia|].
    intros H4. destruct (Ky H4) as [k Hk]. exists (k + 1). rewrite Ez by lia. lia.
  - intros y (Fy & _) Hm. apply not_true_iff_false. intros C. apply f_ltb_val in C; [|done|done].
    assert (0 < fval f_pi) by (vm_compute; done). pose proof (sixes_pos (fval y) ltac:(lia)). lia.
  - exists y. split; [exact E|]. split; [done|]. apply f_ltb_ge in C; [|done|by apply fin_not_nan]. apply f_leb_val in C; done.
Qed.

(** The second loop. *)
Lemma wrap_up x : fin x -> fval x <= fval f_pi -> sixes (- fval x) <= 2 ^ 21 ->
  exists y, while_ wrap_depth (fun value => f_leb value (f_neg f_pi)) (fun value => f_add value f_two_pi) x = Some y /\
    fin y /\ - fval f_pi < fval y <= fval f_pi /\
    (- fval x <= 4 * fval f_pi -> exists k, fval y = fval x - k * fval f_two_pi).
Proof.
  intros F U B.
  destruct (while_ends (fun y => fin y /\ sixes (- fval y) <= 2 ^ 21 /\ fval y <= fval f_pi /\
      fval x <= fval y /\ (- fval x <= 4 * fval f_pi -> exists k, fval y = fval x - k * fval f_two_pi))
    (fun y => sixes (- fval y)) (fun value => f_leb value (f_neg f_pi)) (fun value => f_add value f_two_pi) wrap_depth x)
    as (y & E & (Fy & By & Hy & Uy & Ky) & C).
  - repeat split; auto; try apply F; try lia. intros _. exists 0. lia.
  - exact B.
  - intros y (Fy & By & Hy & Uy & Ky) C. apply f_leb_val in C; [|done|by apply fin_neg]. rewrite fval_neg in C.
    destruct (wrap_step_up y Fy C By) as (Fz & Lz & Sz & Uz & Ez). split; [|exact Sz].
    split; [done|]. split; [lia|]. split; [done|]. split; [lia|].
    intros H4. destruct (Ky H4) as [k Hk]. exists (k - 1). rewrite Ez by lia. lia.
  - intros y (Fy & _) Hm. apply not_true_iff_false. intros C. apply f_leb_val in C; [|done|by apply fin_neg]. rewrite fval_neg in C.
    assert (0 < fval f_pi) by (vm_compute; done). pose proof (sixes_pos (- fval y) ltac:(lia)). lia.
  - exists y. split; [exact E|]. split; [done|]. split; [|exact Ky]. split; [|done].
    apply not_true_iff_false in C. rewrite f_leb_val, fval_neg in C by (done || by apply fin_neg). lia.
Qed.

(** WrapAngle() returns an angle of the range. *)
Lemma WrapAngle_returns x : fin x -> Z.abs (fval x) <= 6 * 2 ^ 21 * 2 ^ 149 ->
  exists y, WrapAngle x = Some y /\ fin y /\ - fval f_pi < fval y <= fval f_pi /\
    (Z.abs (fval x) <= 4 * fval f_pi -> exists k, fval y = fval x - k * fval f_two_pi).
Proof.
  intros F B. assert (0 < fval f_pi) as Ppi by (vm_compute; done).
  destruct (wrap_down x F) as (v & Ev & Fv & Uv & Hv & Kv); [apply sixes_le; lia|].
  destruct (wrap_up v Fv Uv) as (y & Ey & Fy & Ry & Ky).
  { apply sixes_le. destruct Hv as [->|Hv]; [lia|]. destruct two_pi_value. lia. }
  exists y. split.
  { unfold WrapAngle. rewrite (proj1 F). cbn [negb]. rewrite Ev. cbn [mbind option_bind]. exact Ey. }
  split; [done|]. split; [lia|].
  intros H4. destruct (Kv ltac:(lia)) as [k Hk]. destruct Ky as [l Hl]; [destruct Hv; lia|]. exists (k + l). lia.
Qed.
Lemma WrapAngle_inside x : f_ltb (f_neg f_pi) x = true -> f_leb x f_pi = true -> fin x -> WrapAngle x = Some x.
Proof.
  intros L U F. unfold WrapAngle, while_, wrap_depth. rewrite (proj1 F). cbn [negb].
  assert (f_gtb x f_pi = false) as C1 by (apply not_true_iff_false; rewrite f_ltb_val by done; apply f_leb_val in U; done || lia).
  assert (f_leb x (f_neg f_pi) = false) as C2.
  { apply not_true_iff_false. rewrite f_leb_val by (done || by apply fin_neg). apply f_ltb_val in L; [lia|by apply fin_neg|done]. }
  rewrite (while_loop_stop _ _ _ x C1), C1. cbn [mbind option_bind]. by rewrite (while_loop_stop _ _ _ x C2), C2.
Qed.

(** ** Properties *)

(** The rotor position is exact: a sequence of advances (each at most
    2^20 rad) adds up in integer counts, whatever the order and with no drift,
    the revolution counter follows every crossing of the seam, no operation is
    undefined while the counter has room, and the absolute position converts to
    a rotor angle and back without loss. *)
Theorem advance_exact (offsets : list float) (a : RotorAngle) :
  angle_ok a -> Forall angle_small offsets ->
  Z.abs (revolutions_ a) + Z.of_nat (length offsets) * (2 ^ 18 + 2) < 2 ^ 31 ->
  exists b, advance_all offsets a = Some b /\ angle_ok b /\
    AbsoluteRaw b = Some (position a + foldr Z.add 0 (map moved offsets)) /\
    exists d, FromAbsoluteRaw (position b) = Some d /\ raw_ d = raw_ b /\ revolutions_ d = revolutions_ b.
Proof.
  intros Ha Hs Hr. destruct (advance_all_exact offsets a Ha Hs Hr) as (b & E & Hb & P & R). exists b.
  split; [exact E|]. split; [exact Hb|]. pose proof Hb as [R1 R2 _]. assert (- 2 ^ 63 <= position b < 2 ^ 63) by (unfold position; lia).
  split; [|apply FromAbsoluteRaw_position; [done|lia]].
  rewrite <- P. unfold AbsoluteRaw. change (check_i64 (position b) = Some (position b)). by apply check_i64_Some.
Qed.
Lemma advance_exact_witness :
  exists b, advance_all [f_of_Z 3; f_of_Z (-10); f_of_Z 5; f_of_Z 2] RotorAngle_init = Some b /\ position b = -128.
Proof.
  destruct (advance_exact [f_of_Z 3; f_of_Z (-10); f_of_Z 5; f_of_Z 2] RotorAngle_init) as (b & E & Hb & _);
    [split; cbn; auto; lia| |cbn; lia|].
  - repeat (apply Forall_cons_2; [split; [done|vm_compute; discriminate]|]). apply Forall_nil_2.
  - exists b. split; [exact E|]. revert E. vm_compute. intros [= <-]. reflexivity.
Defined.

(** C40. WrapAngle() returns for every angle up to 6 * 2^21 rad, within 2^21
    iterations per loop: the result is in (-pi, pi], an angle in the range is
    unchanged, and within two revolutions the result differs by a whole number
    of revolutions, without rounding. *)
Theorem WrapAngle_correct (x : float) :
  fin x -> Z.abs (fval x) <= 6 * 2 ^ 21 * 2 ^ 149 ->
  exists y, WrapAngle x = Some y /\ fin y /\ f_ltb (f_neg f_pi) y = true /\ f_leb y f_pi = true /\
    (f_ltb (f_neg f_pi) x = true -> f_leb x f_pi = true -> y = x) /\
    (Z.abs (fval x) <= 4 * fval f_pi -> exists k, fval y = fval x - k * fval f_two_pi).
Proof.
  intros F B. destruct (WrapAngle_returns x F B) as (y & E & Fy & Ry & Ky). exists y.
  split; [done|]. split; [done|]. assert (fin (f_neg f_pi)) as Fp by done.
  split; [apply (f_ltb_val _ _ Fp Fy); rewrite fval_neg; lia|]. split; [apply f_leb_val; [done|done|lia]|].
  split; [|exact Ky]. intros L U. rewrite (WrapAngle_inside x L U F) in E. congruence.
Qed.
Lemma WrapAngle_correct_witness :
  exists y, WrapAngle (f_of_Z 10) = Some y /\ f_ltb (f_neg f_pi) y = true /\ f_leb y f_pi = true.
Proof.
  destruct (WrapAngle_correct (f_of_Z 10)) as (y & E & _ & L & U & _); [done|vm_compute; discriminate|].
  exists y. split; [exact E|]. split; [exact L|exact U].
Defined.

(** *** Beyond the documented range

    Above 2^27 rad the subtraction of a revolution rounds away: the loop of
    WrapAngle() does not end. *)
Lemma WrapAngle_large depth :
  let x := f_of_Z (2 ^ 27 + 16) in
  while_ depth (fun value => f_gtb value f_pi) (fun value => f_sub value f_two_pi) x = None.
Proof.
  intros x. assert (while_loop depth (fun value => f_gtb value f_pi) (fun value => f_sub value f_two_pi) x = x) as E.
  { assert (f_sub x f_two_pi = x) as S by reflexivity. induction depth as [|d IH]; cbn [while_loop].
    - by rewrite S; case_if.
    - rewrite IH. by case_if. }
  unfold while_. by rewrite E.
Qed.

(** One radian is not advanced by the nearest count: the float constant of the
    conversion is off by more. *)
Lemma one_radian_counts : moved f_one = 683565248 /\ 683565275 <= 2 ^ 32 * 10 ^ 9 / 6283185308.
Proof. split; vm_compute; done. Qed.

End RotorAngle.
