(* ===== verification/Units.v ===== *)
(** * Dimensions and unit prefixes

    lib/units/units.hpp: the dimension of a quantity with the electromechanical
    coupling of products and quotients, and the conversion between prefixes.
    lib/settings/unit_symbol.hpp: the symbol of a dimension.  A quantity itself
    is its [float]; its dimension is checked at compile time only. *)
From Stdlib Require Import ZArith Lia Bool SpecFloat.
From stdpp Require Import base decidable list strings.
From S2P Require Import Prelude Float32.

#[local] Open Scope Z_scope.
#[local] Open Scope string_scope.

Module Units.

(** Exponents of mass, length, time, current, temperature and angle. *)
Record Dimension := mkDimension {
  kMass : Z; kLength : Z; kTime : Z; kCurrent : Z; kTemperature : Z; kAngle : Z }.
#[export] Instance Dimension_eq_dec : EqDecision Dimension.
Proof. solve_decision. Defined.

Definition DimensionProduct (d1 d2 : Dimension) : Dimension :=
  mkDimension (kMass d1 + kMass d2) (kLength d1 + kLength d2) (kTime d1 + kTime d2)
    (kCurrent d1 + kCurrent d2) (kTemperature d1 + kTemperature d2) (kAngle d1 + kAngle d2).
Definition DimensionQuotient (d1 d2 : Dimension) : Dimension :=
  mkDimension (kMass d1 - kMass d2) (kLength d1 - kLength d2) (kTime d1 - kTime d2)
    (kCurrent d1 - kCurrent d2) (kTemperature d1 - kTemperature d2) (kAngle d1 - kAngle d2).
(** [None] where the static assertion of DimensionRoot fails. *)
Definition DimensionRoot (d : Dimension) : option Dimension :=
  if Z.even (kMass d) && Z.even (kLength d) && Z.even (kTime d) && Z.even (kCurrent d) &&
     Z.even (kTemperature d) && Z.even (kAngle d)
  then Some (mkDimension (Z.quot (kMass d) 2) (Z.quot (kLength d) 2) (Z.quot (kTime d) 2)
               (Z.quot (kCurrent d) 2) (Z.quot (kTemperature d) 2) (Z.quot (kAngle d) 2))
  else None.

Definition dim_Dimensionless : Dimension := mkDimension 0 0 0 0 0 0.
Definition dim_Mass : Dimension := mkDimension 1 0 0 0 0 0.
Definition dim_Length : Dimension := mkDimension 0 1 0 0 0 0.
Definition dim_Time : Dimension := mkDimension 0 0 1 0 0 0.
Definition dim_Current : Dimension := mkDimension 0 0 0 1 0 0.
Definition dim_Temperature : Dimension := mkDimension 0 0 0 0 1 0.
Definition dim_Angle : Dimension := mkDimension 0 0 0 0 0 1.
Definition dim_Frequency : Dimension := DimensionQuotient dim_Dimensionless dim_Time.
Definition dim_AngularVelocity : Dimension := DimensionQuotient dim_Angle dim_Time.
Definition dim_AngularAcceleration : Dimension := DimensionQuotient dim_AngularVelocity dim_Time.
Definition dim_Energy : Dimension := mkDimension 1 2 (-2) 0 0 0.
Definition dim_Power : Dimension := DimensionQuotient dim_Energy dim_Time.
Definition dim_Torque : Dimension := DimensionQuotient dim_Energy dim_Angle.
Definition dim_Inertia : Dimension := DimensionQuotient dim_Torque dim_AngularAcceleration.
Definition dim_Voltage : Dimension := DimensionQuotient dim_Power dim_Current.
Definition dim_Resistance : Dimension := DimensionQuotient dim_Voltage dim_Current.
Definition dim_MagneticFlux : Dimension := DimensionProduct dim_Voltage dim_Time.
Definition dim_Inductance : Dimension := DimensionQuotient dim_MagneticFlux dim_Current.

(** The dimension of a product and of a quotient of two quantities. *)
Definition ProductDimension (d1 d2 : Dimension) : Dimension :=
  if bool_decide (d1 = dim_AngularVelocity /\ d2 = dim_MagneticFlux) then dim_Voltage
  else if bool_decide (d1 = dim_MagneticFlux /\ d2 = dim_AngularVelocity) then dim_Voltage
  else if bool_decide (d1 = dim_MagneticFlux /\ d2 = dim_Current) then dim_Torque
  else if bool_decide (d1 = dim_Current /\ d2 = dim_MagneticFlux) then dim_Torque
  else DimensionProduct d1 d2.
Definition QuotientDimension (d1 d2 : Dimension) : Dimension :=
  if bool_decide (d1 = dim_Torque /\ d2 = dim_MagneticFlux) then dim_Current
  else if bool_decide (d1 = dim_Torque /\ d2 = dim_Current) then dim_MagneticFlux
  else if bool_decide (d1 = dim_Voltage /\ d2 = dim_AngularVelocity) then dim_MagneticFlux
  else DimensionQuotient d1 d2.

Definition VoltagePerCurrentTime : Dimension := DimensionQuotient dim_Resistance dim_Time.
Definition CurrentPerMagneticFlux : Dimension := DimensionQuotient dim_Current dim_MagneticFlux.
Definition CurrentPerMagneticFluxTime : Dimension :=
  DimensionQuotient (DimensionQuotient dim_Current dim_MagneticFlux) dim_Time.
Definition AnglePerCurrent : Dimension := DimensionQuotient dim_Angle dim_Current.
Definition TorquePerAngularVelocity : Dimension := DimensionQuotient dim_Torque dim_AngularVelocity.
Definition AngleVariance : Dimension := DimensionProduct dim_Angle dim_Angle.
Definition AngleVarianceSpeedWeight : Dimension :=
  DimensionProduct (DimensionProduct dim_Angle dim_Angle) (DimensionProduct dim_AngularVelocity dim_AngularVelocity).

(** The converting constructor from the prefix [num / den] to the base unit. *)
Definition convert (num den : Z) (value : float) : float :=
  f_div (f_mul (f_div (f_mul value (f_of_Z num)) (f_of_Z den)) f_one) f_one.

(** DimensionSymbol(); [no_unit] is the empty string view. *)
Definition no_unit : string := EmptyString.
Definition DimensionSymbol (d : Dimension) : string :=
  if bool_decide (d = dim_Time) then "s"
  else if bool_decide (d = dim_Frequency) then "1/s"
  else if bool_decide (d = dim_Length) then "m"
  else if bool_decide (d = dim_Mass) then "kg"
  else if bool_decide (d = dim_Current) then "A"
  else if bool_decide (d = dim_Voltage) then "V"
  else if bool_decide (d = dim_Resistance) then "Ohm"
  else if bool_decide (d = dim_Inductance) then "H"
  else if bool_decide (d = dim_MagneticFlux) then "Wb"
  else if bool_decide (d = dim_Power) then "W"
  else if bool_decide (d = dim_Temperature) then "K"
  else if bool_decide (d = dim_Angle) then "rad"
  else if bool_decide (d = dim_AngularVelocity) then "rad/s"
  else if bool_decide (d = dim_AngularAcceleration) then "rad/s^2"
  else if bool_decide (d = dim_Torque) then "N m"
  else if bool_decide (d = dim_Inertia) then "kg m^2"
  else no_unit.

(** The coupling rules agree with each other: back-EMF times current and speed
    times torque are both power, and a torque over a torque constant is the
    current that produces it. *)
Lemma coupling_agrees :
  ProductDimension (ProductDimension dim_AngularVelocity dim_MagneticFlux) dim_Current = dim_Power /\
  ProductDimension dim_AngularVelocity (ProductDimension dim_MagneticFlux dim_Current) = dim_Power /\
  QuotientDimension (ProductDimension dim_MagneticFlux dim_Current) dim_MagneticFlux = dim_Current /\
  ProductDimension dim_Inductance dim_Current = dim_MagneticFlux.
Proof. vm_compute. done. Qed.

Lemma root_of_square d : DimensionRoot (DimensionProduct d d) = Some d.
Proof.
  destruct d as [a b c d e f]. unfold DimensionRoot, DimensionProduct. cbn.
  assert (forall x, Z.even (x + x) = true /\ Z.quot (x + x) 2 = x) as H.
  { intros x. replace (x + x) with (x * 2) by lia. split; [rewrite Z.even_mul; by rewrite orb_true_r|apply Z.quot_mul; lia]. }
  repeat rewrite (proj1 (H _)). repeat rewrite (proj2 (H _)). done.
Qed.

End Units.
