(* ===== verification/SettingsData.v ===== *)
(** * Settings: the data and its registers

    lib/settings/nvm_settings.hpp: the members of [NvmSettings], their types and
    defaults.  lib/cyphal/node_identity.hpp: the node identity in it.
    lib/settings/settings_registers.hpp: the register of each member with its
    description.  A numeric member is the machine word that stores it (the bit
    pattern for a float), so that settings that differ in a NaN payload or in
    the sign of zero differ as they do for the storage. *)
From Stdlib Require Import ZArith Lia Bool SpecFloat Ascii.
From stdpp Require Import base decidable list strings.
From S2P Require Import Prelude Float32 Units.
Import Units.

#[local] Open Scope string_scope.
#[local] Open Scope Z_scope.
#[local] Open Scope unimoc_scope.

Module SettingsData.

(** ** Enumerations and port-IDs (motor_type.hpp, control_mode.hpp, cyphal_interface.hpp) *)
Inductive MotorType := kPmsm | kAsm | kEesm.
Definition enum_MotorType (m : MotorType) : Z := match m with kPmsm => 0 | kAsm => 1 | kEesm => 2 end.
Inductive ControlMode := kTorque | kSpeed | kPosition.
#[export] Instance ControlMode_eq_dec : EqDecision ControlMode.
Proof. solve_decision. Defined.
Definition enum_ControlMode (c : ControlMode) : Z := match c with kTorque => 0 | kSpeed => 1 | kPosition => 2 end.

Definition kUnsetPortId : Z := 0xFFFF.
Definition kMaxServiceId : Z := 511.
Definition kReadinessFollowsNodeId : Z := 0xFFFE.
Definition kSubReadinessBase : Z := 1024.
Definition EffectiveReadinessId (configured node_id : Z) : Z :=
  if negb (configured =? kReadinessFollowsNodeId) then configured
  else if node_id <=? 127 then u16 (kSubReadinessBase + node_id) else kUnsetPortId.

Definition kSubTorqueSetpoint : Z := 100.
Definition kSubSpeedSetpoint : Z := 101.
Definition kSubPositionSetpoint : Z := 102.
Definition kSubCurrentSetpoint : Z := 107.
Definition kSubServoSetpoint : Z := 108.
Definition kSubWheelCommand : Z := 110.
Definition kSubPedalState : Z := 111.
Definition kSubBatteryStatus : Z := 112.
Definition kPubHomingState : Z := 204.
Definition kPubTelemetry : Z := 212.
Definition kPubDriveStatus : Z := 214.
Definition kPubCommissioning : Z := 215.
Definition kSrvCymonVariables : Z := 120.
Definition kSrvCymonBufferInfo : Z := 121.
Definition kSrvCymonSetup : Z := 122.
Definition kSrvCymonArm : Z := 123.
Definition kSrvCymonRead : Z := 124.

(** ** The members of NvmSettings *)
Inductive Field :=
  | node_id | motor_type | pole_pairs | control_mode | stator_r | stator_l | motor_i_max | motor_omega_max
  | motor_omega_min | battery_drive_current_max | battery_charge_current_max | dc_link_regen_derate_start
  | dc_link_trip | flux_pm | l_d | l_q | asm_r_r | asm_r_s | asm_l_s | asm_l_r | asm_l_m | motor_j
  | mech_obs_q | mech_obs_r | pmsm_flux_obs_c_d | pmsm_flux_obs_c_q | pmsm_flux_obs_r_speed | hall_enable
  | hall_offset | hall_r_edge | hall_r_sector | asm_obs_g_i | asm_obs_g_flux | asm_flux_kp | asm_flux_ki
  | asm_flux_i_d_min | asm_flux_i_d_max | fw_v_max | fw_ki | fw_i_d_min | pwm_frequency | current_kp_d
  | current_ki_d | current_kp_q | current_ki_q | current_v_max | svm_duty_min | svm_duty_max | dtc_dead_time
  | dtc_f_pwm | dtc_i_threshold | hfi_v_inject | hfi_error_gain | excitation_mode | excitation_l_m
  | excitation_kp | excitation_ki | excitation_i_f_min | excitation_i_f_max | excitation_obs_tau
  | excitation_obs_l_m | speed_kp | speed_ki | speed_accel_limit | pos_kp_pos | pos_kp_speed | pos_ki_speed
  | pos_speed_limit | pos_accel_limit | pos_position_tolerance | pos_speed_tolerance | pos_homing_speed
  | pos_homing_current | adc_offset_a | adc_offset_b | adc_offset_c | adc_gain_a | adc_gain_b | adc_gain_c
  | adc_gain_vdc | sub_readiness_id | sub_current_setpoint_id | sub_torque_setpoint_id
  | sub_speed_setpoint_id | sub_position_setpoint_id | sub_servo_setpoint_id | pub_telemetry_id
  | srv_cymon_variables_id | srv_cymon_buffer_info_id | srv_cymon_setup_id | srv_cymon_arm_id
  | srv_cymon_read_id | pub_cymon_trigger_id | sub_cymon_trigger_id | telemetry_rate | command_timeout
  | sub_wheel_command_id | sub_pedal_state_id | sub_battery_status_id | pub_drive_status_id
  | pub_commissioning_id | pub_homing_state_id | cart_wheel | cart_reversed | cart_timeout | cart_status_rate
  | cart_torque_ramp | cart_limp_home_torque | cart_standstill_speed | cart_battery_share
  | ebike_pulses_per_rev | ebike_wheel_circumference | ebike_gear_ratio | ebike_battery_cells
  | ebike_nominal_voltage | ebike_gain_1 | ebike_gain_2 | ebike_gain_3 | ebike_gain_4 | ebike_gain_5
  | ebike_power_scale | ebike_max_ratio | ebike_torque_ratio | ebike_torque_deadband | ebike_min_cadence
  | ebike_speed_taper | ebike_rise_time | ebike_fall_time | ebike_engage_hold | ebike_rearm_time
  | ebike_display_timeout.

Definition all_fields : list Field := [
  node_id; motor_type; pole_pairs; control_mode; stator_r; stator_l; motor_i_max; motor_omega_max;
  motor_omega_min; battery_drive_current_max; battery_charge_current_max; dc_link_regen_derate_start;
  dc_link_trip; flux_pm; l_d; l_q; asm_r_r; asm_r_s; asm_l_s; asm_l_r; asm_l_m; motor_j; mech_obs_q;
  mech_obs_r; pmsm_flux_obs_c_d; pmsm_flux_obs_c_q; pmsm_flux_obs_r_speed; hall_enable; hall_offset;
  hall_r_edge; hall_r_sector; asm_obs_g_i; asm_obs_g_flux; asm_flux_kp; asm_flux_ki; asm_flux_i_d_min;
  asm_flux_i_d_max; fw_v_max; fw_ki; fw_i_d_min; pwm_frequency; current_kp_d; current_ki_d; current_kp_q;
  current_ki_q; current_v_max; svm_duty_min; svm_duty_max; dtc_dead_time; dtc_f_pwm; dtc_i_threshold;
  hfi_v_inject; hfi_error_gain; excitation_mode; excitation_l_m; excitation_kp; excitation_ki;
  excitation_i_f_min; excitation_i_f_max; excitation_obs_tau; excitation_obs_l_m; speed_kp; speed_ki;
  speed_accel_limit; pos_kp_pos; pos_kp_speed; pos_ki_speed; pos_speed_limit; pos_accel_limit;
  pos_position_tolerance; pos_speed_tolerance; pos_homing_speed; pos_homing_current; adc_offset_a;
  adc_offset_b; adc_offset_c; adc_gain_a; adc_gain_b; adc_gain_c; adc_gain_vdc; sub_readiness_id;
  sub_current_setpoint_id; sub_torque_setpoint_id; sub_speed_setpoint_id; sub_position_setpoint_id;
  sub_servo_setpoint_id; pub_telemetry_id; srv_cymon_variables_id; srv_cymon_buffer_info_id;
  srv_cymon_setup_id; srv_cymon_arm_id; srv_cymon_read_id; pub_cymon_trigger_id; sub_cymon_trigger_id;
  telemetry_rate; command_timeout; sub_wheel_command_id; sub_pedal_state_id; sub_battery_status_id;
  pub_drive_status_id; pub_commissioning_id; pub_homing_state_id; cart_wheel; cart_reversed; cart_timeout;
  cart_status_rate; cart_torque_ramp; cart_limp_home_torque; cart_standstill_speed; cart_battery_share;
  ebike_pulses_per_rev; ebike_wheel_circumference; ebike_gear_ratio; ebike_battery_cells;
  ebike_nominal_voltage; ebike_gain_1; ebike_gain_2; ebike_gain_3; ebike_gain_4; ebike_gain_5;
  ebike_power_scale; ebike_max_ratio; ebike_torque_ratio; ebike_torque_deadband; ebike_min_cadence;
  ebike_speed_taper; ebike_rise_time; ebike_fall_time; ebike_engage_hold; ebike_rearm_time;
  ebike_display_timeout].

Definition field_index (f : Field) : nat :=
  match f with
  | node_id => 0 | motor_type => 1 | pole_pairs => 2 | control_mode => 3 | stator_r => 4 | stator_l => 5
  | motor_i_max => 6 | motor_omega_max => 7 | motor_omega_min => 8 | battery_drive_current_max => 9
  | battery_charge_current_max => 10 | dc_link_regen_derate_start => 11 | dc_link_trip => 12 | flux_pm => 13
  | l_d => 14 | l_q => 15 | asm_r_r => 16 | asm_r_s => 17 | asm_l_s => 18 | asm_l_r => 19 | asm_l_m => 20
  | motor_j => 21 | mech_obs_q => 22 | mech_obs_r => 23 | pmsm_flux_obs_c_d => 24 | pmsm_flux_obs_c_q => 25
  | pmsm_flux_obs_r_speed => 26 | hall_enable => 27 | hall_offset => 28 | hall_r_edge => 29
  | hall_r_sector => 30 | asm_obs_g_i => 31 | asm_obs_g_flux => 32 | asm_flux_kp => 33 | asm_flux_ki => 34
  | asm_flux_i_d_min => 35 | asm_flux_i_d_max => 36 | fw_v_max => 37 | fw_ki => 38 | fw_i_d_min => 39
  | pwm_frequency => 40 | current_kp_d => 41 | current_ki_d => 42 | current_kp_q => 43 | current_ki_q => 44
  | current_v_max => 45 | svm_duty_min => 46 | svm_duty_max => 47 | dtc_dead_time => 48 | dtc_f_pwm => 49
  | dtc_i_threshold => 50 | hfi_v_inject => 51 | hfi_error_gain => 52 | excitation_mode => 53
  | excitation_l_m => 54 | excitation_kp => 55 | excitation_ki => 56 | excitation_i_f_min => 57
  | excitation_i_f_max => 58 | excitation_obs_tau => 59 | excitation_obs_l_m => 60 | speed_kp => 61
  | speed_ki => 62 | speed_accel_limit => 63 | pos_kp_pos => 64 | pos_kp_speed => 65 | pos_ki_speed => 66
  | pos_speed_limit => 67 | pos_accel_limit => 68 | pos_position_tolerance => 69 | pos_speed_tolerance => 70
  | pos_homing_speed => 71 | pos_homing_current => 72 | adc_offset_a => 73 | adc_offset_b => 74
  | adc_offset_c => 75 | adc_gain_a => 76 | adc_gain_b => 77 | adc_gain_c => 78 | adc_gain_vdc => 79
  | sub_readiness_id => 80 | sub_current_setpoint_id => 81 | sub_torque_setpoint_id => 82
  | sub_speed_setpoint_id => 83 | sub_position_setpoint_id => 84 | sub_servo_setpoint_id => 85
  | pub_telemetry_id => 86 | srv_cymon_variables_id => 87 | srv_cymon_buffer_info_id => 88
  | srv_cymon_setup_id => 89 | srv_cymon_arm_id => 90 | srv_cymon_read_id => 91 | pub_cymon_trigger_id => 92
  | sub_cymon_trigger_id => 93 | telemetry_rate => 94 | command_timeout => 95 | sub_wheel_command_id => 96
  | sub_pedal_state_id => 97 | sub_battery_status_id => 98 | pub_drive_status_id => 99
  | pub_commissioning_id => 100 | pub_homing_state_id => 101 | cart_wheel => 102 | cart_reversed => 103
  | cart_timeout => 104 | cart_status_rate => 105 | cart_torque_ramp => 106 | cart_limp_home_torque => 107
  | cart_standstill_speed => 108 | cart_battery_share => 109 | ebike_pulses_per_rev => 110
  | ebike_wheel_circumference => 111 | ebike_gear_ratio => 112 | ebike_battery_cells => 113
  | ebike_nominal_voltage => 114 | ebike_gain_1 => 115 | ebike_gain_2 => 116 | ebike_gain_3 => 117
  | ebike_gain_4 => 118 | ebike_gain_5 => 119 | ebike_power_scale => 120 | ebike_max_ratio => 121
  | ebike_torque_ratio => 122 | ebike_torque_deadband => 123 | ebike_min_cadence => 124
  | ebike_speed_taper => 125 | ebike_rise_time => 126 | ebike_fall_time => 127 | ebike_engage_hold => 128
  | ebike_rearm_time => 129 | ebike_display_timeout => 130
  end%nat.

(** The types of the members; [TorqueRate] is torque per time. *)
Definition TorqueRate : Dimension := QuotientDimension dim_Torque dim_Time.
Inductive FieldType := T_u8 | T_enum | T_u16 | T_float | T_unit (dimension : Dimension).

Definition field_type (f : Field) : FieldType :=
  match f with
  | node_id | pole_pairs | hall_enable | excitation_mode | cart_wheel | cart_reversed | ebike_pulses_per_rev
  | ebike_battery_cells | ebike_nominal_voltage => T_u8
  | motor_type | control_mode => T_enum
  | stator_r | asm_r_r | asm_r_s | asm_obs_g_flux | current_kp_d | current_kp_q => T_unit dim_Resistance
  | stator_l | l_d | l_q | asm_l_s | asm_l_r | asm_l_m | excitation_l_m | excitation_obs_l_m => T_unit dim_Inductance
  | motor_i_max | battery_drive_current_max | battery_charge_current_max | asm_flux_i_d_min
  | asm_flux_i_d_max | fw_i_d_min | dtc_i_threshold | excitation_i_f_min | excitation_i_f_max
  | pos_homing_current | adc_offset_a | adc_offset_b | adc_offset_c => T_unit dim_Current
  | motor_omega_max | motor_omega_min | pos_speed_limit | pos_speed_tolerance | pos_homing_speed
  | cart_standstill_speed | ebike_min_cadence | ebike_speed_taper => T_unit dim_AngularVelocity
  | dc_link_regen_derate_start | dc_link_trip | fw_v_max | hfi_v_inject => T_unit dim_Voltage
  | flux_pm => T_unit dim_MagneticFlux
  | motor_j => T_unit dim_Inertia
  | mech_obs_q | ebike_wheel_circumference => T_float
  | mech_obs_r | hall_r_edge | hall_r_sector => T_unit AngleVariance
  | pmsm_flux_obs_c_d | pmsm_flux_obs_c_q | asm_obs_g_i | pwm_frequency | dtc_f_pwm | excitation_ki
  | speed_ki | pos_kp_pos | pos_ki_speed | telemetry_rate | cart_status_rate => T_unit dim_Frequency
  | pmsm_flux_obs_r_speed => T_unit AngleVarianceSpeedWeight
  | hall_offset | pos_position_tolerance => T_unit dim_Angle
  | asm_flux_kp | fw_ki => T_unit CurrentPerMagneticFlux
  | asm_flux_ki => T_unit CurrentPerMagneticFluxTime
  | current_ki_d | current_ki_q => T_unit VoltagePerCurrentTime
  | current_v_max | svm_duty_min | svm_duty_max | excitation_kp | pos_kp_speed | adc_gain_a | adc_gain_b
  | adc_gain_c | adc_gain_vdc | cart_battery_share | ebike_gear_ratio | ebike_gain_1 | ebike_gain_2
  | ebike_gain_3 | ebike_gain_4 | ebike_gain_5 | ebike_max_ratio | ebike_torque_ratio => T_unit dim_Dimensionless
  | dtc_dead_time | excitation_obs_tau | command_timeout | cart_timeout | ebike_rise_time | ebike_fall_time
  | ebike_engage_hold | ebike_rearm_time | ebike_display_timeout => T_unit dim_Time
  | hfi_error_gain => T_unit AnglePerCurrent
  | speed_kp => T_unit TorquePerAngularVelocity
  | speed_accel_limit | pos_accel_limit => T_unit dim_AngularAcceleration
  | sub_readiness_id | sub_current_setpoint_id | sub_torque_setpoint_id | sub_speed_setpoint_id
  | sub_position_setpoint_id | sub_servo_setpoint_id | pub_telemetry_id | srv_cymon_variables_id
  | srv_cymon_buffer_info_id | srv_cymon_setup_id | srv_cymon_arm_id | srv_cymon_read_id
  | pub_cymon_trigger_id | sub_cymon_trigger_id | sub_wheel_command_id | sub_pedal_state_id
  | sub_battery_status_id | pub_drive_status_id | pub_commissioning_id | pub_homing_state_id => T_u16
  | cart_torque_ramp => T_unit TorqueRate
  | cart_limp_home_torque | ebike_torque_deadband => T_unit dim_Torque
  | ebike_power_scale => T_unit dim_Power
  end.

Definition kHoverboardR : float := f_lit 15 100.
Definition kHoverboardL : float := convert 1 1000 (f_lit 35 100).
Definition kHoverboardCurrentBandwidth : float := f_of_Z 2000.

(** The default member initialisers, by the sections of the struct. *)
(** Node, system, limits and machine parameters. *)
Definition default_machine (f : Field) : option Z :=
  match f with
  | node_id => Some 0
  | motor_type => Some (enum_MotorType kPmsm)
  | pole_pairs => Some 15
  | control_mode => Some (enum_ControlMode kTorque)
  | stator_r => Some (bits_of_float (kHoverboardR))
  | stator_l => Some (bits_of_float (kHoverboardL))
  | motor_i_max => Some (bits_of_float (f_of_Z 15))
  | motor_omega_max => Some (bits_of_float (f_of_Z 1500))
  | motor_omega_min => Some (bits_of_float (f_neg (f_of_Z 1500)))
  | battery_drive_current_max => Some (bits_of_float (f_of_Z 15))
  | battery_charge_current_max => Some (bits_of_float (f_of_Z 5))
  | dc_link_regen_derate_start => Some (bits_of_float (f_of_Z 55))
  | dc_link_trip => Some (bits_of_float (f_of_Z 58))
  | flux_pm => Some (bits_of_float (convert 1 1000 (f_of_Z 23)))
  | l_d => Some (bits_of_float (kHoverboardL))
  | l_q => Some (bits_of_float (kHoverboardL))
  | asm_r_r => Some (bits_of_float (f_lit 3 10))
  | asm_r_s => Some (bits_of_float (f_lit 1 2))
  | asm_l_s => Some (bits_of_float (convert 1 1000 (f_of_Z 50)))
  | asm_l_r => Some (bits_of_float (convert 1 1000 (f_of_Z 50)))
  | asm_l_m => Some (bits_of_float (convert 1 1000 (f_of_Z 47)))
  | _ => None
  end.
(** Mechanics, observers, flux control, field weakening, PWM. *)
Definition default_observers (f : Field) : option Z :=
  match f with
  | motor_j => Some (bits_of_float (f_lit 1 40))
  | mech_obs_q => Some (bits_of_float (f_lit 1 100000))
  | mech_obs_r => Some (bits_of_float (f_lit 1 10000))
  | pmsm_flux_obs_c_d => Some (bits_of_float (f_of_Z 50))
  | pmsm_flux_obs_c_q => Some (bits_of_float (f_of_Z 1))
  | pmsm_flux_obs_r_speed => Some (bits_of_float (f_zero))
  | hall_enable => Some 0
  | hall_offset => Some (bits_of_float (f_zero))
  | hall_r_edge => Some (bits_of_float (f_lit 3 1000))
  | hall_r_sector => Some (bits_of_float (f_lit 3 100))
  | asm_obs_g_i => Some (bits_of_float (f_of_Z 500))
  | asm_obs_g_flux => Some (bits_of_float (f_of_Z 5000))
  | asm_flux_kp => Some (bits_of_float (f_of_Z 10))
  | asm_flux_ki => Some (bits_of_float (f_of_Z 50))
  | asm_flux_i_d_min => Some (bits_of_float (f_zero))
  | asm_flux_i_d_max => Some (bits_of_float (f_of_Z 10))
  | fw_v_max => Some (bits_of_float (f_lit 9 10))
  | fw_ki => Some (bits_of_float (f_of_Z 10))
  | fw_i_d_min => Some (bits_of_float (f_neg (f_of_Z 10)))
  | pwm_frequency => Some (bits_of_float (convert 1000 1 (f_of_Z 20)))
  | _ => None
  end.
(** Current controller, modulation, excitation, speed controller. *)
Definition default_controllers (f : Field) : option Z :=
  match f with
  | current_kp_d => Some (bits_of_float (f_mul kHoverboardL kHoverboardCurrentBandwidth))
  | current_ki_d => Some (bits_of_float (f_mul kHoverboardR kHoverboardCurrentBandwidth))
  | current_kp_q => Some (bits_of_float (f_mul kHoverboardL kHoverboardCurrentBandwidth))
  | current_ki_q => Some (bits_of_float (f_mul kHoverboardR kHoverboardCurrentBandwidth))
  | current_v_max => Some (bits_of_float (f_lit 9 10))
  | svm_duty_min => Some (bits_of_float (f_lit 1 20))
  | svm_duty_max => Some (bits_of_float (f_lit 19 20))
  | dtc_dead_time => Some (bits_of_float (f_zero))
  | dtc_f_pwm => Some (bits_of_float (convert 1000 1 (f_of_Z 10)))
  | dtc_i_threshold => Some (bits_of_float (f_lit 1 10))
  | hfi_v_inject => Some (bits_of_float (f_zero))
  | hfi_error_gain => Some (bits_of_float (f_of_Z 1))
  | excitation_mode => Some 0
  | excitation_l_m => Some (bits_of_float (convert 1 1000 (f_of_Z 47)))
  | excitation_kp => Some (bits_of_float (f_of_Z 5))
  | excitation_ki => Some (bits_of_float (f_of_Z 50))
  | excitation_i_f_min => Some (bits_of_float (f_zero))
  | excitation_i_f_max => Some (bits_of_float (f_of_Z 10))
  | excitation_obs_tau => Some (bits_of_float (convert 1 1000 (f_of_Z 2)))
  | excitation_obs_l_m => Some (bits_of_float (convert 1 1000 (f_of_Z 47)))
  | speed_kp => Some (bits_of_float (f_lit 3 10))
  | speed_ki => Some (bits_of_float (f_of_Z 5))
  | speed_accel_limit => Some (bits_of_float (f_of_Z 1000))
  | _ => None
  end.
(** Position controller, calibration, ports and timing. *)
Definition default_position_ports (f : Field) : option Z :=
  match f with
  | pos_kp_pos => Some (bits_of_float (f_of_Z 10))
  | pos_kp_speed => Some (bits_of_float (f_of_Z 5))
  | pos_ki_speed => Some (bits_of_float (f_of_Z 20))
  | pos_speed_limit => Some (bits_of_float (f_of_Z 100))
  | pos_accel_limit => Some (bits_of_float (f_of_Z 500))
  | pos_position_tolerance => Some (bits_of_float (f_lit 1 100))
  | pos_speed_tolerance => Some (bits_of_float (f_of_Z 1))
  | pos_homing_speed => Some (bits_of_float (f_of_Z 5))
  | pos_homing_current => Some (bits_of_float (f_of_Z 2))
  | adc_offset_a => Some (bits_of_float (f_zero))
  | adc_offset_b => Some (bits_of_float (f_zero))
  | adc_offset_c => Some (bits_of_float (f_zero))
  | adc_gain_a => Some (bits_of_float (f_of_Z 1))
  | adc_gain_b => Some (bits_of_float (f_of_Z 1))
  | adc_gain_c => Some (bits_of_float (f_of_Z 1))
  | adc_gain_vdc => Some (bits_of_float (f_of_Z 1))
  | sub_readiness_id => Some kReadinessFollowsNodeId
  | sub_current_setpoint_id => Some kSubCurrentSetpoint
  | sub_torque_setpoint_id => Some kSubTorqueSetpoint
  | sub_speed_setpoint_id => Some kSubSpeedSetpoint
  | sub_position_setpoint_id => Some kSubPositionSetpoint
  | sub_servo_setpoint_id => Some kSubServoSetpoint
  | pub_telemetry_id => Some kPubTelemetry
  | srv_cymon_variables_id => Some kSrvCymonVariables
  | srv_cymon_buffer_info_id => Some kSrvCymonBufferInfo
  | srv_cymon_setup_id => Some kSrvCymonSetup
  | srv_cymon_arm_id => Some kSrvCymonArm
  | srv_cymon_read_id => Some kSrvCymonRead
  | pub_cymon_trigger_id => Some kUnsetPortId
  | sub_cymon_trigger_id => Some kUnsetPortId
  | telemetry_rate => Some (bits_of_float (f_of_Z 20))
  | command_timeout => Some (bits_of_float (f_lit 1 2))
  | _ => None
  end.
(** Cart. *)
Definition default_cart (f : Field) : option Z :=
  match f with
  | sub_wheel_command_id => Some kSubWheelCommand
  | sub_pedal_state_id => Some kSubPedalState
  | sub_battery_status_id => Some kSubBatteryStatus
  | pub_drive_status_id => Some kPubDriveStatus
  | pub_commissioning_id => Some kPubCommissioning
  | pub_homing_state_id => Some kPubHomingState
  | cart_wheel => Some 0
  | cart_reversed => Some 0
  | cart_timeout => Some (bits_of_float (f_lit 1 10))
  | cart_status_rate => Some (bits_of_float (f_of_Z 50))
  | cart_torque_ramp => Some (bits_of_float (f_div (f_of_Z 50) (f_of_Z 1)))
  | cart_limp_home_torque => Some (bits_of_float (f_of_Z 5))
  | cart_standstill_speed => Some (bits_of_float (f_of_Z 1))
  | cart_battery_share => Some (bits_of_float (f_of_Z 1))
  | _ => None
  end.
(** E-bike. *)
Definition default_ebike (f : Field) : option Z :=
  match f with
  | ebike_pulses_per_rev => Some 36
  | ebike_wheel_circumference => Some (bits_of_float (f_lit 21 10))
  | ebike_gear_ratio => Some (bits_of_float (f_of_Z 1))
  | ebike_battery_cells => Some 10
  | ebike_nominal_voltage => Some 36
  | ebike_gain_1 => Some (bits_of_float (f_lit 3 10))
  | ebike_gain_2 => Some (bits_of_float (f_lit 3 5))
  | ebike_gain_3 => Some (bits_of_float (f_of_Z 1))
  | ebike_gain_4 => Some (bits_of_float (f_lit 3 2))
  | ebike_gain_5 => Some (bits_of_float (f_of_Z 2))
  | ebike_power_scale => Some (bits_of_float (f_of_Z 300))
  | ebike_max_ratio => Some (bits_of_float (f_of_Z 4))
  | ebike_torque_ratio => Some (bits_of_float (f_lit 1 2))
  | ebike_torque_deadband => Some (bits_of_float (f_of_Z 2))
  | ebike_min_cadence => Some (bits_of_float (f_of_Z 2))
  | ebike_speed_taper => Some (bits_of_float (f_of_Z 20))
  | ebike_rise_time => Some (bits_of_float (f_lit 1 2))
  | ebike_fall_time => Some (bits_of_float (f_lit 3 20))
  | ebike_engage_hold => Some (bits_of_float (f_of_Z 2))
  | ebike_rearm_time => Some (bits_of_float (f_of_Z 1))
  | ebike_display_timeout => Some (bits_of_float (f_of_Z 2))
  | _ => None
  end.
Definition default_value (f : Field) : Z :=
  match default_machine f, default_observers f, default_controllers f, default_position_ports f, default_cart f,
        default_ebike f with
  | Some v, _, _, _, _, _ | None, Some v, _, _, _, _ | None, None, Some v, _, _, _ | None, None, None, Some v, _, _
  | None, None, None, None, Some v, _ | None, None, None, None, None, Some v => v
  | None, None, None, None, None, None => 0
  end.

#[export] Instance Field_eq_dec : EqDecision Field.
Proof.
  assert (forall f, all_fields !! field_index f = Some f) as H by (intros []; reflexivity).
  refine (fun f g => cast_if (decide (field_index f = field_index g))); [|congruence].
  apply (inj Some). by rewrite <- (H f), <- (H g), e.
Defined.

(** The width of the word a member is stored in. *)
Definition field_width (f : Field) : Z :=
  match field_type f with T_u8 | T_enum => 8 | T_u16 => 16 | T_float | T_unit _ => 32 end.

(** ** Node identity *)
Definition kNodeNameMaxLen : Z := 50.
Record NodeIdentity := mkNodeIdentity {
  name : list Z;
  hw_version_major : Z; hw_version_minor : Z; sw_version_major : Z; sw_version_minor : Z }.
#[export] Instance eta_NodeIdentity : Eta NodeIdentity := fun s =>
  mkNodeIdentity (name s) (hw_version_major s) (hw_version_minor s) (sw_version_major s) (sw_version_minor s).

(** The characters of a string literal. *)
Definition chars (s : string) : list Z := map (fun c => Z.of_N (N_of_ascii c)) (String.list_ascii_of_string s).

(** The version of the software is a parameter of the build. *)
Definition NodeIdentity_init (sw_major sw_minor : Z) : NodeIdentity :=
  mkNodeIdentity (chars "unimoc" ++ replicate 45 0)%list 1 0 (u8 sw_major) (u8 sw_minor).

(** SetName(): the characters, cut at 50, and a terminator; what follows the
    terminator stays. *)
Definition SetName (new_name : list Z) (s : NodeIdentity) : NodeIdentity :=
  let kLen := Nat.min (length new_name) (Z.to_nat kNodeNameMaxLen) in
  s.{name := (take kLen new_name ++ 0 :: drop (S kLen) (name s))%list}.

(** GetName(): up to the terminator. *)
Definition GetName_of (cs : list Z) : list Z := foldr (fun c r => if c =? 0 then [] else c :: r) [] cs.
Definition GetName (s : NodeIdentity) : list Z := GetName_of (name s).

(** ** NvmSettings *)
Record NvmSettings := mkNvmSettings { num : Field -> Z; identity : NodeIdentity }.
#[export] Instance eta_NvmSettings : Eta NvmSettings := fun s => mkNvmSettings (num s) (identity s).

Definition set_num (f : Field) (v : Z) (s : NvmSettings) : NvmSettings :=
  s.{num := fun g => if decide (g = f) then v else num s g}.
(** A member as a float, and the assignment of one. *)
Definition fl (f : Field) (s : NvmSettings) : float := float_of_bits (num s f).
Definition set_fl (f : Field) (x : float) (s : NvmSettings) : NvmSettings := set_num f (bits_of_float x) s.

Definition NvmSettings_init (sw_major sw_minor : Z) : NvmSettings :=
  mkNvmSettings default_value (NodeIdentity_init sw_major sw_minor).

(** ** Registers (settings_registers.hpp, register_description.hpp) *)
Inductive RegisterEffect := kImmediate | kDisengaged | kRestart.
#[export] Instance RegisterEffect_eq_dec : EqDecision RegisterEffect.
Proof. solve_decision. Defined.
Definition EffectName (effect : RegisterEffect) : string :=
  match effect with kImmediate => "immediate" | kDisengaged => "disengaged" | kRestart => "restart" end.

Record RegisterDescription := mkRegisterDescription {
  unit_symbol : string; minimum : float; maximum : float; effect : RegisterEffect; help : string }.
Inductive RegField := reg_num (f : Field) | reg_name.
Record RegisterEntry := mkRegisterEntry {
  entry_name : string; entry_field : RegField; description : RegisterDescription }.

Definition RegisterLimits : Type := float * float.
Definition kAny : RegisterLimits := (f_neg f_inf, f_inf).
Definition AtLeast (minimum : float) : RegisterLimits := (minimum, f_inf).
Definition AtMost (maximum : float) : RegisterLimits := (f_neg f_inf, maximum).
Definition Between (minimum maximum : float) : RegisterLimits := (minimum, maximum).
Definition kPortId : RegisterLimits := (f_zero, f_of_Z 65535).

Definition Setting (name : string) (field : RegField) (help : string) (limits : RegisterLimits) (unit : string) :=
  mkRegisterEntry name field (mkRegisterDescription unit limits.1 limits.2 kDisengaged help).
Definition Tunable (name : string) (field : RegField) (help : string) (limits : RegisterLimits) (unit : string) :=
  mkRegisterEntry name field (mkRegisterDescription unit limits.1 limits.2 kImmediate help).
Definition AfterRestart (name : string) (field : RegField) (help : string) (limits : RegisterLimits) :=
  mkRegisterEntry name field (mkRegisterDescription no_unit limits.1 limits.2 kRestart help).

(** UnitSymbol() and DescriptionOf(): the unit of the member where none is given. *)
Definition UnitSymbol (f : RegField) : string :=
  match f with
  | reg_num f => match field_type f with T_unit d => DimensionSymbol d | _ => no_unit end
  | reg_name => no_unit
  end.
Definition DescriptionOf (entry : RegisterEntry) : RegisterDescription :=
  let d := description entry in
  if String.eqb (unit_symbol d) no_unit
  then mkRegisterDescription (UnitSymbol (entry_field entry)) (minimum d) (maximum d) (effect d) (help d)
  else d.

(** The register table, in the order of ForEachRegister(). *)
Definition registers : list RegisterEntry := [
  AfterRestart "uavcan.node.id" (reg_num node_id) "Node-ID; 0: plug-and-play allocation" (Between (f_zero) (f_of_Z 127));
  AfterRestart "uavcan.node.description" reg_name "Node name in GetInfo: a role label, e.g. unimoc.propulsion.left" kAny;
  Setting "unimoc.motor.type" (reg_num motor_type) "Motor type: 0 PMSM, 1 ASM, 2 EESM" (Between (f_zero) (f_of_Z 2)) no_unit;
  Setting "unimoc.motor.pole_pairs" (reg_num pole_pairs) "Pole pairs of the motor" (Between (f_of_Z 1) (f_of_Z 255)) no_unit;
  Setting "unimoc.control.mode" (reg_num control_mode) "Control mode after boot: 0 torque, 1 speed, 2 position" (Between (f_zero) (f_of_Z 2)) no_unit;
  Setting "unimoc.motor.stator.R" (reg_num stator_r) "Stator phase resistance" (AtLeast (f_zero)) no_unit;
  Setting "unimoc.motor.stator.L" (reg_num stator_l) "Stator inductance (L_q of an IPMSM, else the mean of L_d and L_q)" (AtLeast (f_zero)) no_unit;
  Setting "unimoc.motor.limits.i_max" (reg_num motor_i_max) "Largest motor current (stator vector), up to the hardware limit" (AtLeast (f_zero)) no_unit;
  Setting "unimoc.motor.limits.omega_max" (reg_num motor_omega_max) "Largest electrical speed forward" (AtLeast (f_zero)) no_unit;
  Setting "unimoc.motor.limits.omega_min" (reg_num motor_omega_min) "Largest electrical speed in reverse, negative" (AtMost (f_zero)) no_unit;
  Setting "unimoc.battery.limits.drive_current" (reg_num battery_drive_current_max) "Largest battery discharge current, up to the hardware limit" (AtLeast (f_zero)) no_unit;
  Setting "unimoc.battery.limits.charge_current" (reg_num battery_charge_current_max) "Largest regenerative charge current, up to the hardware limit" (AtLeast (f_zero)) no_unit;
  Setting "unimoc.battery.limits.regen_derate_voltage" (reg_num dc_link_regen_derate_start) "DC-link voltage from which regenerative braking derates to zero at the trip voltage" (AtLeast (f_zero)) no_unit;
  Setting "unimoc.battery.limits.trip_voltage" (reg_num dc_link_trip) "DC-link voltage that trips the power stage; above the derate voltage, up to the hardware limit" (AtLeast (f_zero)) no_unit;
  Setting "unimoc.motor.pmsm.flux_pm" (reg_num flux_pm) "Permanent-magnet flux linkage psi_PM (EESM: the nominal excitation flux)" (AtLeast (f_zero)) no_unit;
  Setting "unimoc.motor.pmsm.L_d" (reg_num l_d) "d-axis inductance L_d" (AtLeast (f_zero)) no_unit;
  Setting "unimoc.motor.pmsm.L_q" (reg_num l_q) "q-axis inductance L_q" (AtLeast (f_zero)) no_unit;
  Setting "unimoc.motor.asm.R_r" (reg_num asm_r_r) "ASM rotor resistance R_r" (AtLeast (f_zero)) no_unit;
  Setting "unimoc.motor.asm.R_s" (reg_num asm_r_s) "ASM stator resistance R_s" (AtLeast (f_zero)) no_unit;
  Setting "unimoc.motor.asm.L_s" (reg_num asm_l_s) "ASM stator self-inductance L_s" (AtLeast (f_zero)) no_unit;
  Setting "unimoc.motor.asm.L_r" (reg_num asm_l_r) "ASM rotor self-inductance L_r" (AtLeast (f_zero)) no_unit;
  Setting "unimoc.motor.asm.L_m" (reg_num asm_l_m) "ASM mutual inductance L_m" (AtLeast (f_zero)) no_unit;
  Setting "unimoc.motor.mechanics.J" (reg_num motor_j) "Inertia of rotor and load" (AtLeast (f_zero)) no_unit;
  Setting "unimoc.observer.mech.Q" (reg_num mech_obs_q) "Process noise variance Q of the mechanical observer; larger tracks faster and noisier" kAny no_unit;
  Setting "unimoc.observer.mech.R" (reg_num mech_obs_r) "Angle measurement noise variance R of the mechanical observer" (AtLeast (f_zero)) "rad^2";
  Setting "unimoc.observer.pmsm_flux.C_d" (reg_num pmsm_flux_obs_c_d) "d-axis anti-drift gain C_d of the PMSM flux observer" kAny no_unit;
  Setting "unimoc.observer.pmsm_flux.C_q" (reg_num pmsm_flux_obs_c_q) "q-axis anti-drift gain C_q of the PMSM flux observer" kAny no_unit;
  Setting "unimoc.observer.pmsm_flux.R_speed" (reg_num pmsm_flux_obs_r_speed) "Speed weight k of the flux angle noise, R_flux = R + k / omega^2; 0: R at every speed" (AtLeast (f_zero)) "rad^4/s^2";
  Setting "unimoc.observer.hall.enable" (reg_num hall_enable) "1 fuses the Hall sensors into the observer" (Between (f_zero) (f_of_Z 1)) no_unit;
  Setting "unimoc.observer.hall.offset" (reg_num hall_offset) "Electrical angle at which Hall A rises" kAny no_unit;
  Setting "unimoc.observer.hall.R_edge" (reg_num hall_r_edge) "Measurement noise of a Hall edge" (AtLeast (f_zero)) "rad^2";
  Setting "unimoc.observer.hall.R_sector" (reg_num hall_r_sector) "Measurement noise of the Hall sector bound" (AtLeast (f_zero)) "rad^2";
  Setting "unimoc.observer.asm_flux.g_i" (reg_num asm_obs_g_i) "Stator current correction gain g_i of the ASM flux observer" kAny no_unit;
  Setting "unimoc.observer.asm_flux.g_flux" (reg_num asm_obs_g_flux) "Rotor flux correction gain g_flux of the ASM flux observer" kAny "Wb/(A s)";
  Setting "unimoc.control.asm_flux.kp" (reg_num asm_flux_kp) "Proportional gain of the ASM flux controller" kAny "A/Wb";
  Setting "unimoc.control.asm_flux.ki" (reg_num asm_flux_ki) "Integral gain of the ASM flux controller" kAny "A/(Wb s)";
  Setting "unimoc.control.asm_flux.i_d_min" (reg_num asm_flux_i_d_min) "Smallest d-axis current of the ASM flux controller" (AtLeast (f_zero)) no_unit;
  Setting "unimoc.control.asm_flux.i_d_max" (reg_num asm_flux_i_d_max) "Largest d-axis current of the ASM flux controller, at least i_d_min" (AtLeast (f_zero)) no_unit;
  Setting "unimoc.control.fw.v_max" (reg_num fw_v_max) "Voltage vector magnitude from which field weakening starts" (AtLeast (f_zero)) no_unit;
  Setting "unimoc.control.fw.ki" (reg_num fw_ki) "Integral gain of the field weakening" kAny "A/(V s)";
  Setting "unimoc.control.fw.i_d_min" (reg_num fw_i_d_min) "Most negative d-axis current of the field weakening" kAny no_unit;
  Setting "unimoc.control.pwm_frequency" (reg_num pwm_frequency) "PWM frequency: 16, 20, 24, 28 or 32 kHz; the control cycle runs at half of it" (Between (f_of_Z 16000) (f_of_Z 32000)) "Hz";
  Tunable "unimoc.control.current.kp_d" (reg_num current_kp_d) "Proportional gain of the d-axis current controller" kAny "V/A";
  Tunable "unimoc.control.current.ki_d" (reg_num current_ki_d) "Integral gain of the d-axis current controller" kAny "V/(A s)";
  Tunable "unimoc.control.current.kp_q" (reg_num current_kp_q) "Proportional gain of the q-axis current controller" kAny "V/A";
  Tunable "unimoc.control.current.ki_q" (reg_num current_ki_q) "Integral gain of the q-axis current controller" kAny "V/(A s)";
  Setting "unimoc.control.current.v_max" (reg_num current_v_max) "Largest voltage vector of the current controller, a share of the DC link" (Between (f_zero) (f_of_Z 1)) no_unit;
  Setting "unimoc.control.svm.duty_min" (reg_num svm_duty_min) "Smallest duty cycle, at most duty_max" (Between (f_zero) (f_of_Z 1)) no_unit;
  Setting "unimoc.control.svm.duty_max" (reg_num svm_duty_max) "Largest duty cycle" (Between (f_zero) (f_of_Z 1)) no_unit;
  Setting "unimoc.control.dtc.dead_time" (reg_num dtc_dead_time) "Gate driver dead time of the dead-time compensation" (AtLeast (f_zero)) no_unit;
  Setting "unimoc.control.dtc.f_pwm" (reg_num dtc_f_pwm) "PWM frequency of the dead-time compensation" (AtLeast (f_zero)) "Hz";
  Setting "unimoc.control.dtc.i_threshold" (reg_num dtc_i_threshold) "Phase current below which the dead-time compensation counts a zero crossing" kAny no_unit;
  Setting "unimoc.observer.hfi.v_inject" (reg_num hfi_v_inject) "Injection voltage of the HFI observer" kAny no_unit;
  Setting "unimoc.observer.hfi.error_gain" (reg_num hfi_error_gain) "Current error to angle gain of the HFI observer" kAny "rad/A";
  Setting "unimoc.control.excitation.mode" (reg_num excitation_mode) "EESM excitation mode: 0 current, 1 flux" (Between (f_zero) (f_of_Z 1)) no_unit;
  Setting "unimoc.control.excitation.L_m" (reg_num excitation_l_m) "Mutual inductance L_m of the excitation controller" kAny no_unit;
  Setting "unimoc.control.excitation.kp" (reg_num excitation_kp) "Proportional gain of the excitation controller" kAny "V/A";
  Setting "unimoc.control.excitation.ki" (reg_num excitation_ki) "Integral gain of the excitation controller" kAny "V/(A s)";
  Setting "unimoc.control.excitation.i_f_min" (reg_num excitation_i_f_min) "Smallest rotor excitation current" (AtLeast (f_zero)) no_unit;
  Setting "unimoc.control.excitation.i_f_max" (reg_num excitation_i_f_max) "Largest rotor excitation current, at least i_f_min" (AtLeast (f_zero)) no_unit;
  Setting "unimoc.observer.excitation.tau" (reg_num excitation_obs_tau) "Low-pass time constant of the excitation observer" (AtLeast (f_zero)) no_unit;
  Setting "unimoc.observer.excitation.L_m" (reg_num excitation_obs_l_m) "Mutual inductance L_m of the excitation observer" kAny no_unit;
  Tunable "unimoc.control.speed.kp" (reg_num speed_kp) "Proportional gain of the speed controller (mechanical speed)" (AtLeast (f_zero)) "N m s/rad";
  Tunable "unimoc.control.speed.ki" (reg_num speed_ki) "Integral gain 1/T_i of the speed controller" (AtLeast (f_zero)) no_unit;
  Tunable "unimoc.control.speed.accel_limit" (reg_num speed_accel_limit) "Largest rate of change of the speed reference; 0: no ramp" (AtLeast (f_zero)) no_unit;
  Tunable "unimoc.control.pos.kp" (reg_num pos_kp_pos) "Proportional gain of the position loop (rad/s per rad)" kAny no_unit;
  Setting "unimoc.control.pos.kp_speed" (reg_num pos_kp_speed) "Proportional gain of the speed loop of the position controller" kAny no_unit;
  Setting "unimoc.control.pos.ki_speed" (reg_num pos_ki_speed) "Integral gain of the speed loop of the position controller" kAny no_unit;
  Tunable "unimoc.control.pos.speed_limit" (reg_num pos_speed_limit) "Largest mechanical speed of the position controller" kAny no_unit;
  Tunable "unimoc.control.pos.accel_limit" (reg_num pos_accel_limit) "Largest rate of change of the speed demand of the position controller" kAny no_unit;
  Tunable "unimoc.control.pos.position_tolerance" (reg_num pos_position_tolerance) "Position tolerance of in-position" (AtLeast (f_zero)) no_unit;
  Tunable "unimoc.control.pos.speed_tolerance" (reg_num pos_speed_tolerance) "Speed tolerance of in-position" (AtLeast (f_zero)) no_unit;
  Setting "unimoc.control.pos.homing_speed" (reg_num pos_homing_speed) "Speed of the homing run" kAny no_unit;
  Setting "unimoc.control.pos.homing_current" (reg_num pos_homing_current) "Current bound of the homing run, reached at the stop; 0: homing off" (AtLeast (f_zero)) no_unit;
  Setting "unimoc.startup.adc_offset_a" (reg_num adc_offset_a) "Zero offset of the phase A current sense (from the startup aid)" kAny no_unit;
  Setting "unimoc.startup.adc_offset_b" (reg_num adc_offset_b) "Zero offset of the phase B current sense (from the startup aid)" kAny no_unit;
  Setting "unimoc.startup.adc_offset_c" (reg_num adc_offset_c) "Zero offset of the phase C current sense (from the startup aid)" kAny no_unit;
  Setting "unimoc.startup.gain_a" (reg_num adc_gain_a) "Gain correction of the phase A current sense" (AtLeast (f_zero)) no_unit;
  Setting "unimoc.startup.gain_b" (reg_num adc_gain_b) "Gain correction of the phase B current sense" (AtLeast (f_zero)) no_unit;
  Setting "unimoc.startup.gain_c" (reg_num adc_gain_c) "Gain correction of the phase C current sense" (AtLeast (f_zero)) no_unit;
  Setting "unimoc.startup.gain_vdc" (reg_num adc_gain_vdc) "Gain correction of the DC-link voltage sense" (AtLeast (f_zero)) no_unit;
  AfterRestart "uavcan.sub.readiness.id" (reg_num sub_readiness_id) "Readiness subject; 65534: 1024 + node-ID, 65535: off" kPortId;
  AfterRestart "uavcan.sub.current_setpoint.id" (reg_num sub_current_setpoint_id) "Current setpoint subject; 65535: off" kPortId;
  AfterRestart "uavcan.sub.torque_setpoint.id" (reg_num sub_torque_setpoint_id) "Torque setpoint subject; 65535: off" kPortId;
  AfterRestart "uavcan.sub.speed_setpoint.id" (reg_num sub_speed_setpoint_id) "Speed setpoint subject; 65535: off" kPortId;
  AfterRestart "uavcan.sub.position_setpoint.id" (reg_num sub_position_setpoint_id) "Position setpoint subject; 65535: off" kPortId;
  AfterRestart "uavcan.sub.servo_setpoint.id" (reg_num sub_servo_setpoint_id) "UDRAL servo setpoint subject; 65535: off" kPortId;
  AfterRestart "uavcan.pub.telemetry.id" (reg_num pub_telemetry_id) "Telemetry subject; 65535: off" kPortId;
  AfterRestart "uavcan.srv.cymon_variables.id" (reg_num srv_cymon_variables_id) "Trace variable list service; 65535: off" kPortId;
  AfterRestart "uavcan.srv.cymon_buffer_info.id" (reg_num srv_cymon_buffer_info_id) "Trace buffer info service; 65535: off" kPortId;
  AfterRestart "uavcan.srv.cymon_setup.id" (reg_num srv_cymon_setup_id) "Trace capture setup service; 65535: off" kPortId;
  AfterRestart "uavcan.srv.cymon_arm.id" (reg_num srv_cymon_arm_id) "Trace trigger arm service; 65535: off" kPortId;
  AfterRestart "uavcan.srv.cymon_read.id" (reg_num srv_cymon_read_id) "Trace read-out service; 65535: off" kPortId;
  AfterRestart "uavcan.pub.cymon_trigger.id" (reg_num pub_cymon_trigger_id) "Trace trigger event subject (published); 65535: off" kPortId;
  AfterRestart "uavcan.sub.cymon_trigger.id" (reg_num sub_cymon_trigger_id) "Trace trigger event subject (subscribed); 65535: off" kPortId;
  Tunable "unimoc.telemetry.rate" (reg_num telemetry_rate) "Telemetry rate; 0 stops it" (Between (f_zero) (f_of_Z 1000)) "Hz";
  Tunable "unimoc.control.command_timeout" (reg_num command_timeout) "Readiness and setpoint timeout" (Between (f_zero) (f_of_Z 10)) no_unit;
  AfterRestart "uavcan.sub.wheel_command.id" (reg_num sub_wheel_command_id) "Cart wheel command subject; 65535: off" kPortId;
  AfterRestart "uavcan.sub.pedal_state.id" (reg_num sub_pedal_state_id) "Cart pedal state subject (limp-home); 65535: off" kPortId;
  AfterRestart "uavcan.sub.battery_status.id" (reg_num sub_battery_status_id) "Cart battery status subject; 65535: off" kPortId;
  AfterRestart "uavcan.pub.drive_status.id" (reg_num pub_drive_status_id) "Cart drive status subject; 65535: off" kPortId;
  AfterRestart "uavcan.pub.commissioning.id" (reg_num pub_commissioning_id) "Commissioning status subject (startup aid); 65535: off" kPortId;
  AfterRestart "uavcan.pub.homing_state.id" (reg_num pub_homing_state_id) "Homing state subject; 65535: off" kPortId;
  Setting "unimoc.cart.wheel" (reg_num cart_wheel) "Cart wheel of this drive (WheelCommand.WHEEL_*)" (Between (f_zero) (f_of_Z 3)) no_unit;
  Setting "unimoc.cart.reversed" (reg_num cart_reversed) "1: positive rotor torque drives the cart backward" (Between (f_zero) (f_of_Z 1)) no_unit;
  Setting "unimoc.cart.timeout" (reg_num cart_timeout) "Timeout of wheel command, pedal state and battery status; at most the command timeout" (AtLeast (f_zero)) no_unit;
  Tunable "unimoc.cart.status_rate" (reg_num cart_status_rate) "Drive status rate; 0 stops it" (Between (f_zero) (f_of_Z 1000)) "Hz";
  Tunable "unimoc.cart.torque_ramp" (reg_num cart_torque_ramp) "Torque ramp when the source of the cart torque changes" (AtLeast (f_zero)) "N m/s";
  Tunable "unimoc.cart.limp_home_torque" (reg_num cart_limp_home_torque) "Wheel torque of a fully pressed pedal in limp-home mode" (AtLeast (f_zero)) no_unit;
  Tunable "unimoc.cart.standstill_speed" (reg_num cart_standstill_speed) "Wheel speed below which the cart stands still" (AtLeast (f_zero)) no_unit;
  Setting "unimoc.cart.battery_share" (reg_num cart_battery_share) "Share of the BMS current limits this drive may use" (Between (f_zero) (f_of_Z 1)) no_unit;
  Setting "unimoc.ebike.pulses_per_rev" (reg_num ebike_pulses_per_rev) "E-bike cadence pulses per crank revolution" (Between (f_of_Z 2) (f_of_Z 64)) no_unit;
  Setting "unimoc.ebike.wheel_circumference" (reg_num ebike_wheel_circumference) "E-bike rolling circumference of the wheel; the display wheel size has to match" (Between (f_lit 1 2) (f_of_Z 4)) "m";
  Setting "unimoc.ebike.gear_ratio" (reg_num ebike_gear_ratio) "E-bike motor revolutions per wheel revolution (1: hub motor)" (Between (f_zero) (f_of_Z 100)) no_unit;
  Setting "unimoc.ebike.battery_cells" (reg_num ebike_battery_cells) "E-bike series cells of the battery (battery bars of the display)" (Between (f_of_Z 1) (f_of_Z 30)) no_unit;
  Setting "unimoc.ebike.nominal_voltage" (reg_num ebike_nominal_voltage) "E-bike nominal battery voltage of the display (24, 36, 48)" (Between (f_of_Z 1) (f_of_Z 255)) "V";
  Setting "unimoc.ebike.gain_1" (reg_num ebike_gain_1) "E-bike assist ratio (motor / pedal power) of level 1" (Between (f_zero) (f_of_Z 20)) no_unit;
  Setting "unimoc.ebike.gain_2" (reg_num ebike_gain_2) "E-bike assist ratio of level 2" (Between (f_zero) (f_of_Z 20)) no_unit;
  Setting "unimoc.ebike.gain_3" (reg_num ebike_gain_3) "E-bike assist ratio of level 3" (Between (f_zero) (f_of_Z 20)) no_unit;
  Setting "unimoc.ebike.gain_4" (reg_num ebike_gain_4) "E-bike assist ratio of level 4" (Between (f_zero) (f_of_Z 20)) no_unit;
  Setting "unimoc.ebike.gain_5" (reg_num ebike_gain_5) "E-bike assist ratio of level 5 (also 6 and 7)" (Between (f_zero) (f_of_Z 20)) no_unit;
  Setting "unimoc.ebike.power_scale" (reg_num ebike_power_scale) "E-bike: the assist ratio grows with exp(pedal power / power_scale)" (AtLeast (f_zero)) no_unit;
  Setting "unimoc.ebike.max_ratio" (reg_num ebike_max_ratio) "E-bike upper limit of the total assist ratio" (Between (f_zero) (f_of_Z 20)) no_unit;
  Setting "unimoc.ebike.torque_ratio" (reg_num ebike_torque_ratio) "E-bike motor torque per pedal torque at a standing motor" (Between (f_zero) (f_of_Z 20)) no_unit;
  Setting "unimoc.ebike.torque_deadband" (reg_num ebike_torque_deadband) "E-bike pedal torque below which there is no assist" (AtLeast (f_zero)) no_unit;
  Setting "unimoc.ebike.min_cadence" (reg_num ebike_min_cadence) "E-bike crank speed below which there is no assist" (AtLeast (f_zero)) no_unit;
  Setting "unimoc.ebike.speed_taper" (reg_num ebike_speed_taper) "E-bike motor speed range over which the assist fades out below the speed limit" (AtLeast (f_zero)) no_unit;
  Setting "unimoc.ebike.rise_time" (reg_num ebike_rise_time) "E-bike time to ramp the assist torque up to the limit" (AtLeast (f_zero)) no_unit;
  Setting "unimoc.ebike.fall_time" (reg_num ebike_fall_time) "E-bike time to ramp the assist torque down to zero" (AtLeast (f_zero)) no_unit;
  Setting "unimoc.ebike.engage_hold" (reg_num ebike_engage_hold) "E-bike: the drive stays engaged this long after the assist ended" (AtLeast (f_zero)) no_unit;
  Setting "unimoc.ebike.rearm_time" (reg_num ebike_rearm_time) "E-bike: after a fault the pedals stand still this long before the drive engages again" (AtLeast (f_zero)) no_unit;
  Setting "unimoc.ebike.display_timeout" (reg_num ebike_display_timeout) "E-bike: without a display request for this long the display counts as lost" (AtLeast (f_zero)) no_unit].

(** ** Lemmas *)
Lemma field_of_index f : all_fields !! field_index f = Some f.
Proof. by destruct f. Qed.
Lemma elem_of_all_fields f : f ∈ all_fields.
Proof. eapply list_elem_of_lookup_2, field_of_index. Qed.

(** A statement about every member is checked by evaluation. *)
Lemma forall_fields (P : Field -> bool) : forallb P all_fields = true -> forall f, P f = true.
Proof. intros H f. rewrite forallb_forall in H. apply H, list_elem_of_In, elem_of_all_fields. Qed.

Lemma num_set_eq f v s : num (set_num f v s) f = v.
Proof. cbn. by rewrite decide_True. Qed.
Lemma num_set_ne f g v s : f <> g -> num (set_num f v s) g = num s g.
Proof. intros. cbn. by rewrite decide_False. Qed.

(** Every member is initialised in one of the sections. *)
Lemma defaults_complete f :
  exists v, default_value f = v /\
    Some v ∈ [default_machine f; default_observers f; default_controllers f; default_position_ports f; default_cart f;
              default_ebike f].
Proof.
  eexists. split; [reflexivity|]. apply list_elem_of_In.
  assert (forallb (fun f => existsb (fun o => bool_decide (o = Some (default_value f)))
    [default_machine f; default_observers f; default_controllers f; default_position_ports f; default_cart f;
     default_ebike f]) all_fields = true) as H by (vm_compute; reflexivity).
  pose proof (forall_fields _ H f) as E. apply existsb_exists in E as (o & Ho & ->%bool_decide_eq_true). exact Ho.
Qed.

Lemma defaults_in_width f : in_u (field_width f) (default_value f).
Proof. apply in_ub_spec. revert f. apply forall_fields. vm_compute. reflexivity. Qed.

End SettingsData.
