(* ===== verification/SettingsCodec.v ===== *)
(** * Settings: the stored form of a register value

    lib/settings/settings_registers.hpp: EncodeRegisterValue() and
    DecodeRegisterValue() for every type of a member, and the table as a whole.
    lib/settings/settings_store.hpp: SameEncoding().  Two settings are
    equivalent when every register has the same stored form; what the node name
    holds after its terminator is not stored. *)
From Stdlib Require Import ZArith Lia Bool SpecFloat.
From stdpp Require Import base decidable list strings.
From S2P Require Import Prelude Float32 Units SettingsData.
Import SettingsData.

#[local] Open Scope Z_scope.
#[local] Open Scope unimoc_scope.

Module SettingsCodec.

(** ** The codec *)
Definition kMaxRegisterValueSize : Z := kNodeNameMaxLen + 1.

Definition PutFloat (kBits : Z) : list Z :=
  map (fun i => Z.land (Z.shiftr kBits (8 * i)) 0xFF) (seqZ 0 4).
Definition GetFloat (bytes : list Z) : Z :=
  foldl (fun bits i => Z.lor bits (u32 (Z.shiftl (array_get 0 bytes i) (8 * i)))) 0 (seqZ 0 4).

Definition EncodeRegisterValue (t : FieldType) (value : Z) : list Z :=
  match t with
  | T_unit _ | T_float => PutFloat value
  | T_u8 | T_enum => [value]
  | T_u16 => [Z.land value 0xFF; Z.shiftr value 8]
  end.

(** The node name: up to 50 characters and a terminator. *)
Definition EncodeName (value : list Z) : list Z := GetName_of (take (Z.to_nat kNodeNameMaxLen) value) ++ [0].

(** [None]: the bytes are not an image of the type; the value is left alone. *)
Definition DecodeRegisterValue (t : FieldType) (stored : list Z) : option Z :=
  match t with
  | T_unit _ | T_float => if Z.of_nat (length stored) =? 4 then Some (GetFloat stored) else None
  | T_u8 | T_enum => if Z.of_nat (length stored) =? 1 then Some (array_get 0 stored 0) else None
  | T_u16 =>
      if Z.of_nat (length stored) =? 2
      then Some (u16 (Z.lor (array_get 0 stored 0) (Z.shiftl (array_get 0 stored 1) 8))) else None
  end.
Definition DecodeName (stored : list Z) : option (list Z) :=
  if (Z.of_nat (length stored) =? 0) || (kMaxRegisterValueSize <? Z.of_nat (length stored)) ||
     negb (default 0 (last stored) =? 0)
  then None
  else Some (take (length stored - 1) stored ++ replicate (51 - (length stored - 1)) 0).

(** The value of a register of the table. *)
Definition encode_reg (s : NvmSettings) (r : RegField) : list Z :=
  match r with
  | reg_num f => EncodeRegisterValue (field_type f) (num s f)
  | reg_name => EncodeName (name (identity s))
  end.
Definition decode_reg (r : RegField) (stored : list Z) (s : NvmSettings) : option NvmSettings :=
  match r with
  | reg_num f => option_map (fun v => set_num f v s) (DecodeRegisterValue (field_type f) stored)
  | reg_name => option_map (fun n => s.{identity := (identity s).{name := n}}) (DecodeName stored)
  end.
(** [stored = live] for one register. *)
Definition copy_reg (r : RegField) (live s : NvmSettings) : NvmSettings :=
  match r with
  | reg_num f => set_num f (num live f) s
  | reg_name => s.{identity := (identity s).{name := name (identity live)}}
  end.

Definition SameEncoding (r : RegField) (first second : NvmSettings) : bool :=
  bool_decide (encode_reg first r = encode_reg second r).

(** ** Well-formed settings and their equivalence *)
Record settings_ok (s : NvmSettings) : Prop := mkSettingsOk {
  ok_num : forall f, in_u (field_width f) (num s f);
  ok_name : length (name (identity s)) = 51%nat /\ Forall (in_u 8) (name (identity s)) }.

Definition settings_equiv (s t : NvmSettings) : Prop := forall r, encode_reg s r = encode_reg t r.
#[export] Instance settings_equivalence : Equivalence settings_equiv.
Proof. split; [by intros s r|by intros s t H r|by intros s t u H1 H2 r; rewrite H1, H2]. Qed.

(** ** Lemmas *)
#[export] Instance RegField_eq_dec : EqDecision RegField.
Proof. solve_decision. Defined.

Lemma byte_bits v i n : 0 <= i -> 0 <= n ->
  Z.testbit (Z.shiftl (Z.land (Z.shiftr v (8 * i)) 0xFF) (8 * i)) n =
  (8 * i <=? n) && (n <? 8 * i + 8) && Z.testbit v n.
Proof.
  intros Hi Hn. rewrite Z.shiftl_spec by lia.
  destruct (8 * i <=? n) eqn:E1; bool_prop; [|by rewrite Z.testbit_neg_r by lia]. cbn [andb].
  rewrite Z.land_spec, Z.shiftr_spec by lia. change 0xFF with (Z.ones 8). rewrite Z.testbit_ones by lia.
  replace (n - 8 * i + 8 * i) with n by lia. rewrite andb_comm. f_equal.
  destruct (n <? 8 * i + 8) eqn:E2; bool_prop; lia.
Qed.

(** Byte [i] of a word, back at its place. *)
Definition byte_at (v i : Z) : Z := Z.shiftl (Z.land (Z.shiftr v (8 * i)) 0xFF) (8 * i).

Lemma byte_at_u32 v i : 0 <= i < 4 -> u32 (byte_at v i) = byte_at v i.
Proof.
  intros Hi. apply wrap_id. unfold byte_at. rewrite Z.shiftl_mul_pow2 by lia. change 0xFF with (Z.ones 8).
  rewrite Z.land_ones by lia. pose proof (Z.mod_pos_bound (Z.shiftr v (8 * i)) (2 ^ 8)).
  assert (i = 0 \/ i = 1 \/ i = 2 \/ i = 3) as [->|[->|[->| ->]]] by lia; unfold in_u; lia.
Qed.

Lemma bytes_join v : in_u 32 v ->
  Z.lor (Z.lor (Z.lor (byte_at v 0) (byte_at v 1)) (byte_at v 2)) (byte_at v 3) = v.
Proof.
  intros Hv. apply in_u_testbit in Hv as [Hb _]; [|lia].
  apply Z.bits_inj'. intros n Hn. rewrite !Z.lor_spec. unfold byte_at. rewrite !byte_bits by lia.
  destruct (decide (32 <= n)) as [H|H]; [rewrite (Hb n H); by rewrite !andb_false_r|].
  destruct (Z.testbit v n); [|by rewrite !andb_false_r]. rewrite !andb_true_r.
  assert (n < 8 \/ 8 <= n < 16 \/ 16 <= n < 24 \/ 24 <= n < 32) as [C|[C|[C|C]]] by lia;
    repeat match goal with |- context [?x <=? n] => destruct (Z.leb_spec x n) end;
    repeat match goal with |- context [n <? ?x] => destruct (Z.ltb_spec n x) end; cbn; (done || lia).
Qed.

Lemma GetFloat_PutFloat v : in_u 32 v -> GetFloat (PutFloat v) = v.
Proof.
  intros Hv. transitivity (Z.lor (Z.lor (Z.lor (u32 (byte_at v 0)) (u32 (byte_at v 1))) (u32 (byte_at v 2))) (u32 (byte_at v 3)));
    [reflexivity|].
  rewrite !byte_at_u32 by lia. by apply bytes_join.
Qed.

Lemma decode_encode_u16 v : in_u 16 v ->
  u16 (Z.lor (Z.land v 0xFF) (Z.shiftl (Z.shiftr v 8) 8)) = v.
Proof.
  intros Hv. assert (Z.lor (Z.land v 0xFF) (Z.shiftl (Z.shiftr v 8) 8) = v) as ->; [|by apply wrap_id].
  apply Z.bits_inj'. intros n Hn. rewrite Z.lor_spec, Z.land_spec. change 0xFF with (Z.ones 8).
  rewrite Z.testbit_ones, Z.shiftl_spec by lia. destruct (decide (n < 8)).
  - rewrite (Z.testbit_neg_r _ (n - 8)) by lia. rewrite (proj2 (Z.leb_le 0 n)), (proj2 (Z.ltb_lt n 8)) by lia.
    by rewrite andb_true_r, orb_false_r.
  - rewrite Z.shiftr_spec by lia. replace (n - 8 + 8) with n by lia.
    rewrite (proj2 (Z.ltb_ge n 8)) by lia. by rewrite !andb_false_r.
Qed.

Lemma decode_encode t v :
  in_u (match t with T_u8 | T_enum => 8 | T_u16 => 16 | T_float | T_unit _ => 32 end) v ->
  DecodeRegisterValue t (EncodeRegisterValue t v) = Some v.
Proof.
  intros Hv. destruct t; cbn [DecodeRegisterValue EncodeRegisterValue]; try reflexivity;
    rewrite ?GetFloat_PutFloat by done; try done.
  f_equal. by apply decode_encode_u16.
Qed.

Lemma GetName_of_nonzero cs : Forall (fun c => c <> 0) (GetName_of cs).
Proof. induction cs as [|c cs IH]; cbn; [done|]. case_if; bool_prop; by constructor. Qed.

Lemma GetName_of_app cs ds : Forall (fun c => c <> 0) cs -> GetName_of (cs ++ 0 :: ds) = cs.
Proof.
  induction 1 as [|c cs Hc _ IH]; [done|]. cbn. rewrite (proj2 (Z.eqb_neq c 0)) by done. f_equal. exact IH.
Qed.

Lemma GetName_of_take n cs : (length (GetName_of (take n cs)) <= n)%nat.
Proof.
  revert cs. induction n as [|n IH]; intros [|c cs]; cbn [take GetName_of foldr length]; try lia.
  case_if; cbn [length]; [lia|]. specialize (IH cs). unfold GetName_of in IH. lia.
Qed.

Lemma EncodeName_length cs : (1 <= length (EncodeName cs) <= 51)%nat.
Proof.
  unfold EncodeName. rewrite length_app. cbn [length]. pose proof (GetName_of_take (Z.to_nat kNodeNameMaxLen) cs).
  change (Z.to_nat kNodeNameMaxLen) with 50%nat in *. lia.
Qed.

(** The stored name comes back with zeros after its terminator. *)
Lemma decode_encode_name cs :
  DecodeName (EncodeName cs) =
    Some (GetName_of (take 50 cs) ++ replicate (51 - length (GetName_of (take 50 cs))) 0).
Proof.
  pose proof (EncodeName_length cs) as HL. unfold DecodeName. unfold EncodeName in *.
  change (Z.to_nat kNodeNameMaxLen) with 50%nat in *. set (n := GetName_of (take 50 cs)) in *.
  rewrite length_app in *. cbn [length] in *.
  rewrite (proj2 (Z.eqb_neq _ _)) by lia. rewrite (proj2 (Z.ltb_ge _ _)) by (unfold kMaxRegisterValueSize, kNodeNameMaxLen; lia).
  rewrite last_app. cbn. replace (length n + 1 - 1)%nat with (length n) by lia.
  by rewrite take_app_length.
Qed.

Lemma encode_name_padded n :
  Forall (fun c => c <> 0) n -> (length n <= 50)%nat ->
  EncodeName (n ++ replicate (51 - length n) 0) = n ++ [0].
Proof.
  intros Hn Hl. unfold EncodeName. f_equal. change (Z.to_nat kNodeNameMaxLen) with 50%nat.
  destruct (decide (length n = 50%nat)) as [E|E].
  - rewrite take_app_le by lia. rewrite take_ge by lia.
    rewrite <- (app_nil_r n). clear -Hn. induction Hn as [|c cs Hc _ IH]; [done|]. cbn.
    rewrite (proj2 (Z.eqb_neq c 0)) by done. f_equal. exact IH.
  - rewrite take_app_ge by lia. rewrite take_replicate.
    replace ((50 - length n) `min` (51 - length n))%nat with (S (49 - length n)) by lia.
    cbn [replicate]. by apply GetName_of_app.
Qed.

Lemma encode_decode_reg s t r u :
  settings_ok s -> decode_reg r (encode_reg s r) t = Some u ->
  encode_reg u r = encode_reg s r.
Proof.
  intros [Hn _] H. destruct r as [f|]; cbn [encode_reg decode_reg] in *.
  - rewrite decode_encode in H by apply Hn. cbn [option_map] in H. apply (inj Some) in H as <-. by rewrite num_set_eq.
  - rewrite decode_encode_name in H. injection H as <-. cbn [name identity set_field].
    rewrite encode_name_padded; [done|apply GetName_of_nonzero|apply GetName_of_take].
Qed.

Lemma encode_reg_other r r' bytes s t :
  decode_reg r bytes s = Some t -> r <> r' -> encode_reg t r' = encode_reg s r'.
Proof.
  intros H N. destruct r as [f|], r' as [g|]; cbn [encode_reg decode_reg] in *.
  - destruct (DecodeRegisterValue _ _) as [v|]; cbn [option_map] in H; [|done]. apply (inj Some) in H as <-.
    rewrite num_set_ne; congruence.
  - destruct (DecodeRegisterValue _ _); by simplify_option_eq.
  - destruct (DecodeName _); by simplify_option_eq.
  - done.
Qed.

Lemma decode_reg_encoded r s t : settings_ok s -> is_Some (decode_reg r (encode_reg s r) t).
Proof.
  intros [Hn _]. destruct r as [f|]; cbn; [rewrite decode_encode; [by eexists|apply Hn]|].
  rewrite decode_encode_name. by eexists.
Qed.

Lemma encode_copy_reg r live s r' :
  encode_reg (copy_reg r live s) r' = if decide (r' = r) then encode_reg live r else encode_reg s r'.
Proof.
  destruct r as [f|], r' as [g|]; cbn [encode_reg copy_reg].
  - destruct (decide (reg_num g = reg_num f)) as [[= ->]|N]; [by rewrite num_set_eq|]. rewrite num_set_ne; congruence.
  - done.
  - done.
  - done.
Qed.

(** A stored form is a sequence of bytes. *)
Lemma GetName_of_bytes cs : Forall (in_u 8) cs -> Forall (in_u 8) (GetName_of cs).
Proof. induction 1 as [|c cs Hc _ IH]; cbn; [done|]. case_if; by constructor. Qed.

Lemma in_u8_byte z : in_u 8 (Z.land z 0xFF).
Proof. change 0xFF with (Z.ones 8). rewrite Z.land_ones by lia. by apply wrap_in_u. Qed.

Lemma GetName_of_length l : (length (GetName_of l) <= length l)%nat.
Proof. induction l as [|c l IH]; [done|]. unfold GetName_of in *. cbn [foldr]. destruct (c =? 0); cbn [length]; lia. Qed.
Lemma encode_reg_bytes s r : settings_ok s -> Forall (in_u 8) (encode_reg s r).
Proof.
  intros [Hn [_ Hb]]. destruct r as [f|]; cbn [encode_reg].
  - specialize (Hn f). unfold field_width in Hn.
    destruct (field_type f); cbn [EncodeRegisterValue] in *; unfold PutFloat; change (seqZ 0 4) with [0; 1; 2; 3]; cbn [map];
      repeat (apply Forall_cons; split); try apply Forall_nil; try done; try apply in_u8_byte.
    unfold in_u in *. rewrite Z.shiftr_div_pow2 by lia. split; [apply Z.div_pos; lia|]. apply Z.div_lt_upper_bound; lia.
  - unfold EncodeName. apply Forall_app. split; [apply GetName_of_bytes; by apply Forall_take|].
    constructor; [unfold in_u; lia|constructor].
Qed.

(** An encoded value fits the buffer of the store. *)
Lemma encode_reg_length s r : Z.of_nat (length (encode_reg s r)) <= kMaxRegisterValueSize.
Proof.
  unfold kMaxRegisterValueSize, kNodeNameMaxLen. destruct r as [f|]; cbn [encode_reg].
  - by destruct (field_type f).
  - unfold EncodeName. rewrite length_app. cbn [length]. pose proof (GetName_of_length (take (Z.to_nat kNodeNameMaxLen) (name (identity s)))) as L.
    rewrite length_take in L. unfold kNodeNameMaxLen in *. lia.
Qed.

(** Settings with the same stored form have the same members. *)
Lemma settings_equiv_num s t f : settings_ok s -> settings_ok t -> settings_equiv s t -> num s f = num t f.
Proof.
  intros [Hs _] [Ht _] E. specialize (E (reg_num f)). cbn in E.
  apply (inj Some). rewrite <- (decode_encode (field_type f) (num s f) (Hs f)), <- (decode_encode (field_type f) (num t f) (Ht f)).
  by rewrite E.
Qed.

(** The default settings are well formed. *)
Lemma NvmSettings_init_ok sw_major sw_minor : settings_ok (NvmSettings_init sw_major sw_minor).
Proof.
  split; [exact defaults_in_width|]. split; [reflexivity|].
  change (name _) with (name (NodeIdentity_init 0 0)).
  apply (Forall_impl (fun z => in_ub 8 z = true)); [|intros; by apply in_ub_spec].
  apply (bool_decide_unpack _). vm_compute. exact I.
Qed.

End SettingsCodec.
