(* ===== verification/SettingsTypes.v ===== *)
(** * Results and interfaces of the settings store

    lib/settings/settings_store.hpp: the status of an operation and the
    calibration record.  [SettingsClient] is what the startup aid and the drive
    use of [SettingsOperations]; the store discharges it ([SettingsStore]). *)
From Stdlib Require Import ZArith SpecFloat.
From stdpp Require Import base decidable list.
From S2P Require Import Prelude Float32.

Module SettingsTypes.

Inductive SettingsStatus :=
| kSuccess | kFactoryDefaults | kInvalidImage | kInvalidSettings | kOutOfRange
| kStorageUnavailable | kStorageError | kPersistBlocked.
#[export] Instance SettingsStatus_eq_dec : EqDecision SettingsStatus.
Proof. solve_decision. Defined.
Definition status_eqb (a b : SettingsStatus) : bool := bool_decide (a = b).

Record AdcCalibration := mkAdcCalibration {
  offset_a : float; offset_b : float; offset_c : float;
  gain_a : float; gain_b : float; gain_c : float; gain_vdc : float }.

Class SettingsClient (S : Type) := {
  max_phase_current : S -> float;
  ApplyAdcCalibration : AdcCalibration -> S -> SettingsStatus * S }.

(** A rejected calibration leaves the store as it was. *)
Class SettingsClientLaws (S : Type) `{!SettingsClient S} := {
  apply_rejected cal s : (ApplyAdcCalibration cal s).1 <> kSuccess -> (ApplyAdcCalibration cal s).2 = s;
  apply_capabilities cal s : max_phase_current (ApplyAdcCalibration cal s).2 = max_phase_current s }.

End SettingsTypes.
