(* ===== verification/Observers.v ===== *)
(** * Observers of the electrical angle and speed

    lib/motor_control/src/mechanical_observer.hpp (the Kalman filter of speed,
    angle and load torque), hfi.hpp, pmsm_flux_observer.hpp, hall_decoder.hpp,
    hall_fusion.hpp and hall_capture.hpp (the Hall event queue).  An operation
    is [None] where a wrap loop does not return within the modelled iterations
    or a conversion of the angle to an integer is undefined. *)
From Stdlib Require Import ZArith Lia Bool SpecFloat.
From stdpp Require Import base decidable list option.
From S2P Require Import Prelude Float32 FloatRound SettingsData CurrentControl Transforms RotorAngle.
Import SettingsData CurrentControl Transforms.

#[local] Open Scope Z_scope.
#[local] Open Scope unimoc_scope.

Module Observers.

Abbreviation WrapAngle := RotorAngle.WrapAngle.

(** ** The mechanical observer *)
Definition matrix : Type := list (list float).
Definition zero_matrix : matrix := replicate 3 (replicate 3 f_zero).
Definition entry (p : matrix) (row column : Z) : float := array_get f_zero (array_get [] p row) column.

Record MechanicalObserver := mkMechanicalObserver {
  obs_psi : float; obs_L_d : float; obs_L_q : float; obs_J : float; obs_pole_pairs : Z;
  omega_max : float; omega_min : float; obs_Q : float; obs_R : float;
  omega : float; theta : float; m_l : float; m_el : float; sin_theta : float; cos_theta : float;
  cov_p : matrix; cov_pk : matrix; cov_k : list float; cov_s : float }.
#[export] Instance eta_MechanicalObserver : Eta MechanicalObserver := fun s =>
  mkMechanicalObserver (obs_psi s) (obs_L_d s) (obs_L_q s) (obs_J s) (obs_pole_pairs s) (omega_max s) (omega_min s)
    (obs_Q s) (obs_R s) (omega s) (theta s) (m_l s) (m_el s) (sin_theta s) (cos_theta s) (cov_p s) (cov_pk s) (cov_k s) (cov_s s).
Definition MechanicalObserver_init : MechanicalObserver :=
  mkMechanicalObserver f_zero f_zero f_zero f_zero 1 f_zero f_zero (f_dec 1 100000) (f_dec 1 10000)
    f_zero f_zero f_zero f_zero f_zero f_one zero_matrix zero_matrix (replicate 3 f_zero) f_zero.

Definition kSpeedGuard : float := f_of_Z 2.
Definition UpdateSinCos (o : MechanicalObserver) : option MechanicalObserver :=
  let o := if negb (is_finite (theta o)) then o.{theta := f_zero} else o in
  sc ← Calculate_angle (theta o);
  Some (o.{sin_theta := sin sc}.{cos_theta := cos sc}).
Definition ClampSpeed (o : MechanicalObserver) : MechanicalObserver :=
  let kUpper := f_mul (omega_max o) kSpeedGuard in
  let kLower := f_mul (omega_min o) kSpeedGuard in
  let o := if f_gtb (omega o) kUpper then o.{omega := kUpper}
           else if f_ltb (omega o) kLower then o.{omega := kLower} else o in
  if negb (is_finite (omega o)) then o.{omega := f_zero} else o.
Definition Observer_Reset (theta_init omega_init : float) (o : MechanicalObserver) : option MechanicalObserver :=
  UpdateSinCos (o.{omega := omega_init}.{theta := theta_init}.{m_l := f_zero}.{m_el := f_zero}
                 .{cov_p := zero_matrix}.{cov_pk := zero_matrix}.{cov_k := replicate 3 f_zero}.{cov_s := f_zero}).
Definition Observer_Init (settings : NvmSettings) (o : MechanicalObserver) : option MechanicalObserver :=
  Observer_Reset f_zero f_zero
    (o.{obs_psi := fl flux_pm settings}.{obs_L_d := fl l_d settings}.{obs_L_q := fl l_q settings}
      .{obs_J := fl motor_j settings}.{obs_pole_pairs := num settings pole_pairs}
      .{omega_max := fl motor_omega_max settings}.{omega_min := fl motor_omega_min settings}
      .{obs_Q := fl mech_obs_q settings}.{obs_R := fl mech_obs_r settings}).

Definition Predict (i_dq : Rotor) (dt : float) (o : MechanicalObserver) : option MechanicalObserver :=
  let kTsj := f_div dt (obs_J o) in
  let kPolePairs := f_of_Z (obs_pole_pairs o) in
  let flux := f_add (f_mul (obs_psi o) (axis_q i_dq))
                    (f_mul (f_mul (f_sub (obs_L_d o) (obs_L_q o)) (axis_d i_dq)) (axis_q i_dq)) in
  let o := o.{m_el := f_mul (f_mul (f_lit 3 2) kPolePairs) flux} in
  let o := o.{omega := f_add (omega o) (f_mul kTsj (f_sub (f_mul kPolePairs (m_el o)) (m_l o)))} in
  let o := ClampSpeed o in
  wrapped ← WrapAngle (f_add (theta o) (f_mul (omega o) dt));
  UpdateSinCos (o.{theta := wrapped}).

Definition PredictCovariance (dt : float) (o : MechanicalObserver) : MechanicalObserver :=
  let kTsj := f_div dt (obs_J o) in
  let p := entry (cov_p o) in
  let Q := obs_Q o in
  let pk02 := f_sub (p 0 2) (f_mul (p 2 2) kTsj) in
  let pk00 := f_sub (f_sub (f_add (p 0 0) Q) (f_mul (p 2 0) kTsj)) (f_mul pk02 kTsj) in
  let pk10 := f_sub (f_add (p 1 0) (f_mul (p 0 0) dt)) (f_mul kTsj (f_add (p 1 2) (f_mul (p 0 2) dt))) in
  let pk20 := f_sub (p 2 0) (f_mul kTsj (p 2 2)) in
  let pk01 := f_sub (f_add (p 0 1) (f_mul dt (f_sub (p 0 0) (f_mul kTsj (p 2 0))))) (f_mul kTsj (p 2 1)) in
  let pk11 := f_add (f_add (f_add (p 1 1) Q) (f_mul (p 0 1) dt)) (f_mul dt (f_add (p 1 0) (f_mul (p 0 0) dt))) in
  let pk21 := f_add (p 2 1) (f_mul (p 2 0) dt) in
  let pk12 := f_add (p 1 2) (f_mul (p 0 2) dt) in
  let pk22 := f_add (p 2 2) Q in
  let rows := [ [pk00; pk01; pk02]; [pk10; pk11; pk12]; [pk20; pk21; pk22] ] in o.{cov_pk := rows}.{cov_p := rows}.

Definition Correct (state : Z) (kInnovation noise : float) (o : MechanicalObserver) : option MechanicalObserver :=
  let kVariance := f_add (entry (cov_p o) state state) noise in
  if negb (f_gtb kVariance f_zero) || negb (is_finite kInnovation) then Some o
  else
    let s := f_div f_one kVariance in
    let k := map (fun row => f_mul (array_get f_zero row state) s) (cov_p o) in
    let kMeasuredRow := array_get [] (cov_p o) state in
    let p := zip_with (fun gain row => zip_with (fun x m => f_sub x (f_mul gain m)) row kMeasuredRow) k (cov_p o) in
    let gain := array_get f_zero k in
    let o := o.{cov_s := s}.{cov_k := k}.{cov_p := p}
              .{omega := f_add (omega o) (f_mul (gain 0) kInnovation)}
              .{theta := f_add (theta o) (f_mul (gain 1) kInnovation)}
              .{m_l := f_add (m_l o) (f_mul (gain 2) kInnovation)} in
    let o := ClampSpeed o in
    wrapped ← WrapAngle (theta o);
    UpdateSinCos (o.{theta := wrapped}).
Definition UpdateAngle (innovation noise : float) (o : MechanicalObserver) : option MechanicalObserver :=
  wrapped ← WrapAngle innovation; Correct 1 wrapped noise o.
Definition UpdateSpeed (innovation noise : float) (o : MechanicalObserver) : option MechanicalObserver :=
  Correct 0 innovation noise o.
Definition HoldStill (o : MechanicalObserver) : MechanicalObserver :=
  o.{omega := f_zero}.{m_l := f_mul (m_el o) (f_of_Z (obs_pole_pairs o))}.
Definition InjectAngleError (angle_error dt : float) (o : MechanicalObserver) : option MechanicalObserver :=
  let o := PredictCovariance dt o in UpdateAngle angle_error (obs_R o) o.

(** ** High-frequency injection *)
Record Hfi := mkHfi { v_inject : float; error_gain : float; hfi_step : Z; i_d_steps : list float; i_q_steps : list float }.
#[export] Instance eta_Hfi : Eta Hfi := fun s =>
  mkHfi (v_inject s) (error_gain s) (hfi_step s) (i_d_steps s) (i_q_steps s).
Definition Hfi_init : Hfi := mkHfi f_zero f_one 0 (replicate 4 f_zero) (replicate 4 f_zero).
Definition Hfi_Reset (h : Hfi) : Hfi := h.{hfi_step := 0}.{i_d_steps := replicate 4 f_zero}.{i_q_steps := replicate 4 f_zero}.
Definition Hfi_Init (settings : NvmSettings) (h : Hfi) : Hfi :=
  Hfi_Reset (h.{v_inject := fl hfi_v_inject settings}.{error_gain := fl hfi_error_gain settings}).
Definition GetInjectionVoltage (injection_step : Z) (sin_th cos_th : float) (h : Hfi) : Stator :=
  let v_d := if injection_step =? 0 then v_inject h else if injection_step =? 1 then f_neg (v_inject h) else f_zero in
  let v_q := if injection_step =? 2 then v_inject h else if injection_step =? 3 then f_neg (v_inject h) else f_zero in
  mkStator (f_sub (f_mul v_d cos_th) (f_mul v_q sin_th)) (f_add (f_mul v_d sin_th) (f_mul v_q cos_th)).
Definition Hfi_Update (i_ab : Stator) (sin_th cos_th dt : float) (h : Hfi) (o : MechanicalObserver)
    : option (Hfi * MechanicalObserver) :=
  let kID := f_add (f_mul (alpha i_ab) cos_th) (f_mul (beta i_ab) sin_th) in
  let kIQ := f_add (f_mul (f_neg (alpha i_ab)) sin_th) (f_mul (beta i_ab) cos_th) in
  let h' := if (0 <=? hfi_step h) && (hfi_step h <=? 3)
            then h.{i_d_steps := array_set (hfi_step h) kID (i_d_steps h)}
                  .{i_q_steps := array_set (hfi_step h) kIQ (i_q_steps h)} else h in
  let next := h'.{hfi_step := Z.land (hfi_step h + 1) 3} in
  if hfi_step h =? 3 then
    let q := array_get f_zero (i_q_steps h') in
    let d := array_get f_zero (i_d_steps h') in
    let kRawError := f_sub (f_sub (q 0) (q 1)) (f_sub (d 2) (d 3)) in
    o' ← InjectAngleError (f_mul kRawError (error_gain h')) dt o;
    Some (next, o')
  else Some (next, o).

(** ** The flux observer *)
Record PmsmFluxObserver := mkPmsmFluxObserver {
  flux_rs : float; flux_L_d : float; flux_L_q : float; C_d : float; C_q : float;
  psi_alpha : float; psi_beta : float; fb_d : float; fb_q : float; psi_pm_d : float; psi_pm_q : float }.
#[export] Instance eta_PmsmFluxObserver : Eta PmsmFluxObserver := fun s =>
  mkPmsmFluxObserver (flux_rs s) (flux_L_d s) (flux_L_q s) (C_d s) (C_q s) (psi_alpha s) (psi_beta s)
    (fb_d s) (fb_q s) (psi_pm_d s) (psi_pm_q s).
Definition PmsmFluxObserver_init : PmsmFluxObserver :=
  mkPmsmFluxObserver f_zero f_zero f_zero f_zero f_zero f_zero f_zero f_zero f_zero f_zero f_zero.
Definition Flux_Reset (s : PmsmFluxObserver) : PmsmFluxObserver :=
  s.{psi_alpha := f_zero}.{psi_beta := f_zero}.{fb_d := f_zero}.{fb_q := f_zero}.{psi_pm_d := f_zero}.{psi_pm_q := f_zero}.
Definition Flux_Init (settings : NvmSettings) (s : PmsmFluxObserver) : PmsmFluxObserver :=
  Flux_Reset (s.{flux_rs := fl stator_r settings}.{flux_L_d := fl l_d settings}.{flux_L_q := fl l_q settings}
               .{C_d := fl pmsm_flux_obs_c_d settings}.{C_q := fl pmsm_flux_obs_c_q settings}).
Definition Flux_Calculate (u_dq i_dq set_flux : Rotor) (dt : float) (o : MechanicalObserver) (s : PmsmFluxObserver)
    : option float * PmsmFluxObserver :=
  let kSn := sin_theta o in
  let kCs := cos_theta o in
  let kBemfD := f_add (f_sub (axis_d u_dq) (f_mul (flux_rs s) (axis_d i_dq))) (fb_d s) in
  let kBemfQ := f_add (f_sub (axis_q u_dq) (f_mul (flux_rs s) (axis_q i_dq))) (fb_q s) in
  let kBemfAlpha := f_sub (f_mul kBemfD kCs) (f_mul kBemfQ kSn) in
  let kBemfBeta := f_add (f_mul kBemfD kSn) (f_mul kBemfQ kCs) in
  let s := s.{psi_alpha := f_add (psi_alpha s) (f_mul kBemfAlpha dt)}
            .{psi_beta := f_add (psi_beta s) (f_mul kBemfBeta dt)} in
  let kPsiD := f_add (f_mul (psi_alpha s) kCs) (f_mul (psi_beta s) kSn) in
  let kPsiQ := f_add (f_mul (f_neg (psi_alpha s)) kSn) (f_mul (psi_beta s) kCs) in
  let s := s.{psi_pm_d := f_sub kPsiD (f_mul (flux_L_d s) (axis_d i_dq))}
            .{psi_pm_q := f_sub kPsiQ (f_mul (flux_L_q s) (axis_q i_dq))} in
  let s := s.{fb_d := f_mul (C_d s) (f_sub (axis_d set_flux) (psi_pm_d s))}
            .{fb_q := f_mul (C_q s) (f_sub (axis_q set_flux) (psi_pm_q s))} in
  (if negb (f_gtb (axis_d set_flux) f_zero) then None
   else Some (f_mul (f_div (psi_pm_q s) (axis_d set_flux)) f_one), s).

(** ** Hall sensors *)
Definition kSectors : Z := 6.
Definition kSectorWidth : float := Eval vm_compute in f_div f_pi (f_of_Z 3).
(** HallDecoder::Sector(). *)
Definition Sector (code : Z) : option Z :=
  match code with 1 => Some 1 | 2 => Some 3 | 3 => Some 2 | 4 => Some 5 | 5 => Some 0 | 6 => Some 4 | _ => None end.
Definition SectorStart (offset : float) (sector : Z) : option float :=
  WrapAngle (f_add offset (f_mul kSectorWidth (f_of_Z (sector mod kSectors)))).
(** HallDecoder::EdgeAngle(): the sector whose start is the edge, [None] without one. *)
Definition edge_sector (previous code : Z) : option Z :=
  match Sector previous, Sector code with
  | Some kFrom, Some kTo =>
      if kTo =? (kFrom + 1) mod kSectors then Some kTo
      else if kFrom =? (kTo + 1) mod kSectors then Some kFrom else None
  | _, _ => None
  end.
(** The deviation of an estimate from its sector, for a sector centre. *)
Definition SectorInnovation (offset : float) (sector : Z) (estimate : float) : option float :=
  let kHalfWidth := f_mul kSectorWidth f_half in
  start ← SectorStart offset sector;
  kDeviation ← WrapAngle (f_sub estimate (f_add start kHalfWidth));
  Some (if f_gtb kDeviation kHalfWidth then f_sub kHalfWidth kDeviation
        else if f_ltb kDeviation (f_neg kHalfWidth) then f_sub (f_neg kHalfWidth) kDeviation else f_zero).

Record HallEvent := mkHallEvent { hall_code : Z; hall_timestamp : Z }.
Record HallFusion := mkHallFusion {
  decoder_offset : float; r_edge_ : float; r_sector_ : float; enabled_ : bool; valid_ : bool; started_ : bool;
  code_ : Z; last_change_ : Z; edges_ : Z; invalid_codes_ : Z; invalid_transitions_ : Z }.
#[export] Instance eta_HallFusion : Eta HallFusion := fun s =>
  mkHallFusion (decoder_offset s) (r_edge_ s) (r_sector_ s) (enabled_ s) (valid_ s) (started_ s) (code_ s)
    (last_change_ s) (edges_ s) (invalid_codes_ s) (invalid_transitions_ s).
Definition HallFusion_init : HallFusion :=
  mkHallFusion f_zero (f_dec 3 1000) (f_dec 3 100) false false false 0 0 0 0 0.
Definition Hall_Reset (s : HallFusion) : HallFusion :=
  s.{valid_ := false}.{started_ := false}.{code_ := 0}.{last_change_ := 0}.{edges_ := 0}.{invalid_codes_ := 0}
   .{invalid_transitions_ := 0}.
Definition Hall_Init (settings : NvmSettings) (s : HallFusion) : HallFusion :=
  Hall_Reset (s.{enabled_ := negb (num settings hall_enable =? 0)}.{decoder_offset := fl hall_offset settings}
               .{r_edge_ := fl hall_r_edge settings}.{r_sector_ := fl hall_r_sector settings}).
Definition kMaxAgeTicks : Z := 0x40000000.
Definition kStandstillTime : float := f_half.

(** One event of Update(): the code at the reference, the fusion and the observer. *)
Definition hall_event (reference : Z) (tick_period : float) (acc : option (Z * HallFusion * MechanicalObserver)) (event : HallEvent)
    : option (Z * HallFusion * MechanicalObserver) :=
  '(code_at_reference, s, o) ← acc;
  if hall_code event =? code_ s then Some (code_at_reference, s, o)
  else
    let kTicksAfterEvent := i32 (u32 (reference - hall_timestamp event)) in
    so ← (match Sector (hall_code event), edge_sector (code_ s) (hall_code event) with
          | None, _ => Some (s.{invalid_codes_ := u32 (invalid_codes_ s + 1)}, o)
          | Some _, Some edge =>
              kEdge ← SectorStart (decoder_offset s) edge;
              let kAge := f_mul tick_period (f_of_Z kTicksAfterEvent) in
              let kMeasured := f_add kEdge (f_mul (omega o) kAge) in
              wrapped ← WrapAngle (f_sub kMeasured (theta o));
              o' ← UpdateAngle wrapped (r_edge_ s) o;
              Some (s.{edges_ := u32 (edges_ s + 1)}, o')
          | Some _, None =>
              match Sector (code_ s) with
              | Some _ => Some (s.{invalid_transitions_ := u32 (invalid_transitions_ s + 1)}, o)
              | None => Some (s, o)
              end
          end);
    let s := so.1.{code_ := hall_code event}.{last_change_ := hall_timestamp event} in
    Some (if 0 <=? kTicksAfterEvent then code_ s else code_at_reference, s, so.2).

(** Update() after the sector of the reference is known: the sector itself. *)
Definition hall_sector (kSector : Z) (s : HallFusion) (o : MechanicalObserver) : option MechanicalObserver :=
  kSectorInnovation ← SectorInnovation (decoder_offset s) kSector (theta o);
  let outside := negb (f_eqb kSectorInnovation f_zero) in
  if negb (started_ s) || (negb (valid_ s) && outside) then
    start ← SectorStart (decoder_offset s) kSector;
    centre ← WrapAngle (f_add start (f_mul kSectorWidth f_half));
    Observer_Reset centre (omega o) o
  else if outside then UpdateAngle kSectorInnovation (r_sector_ s) o
  else Some o.
(** The bound of the speed by the time since the last edge. *)
Definition hall_speed_bound (reference : Z) (tick_period : float) (s : HallFusion) (o : MechanicalObserver)
    : option (HallFusion * MechanicalObserver) :=
  let s := if kMaxAgeTicks <? i32 (u32 (reference - last_change_ s))
           then s.{last_change_ := u32 (reference - kMaxAgeTicks)} else s in
  let kTicksSinceChange := i32 (u32 (reference - last_change_ s)) in
  if kTicksSinceChange <=? 0 then Some (s, o)
  else
    let kSinceChange := f_mul tick_period (f_of_Z kTicksSinceChange) in
    let kLimit := f_mul (f_div kSectorWidth kSinceChange) (f_of_Z 2) in
    let kSpeed := omega o in
    o ← (if f_gtb kSpeed kLimit || f_ltb kSpeed (f_neg kLimit) then
           let kTarget := if f_gtb kSpeed f_zero then kLimit else f_neg kLimit in
           UpdateSpeed (f_sub kTarget kSpeed) (f_div (r_sector_ s) (f_mul kSinceChange kSinceChange)) o
         else Some o);
    Some (s, if f_gtb kSinceChange kStandstillTime then HoldStill o else o).
Definition Hall_Update (events : list HallEvent) (reference : Z) (tick_period : float) (s : HallFusion) (o : MechanicalObserver)
    : option (HallFusion * MechanicalObserver) :=
  '(code_at_reference, s, o) ← foldl (hall_event reference tick_period) (Some (code_ s, s, o)) events;
  match Sector code_at_reference with
  | None => Some (s.{valid_ := false}, o)
  | Some kSector =>
      o ← hall_sector kSector s o;
      hall_speed_bound reference tick_period (s.{valid_ := true}.{started_ := true}) o
  end.

(** *** The queue of Hall events, one producer and one consumer *)
Record HallEventQueue := mkHallEventQueue {
  events_ : list HallEvent; head_ : Z; tail_ : Z; latest_code_ : Z; overflows_ : Z }.
#[export] Instance eta_HallEventQueue : Eta HallEventQueue := fun s =>
  mkHallEventQueue (events_ s) (head_ s) (tail_ s) (latest_code_ s) (overflows_ s).
Definition HallEvent_init : HallEvent := mkHallEvent 0 0.
Section Queue.
(** The capacity, a power of two. *)
Context (N : Z).
Definition HallEventQueue_init : HallEventQueue := mkHallEventQueue (replicate (Z.to_nat N) HallEvent_init) 0 0 0 0.
Definition Push (event : HallEvent) (q : HallEventQueue) : bool * HallEventQueue :=
  let q := q.{latest_code_ := hall_code event} in
  if N <=? u32 (head_ q - tail_ q) then (false, q.{overflows_ := u32 (overflows_ q + 1)})
  else (true, q.{events_ := array_set (Z.land (head_ q) (N - 1)) event (events_ q)}.{head_ := u32 (head_ q + 1)}).
Definition Pop (q : HallEventQueue) : option HallEvent * HallEventQueue :=
  if head_ q =? tail_ q then (None, q)
  else (Some (array_get HallEvent_init (events_ q) (Z.land (tail_ q) (N - 1))), q.{tail_ := u32 (tail_ q + 1)}).
Definition Clear (q : HallEventQueue) : HallEventQueue := q.{tail_ := head_ q}.
End Queue.

End Observers.
