(* ===== verification/Isr.v ===== *)
(** * The current-control interrupt

    src/current_control/current_control_isr.{hpp,cpp}: class
    [CurrentControlIsr]: the control cycle from the samples to the duties, its
    trips, forced duties, and the calls of the threads.
    src/current_control/sub_step_buffer.hpp: the double buffer shared with the
    observer.  lib/motor_control/src/dead_time_compensation.hpp. *)
From Stdlib Require Import ZArith Lia Bool SpecFloat.
From stdpp Require Import base decidable list option.
From S2P Require Import Prelude Float32 FloatRound PowerStage CurrentControl SettingsData SettingsTypes Transforms Observers.
Import PowerStage CurrentControl SettingsData Transforms Observers.

#[local] Open Scope Z_scope.
#[local] Open Scope unimoc_scope.

Module Isr.

(** ** Data *)
Definition kNumSubSteps : nat := 4.
Record SubStepBuffer := mkSubStepBuffer {
  sc : list SinCos; sc_out : list SinCos; i_ab_samples : list Stator; i_dq_mean : Rotor; u_dq : Rotor; timestamp : Z }.
#[export] Instance eta_SubStepBuffer : Eta SubStepBuffer := fun s =>
  mkSubStepBuffer (sc s) (sc_out s) (i_ab_samples s) (i_dq_mean s) (u_dq s) (timestamp s).
Definition zero_Rotor : Rotor := mkRotor f_zero f_zero.
Definition zero_ThreePhase : ThreePhase := mkThreePhase f_zero f_zero f_zero.
Definition SubStepBuffer_init : SubStepBuffer :=
  mkSubStepBuffer (replicate 4 SinCos_init) (replicate 4 SinCos_init) (replicate 4 (mkStator f_zero f_zero))
    zero_Rotor zero_Rotor 0.

(** hardware/hardware_interface.hpp: the samples of a cycle and the duties of its half periods. *)
Record ControlCycleSamples := mkSamples {
  sample_currents : list ThreePhase; sample_dc_link : float; sample_overcurrent : bool; sample_timestamp : Z }.
Definition DutyPlan : Type := list ThreePhase.
Definition neutral : ThreePhase := mkThreePhase f_half f_half f_half.
Definition DutyPlan_init : DutyPlan := replicate 4 neutral.

Record CurrentGains := mkCurrentGains { gains_kp_d : float; gains_ki_d : float; gains_kp_q : float; gains_ki_q : float }.
Record DeadTimeCompensation := mkDtc { dead_time : float; f_pwm : float; i_threshold : float }.

Record CurrentControlIsr := mkCurrentControlIsr {
  samples_ready : bool;
  raw_phase_currents : ThreePhase;
  raw_vdc : float;
  adc_trigger_offset : Z;
  overcurrent_tripped : bool;
  overvoltage_tripped : bool;
  overcurrent_limit : float;
  cc : CurrentController;
  duty_min : float;
  duty_max : float;
  forced_duties_ : Mailbox ThreePhase;
  force_duty_active_ : bool;
  (** what [hardware_->SetAdcTriggerOffset()] and [SetOvercurrentLimit()] were
      last called with, and the plan last given to the hardware *)
  hardware_ : bool;
  hardware_trigger_offset : option Z;
  hardware_overcurrent_limit : option float;
  hardware_plan : option DutyPlan;
  i_ref : Rotor;
  i_ref_mailbox : Mailbox Rotor;
  i_dq_last : Rotor;
  u_dq_last : Rotor;
  buf : list SubStepBuffer;
  buf_active : Z;
  observer_buffer : Z;
  observer_pending : bool;
  observer_overruns : Z;
  control_cycles : Z;
  dt_fast : float;
  dt_slow : float;
  output_delay_half_periods : float;
  arr : Z;
  duty_plan : DutyPlan;
  phase_duties : ThreePhase;
  phase_currents : ThreePhase;
  dc_link : float;
  calibration : SettingsTypes.AdcCalibration;
  trip_voltage : float;
  gains_ : Mailbox CurrentGains;
  gains_pending_ : bool;
  mech_obs : MechanicalObserver;
  hfi : Hfi;
  hfi_active : bool;
  dtc : DeadTimeCompensation }.
#[export] Instance eta_CurrentControlIsr : Eta CurrentControlIsr := fun s =>
  mkCurrentControlIsr (samples_ready s) (raw_phase_currents s) (raw_vdc s) (adc_trigger_offset s)
    (overcurrent_tripped s) (overvoltage_tripped s) (overcurrent_limit s) (cc s) (duty_min s) (duty_max s)
    (forced_duties_ s) (force_duty_active_ s) (hardware_ s) (hardware_trigger_offset s) (hardware_overcurrent_limit s)
    (hardware_plan s) (i_ref s) (i_ref_mailbox s) (i_dq_last s) (u_dq_last s) (buf s) (buf_active s) (observer_buffer s)
    (observer_pending s) (observer_overruns s) (control_cycles s) (dt_fast s) (dt_slow s) (output_delay_half_periods s)
    (arr s) (duty_plan s) (phase_duties s) (phase_currents s) (dc_link s) (calibration s) (trip_voltage s) (gains_ s)
    (gains_pending_ s) (mech_obs s) (hfi s) (hfi_active s) (dtc s).

Definition DtFastFromPwmFrequency (freq : float) : float := f_div f_one (f_mul (f_of_Z 2) freq).
Definition DtSlowFromPwmFrequency (freq : float) : float := f_mul (DtFastFromPwmFrequency freq) (f_of_Z 4).
Definition kInitialPwmFrequency : float := f_of_Z 32000.
Definition AdcCalibration_init : SettingsTypes.AdcCalibration :=
  SettingsTypes.mkAdcCalibration f_zero f_zero f_zero f_one f_one f_one f_one.
Definition CurrentControlIsr_init : CurrentControlIsr :=
  mkCurrentControlIsr false zero_ThreePhase f_zero 170 false false f_inf CurrentController_init (f_dec 5 100) (f_dec 95 100)
    (Mailbox_init zero_ThreePhase) false false None None None zero_Rotor (Mailbox_init zero_Rotor) zero_Rotor zero_Rotor
    (replicate 2 SubStepBuffer_init) 0 0 false 0 0 (DtFastFromPwmFrequency kInitialPwmFrequency)
    (DtSlowFromPwmFrequency kInitialPwmFrequency) (f_lit 3 2) 2655 DutyPlan_init neutral zero_ThreePhase f_zero
    AdcCalibration_init f_inf (Mailbox_init (mkCurrentGains f_zero f_zero f_zero f_zero)) false
    MechanicalObserver_init Hfi_init false (mkDtc f_zero f_zero f_zero).

(** ** The calls of the threads *)
Definition ForceDuty (da db dc : float) (s : CurrentControlIsr) : CurrentControlIsr :=
  let kClampDuty duty := Clamp duty (duty_min s) (duty_max s) in
  s.{forced_duties_ := Mailbox_Write (mkThreePhase (kClampDuty da) (kClampDuty db) (kClampDuty dc))
                         (forced_duties_ s)}
   .{force_duty_active_ := true}.

Definition ReleaseForceDuty (s : CurrentControlIsr) : CurrentControlIsr :=
  s.{cc := CurrentController_Reset (cc s)}.{force_duty_active_ := false}.

Definition SetAdcTriggerOffset (offset : Z) (s : CurrentControlIsr) : CurrentControlIsr :=
  let s := s.{adc_trigger_offset := offset} in
  if hardware_ s then s.{hardware_trigger_offset := Some offset} else s.

Definition ClearTrips (s : CurrentControlIsr) : CurrentControlIsr :=
  s.{cc := CurrentController_Reset (cc s)}.{overcurrent_tripped := false}.{overvoltage_tripped := false}.

Definition Tripped (s : CurrentControlIsr) : bool := overcurrent_tripped s || overvoltage_tripped s.

(** TripName(): the latched trip, [None] for a null pointer. *)
Inductive trip_name := overcurrent_trip | overvoltage_trip.
Definition TripName (s : CurrentControlIsr) : option trip_name :=
  if overcurrent_tripped s then Some overcurrent_trip
  else if overvoltage_tripped s then Some overvoltage_trip
  else None.

(** Exceeds() of the trip check of the control cycle. *)
Definition Exceeds (currents : ThreePhase) (limit : float) : bool :=
  f_gtb (Abs (phase_a currents)) limit || f_gtb (Abs (phase_b currents)) limit ||
  f_gtb (Abs (phase_c currents)) limit.

Definition SetCurrentRef (ref : Rotor) (s : CurrentControlIsr) : CurrentControlIsr :=
  s.{i_ref_mailbox := Mailbox_Write ref (i_ref_mailbox s)}.
Definition SetCurrentGains (gains : CurrentGains) (s : CurrentControlIsr) : CurrentControlIsr :=
  s.{gains_ := Mailbox_Write gains (gains_ s)}.{gains_pending_ := true}.
Definition SetOvercurrentLimit (limit : float) (s : CurrentControlIsr) : CurrentControlIsr :=
  let s := s.{overcurrent_limit := limit} in
  if hardware_ s then s.{hardware_overcurrent_limit := Some limit} else s.

(** DeadTimeCompensation::Calculate(). *)
Definition Dtc_Calculate (i_ab : Stator) (d : DeadTimeCompensation) : Stator :=
  let kPhaseCurrents := ToThreePhase i_ab in
  let kSign x := Clamp (f_div x (i_threshold d)) (f_neg f_one) f_one in
  let kDtNorm := f_mul (dead_time d) (f_pwm d) in
  ToStator (mkThreePhase (f_mul (kSign (phase_a kPhaseCurrents)) kDtNorm) (f_mul (kSign (phase_b kPhaseCurrents)) kDtNorm)
                         (f_mul (kSign (phase_c kPhaseCurrents)) kDtNorm)).

(** [std::roundf], half away from zero, and its conversion; [None] for a value
    without a uint32_t.  The rest of the truncation is exact. *)
Definition f_to_u32 : float -> option Z := f_to_int 0 (2 ^ 32 - 1).
Definition roundf_u32 (x : float) : option Z :=
  z ← f_trunc x;
  let rest := f_sub x (f_of_Z z) in
  let z := if f_geb rest f_half then z + 1 else if f_leb rest (f_neg f_half) then z - 1 else z in
  if (0 <=? z) && (z <? 2 ^ 32) then Some z else None.

(** ** Init() *)
Definition calibration_of (settings : NvmSettings) : SettingsTypes.AdcCalibration :=
  SettingsTypes.mkAdcCalibration (fl adc_offset_a settings) (fl adc_offset_b settings) (fl adc_offset_c settings)
    (fl adc_gain_a settings) (fl adc_gain_b settings) (fl adc_gain_c settings) (fl adc_gain_vdc settings).
Definition settings_controller (settings : NvmSettings) (c : CurrentController) : CurrentController :=
  c.{kp_d := fl current_kp_d settings}.{ki_d := fl current_ki_d settings}.{kp_q := fl current_kp_q settings}
   .{ki_q := fl current_ki_q settings}.{L_d := fl l_d settings}.{L_q := fl l_q settings}.{psi := fl flux_pm settings}
   .{v_max := fl current_v_max settings}.
Definition Init (settings : NvmSettings) (timer_clock_hz : Z) (s : CurrentControlIsr) : option CurrentControlIsr :=
  let s := s.{hardware_ := true} in
  kPwmHz ← f_to_u32 (fl pwm_frequency settings);
  if kPwmHz =? 0 then Some s
  else
    offset ← roundf_u32 (f_mul (f_dec 1 1000000) (f_of_Z timer_clock_hz));
    obs ← Observer_Init settings (mech_obs s);
    zero ← Calculate_angle f_zero;
    let clear_buffer b := b.{sc := replicate kNumSubSteps zero}.{sc_out := replicate kNumSubSteps zero} in
    Some (s.{arr := u32 (timer_clock_hz / u32 (2 * kPwmHz) - 1)}
           .{dt_fast := DtFastFromPwmFrequency (fl pwm_frequency settings)}
           .{dt_slow := DtSlowFromPwmFrequency (fl pwm_frequency settings)}
           .{adc_trigger_offset := offset}
           .{trip_voltage := fl dc_link_trip settings}
           .{calibration := calibration_of settings}
           .{hfi := (Hfi_Init settings (hfi s)).{hfi_step := 3}}
           .{dtc := mkDtc (fl dtc_dead_time settings) (fl dtc_f_pwm settings) (fl dtc_i_threshold settings)}
           .{duty_min := fl svm_duty_min settings}.{duty_max := fl svm_duty_max settings}
           .{cc := CurrentController_Reset (settings_controller settings (cc s))}
           .{gains_pending_ := false}
           .{mech_obs := obs}
           .{buf := map clear_buffer (buf s)}.{buf_active := 0}
           .{samples_ready := false}.{observer_pending := false}.{observer_overruns := 0}.{control_cycles := 0}
           .{duty_plan := DutyPlan_init}.{phase_duties := neutral}
           .{force_duty_active_ := false}
           .{i_ref := zero_Rotor}.{i_ref_mailbox := Mailbox_Write zero_Rotor (i_ref_mailbox s)}
           .{i_dq_last := zero_Rotor}.{u_dq_last := zero_Rotor}).

(** ** The control cycle *)
Definition Calibrated_phase (c : SettingsTypes.AdcCalibration) (i : ThreePhase) : ThreePhase :=
  mkThreePhase (f_mul (f_sub (phase_a i) (SettingsTypes.offset_a c)) (SettingsTypes.gain_a c))
               (f_mul (f_sub (phase_b i) (SettingsTypes.offset_b c)) (SettingsTypes.gain_b c))
               (f_mul (f_sub (phase_c i) (SettingsTypes.offset_c c)) (SettingsTypes.gain_c c)).
Definition Calibrated (raw : ControlCycleSamples) (c : SettingsTypes.AdcCalibration) : ControlCycleSamples :=
  mkSamples (map (Calibrated_phase c) (sample_currents raw)) (f_mul (sample_dc_link raw) (SettingsTypes.gain_vdc c))
    (sample_overcurrent raw) (sample_timestamp raw).

Definition SetDutyPlan (plan : DutyPlan) (s : CurrentControlIsr) : CurrentControlIsr :=
  s.{duty_plan := plan}.{phase_duties := default neutral (head plan)}.{hardware_plan := Some plan}.
Definition SetUniformDuties (duties : ThreePhase) (s : CurrentControlIsr) : CurrentControlIsr :=
  SetDutyPlan (replicate 4 duties) s.
Definition FinishCycleWithoutControl (s : CurrentControlIsr) : CurrentControlIsr := s.{samples_ready := true}.

(** The samples, the reference and the live gains at the start of a cycle. *)
Definition take_samples (kRawSamples : ControlCycleSamples) (s : CurrentControlIsr) : CurrentControlIsr :=
  let kSamples := Calibrated kRawSamples (calibration s) in
  let last_of l := default zero_ThreePhase (l !! 3%nat) in
  let s := s.{control_cycles := u32 (control_cycles s + 1)}
            .{raw_phase_currents := last_of (sample_currents kRawSamples)}.{raw_vdc := sample_dc_link kRawSamples}
            .{phase_currents := last_of (sample_currents kSamples)}.{dc_link := sample_dc_link kSamples}
            .{i_ref := Mailbox_Read zero_Rotor (i_ref_mailbox s)} in
  if gains_pending_ s then
    let g := Mailbox_Read (mkCurrentGains f_zero f_zero f_zero f_zero) (gains_ s) in
    s.{gains_pending_ := false}
     .{cc := (cc s).{kp_d := gains_kp_d g}.{ki_d := gains_ki_d g}.{kp_q := gains_kp_q g}.{ki_q := gains_ki_q g}}
  else s.

(** What trips in this cycle: a reading over the limits. *)
Definition over_current (kSamples : ControlCycleSamples) (s : CurrentControlIsr) : bool :=
  sample_overcurrent kSamples || existsb (fun i => Exceeds i (overcurrent_limit s)) (sample_currents kSamples).
Definition over_voltage (kSamples : ControlCycleSamples) (s : CurrentControlIsr) : bool :=
  negb (f_ltb (sample_dc_link kSamples) (trip_voltage s)).

Section Cycle.
Context {P : Type} `{!PowerStageOps P}.

(** The trip check; TripPowerStage() acts on the platform. *)
Definition check_trips (kSamples : ControlCycleSamples) (s : CurrentControlIsr) (p : P) : CurrentControlIsr * P :=
  let '(s, p) := if negb (overcurrent_tripped s) && over_current kSamples s
                 then (s.{overcurrent_tripped := true}, trip_ p) else (s, p) in
  if negb (overvoltage_tripped s) && over_voltage kSamples s
  then (s.{overvoltage_tripped := true}, trip_ p) else (s, p).

(** The current control: transform, PI, dead-time compensation, space vectors. *)
Definition control_currents (kSamples : ControlCycleSamples) (s : CurrentControlIsr) : CurrentControlIsr :=
  let s := if observer_pending s then s.{observer_overruns := u32 (observer_overruns s + 1)} else s in
  let kActiveBuffer := buf_active s in
  let buffer := array_get SubStepBuffer_init (buf s) kActiveBuffer in
  let alpha_beta := map ToStator (sample_currents kSamples) in
  let dq := zip_with ToRotor (sc buffer) alpha_beta in
  let sum := foldl (fun a i => mkRotor (f_add (axis_d a) (axis_d i)) (f_add (axis_q a) (axis_q i))) zero_Rotor dq in
  let kInverseCount := f_div f_one (f_of_Z 4) in
  let mean := mkRotor (f_mul (axis_d sum) kInverseCount) (f_mul (axis_q sum) kInverseCount) in
  let '(kVoltageDq, cc') :=
    CurrentController_Update (i_ref s) mean (omega (mech_obs s)) (dt_slow s) (sample_dc_link kSamples) (cc s) in
  let buffer := buffer.{timestamp := sample_timestamp kSamples}.{i_ab_samples := alpha_beta}.{i_dq_mean := mean}
                      .{u_dq := kVoltageDq} in
  let kDtcRatio := Dtc_Calculate (array_get (mkStator f_zero f_zero) alpha_beta 3) (dtc s) in
  let kInverseVDc := InverseDcLinkVoltage (sample_dc_link kSamples) in
  let duty k (sc_out_k : SinCos) :=
    let u_ab := RotorToStator sc_out_k kVoltageDq in
    let u_ab := if hfi_active s
                then let v := GetInjectionVoltage (Z.of_nat k) (sin sc_out_k) (cos sc_out_k) (hfi s) in
                     mkStator (f_add (alpha u_ab) (alpha v)) (f_add (beta u_ab) (beta v))
                else u_ab in
    CalculateWithInverseDcLinkVoltage u_ab kInverseVDc kDtcRatio (mkSvm (duty_min s) (duty_max s)) in
  let s := s.{buf := array_set kActiveBuffer buffer (buf s)}.{i_dq_last := mean}.{u_dq_last := kVoltageDq}.{cc := cc'} in
  (SetDutyPlan (imap duty (sc_out buffer)) s).{observer_buffer := kActiveBuffer}.{observer_pending := true}
    .{samples_ready := true}.

Definition OnControlCycle (kRawSamples : ControlCycleSamples) (s : CurrentControlIsr) (p : P) : CurrentControlIsr * P :=
  if negb (hardware_ s) then (s, p)
  else
    let kSamples := Calibrated kRawSamples (calibration s) in
    let '(s, p) := check_trips kSamples (take_samples kRawSamples s) p in
    (if overcurrent_tripped s || overvoltage_tripped s then FinishCycleWithoutControl (SetUniformDuties neutral s)
     else if force_duty_active_ s
     then FinishCycleWithoutControl (SetUniformDuties (Mailbox_Read zero_ThreePhase (forced_duties_ s)) s)
     else control_currents kSamples s, p).
End Cycle.

(** ** Lemmas *)

(** The currents control keeps everything the trips and the threads look at. *)
Record control_frame (s t : CurrentControlIsr) : Prop := mkControlFrame {
  cf_oc : overcurrent_tripped t = overcurrent_tripped s;
  cf_ov : overvoltage_tripped t = overvoltage_tripped s;
  cf_raw : raw_phase_currents t = raw_phase_currents s;
  cf_vdc : raw_vdc t = raw_vdc s;
  cf_hardware : hardware_ t = hardware_ s;
  cf_limit : overcurrent_limit t = overcurrent_limit s;
  cf_trip : trip_voltage t = trip_voltage s;
  cf_calibration : calibration t = calibration s;
  cf_force : force_duty_active_ t = force_duty_active_ s }.

Lemma control_currents_frame samples s : control_frame s (control_currents samples s) /\
  samples_ready (control_currents samples s) = true.
Proof.
  unfold control_currents. cbv zeta. destruct (observer_pending s);
    destruct (CurrentController_Update _ _ _ _ _ _) as [u c]; split; [by constructor|reflexivity|by constructor|reflexivity].
Qed.

Lemma take_samples_frame samples s :
  let t := take_samples samples s in
  overcurrent_tripped t = overcurrent_tripped s /\ overvoltage_tripped t = overvoltage_tripped s /\
  raw_phase_currents t = default zero_ThreePhase (sample_currents samples !! 3%nat) /\
  raw_vdc t = sample_dc_link samples /\ hardware_ t = hardware_ s /\ overcurrent_limit t = overcurrent_limit s /\
  trip_voltage t = trip_voltage s /\ calibration t = calibration s /\ force_duty_active_ t = force_duty_active_ s.
Proof. cbv zeta. unfold take_samples. by case_if. Qed.

Section Safety.
Context {P : Type} `{!PowerStageOps P} `{!PowerStageLaws P}.

(** The state after the trip check. *)
Lemma check_trips_spec samples s p :
  let '(t, q) := check_trips samples s p in
  overcurrent_tripped t = overcurrent_tripped s || over_current samples s /\
  overvoltage_tripped t = overvoltage_tripped s || over_voltage samples s /\
  raw_phase_currents t = raw_phase_currents s /\ raw_vdc t = raw_vdc s /\ hardware_ t = hardware_ s /\
  overcurrent_limit t = overcurrent_limit s /\ trip_voltage t = trip_voltage s /\ calibration t = calibration s /\
  (get_state_ q = kEnabled -> q = p /\ overcurrent_tripped t = overcurrent_tripped s /\
                              overvoltage_tripped t = overvoltage_tripped s).
Proof.
  unfold check_trips. set (u := s.{overcurrent_tripped := true}).
  assert (over_voltage samples u = over_voltage samples s) as E by done.
  assert (overvoltage_tripped u = overvoltage_tripped s) as Eu by done.
  destruct (overcurrent_tripped s) eqn:O, (over_current samples s); cbn [negb andb orb]; rewrite ?E, ?Eu;
    destruct (overvoltage_tripped s) eqn:V, (over_voltage samples s); cbn [negb andb orb];
    (split; [first [exact O|reflexivity]|]); (split; [first [exact V|reflexivity]|]);
    (do 6 (split; [reflexivity|])); intros En; try (by apply trip_off in En); by rewrite O, V.
Qed.

(** One cycle: trips are latched, a tripped cycle gives neutral duties, and the
    outputs are never released. *)
Lemma OnControlCycle_spec samples s p : hardware_ s = true ->
  let kSamples := Calibrated samples (calibration s) in
  let '(t, q) := OnControlCycle samples s p in
  overcurrent_tripped t = overcurrent_tripped s || over_current kSamples s /\
  overvoltage_tripped t = overvoltage_tripped s || over_voltage kSamples s /\
  (Tripped t = true -> hardware_plan t = Some (replicate 4 neutral)) /\
  (get_state_ q = kEnabled -> get_state_ p = kEnabled /\ Tripped t = Tripped s) /\
  hardware_ t = true /\ overcurrent_limit t = overcurrent_limit s /\ trip_voltage t = trip_voltage s /\
  calibration t = calibration s /\ samples_ready t = true /\
  raw_phase_currents t = default zero_ThreePhase (sample_currents samples !! 3%nat) /\ raw_vdc t = sample_dc_link samples.
Proof.
  intros H. cbv zeta. unfold OnControlCycle. rewrite H. cbn [negb]. set (k := Calibrated samples (calibration s)).
  pose proof (take_samples_frame samples s) as (T1 & T2 & T3 & T4 & T5 & T6 & T7 & T8 & T9).
  assert (over_current k (take_samples samples s) = over_current k s) as E1 by (unfold over_current; by rewrite T6).
  assert (over_voltage k (take_samples samples s) = over_voltage k s) as E2 by (unfold over_voltage; by rewrite T7).
  pose proof (check_trips_spec k (take_samples samples s) p) as C. destruct (check_trips _ _ _) as [u q].
  destruct C as (C1 & C2 & C3 & C4 & C5 & C6 & C7 & C8 & C). rewrite E1, T1 in C1. rewrite E2, T2 in C2.
  assert (forall t, control_frame u t -> overcurrent_tripped t = overcurrent_tripped s || over_current k s /\
    overvoltage_tripped t = overvoltage_tripped s || over_voltage k s /\
    (get_state_ q = kEnabled -> get_state_ p = kEnabled /\ Tripped t = Tripped s) /\
    hardware_ t = true /\ overcurrent_limit t = overcurrent_limit s /\ trip_voltage t = trip_voltage s /\
    calibration t = calibration s /\
    raw_phase_currents t = default zero_ThreePhase (sample_currents samples !! 3%nat) /\ raw_vdc t = sample_dc_link samples) as St.
  { intros t [F1 F2 F3 F4 F5 F6 F7 F8 _]. rewrite F1, F2, F3, F4, F5, F6, F7, F8, C1, C2, C3, C4, C5, C6, C7, C8, T3, T4, T5, T6, T7, T8.
    repeat (split; [done|]). split; [|done]. intros E. destruct (C E) as (-> & D1 & D2). split; [done|]. unfold Tripped.
    by rewrite F1, F2, D1, D2, T1, T2. }
  set (t := if overcurrent_tripped u || overvoltage_tripped u then _ else _).
  assert (control_frame u t /\ samples_ready t = true /\ (Tripped t = true -> hardware_plan t = Some (replicate 4 neutral))) as (F & R & Pl).
  { subst t. destruct (overcurrent_tripped u || overvoltage_tripped u) eqn:Tr; [split; [by constructor|done]|].
    destruct (force_duty_active_ u).
    - split; [by constructor|]. split; [done|]. unfold Tripped. cbn. intros X. congruence.
    - destruct (control_currents_frame k u) as [F R]. split; [done|]. split; [done|]. unfold Tripped.
      rewrite (cf_oc _ _ F), (cf_ov _ _ F). congruence. }
  clearbody t. destruct (St t F) as (S1 & S2 & S3 & S4 & S5 & S6 & S7 & S8 & S9). by repeat (split; [done|]).
Qed.

(** A cycle without a reading over the limits leaves the power stage alone. *)
Lemma OnControlCycle_stage samples s p :
  let kSamples := Calibrated samples (calibration s) in
  over_current kSamples s || over_voltage kSamples s = false -> (OnControlCycle samples s p).2 = p.
Proof.
  cbv zeta. intros Ov. apply orb_false_iff in Ov as [A B]. unfold OnControlCycle. case_if; [done|].
  pose proof (take_samples_frame samples s) as (_ & _ & _ & _ & _ & T6 & T7 & _).
  unfold check_trips, over_current, over_voltage in *. rewrite T6, A, andb_false_r, T7, B, andb_false_r. done.
Qed.

Lemma OnControlCycle_off samples s p : get_state_ (OnControlCycle samples s p).2 = kEnabled -> get_state_ p = kEnabled.
Proof.
  destruct (hardware_ s) eqn:H; [|unfold OnControlCycle; by rewrite H].
  pose proof (OnControlCycle_spec samples s p H) as O. destruct (OnControlCycle samples s p) as [t q]. cbn [snd].
  destruct O as (_ & _ & _ & O & _). intros E. by apply O in E as [E _].
Qed.

Lemma OnControlCycle_seen samples s p : hardware_ s = true ->
  let '(t, _) := OnControlCycle samples s p in
  samples_ready t = true /\ raw_phase_currents t = default zero_ThreePhase (sample_currents samples !! 3%nat) /\
  raw_vdc t = sample_dc_link samples /\ (overcurrent_tripped s = true -> overcurrent_tripped t = true) /\
  (overvoltage_tripped s = true -> overvoltage_tripped t = true).
Proof.
  intros H. pose proof (OnControlCycle_spec samples s p H) as O. destruct (OnControlCycle samples s p) as [t q].
  destruct O as (O1 & O2 & _ & _ & _ & _ & _ & _ & O3 & O4 & O5). repeat (split; [done|]).
  rewrite O1, O2. split; by intros ->.
Qed.

(** Control cycles one after the other. *)
Definition run_cycles (samples : list ControlCycleSamples) (g : CurrentControlIsr * P) : CurrentControlIsr * P :=
  foldl (fun g raw => OnControlCycle raw g.1 g.2) g samples.

Lemma run_cycles_tripped samples s p : hardware_ s = true -> Tripped s = true ->
  hardware_plan s = Some (replicate 4 neutral) -> get_state_ p <> kEnabled ->
  let '(t, q) := run_cycles samples (s, p) in
  Tripped t = true /\ hardware_plan t = Some (replicate 4 neutral) /\ get_state_ q <> kEnabled.
Proof.
  revert s p. induction samples as [|raw rest IH]; intros s p H T Pl Off; [done|].
  cbn [run_cycles foldl fst snd]. pose proof (OnControlCycle_spec raw s p H) as O.
  destruct (OnControlCycle raw s p) as [t q]. destruct O as (O1 & O2 & O3 & O4 & O5 & _).
  assert (Tripped t = true) as Tt by (unfold Tripped in *; rewrite O1, O2; destruct (overcurrent_tripped s); [done|]; cbn in T; by rewrite T, orb_true_r).
  apply IH; auto. intros E. by apply O4 in E as [E _].
Qed.

(** ** Properties *)

End Safety.


End Isr.
