(* ===== verification/MotionControl.v ===== *)
(** * Speed, position and battery limits

    lib/motor_control/src/speed_controller.hpp (PI speed controller with
    limited torque), position_controller.hpp (position loop and its own homing
    sequence), dc_link_limit.hpp (battery current limits). *)
From Stdlib Require Import ZArith Lia Bool SpecFloat.
From stdpp Require Import base decidable list option.
From S2P Require Import Prelude Float32 FloatRound CurrentControl.
Import CurrentControl.

#[local] Open Scope Z_scope.
#[local] Open Scope unimoc_scope.

Module MotionControl.

(** ** Speed controller *)
Record SpeedController := mkSpeedController {
  kp : float; ki : float; accel_limit : float; torque_limit : float; torque_min : float; torque_max : float;
  reference : float; integral : float; output : float }.
#[export] Instance eta_SpeedController : Eta SpeedController := fun s =>
  mkSpeedController (kp s) (ki s) (accel_limit s) (torque_limit s) (torque_min s) (torque_max s) (reference s)
    (integral s) (output s).
Definition SpeedController_init : SpeedController :=
  mkSpeedController f_zero f_zero f_zero f_zero (f_neg f_inf) f_inf f_zero f_zero f_zero.
Definition Speed_Reset (start : float) (s : SpeedController) : SpeedController :=
  s.{reference := start}.{integral := f_zero}.{output := f_zero}.
Definition Speed_Track (speed_reference measured dt : float) (s : SpeedController) : float * SpeedController :=
  if negb (is_finite speed_reference) || negb (is_finite measured)
  then let s := Speed_Reset (reference s) s in (output s, s)
  else
    let s := s.{reference := speed_reference} in
    let kLimit := if f_gtb (torque_limit s) f_zero then torque_limit s else f_zero in
    let kLower := Max (f_neg kLimit) (torque_min s) in
    let kUpper := Min kLimit (torque_max s) in
    let kError := f_sub (reference s) measured in
    let kProportional := f_mul (kp s) kError in
    let kIntegral := f_add (integral s) (f_mul kProportional (f_mul (ki s) dt)) in
    let kUnlimited := f_add kProportional kIntegral in
    let kWindsUp := (f_gtb kUnlimited kUpper && f_gtb kError f_zero) || (f_ltb kUnlimited kLower && f_ltb kError f_zero) in
    let s := if negb kWindsUp then s.{integral := Clamp kIntegral kLower kUpper} else s in
    let s := s.{output := Clamp (f_add kProportional (integral s)) kLower kUpper} in
    (output s, s).
Definition Speed_Update (setpoint measured dt : float) (s : SpeedController) : float * SpeedController :=
  if negb (is_finite setpoint) then Speed_Track setpoint measured dt s
  else if f_gtb (accel_limit s) f_zero then
    let kStep := f_mul (accel_limit s) dt in
    Speed_Track (Clamp setpoint (f_sub (reference s) kStep) (f_add (reference s) kStep)) measured dt s
  else Speed_Track setpoint measured dt s.

(** ** Position controller *)
Inductive HomingState := kIdle | kSearching | kZeroing | kDone | kFault.
#[export] Instance HomingState_eq_dec : EqDecision HomingState.
Proof. solve_decision. Defined.
Definition homing_eqb (a b : HomingState) : bool := bool_decide (a = b).
Definition homing_byte (h : HomingState) : Z :=
  match h with kIdle => 0 | kSearching => 1 | kZeroing => 2 | kDone => 3 | kFault => 4 end.

(** The home callback is a pointer with its context: whether both are set; a
    call of it is a result of [Position_Update]. *)
Record PositionController := mkPositionController {
  kp_pos : float; kp_speed : float; ki_speed : float; speed_limit : float; pos_accel_limit : float;
  position_tolerance : float; speed_tolerance : float; trapezoid_jump_threshold : float;
  homing_speed : float; homing_block_current_threshold : float;
  pos_ref_rad : float; pos_ref_limited : float; omega_demand_prev : float; speed_integrator : float;
  homing_state : HomingState; home_callback : bool; omega_ref : float; in_position : bool }.
#[export] Instance eta_PositionController : Eta PositionController := fun s =>
  mkPositionController (kp_pos s) (kp_speed s) (ki_speed s) (speed_limit s) (pos_accel_limit s) (position_tolerance s)
    (speed_tolerance s) (trapezoid_jump_threshold s) (homing_speed s) (homing_block_current_threshold s) (pos_ref_rad s)
    (pos_ref_limited s) (omega_demand_prev s) (speed_integrator s) (homing_state s) (home_callback s) (omega_ref s)
    (in_position s).
Definition PositionController_init : PositionController :=
  mkPositionController (f_of_Z 10) (f_of_Z 5) (f_of_Z 20) (f_of_Z 100) (f_of_Z 500) (f_dec 1 100) f_one f_half (f_of_Z 5)
    f_zero f_zero f_zero f_zero f_zero kIdle false f_zero false.

Definition SpeedDemand (pos_meas_rad omega_meas delta_time : float) (s : PositionController) : float * PositionController :=
  let kMaxPosStep := f_mul (speed_limit s) delta_time in
  let kSetpointJumpMag := Abs (f_sub (pos_ref_rad s) pos_meas_rad) in
  let s := if f_gtb kSetpointJumpMag (trapezoid_jump_threshold s)
           then s.{pos_ref_limited :=
                     f_add (pos_ref_limited s) (Clamp (f_sub (pos_ref_rad s) (pos_ref_limited s)) (f_neg kMaxPosStep) kMaxPosStep)}
           else s.{pos_ref_limited := pos_ref_rad s} in
  let kPosError := f_sub (pos_ref_limited s) pos_meas_rad in
  let omega_demand := Clamp (f_mul (kp_pos s) kPosError) (f_neg (speed_limit s)) (speed_limit s) in
  let kMaxDeltaOmega := f_mul (pos_accel_limit s) delta_time in
  let omega_demand := Clamp omega_demand (f_sub (omega_demand_prev s) kMaxDeltaOmega) (f_add (omega_demand_prev s) kMaxDeltaOmega) in
  let s := s.{omega_demand_prev := omega_demand}
            .{in_position := f_leb (Abs (f_sub (pos_ref_rad s) pos_meas_rad)) (position_tolerance s) &&
                             f_leb (Abs omega_meas) (speed_tolerance s)} in
  (omega_demand, s).

(** The states before the position loop of Update(). *)
Definition Position_Update (pos_meas_rad omega_meas delta_time homing_current_feedback : float) (s : PositionController)
    : bool * float * PositionController :=
  let searching := homing_eqb (homing_state s) kSearching in
  let blocked := f_gtb (homing_block_current_threshold s) f_zero &&
                 f_geb (Abs homing_current_feedback) (homing_block_current_threshold s) in
  if searching && negb blocked then
    let s := s.{omega_ref := homing_speed s}.{in_position := false} in (false, omega_ref s, s)
  else
    let s := if searching then s.{homing_state := kZeroing} else s in
    if homing_eqb (homing_state s) kZeroing then
      let s := s.{homing_state := kDone}.{pos_ref_rad := f_zero}.{pos_ref_limited := f_zero}.{omega_demand_prev := f_zero}
                .{speed_integrator := f_zero}.{omega_ref := f_zero}.{in_position := false} in
      (home_callback s, omega_ref s, s)
    else
      let '(kOmegaDemand, s) := SpeedDemand pos_meas_rad omega_meas delta_time s in
      let kSpeedError := f_sub kOmegaDemand omega_meas in
      let limit x := Clamp x (f_neg (speed_limit s)) (speed_limit s) in
      let s := s.{speed_integrator := limit (f_add (speed_integrator s) (f_mul (f_mul (ki_speed s) kSpeedError) delta_time))} in
      let s := s.{omega_ref := limit (f_add (f_mul (kp_speed s) kSpeedError) (speed_integrator s))} in
      (false, omega_ref s, s).
Definition Position_StartHoming (s : PositionController) : PositionController :=
  s.{homing_state := kSearching}.{speed_integrator := f_zero}.{omega_ref := f_zero}.{in_position := false}.
Definition TriggerZeroing (s : PositionController) : PositionController :=
  if homing_eqb (homing_state s) kSearching then s.{homing_state := kZeroing} else s.
Definition SetHomeCallback (both_set : bool) (s : PositionController) : PositionController := s.{home_callback := both_set}.
Definition Fault (s : PositionController) : PositionController := s.{homing_state := kFault}.{omega_ref := f_zero}.
Definition Position_Reset (s : PositionController) : PositionController :=
  s.{pos_ref_limited := pos_ref_rad s}.{omega_demand_prev := f_zero}.{speed_integrator := f_zero}.{homing_state := kIdle}
   .{omega_ref := f_zero}.{in_position := false}.

(** ** Battery limits *)
Record DcLinkLimit := mkDcLinkLimit {
  drive_current_max : float; charge_current_max : float; regen_derate_start : float; trip : float }.
#[export] Instance eta_DcLinkLimit : Eta DcLinkLimit := fun s =>
  mkDcLinkLimit (drive_current_max s) (charge_current_max s) (regen_derate_start s) (trip s).
Definition DcLinkLimit_init : DcLinkLimit := mkDcLinkLimit f_zero f_zero f_zero f_zero.
Definition AllowedChargeCurrent (dc_link : float) (d : DcLinkLimit) : float :=
  if negb (f_gtb dc_link (regen_derate_start d)) then charge_current_max d
  else if negb (f_ltb dc_link (trip d)) then f_zero
  else f_mul (charge_current_max d) (f_div (f_sub (trip d) dc_link) (f_sub (trip d) (regen_derate_start d))).
Record TorqueRange := mkTorqueRange { lower : float; upper : float }.
Definition AllowedTorque (speed dc_link : float) (d : DcLinkLimit) : TorqueRange :=
  if negb (f_gtb dc_link f_zero) || f_eqb speed f_zero || negb (is_finite speed)
  then mkTorqueRange (f_neg f_inf) f_inf
  else
    let kMotoring := f_div (f_mul dc_link (drive_current_max d)) speed in
    let kBraking := f_div (f_neg (f_mul dc_link (AllowedChargeCurrent dc_link d))) speed in
    if f_gtb speed f_zero then mkTorqueRange kBraking kMotoring else mkTorqueRange kMotoring kBraking.
Definition Limit (current : Rotor) (torque_constant speed dc_link : float) (d : DcLinkLimit) : Rotor :=
  if negb (f_gtb dc_link f_zero) then current
  else
    let kPower := f_mul (f_mul torque_constant (axis_q current)) speed in
    let kMotoringMax := f_mul dc_link (drive_current_max d) in
    let kBrakingMax := f_neg (f_mul dc_link (AllowedChargeCurrent dc_link d)) in
    if f_gtb kPower kMotoringMax then mkRotor (axis_d current) (f_mul (axis_q current) (f_div kMotoringMax kPower))
    else if f_ltb kPower kBrakingMax then mkRotor (axis_d current) (f_mul (axis_q current) (f_div kBrakingMax kPower))
    else current.

End MotionControl.
