(* ===== verification/SettingsStore.v ===== *)
(** * Settings: validation, load, commit and save

    lib/settings/settings_store.hpp and settings_storage.hpp,
    lib/settings/settings_profile.hpp: the checks on settings, the store with
    its live and stored copies, and the operations on it.  The storage backend
    and the save gate are callbacks of the program: the classes [StorageOps] and
    [GateOps], with what their documentation promises as [StorageLaws].  The
    lock makes each operation one step and has no state of its own. *)
From Stdlib Require Import ZArith Lia Bool SpecFloat.
From stdpp Require Import base decidable list strings gmap.
From S2P Require Import Prelude Float32 Units SettingsData SettingsCodec SettingsTypes.
Import SettingsData SettingsCodec SettingsTypes.

#[local] Open Scope Z_scope.
#[local] Open Scope unimoc_scope.

Module SettingsStore.

(** ** The profile *)
Record HardwareCapabilities := mkHardwareCapabilities {
  max_phase_current : float;
  max_motor_current : float;
  max_battery_drive_current : float;
  max_battery_charge_current : float;
  max_dc_link_voltage : float }.
Definition HardwareCapabilities_init : HardwareCapabilities :=
  mkHardwareCapabilities (f_of_Z 100) (f_of_Z 40) (f_of_Z 15) (f_of_Z 5) (f_of_Z 60).
Record SettingsProfile := mkSettingsProfile {
  factory_settings : NvmSettings; capabilities : HardwareCapabilities }.

(** ** Validation *)
#[local] Notation "x <. y" := (f_ltb x y) (at level 70).
#[local] Notation "x <=. y" := (f_leb x y) (at level 70).

(** The members IsFiniteEbike() and IsFinite() look at. *)
Definition ebike_floats : list Field := [
   ebike_wheel_circumference; ebike_gear_ratio; ebike_gain_1; ebike_gain_2; ebike_gain_3; ebike_gain_4;
   ebike_gain_5; ebike_power_scale; ebike_max_ratio; ebike_torque_ratio; ebike_torque_deadband;
   ebike_min_cadence; ebike_speed_taper; ebike_rise_time; ebike_fall_time; ebike_engage_hold;
   ebike_rearm_time; ebike_display_timeout].
Definition base_floats : list Field := [
   stator_r; stator_l; motor_i_max; motor_omega_max; motor_omega_min; battery_drive_current_max;
   battery_charge_current_max; flux_pm; l_d; l_q; asm_r_r; asm_r_s; asm_l_s; asm_l_r; asm_l_m; motor_j;
   mech_obs_q; mech_obs_r; pmsm_flux_obs_c_d; pmsm_flux_obs_c_q; pmsm_flux_obs_r_speed; hall_offset;
   hall_r_edge; hall_r_sector; asm_obs_g_i; asm_obs_g_flux; asm_flux_kp; asm_flux_ki; asm_flux_i_d_min;
   asm_flux_i_d_max; fw_v_max; fw_ki; fw_i_d_min; current_kp_d; current_ki_d; current_kp_q; current_ki_q;
   current_v_max; svm_duty_min; svm_duty_max; dtc_dead_time; dtc_f_pwm; dtc_i_threshold; hfi_v_inject;
   hfi_error_gain; excitation_l_m; excitation_kp; excitation_ki; excitation_i_f_min; excitation_i_f_max;
   excitation_obs_tau; excitation_obs_l_m; speed_kp; speed_ki; speed_accel_limit; pos_kp_pos; pos_kp_speed;
   pos_ki_speed; pos_speed_limit; pos_accel_limit; pos_position_tolerance; pos_speed_tolerance;
   pos_homing_speed; pos_homing_current; adc_offset_a; adc_offset_b; adc_offset_c; adc_gain_c; adc_gain_a;
   adc_gain_b; adc_gain_vdc; telemetry_rate; command_timeout; dc_link_regen_derate_start; dc_link_trip;
   cart_timeout; cart_status_rate; cart_torque_ramp; cart_limp_home_torque; cart_standstill_speed;
   cart_battery_share].

Definition IsFiniteEbike (s : NvmSettings) : bool := forallb (fun f => is_finite (fl f s)) ebike_floats.
Definition IsFinite (s : NvmSettings) : bool :=
  forallb (fun f => is_finite (fl f s)) base_floats && IsFiniteEbike s.

Definition kPwmFrequencies : list float := map f_of_Z [16000; 20000; 24000; 28000; 32000].
Definition IsValidEnumValues (s : NvmSettings) : bool :=
  let kValidMotorType := (num s motor_type =? 0) || (num s motor_type =? 1) || (num s motor_type =? 2) in
  let kValidControlMode := (num s control_mode =? 0) || (num s control_mode =? 1) || (num s control_mode =? 2) in
  let kValidPwmFrequency := existsb (fun x => f_eqb x (fl pwm_frequency s)) kPwmFrequencies in
  kValidMotorType && kValidControlMode && kValidPwmFrequency && (num s excitation_mode <=? 1) &&
  (num s hall_enable <=? 1) && (num s cart_wheel <=? 3) && (num s cart_reversed <=? 1).

Definition IsValidProfile (profile : SettingsProfile) : bool :=
  let limits := capabilities profile in
  IsFinite (factory_settings profile) && is_finite (max_phase_current limits) &&
  is_finite (max_motor_current limits) && is_finite (max_battery_drive_current limits) &&
  is_finite (max_battery_charge_current limits) && (f_zero <. max_phase_current limits) &&
  (f_zero <. max_motor_current limits) && (max_motor_current limits <=. max_phase_current limits) &&
  (f_zero <. max_battery_drive_current limits) && (f_zero <=. max_battery_charge_current limits) &&
  is_finite (max_dc_link_voltage limits) && (f_zero <. max_dc_link_voltage limits).

Definition kMaxSubjectId : Z := 8191.
Definition kMaxTelemetryRate : float := f_of_Z 1000.
Definition kMaxCommandTimeout : float := f_of_Z 10.
Definition kMaxEbikeRatio : float := f_of_Z 20.
Definition kMinEbikePulses : Z := 2.
Definition kMaxEbikePulses : Z := 64.
Definition kMinWheelCircumference : float := f_half.
Definition kMaxWheelCircumference : float := f_of_Z 4.
Definition kMaxBatteryCells : Z := 30.

(** HasDuplicatePort(): two equal port-IDs that are set. *)
Fixpoint HasDuplicatePort (port_ids : list Z) : bool :=
  match port_ids with
  | [] => false
  | p :: rest => existsb (fun q => negb (p =? kUnsetPortId) && (p =? q)) rest || HasDuplicatePort rest
  end.

Definition kReadiness (s : NvmSettings) : Z :=
  if (num s node_id =? 0) && (num s sub_readiness_id =? kReadinessFollowsNodeId) then kUnsetPortId
  else EffectiveReadinessId (num s sub_readiness_id) (num s node_id).
Definition kSubjects (s : NvmSettings) : list Z :=
  kReadiness s :: map (num s) [sub_current_setpoint_id; sub_torque_setpoint_id; sub_speed_setpoint_id;
    sub_position_setpoint_id; sub_servo_setpoint_id; pub_telemetry_id; sub_wheel_command_id;
    sub_pedal_state_id; sub_battery_status_id; pub_drive_status_id; pub_commissioning_id; pub_homing_state_id].
Definition kServices (s : NvmSettings) : list Z :=
  map (num s) [srv_cymon_variables_id; srv_cymon_buffer_info_id; srv_cymon_setup_id; srv_cymon_arm_id;
    srv_cymon_read_id].
Definition HasPortIdCollision (s : NvmSettings) : bool :=
  let kOnSubject port_id := negb (port_id =? kUnsetPortId) && existsb (Z.eqb port_id) (kSubjects s) in
  HasDuplicatePort (kSubjects s) || HasDuplicatePort (kServices s) ||
  kOnSubject (num s pub_cymon_trigger_id) || kOnSubject (num s sub_cymon_trigger_id).

Definition kIsRatio (x : float) : bool := (f_zero <=. x) && (x <=. f_one).
Definition kIsSubjectId (port_id : Z) : bool := (port_id <=? kMaxSubjectId) || (port_id =? kUnsetPortId).
Definition kIsGain (x : float) : bool := (f_zero <=. x) && (x <=. kMaxEbikeRatio).
Definition kIsServiceId (port_id : Z) : bool := (port_id <=? kMaxServiceId) || (port_id =? kUnsetPortId).

(** Validate(), its conditions in the order of the code. *)
Definition Validate (s : NvmSettings) (limits : HardwareCapabilities) : SettingsStatus :=
  let v f := fl f s in
  let n f := num s f in
  if negb (IsFinite s) || negb (IsValidEnumValues s) || (127 <? n node_id) || (n pole_pairs =? 0)
  then kInvalidSettings
  else if (v motor_i_max <. f_zero) || (max_motor_current limits <. v motor_i_max) ||
     (v battery_drive_current_max <. f_zero) ||
     (max_battery_drive_current limits <. v battery_drive_current_max) ||
     (v battery_charge_current_max <. f_zero) ||
     (max_battery_charge_current limits <. v battery_charge_current_max) ||
     (f_zero <. v motor_omega_min) || (v motor_omega_max <. f_zero) ||
     (v dc_link_regen_derate_start <=. f_zero) || (v dc_link_trip <=. v dc_link_regen_derate_start) ||
     (max_dc_link_voltage limits <. v dc_link_trip)
  then kOutOfRange
  else if (v stator_r <=. f_zero) || (v stator_l <=. f_zero) || (v flux_pm <. f_zero) || (v l_d <=. f_zero) ||
     (v l_q <=. f_zero) || (v asm_r_r <=. f_zero) || (v asm_r_s <=. f_zero) || (v asm_l_s <=. f_zero) ||
     (v asm_l_r <=. f_zero) || (v asm_l_m <=. f_zero) || (v motor_j <=. f_zero) ||
     (v asm_flux_i_d_min <. f_zero) || (v asm_flux_i_d_max <. v asm_flux_i_d_min) ||
     (v excitation_i_f_min <. f_zero) || (v excitation_i_f_max <. v excitation_i_f_min) ||
     (v dtc_dead_time <. f_zero) || (v dtc_f_pwm <=. f_zero) || (v excitation_obs_tau <=. f_zero) ||
     (v pos_position_tolerance <. f_zero) || (v pos_speed_tolerance <. f_zero) ||
     (v pos_homing_current <. f_zero)
  then kOutOfRange
  else if (v mech_obs_r <=. f_zero) || (v pmsm_flux_obs_r_speed <. f_zero) || (v hall_r_edge <=. f_zero) ||
     (v hall_r_sector <=. f_zero) || (v speed_kp <. f_zero) || (v speed_ki <. f_zero) ||
     (v speed_accel_limit <. f_zero)
  then kOutOfRange
  else if (v fw_v_max <. f_zero) || negb (kIsRatio (v current_v_max)) || negb (kIsRatio (v svm_duty_min)) ||
     negb (kIsRatio (v svm_duty_max)) || (v svm_duty_max <. v svm_duty_min) || (v adc_gain_a <=. f_zero) ||
     (v adc_gain_b <=. f_zero) || (v adc_gain_c <=. f_zero) || (v adc_gain_vdc <=. f_zero)
  then kOutOfRange
  else if (negb (kIsSubjectId (n sub_readiness_id)) && negb (n sub_readiness_id =? kReadinessFollowsNodeId)) ||
     negb (kIsSubjectId (n sub_current_setpoint_id)) || negb (kIsSubjectId (n sub_torque_setpoint_id)) ||
     negb (kIsSubjectId (n sub_speed_setpoint_id)) || negb (kIsSubjectId (n sub_position_setpoint_id)) ||
     negb (kIsSubjectId (n sub_servo_setpoint_id)) || negb (kIsSubjectId (n pub_telemetry_id)) ||
     (v telemetry_rate <. f_zero) || (kMaxTelemetryRate <. v telemetry_rate) ||
     (v command_timeout <=. f_zero) || (kMaxCommandTimeout <. v command_timeout)
  then kOutOfRange
  else if negb (kIsSubjectId (n sub_wheel_command_id)) || negb (kIsSubjectId (n sub_pedal_state_id)) ||
     negb (kIsSubjectId (n sub_battery_status_id)) || negb (kIsSubjectId (n pub_drive_status_id)) ||
     negb (kIsSubjectId (n pub_commissioning_id)) || negb (kIsSubjectId (n pub_homing_state_id)) ||
     (v cart_timeout <=. f_zero) || (v command_timeout <. v cart_timeout) || (v cart_status_rate <. f_zero) ||
     (kMaxTelemetryRate <. v cart_status_rate) || (v cart_torque_ramp <=. f_zero) ||
     (v cart_limp_home_torque <. f_zero) || (v cart_standstill_speed <. f_zero) ||
     negb (kIsRatio (v cart_battery_share))
  then kOutOfRange
  else if (n ebike_pulses_per_rev <? kMinEbikePulses) || (kMaxEbikePulses <? n ebike_pulses_per_rev) ||
     (v ebike_wheel_circumference <. kMinWheelCircumference) ||
     (kMaxWheelCircumference <. v ebike_wheel_circumference) || (v ebike_gear_ratio <=. f_zero) ||
     (f_mul kMaxEbikeRatio (f_of_Z 5) <. v ebike_gear_ratio) || (n ebike_battery_cells <? 1) ||
     (kMaxBatteryCells <? n ebike_battery_cells) || (n ebike_nominal_voltage =? 0) ||
     negb (kIsGain (v ebike_gain_1)) || negb (kIsGain (v ebike_gain_2)) || negb (kIsGain (v ebike_gain_3)) ||
     negb (kIsGain (v ebike_gain_4)) || negb (kIsGain (v ebike_gain_5)) || negb (kIsGain (v ebike_max_ratio)) ||
     negb (kIsGain (v ebike_torque_ratio)) || (v ebike_power_scale <=. f_zero) ||
     (v ebike_torque_deadband <. f_zero) || (v ebike_min_cadence <. f_zero) || (v ebike_speed_taper <=. f_zero) ||
     (v ebike_rise_time <=. f_zero) || (v ebike_fall_time <=. f_zero) || (v ebike_engage_hold <. f_zero) ||
     (v ebike_rearm_time <. f_zero) || (v ebike_display_timeout <=. f_zero)
  then kOutOfRange
  else if negb (kIsServiceId (n srv_cymon_variables_id)) || negb (kIsServiceId (n srv_cymon_buffer_info_id)) ||
     negb (kIsServiceId (n srv_cymon_setup_id)) || negb (kIsServiceId (n srv_cymon_arm_id)) ||
     negb (kIsServiceId (n srv_cymon_read_id)) || negb (kIsSubjectId (n pub_cymon_trigger_id)) ||
     negb (kIsSubjectId (n sub_cymon_trigger_id))
  then kOutOfRange
  else if HasPortIdCollision s then kInvalidSettings
  else kSuccess.

(** ** Storage and save gate (settings_storage.hpp) *)
Inductive SettingsStorageStatus := storage_kSuccess | storage_kNotFound | storage_kUnavailable | storage_kIoError.
#[export] Instance SettingsStorageStatus_eq_dec : EqDecision SettingsStorageStatus.
Proof. solve_decision. Defined.
Definition storage_ok (st : SettingsStorageStatus) : bool :=
  match st with storage_kSuccess | storage_kNotFound => true | _ => false end.

(** LoadAll() with the entries it visits, Write() and Erase(). *)
Class StorageOps (St : Type) := {
  LoadAll : St -> SettingsStorageStatus * list (string * list Z);
  Write : string -> list Z -> St -> SettingsStorageStatus * St;
  Erase : string -> St -> SettingsStorageStatus * St }.
Class GateOps (G : Type) := { TryBegin : G -> bool * G; End_ : G -> G }.

(** What the storage documents: [contents] are the stored entries, for values
    that fit a register. *)
Class StorageLaws (St : Type) `{!StorageOps St} := {
  contents : St -> gmap string (list Z);
  load_entries st : storage_ok (LoadAll st).1 = true ->
    NoDup (LoadAll st).2.*1 /\ forall k v, (k, v) ∈ (LoadAll st).2 <-> contents st !! k = Some v;
  load_bytes st k v : (k, v) ∈ (LoadAll st).2 -> Forall (in_u 8) v;
  write_stored k v st : Forall (in_u 8) v -> Z.of_nat (length v) <= kMaxRegisterValueSize -> storage_ok (Write k v st).1 = true ->
    contents (Write k v st).2 = <[k := v]> (contents st);
  erase_stored k st : storage_ok (Erase k st).1 = true -> contents (Erase k st).2 = delete k (contents st) }.

Definition ToSettingsStatus (status : SettingsStorageStatus) : SettingsStatus :=
  match status with
  | storage_kSuccess | storage_kNotFound => kSuccess
  | storage_kUnavailable => kStorageUnavailable
  | storage_kIoError => kStorageError
  end.

(** ** The store *)
Record SettingsStore (St G : Type) := mkSettingsStore {
  profile_ : SettingsProfile;
  storage_ : St;
  save_gate_ : G;
  settings_ : NvmSettings;
  stored_ : NvmSettings;
  erase_defaults_ : bool }.
Arguments mkSettingsStore {St G}.
Arguments profile_ {St G}.
Arguments storage_ {St G}.
Arguments save_gate_ {St G}.
Arguments settings_ {St G}.
Arguments stored_ {St G}.
Arguments erase_defaults_ {St G}.
#[export] Instance eta_SettingsStore St G : Eta (SettingsStore St G) := fun s =>
  mkSettingsStore (profile_ s) (storage_ s) (save_gate_ s) (settings_ s) (stored_ s) (erase_defaults_ s).

Section Operations.
Context {St G : Type} `{!StorageOps St} `{!GateOps G}.
Implicit Type s : SettingsStore St G.

(** The constructor. *)
Definition SettingsStore_init (profile : SettingsProfile) (storage : St) (save_gate : G) : SettingsStore St G :=
  mkSettingsStore profile storage save_gate (factory_settings profile) (factory_settings profile) false.

(** The visitor of Load(): an entry is decoded into the register of its key. *)
Definition load_register (kv : string * list Z) (acc : NvmSettings * nat * bool) (entry : RegisterEntry)
    : NvmSettings * nat * bool :=
  let '(loaded, loaded_count, undecodable) := acc in
  if negb (String.eqb (entry_name entry) kv.1) then acc
  else match decode_reg (entry_field entry) kv.2 loaded with
       | Some loaded' => (loaded', Datatypes.S loaded_count, undecodable)
       | None => (loaded, Datatypes.S loaded_count, true)
       end.
Definition load_entry (acc : NvmSettings * nat * bool) (kv : string * list Z) : NvmSettings * nat * bool :=
  foldl (load_register kv) acc registers.

Definition Load s : SettingsStatus * SettingsStore St G :=
  if negb (IsValidProfile (profile_ s)) then (kInvalidSettings, s)
  else
    let factory := factory_settings (profile_ s) in
    let s := s.{settings_ := factory}.{stored_ := factory}.{erase_defaults_ := false} in
    let '(kStorageStatus, entries) := LoadAll (storage_ s) in
    let '(loaded, loaded_count, undecodable) := foldl load_entry (factory, 0%nat, false) entries in
    if negb (storage_ok kStorageStatus) then (ToSettingsStatus kStorageStatus, s)
    else
      let s := s.{stored_ := loaded}.{erase_defaults_ := undecodable} in
      let kValidation := if undecodable then kInvalidImage else Validate loaded (capabilities (profile_ s)) in
      if negb (status_eqb kValidation kSuccess) then (kValidation, s)
      else (if (loaded_count =? 0)%nat then kFactoryDefaults else kSuccess, s.{settings_ := loaded}).

Definition Commit (candidate : NvmSettings) s : SettingsStatus * SettingsStore St G :=
  let kValidation := Validate candidate (capabilities (profile_ s)) in
  if negb (status_eqb kValidation kSuccess) then (kValidation, s)
  else (kSuccess, s.{settings_ := candidate}).

(** The visitor of SaveChanged(): the result so far, whether the gate is held,
    and the store. *)
Definition save_register (acc : SettingsStatus * bool * SettingsStore St G) (entry : RegisterEntry)
    : SettingsStatus * bool * SettingsStore St G :=
  let '(result, saving, s) := acc in
  let r := entry_field entry in
  let key := entry_name entry in
  if negb (status_eqb result kSuccess) then acc
  else
    let kAtFactory := SameEncoding r (settings_ s) (factory_settings (profile_ s)) in
    let kChanged := negb (SameEncoding r (settings_ s) (stored_ s)) in
    if negb kChanged && negb (erase_defaults_ s && kAtFactory) then acc
    else
      let '(begun, s) := if saving then (true, s)
                         else let '(b, g) := TryBegin (save_gate_ s) in (b, s.{save_gate_ := g}) in
      if negb begun then (kPersistBlocked, false, s)
      else
        let '(status, st) := if kAtFactory then Erase key (storage_ s)
                             else Write key (encode_reg (settings_ s) r) (storage_ s) in
        let s := s.{storage_ := st} in
        let result := ToSettingsStatus status in
        (result, true, if status_eqb result kSuccess then s.{stored_ := copy_reg r (settings_ s) (stored_ s)} else s).

Definition SaveChanged s : SettingsStatus * SettingsStore St G :=
  let '(result, saving, s) := foldl save_register (kSuccess, false, s) registers in
  let s := if saving then s.{save_gate_ := End_ (save_gate_ s)} else s in
  let s := if status_eqb result kSuccess then s.{erase_defaults_ := false} else s in
  (result, s).

Definition CountUnsaved s : nat :=
  foldl (fun count entry => (count + if SameEncoding (entry_field entry) (settings_ s) (stored_ s) then 0 else 1)%nat)
    0%nat registers.

(** ** SettingsOperations *)
Definition Update (operation : NvmSettings -> NvmSettings) s : SettingsStatus * SettingsStore St G :=
  Commit (operation (settings_ s)) s.
Definition SetNodeId (id : Z) s := Update (set_num node_id id) s.
Definition SetMotorCurrentLimit (current : float) s := Update (set_fl motor_i_max current) s.
Definition SetNodeName (nm : list Z) s := Update (fun c => c.{identity := SetName nm (identity c)}) s.
Definition store_calibration (cal : AdcCalibration) (c : NvmSettings) : NvmSettings :=
  set_fl adc_gain_vdc (gain_vdc cal) (set_fl adc_gain_c (gain_c cal) (set_fl adc_gain_b (gain_b cal)
    (set_fl adc_gain_a (gain_a cal) (set_fl adc_offset_c (offset_c cal) (set_fl adc_offset_b (offset_b cal)
      (set_fl adc_offset_a (offset_a cal) c)))))).
Definition ApplyAdcCalibration (cal : AdcCalibration) s := Update (store_calibration cal) s.
Definition GetHardwareCapabilities s : HardwareCapabilities := capabilities (profile_ s).
Definition ResetToFactoryDefaults s : SettingsStatus * SettingsStore St G :=
  Commit (factory_settings (profile_ s)) s.
Definition SaveToFlash s : SettingsStatus * SettingsStore St G := SaveChanged s.
Definition UnsavedCount s : nat := CountUnsaved s.
End Operations.

(** ** Lemmas: the register table *)
Lemma registers_names_NoDup : NoDup (map entry_name registers).
Proof. apply (bool_decide_unpack _). vm_compute. exact I. Qed.
Definition reg_field_index (r : RegField) : nat := match r with reg_num f => field_index f | reg_name => 131%nat end.
Lemma registers_fields_NoDup : NoDup (map entry_field registers).
Proof.
  apply (NoDup_fmap_1 reg_field_index). apply (bool_decide_unpack _). vm_compute. exact I.
Qed.
Lemma registers_complete r : exists e, e ∈ registers /\ entry_field e = r.
Proof.
  assert (existsb (fun e => bool_decide (entry_field e = r)) registers = true) as H.
  { destruct r as [f|]; [revert f; apply forall_fields; vm_compute; reflexivity|vm_compute; reflexivity]. }
  apply existsb_exists in H as (e & He & Hr). exists e. split; [by apply list_elem_of_In|by apply bool_decide_eq_true in Hr].
Qed.

Lemma registers_inj e e' : e ∈ registers -> e' ∈ registers ->
  entry_name e = entry_name e' \/ entry_field e = entry_field e' -> e = e'.
Proof.
  intros [i Hi]%list_elem_of_lookup [j Hj]%list_elem_of_lookup H.
  enough (i = j) as -> by congruence. destruct H as [H|H].
  - eapply (NoDup_lookup _ i j (entry_name e)); [apply registers_names_NoDup|..]; rewrite list_lookup_fmap; [by rewrite Hi|by rewrite Hj, H].
  - eapply (NoDup_lookup _ i j (entry_field e)); [apply registers_fields_NoDup|..]; rewrite list_lookup_fmap; [by rewrite Hi|by rewrite Hj, H].
Qed.

(** ** Lemmas: validation *)
Lemma forallb_ext {A} (f g : A -> bool) l : (forall x, f x = g x) -> forallb f l = forallb g l.
Proof. intros H. induction l as [|x l IH]; [done|]. cbn. by rewrite H, IH. Qed.

Lemma Validate_ext s t limits : (forall f, num s f = num t f) -> Validate s limits = Validate t limits.
Proof.
  intros H. assert (forall f, fl f s = fl f t) as F by (intros; unfold fl; by rewrite H).
  assert (IsFinite s = IsFinite t) as E1.
  { unfold IsFinite, IsFiniteEbike. f_equal; apply forallb_ext; intros; by rewrite F. }
  assert (IsValidEnumValues s = IsValidEnumValues t) as E2 by (unfold IsValidEnumValues; by rewrite !H, F).
  assert (HasPortIdCollision s = HasPortIdCollision t) as E3.
  { unfold HasPortIdCollision, kSubjects, kServices, kReadiness. cbn [map]. by rewrite !H. }
  unfold Validate. rewrite E1, E2, E3, !H, !F. reflexivity.
Qed.

(** The table is not unfolded from here on. *)
#[local] Strategy opaque [registers Validate].

(** ** Lemmas: what the storage holds *)
Lemma decode_reg_indep r b s t u :
  decode_reg r b s = Some u -> exists u', decode_reg r b t = Some u' /\ encode_reg u' r = encode_reg u r.
Proof.
  destruct r as [f|]; cbn [decode_reg encode_reg].
  - destruct (DecodeRegisterValue _ _) as [v|]; cbn [option_map]; [|done]. intros [= <-].
    eexists. split; [done|]. by rewrite !num_set_eq.
  - destruct (DecodeName _) as [n|]; cbn [option_map]; [|done]. intros [= <-]. eexists. split; done.
Qed.

Lemma decode_reg_None_indep r b s t : decode_reg r b s = None -> decode_reg r b t = None.
Proof.
  intros H. destruct (decode_reg r b t) as [u|] eqn:E; [|done].
  destruct (decode_reg_indep r b t s u E) as (u' & H' & _). congruence.
Qed.

Lemma array_get_byte l i : Forall (in_u 8) l -> in_u 8 (array_get 0 l i).
Proof.
  intros H. unfold array_get. destruct (l !! Z.to_nat i) as [x|] eqn:E; cbn; [|unfold in_u; lia].
  by eapply Forall_lookup_1.
Qed.

Lemma decode_reg_ok r b s u :
  settings_ok s -> Forall (in_u 8) b -> decode_reg r b s = Some u -> settings_ok u.
Proof.
  intros [Hn Hl] Hb. destruct r as [f|]; cbn [decode_reg].
  - destruct (DecodeRegisterValue _ _) as [v|] eqn:E; cbn [option_map]; [|done]. intros [= <-].
    split; [|done]. intros g. destruct (decide (f = g)) as [<-|N]; [|by rewrite num_set_ne]. rewrite num_set_eq.
    unfold field_width. unfold DecodeRegisterValue in E.
    destruct (field_type f); case_match; simplify_eq; try (by apply array_get_byte); try (by apply wrap_in_u);
    unfold GetFloat; change (seqZ 0 4) with [0; 1; 2; 3]; cbn [foldl];
      repeat apply in_u_lor; try lia; try (by apply wrap_in_u); unfold in_u; lia.
  - destruct (DecodeName b) as [n|] eqn:E; cbn [option_map]; [|done]. intros [= <-]. split; [done|]. cbn.
    unfold DecodeName in E. case_match; simplify_eq. bool_prop. unfold kMaxRegisterValueSize, kNodeNameMaxLen in *.
    rewrite length_app, length_replicate, length_take. split; [clear - H H1; lia|]. apply Forall_app. split; [by apply Forall_take|].
    apply Forall_replicate. unfold in_u; lia.
Qed.

Section Storage.
Context {St G : Type} `{!StorageOps St} `{!StorageLaws St} `{!GateOps G}.
Implicit Types s t : SettingsStore St G.

(** The register value a load of the storage would give. *)
Definition image (s : SettingsStore St G) (e : RegisterEntry) : option (list Z) :=
  let factory := factory_settings (profile_ s) in
  match contents (storage_ s) !! entry_name e with
  | None => Some (encode_reg factory (entry_field e))
  | Some b => option_map (fun u => encode_reg u (entry_field e)) (decode_reg (entry_field e) b factory)
  end.
Definition synced (s : SettingsStore St G) (e : RegisterEntry) : Prop :=
  image s e = Some (encode_reg (stored_ s) (entry_field e)).
(** What the store knows of the storage between its operations. *)
Definition known (s : SettingsStore St G) (e : RegisterEntry) : Prop :=
  synced s e \/ erase_defaults_ s = true /\
    encode_reg (stored_ s) (entry_field e) = encode_reg (factory_settings (profile_ s)) (entry_field e).

(** What a save leaves alone. *)
Record save_frame (s t : SettingsStore St G) : Prop := mkSaveFrame {
  sf_profile : profile_ t = profile_ s;
  sf_settings : settings_ t = settings_ s;
  sf_erase : erase_defaults_ t = erase_defaults_ s }.
#[export] Instance save_frame_preorder : PreOrder save_frame.
Proof. split; [done|]. intros a b c [] []. split; congruence. Qed.

Definition saved (s : SettingsStore St G) (e : RegisterEntry) : Prop :=
  encode_reg (stored_ s) (entry_field e) = encode_reg (settings_ s) (entry_field e).

Lemma save_register_fail e result saving s :
  result <> kSuccess -> save_register (result, saving, s) e = (result, saving, s).
Proof. intros H. unfold save_register, status_eqb. by rewrite bool_decide_eq_false_2. Qed.

Lemma save_fold_fail l result saving s :
  result <> kSuccess -> foldl save_register (result, saving, s) l = (result, saving, s).
Proof.
  intros H. induction l as [|e l IH]; [done|]. cbn [foldl]. by rewrite save_register_fail.
Qed.

(** The storage of the register [e] replaced by [m]: what that means for the
    other registers. *)
Lemma store_register e s t m :
  e ∈ registers -> save_frame s t ->
  contents (storage_ t) = m ->
  (forall k, k <> entry_name e -> m !! k = contents (storage_ s) !! k) ->
  (forall r', r' <> entry_field e -> encode_reg (stored_ t) r' = encode_reg (stored_ s) r') ->
  forall e', e' ∈ registers -> e' <> e ->
    (synced s e' -> synced t e') /\ (known s e' -> known t e') /\ (saved s e' -> saved t e').
Proof.
  intros He [F1 F2 F3] Hm Hother Hst e' He' N.
  assert (entry_name e' <> entry_name e) as N1 by (intros E; apply N; by apply registers_inj; auto).
  assert (entry_field e' <> entry_field e) as N2 by (intros E; apply N; by apply registers_inj; auto).
  assert (synced s e' -> synced t e') as Hs.
  { unfold synced, image. rewrite F1, Hm, (Hother _ N1), (Hst _ N2). done. }
  split; [exact Hs|]. split.
  - unfold known. rewrite F1, F3, (Hst _ N2). tauto.
  - unfold saved. by rewrite F2, (Hst _ N2).
Qed.

(** The write or erase of one register that goes well. *)
Lemma persist_register e s status st :
  e ∈ registers -> settings_ok (settings_ s) ->
  (if SameEncoding (entry_field e) (settings_ s) (factory_settings (profile_ s))
   then Erase (entry_name e) (storage_ s)
   else Write (entry_name e) (encode_reg (settings_ s) (entry_field e)) (storage_ s)) = (status, st) ->
  ToSettingsStatus status = kSuccess ->
  let t := s.{storage_ := st}.{stored_ := copy_reg (entry_field e) (settings_ s) (stored_ s)} in
  synced t e /\ saved t e /\
  forall e', e' ∈ registers -> e' <> e ->
    (synced s e' -> synced t e') /\ (known s e' -> known t e') /\ (saved s e' -> saved t e').
Proof.
  intros He Hok H Hst t. assert (storage_ok status = true) as Hs by (by destruct status).
  assert (forall r', encode_reg (stored_ t) r' =
    if decide (r' = entry_field e) then encode_reg (settings_ s) (entry_field e) else encode_reg (stored_ s) r') as Hcopy.
  { intros r'. apply encode_copy_reg. }
  assert (saved t e) as Hsaved by (unfold saved; rewrite Hcopy; by rewrite decide_True).
  destruct (SameEncoding _ _ _) eqn:AF.
  - apply bool_decide_eq_true in AF. pose proof (erase_stored (entry_name e) (storage_ s)) as L. rewrite H in L.
    specialize (L Hs). cbn [snd] in L. split; [|split; [exact Hsaved|]].
    + unfold synced. rewrite Hsaved. unfold image. change (storage_ t) with st. rewrite L, lookup_delete_eq.
      f_equal. exact (eq_sym AF).
    + apply (store_register e s t (delete (entry_name e) (contents (storage_ s)))); [done|done|done| |].
      * intros k Hk. by rewrite lookup_delete_ne.
      * intros r' Hr. rewrite Hcopy. by rewrite decide_False.
  - pose proof (write_stored (entry_name e) (encode_reg (settings_ s) (entry_field e)) (storage_ s)) as L.
    rewrite H in L. specialize (L (encode_reg_bytes _ _ Hok) (encode_reg_length _ _) Hs). cbn [snd] in L. split; [|split; [exact Hsaved|]].
    + unfold synced. rewrite Hsaved. unfold image. change (storage_ t) with st. rewrite L, lookup_insert_eq.
      change (settings_ t) with (settings_ s).
      destruct (decode_reg_encoded (entry_field e) (settings_ s) (factory_settings (profile_ t)) Hok) as [u Hu].
      rewrite Hu. cbn [option_map]. f_equal. by eapply encode_decode_reg.
    + apply (store_register e s t (<[entry_name e := encode_reg (settings_ s) (entry_field e)]> (contents (storage_ s))));
        [done|done|done| |].
      * intros k Hk. by rewrite lookup_insert_ne.
      * intros r' Hr. rewrite Hcopy. by rewrite decide_False.
Qed.

(** One register of a save that goes well. *)
Lemma save_register_ok e saving s saving' s' :
  e ∈ registers -> settings_ok (settings_ s) -> known s e ->
  save_register (kSuccess, saving, s) e = (kSuccess, saving', s') ->
  save_frame s s' /\ synced s' e /\ saved s' e /\
  forall e', e' ∈ registers -> e' <> e ->
    (synced s e' -> synced s' e') /\ (known s e' -> known s' e') /\ (saved s e' -> saved s' e').
Proof.
  intros He Hok Hk. unfold save_register. cbv zeta. change (negb (status_eqb kSuccess kSuccess)) with false. cbv iota.
  destruct (negb (negb _) && negb _) eqn:Skip.
  - intros [= <- <-]. bool_prop. apply bool_decide_eq_true in H.
    split; [done|]. split; [|by repeat split]. destruct Hk as [Hk|[E1 E2]]; [done|exfalso].
    destruct H0 as [H0|H0]; [congruence|]. apply bool_decide_eq_false in H0. congruence.
  - destruct (if saving then (true, s) else _) as [begun s1] eqn:Hg.
    assert (exists g, s1 = s.{save_gate_ := g}) as [g ->].
    { destruct saving; [injection Hg as _ <-; exists (save_gate_ s); by destruct s|].
      destruct (TryBegin (save_gate_ s)) as [b g]. exists g. by injection Hg as _ <-. }
    destruct begun; cbn [negb]; [|done].
    destruct (if SameEncoding _ _ _ then _ else _) as [status st] eqn:Hw.
    destruct (ToSettingsStatus status) eqn:Hst; try done.
    change (status_eqb kSuccess kSuccess) with true. cbv iota. intros [= <- <-].
    set (s1 := s.{save_gate_ := g}) in *. split; [done|]. exact (persist_register e s1 status st He Hok Hw Hst).
Qed.

Lemma save_fold_ok l saving s saving' s' :
  (forall e, e ∈ l -> e ∈ registers) -> NoDup l -> settings_ok (settings_ s) -> (forall e, e ∈ registers -> known s e) ->
  foldl save_register (kSuccess, saving, s) l = (kSuccess, saving', s') ->
  save_frame s s' /\ (forall e, e ∈ registers -> known s' e) /\ (forall e, e ∈ l -> synced s' e /\ saved s' e) /\
  (forall e, e ∈ registers -> e ∉ l -> (synced s e -> synced s' e) /\ (saved s e -> saved s' e)).
Proof.
  revert saving s. induction l as [|e l IH]; intros saving s Hin Hnd Hok Hk; cbn [foldl].
  - intros [= <- <-]. split; [done|]. split; [done|]. split; [by intros e ?%not_elem_of_nil|done].
  - apply NoDup_cons in Hnd as [Hni Hnd].
    destruct (save_register (kSuccess, saving, s) e) as [[result saving1] s1] eqn:E1. intros H.
    destruct (decide (result = kSuccess)) as [->|N]; [|rewrite save_fold_fail in H by done; congruence].
    assert (e ∈ registers) as He by (apply Hin; left).
    destruct (save_register_ok e saving s saving1 s1 He Hok (Hk e He) E1) as (F1 & Sy & Sa & Ho).
    destruct (IH saving1 s1) as (F2 & K2 & SS2 & O2); [intros; apply Hin; by right|done| | |done|].
    { by rewrite (sf_settings _ _ F1). }
    { intros e' He'. destruct (decide (entry_name e' = entry_name e)) as [E|N].
      - assert (e' = e) as -> by (apply registers_inj; auto). by left.
      - apply Ho; [done|congruence|by apply Hk]. }
    split; [by etrans|]. split; [done|]. split.
    + intros e' [->|Hl]%elem_of_cons; [|by apply SS2]. destruct (O2 e He Hni). auto.
    + intros e' He' Hn. apply not_elem_of_cons in Hn as [N Hn].
      destruct (Ho e' He' N) as (P1 & _ & P3). destruct (O2 e' He' Hn). auto.
Qed.

Lemma registers_NoDup : NoDup registers.
Proof. eapply NoDup_fmap_1, registers_names_NoDup. Qed.

Lemma SaveChanged_ok s s' :
  settings_ok (settings_ s) -> (forall e, e ∈ registers -> known s e) -> SaveChanged s = (kSuccess, s') ->
  profile_ s' = profile_ s /\ settings_ s' = settings_ s /\ erase_defaults_ s' = false /\
  forall e, e ∈ registers -> synced s' e /\ saved s' e.
Proof.
  intros Hok Hk. unfold SaveChanged. destruct (foldl _ _ _) as [[result saving] t] eqn:E. intros H.
  assert (result = kSuccess) as -> by (by injection H).
  destruct (save_fold_ok registers false s saving t) as ([F1 F2 F3] & _ & Hall & _); [done|apply registers_NoDup|done|done|done|].
  change (status_eqb kSuccess kSuccess) with true in H. cbv iota in H. injection H as <-.
  assert (forall e, e ∈ registers -> synced t e /\ saved t e) as Hall' by done.
  destruct saving; repeat split; try done; try apply Hall; done.
Qed.

(** *** Loading *)

(** The register of an entry, and its decoding. *)
Lemma load_entry_spec loaded c und kv :
  load_entry (loaded, c, und) kv =
  match list_find (fun e => entry_name e = kv.1) registers with
  | None => (loaded, c, und)
  | Some (_, e) =>
      match decode_reg (entry_field e) kv.2 loaded with
      | Some loaded' => (loaded', Datatypes.S c, und)
      | None => (loaded, Datatypes.S c, true)
      end
  end.
Proof.
  unfold load_entry. pose proof registers_names_NoDup as ND. revert loaded c und ND.
  generalize registers. intros l. induction l as [|e l IH]; intros loaded c und ND; [done|].
  cbn [map] in ND. apply NoDup_cons in ND as [Hni ND]. cbn [foldl list_find]. unfold load_register at 2. cbv beta iota.
  destruct (decide (entry_name e = kv.1)) as [E|E].
  - rewrite E, String.eqb_refl. cbn [negb].
    assert (forall acc, foldl (load_register kv) acc l = acc) as Hskip.
    { clear IH ND. intros acc. induction l as [|e' l IH]; [done|]. cbn [foldl map] in *. apply not_elem_of_cons in Hni as [N Hni].
      unfold load_register at 2. destruct acc as [[x y] z]. rewrite (proj2 (String.eqb_neq _ _)) by congruence. by apply IH. }
    rewrite Hskip. done.
  - rewrite (proj2 (String.eqb_neq _ _)) by done. cbn [negb]. rewrite IH by done.
    destruct (list_find _ l) as [[i e']|]; done.
Qed.

Lemma registers_find e : e ∈ registers ->
  exists i, list_find (fun e' => entry_name e' = entry_name e) registers = Some (i, e).
Proof.
  intros He. destruct (list_find _ registers) as [[i e']|] eqn:F.
  - apply list_find_Some in F as (Hl & E & _). exists i. f_equal. f_equal.
    apply registers_inj; [by eapply list_elem_of_lookup_2|done|by left].
  - apply list_find_None in F. rewrite Forall_forall in F. by destruct (F e He).
Qed.

(** What a load has made of the entries visited so far. *)
Record loading (factory : NvmSettings) (done : list (string * list Z)) (loaded : NvmSettings) (c : nat)
    (und : bool) : Prop := mkLoading {
  ld_ok : settings_ok loaded;
  ld_entries e : e ∈ registers ->
    match list_to_map (M := gmap string (list Z)) done !! entry_name e with
    | None => encode_reg loaded (entry_field e) = encode_reg factory (entry_field e)
    | Some b =>
        (exists u, decode_reg (entry_field e) b factory = Some u /\
           encode_reg loaded (entry_field e) = encode_reg u (entry_field e)) \/
        und = true /\ encode_reg loaded (entry_field e) = encode_reg factory (entry_field e)
    end;
  ld_undecodable : und = true -> exists e b, e ∈ registers /\
    list_to_map (M := gmap string (list Z)) done !! entry_name e = Some b /\
    decode_reg (entry_field e) b factory = None }.

Lemma loading_entry factory entries loaded c und k b :
  loading factory entries loaded c und -> k ∉ entries.*1 -> Forall (in_u 8) b ->
  let '(loaded', c', und') := load_entry (loaded, c, und) (k, b) in
  loading factory ((k, b) :: entries) loaded' c' und'.
Proof.
  intros [Hok He Hu] Hk Hb. rewrite load_entry_spec. cbn [fst snd].
  assert (list_to_map (M := gmap string (list Z)) entries !! k = None) as Hnone by (by apply not_elem_of_list_to_map_1).
  assert (und = true -> exists e0 b0, e0 ∈ registers /\
    list_to_map (M := gmap string (list Z)) ((k, b) :: entries) !! entry_name e0 = Some b0 /\
    decode_reg (entry_field e0) b0 factory = None) as Hu'.
  { intros U. destruct (Hu U) as (e0 & b0 & H1 & H2 & H3). exists e0, b0. split; [done|]. split; [|done].
    cbn. rewrite lookup_insert_ne; [done|]. intros ->. congruence. }
  destruct (list_find _ registers) as [[i e]|] eqn:F.
  - apply list_find_Some in F as (Hl & <- & _). apply list_elem_of_lookup_2 in Hl.
    pose proof (He e Hl) as Hold. rewrite Hnone in Hold.
    destruct (decode_reg (entry_field e) b loaded) as [u|] eqn:D.
    + split; [by eapply decode_reg_ok| |exact Hu']. intros e' He'. cbn [list_to_map foldr curry].
      destruct (decide (entry_name e' = entry_name e)) as [E|N].
      * assert (e' = e) as -> by (apply registers_inj; auto). cbn. rewrite lookup_insert_eq. left.
        destruct (decode_reg_indep _ _ _ factory _ D) as (u' & H1 & H2). by exists u'.
      * cbn. rewrite lookup_insert_ne by congruence.
        assert (entry_field e <> entry_field e') by (intros E; apply N; by rewrite (registers_inj e e'); auto).
        rewrite (encode_reg_other _ (entry_field e') _ _ _ D) by done. by apply He.
    + split; [done| |].
      2: { intros _. exists e, b. split; [done|]. split; [cbn; by rewrite lookup_insert_eq|]. by eapply decode_reg_None_indep. }
      intros e' He'. cbn.
      destruct (decide (entry_name e' = entry_name e)) as [E|N].
      * assert (e' = e) as -> by (apply registers_inj; auto). rewrite lookup_insert_eq. right. done.
      * rewrite lookup_insert_ne by congruence. specialize (He e' He').
        destruct (list_to_map entries !! entry_name e'); [|done]. destruct He as [?|[? ?]]; [by left|by right].
  - split; [done| |exact Hu']. intros e' He'. cbn. rewrite lookup_insert_ne; [by apply He|].
    apply list_find_None in F. rewrite Forall_forall in F. intros E. by destruct (F e' He').
Qed.

Lemma loading_all factory todo entries loaded c und :
  loading factory entries loaded c und -> NoDup (todo ++ entries).*1 -> Forall (fun kv => Forall (in_u 8) kv.2) todo ->
  let '(loaded', c', und') := foldl load_entry (loaded, c, und) todo in
  loading factory (rev todo ++ entries) loaded' c' und'.
Proof.
  revert entries loaded c und. induction todo as [|[k b] todo IH]; intros entries loaded c und L ND F; cbn [foldl rev app]; [done|].
  cbn in ND. apply NoDup_cons in ND as [Hni ND]. apply Forall_cons in F as [Hb F].
  rewrite fmap_app in Hni, ND. apply not_elem_of_app in Hni as [Hn1 Hn2].
  pose proof (loading_entry factory entries loaded c und k b L Hn2 Hb) as L1.
  destruct (load_entry (loaded, c, und) (k, b)) as [[loaded1 c1] und1].
  specialize (IH ((k, b) :: entries) loaded1 c1 und1 L1). rewrite <- app_assoc. apply IH; [|done].
  rewrite fmap_app. cbn. apply NoDup_app in ND as (N1 & N2 & N3).
  apply NoDup_app. split; [done|]. split; [|by apply NoDup_cons].
  intros x Hx. rewrite not_elem_of_cons. split; [congruence|by apply N2].
Qed.

(** The entries of the storage, loaded over the factory settings. *)
Lemma load_storage factory st loaded c und :
  settings_ok factory -> storage_ok (LoadAll st).1 = true ->
  foldl load_entry (factory, 0%nat, false) (LoadAll st).2 = (loaded, c, und) ->
  settings_ok loaded /\
  (forall e, e ∈ registers ->
    match contents st !! entry_name e with
    | None => encode_reg loaded (entry_field e) = encode_reg factory (entry_field e)
    | Some b =>
        (exists u, decode_reg (entry_field e) b factory = Some u /\
           encode_reg loaded (entry_field e) = encode_reg u (entry_field e)) \/
        und = true /\ encode_reg loaded (entry_field e) = encode_reg factory (entry_field e)
    end) /\
  (und = true -> exists e b, e ∈ registers /\ contents st !! entry_name e = Some b /\
     decode_reg (entry_field e) b factory = None).
Proof.
  intros Hf Hs E. destruct (load_entries st Hs) as [ND Hc].
  pose proof (loading_all factory (LoadAll st).2 [] factory 0 false) as L. rewrite E in L.
  assert (list_to_map (M := gmap string (list Z)) (rev (LoadAll st).2 ++ []) = contents st) as Hmap.
  { rewrite app_nil_r. assert (rev (LoadAll st).2 = reverse (LoadAll st).2) as -> by apply rev_alt.
    apply map_eq. intros k. apply option_eq. intros v. rewrite <- Hc.
    rewrite <- elem_of_list_to_map; [by rewrite elem_of_reverse|]. by rewrite fmap_reverse, reverse_Permutation. }
  destruct L as [Hok He Hu].
  - split; [done| |done]. intros e _. cbn. by rewrite lookup_empty.
  - by rewrite app_nil_r.
  - apply Forall_forall. intros [k v] Hkv. by eapply load_bytes.
  - rewrite Hmap in Hu. split; [done|]. split; [|done]. intros e He'. specialize (He e He'). by rewrite Hmap in He.
Qed.

(** *** The store between its operations *)
Record store_ok (s : SettingsStore St G) : Prop := mkStoreOk {
  so_factory : settings_ok (factory_settings (profile_ s));
  so_settings : settings_ok (settings_ s);
  so_known e : e ∈ registers -> known s e }.

(** The live settings are the factory settings or have passed the validation. *)
Definition live_valid (s : SettingsStore St G) : Prop :=
  settings_ s = factory_settings (profile_ s) \/ Validate (settings_ s) (capabilities (profile_ s)) = kSuccess.

Lemma Commit_cases candidate s :
  (Commit candidate s = (kSuccess, s.{settings_ := candidate}) /\
   Validate candidate (capabilities (profile_ s)) = kSuccess) \/
  (exists st, Commit candidate s = (st, s) /\ st <> kSuccess /\ Validate candidate (capabilities (profile_ s)) = st).
Proof.
  unfold Commit, status_eqb. case_bool_decide as E; cbn [negb]; [left; done|right]. eexists. done.
Qed.

(** What a load whose storage answered leaves behind. *)
Lemma Load_loaded s :
  IsValidProfile (profile_ s) = true -> settings_ok (factory_settings (profile_ s)) ->
  storage_ok (LoadAll (storage_ s)).1 = true ->
  exists loaded und,
    settings_ok loaded /\ profile_ (Load s).2 = profile_ s /\ storage_ (Load s).2 = storage_ s /\
    save_gate_ (Load s).2 = save_gate_ s /\ stored_ (Load s).2 = loaded /\ erase_defaults_ (Load s).2 = und /\
    (forall e, e ∈ registers ->
      match contents (storage_ s) !! entry_name e with
      | None => encode_reg loaded (entry_field e) = encode_reg (factory_settings (profile_ s)) (entry_field e)
      | Some b =>
          (exists u, decode_reg (entry_field e) b (factory_settings (profile_ s)) = Some u /\
             encode_reg loaded (entry_field e) = encode_reg u (entry_field e)) \/
          und = true /\ encode_reg loaded (entry_field e) = encode_reg (factory_settings (profile_ s)) (entry_field e)
      end) /\
    (und = true -> exists e b, e ∈ registers /\ contents (storage_ s) !! entry_name e = Some b /\
       decode_reg (entry_field e) b (factory_settings (profile_ s)) = None) /\
    (if negb und && status_eqb (Validate loaded (capabilities (profile_ s))) kSuccess
     then settings_ (Load s).2 = loaded /\ ((Load s).1 = kSuccess \/ (Load s).1 = kFactoryDefaults)
     else settings_ (Load s).2 = factory_settings (profile_ s) /\
          (Load s).1 = if und then kInvalidImage else Validate loaded (capabilities (profile_ s))).
Proof.
  intros Hv Hf Hs. pose proof (load_storage (factory_settings (profile_ s)) (storage_ s)) as L.
  unfold Load. rewrite Hv. cbn [negb]. cbv zeta. cbn [storage_ profile_ set_field].
  destruct (LoadAll (storage_ s)) as [kst entries]. cbn [fst snd] in *.
  destruct (foldl load_entry _ entries) as [[loaded c] und] eqn:E. destruct (L loaded c und Hf Hs eq_refl) as (Hok & He & Hu).
  rewrite Hs. cbn [negb]. exists loaded, und. unfold status_eqb.
  destruct und; cbn [negb andb].
  - do 8 (split; [done|]). done.
  - case_bool_decide as V; cbn [negb]; (do 8 (split; [done|])); cbn [fst snd]; [|done].
    split; [done|]. destruct (c =? 0)%nat; auto.
Qed.

Lemma Load_store_ok s :
  IsValidProfile (profile_ s) = true -> settings_ok (factory_settings (profile_ s)) ->
  storage_ok (LoadAll (storage_ s)).1 = true -> store_ok (Load s).2 /\ live_valid (Load s).2.
Proof.
  intros Hv Hf Hs. destruct (Load_loaded s Hv Hf Hs) as (loaded & und & Hok & E1 & E2 & E3 & E4 & E5 & He & _ & Hlive).
  split.
  - split; rewrite ?E1; [done| |].
    + destruct (negb und && _) in Hlive; by rewrite (proj1 Hlive).
    + intros e Hin. unfold known, synced, image. rewrite E1, E2, E4, E5. specialize (He e Hin).
      destruct (contents _ !! _) as [b|]; [|left; by rewrite He].
      destruct He as [(u & D & ->)|[-> ->]]; [left; by rewrite D|by right].
  - unfold live_valid. rewrite E1. destruct (negb und && _) eqn:C; [right|by left; rewrite (proj1 Hlive)]. bool_prop.
    apply bool_decide_eq_true in H0. by rewrite (proj1 Hlive).
Qed.

Lemma Commit_store_ok candidate s : settings_ok candidate -> store_ok s -> store_ok (Commit candidate s).2.
Proof.
  intros Hc [Hf Hs Hk]. destruct (Commit_cases candidate s) as [[-> _]|(st & -> & _)]; [|done].
  by split.
Qed.

Lemma Commit_live_valid candidate s : live_valid s -> live_valid (Commit candidate s).2.
Proof.
  intros H. destruct (Commit_cases candidate s) as [[-> V]|(st & -> & _)]; [by right|done].
Qed.

Lemma SaveChanged_store_ok s : store_ok s -> (SaveChanged s).1 = kSuccess -> store_ok (SaveChanged s).2.
Proof.
  intros [Hf Hs Hk] E. destruct (SaveChanged s) as [st t] eqn:Sv. cbn [fst snd] in *. subst st.
  destruct (SaveChanged_ok s t Hs Hk Sv) as (E1 & E2 & E3 & Hall).
  split; rewrite ?E1, ?E2; try done. intros e He. left. by apply Hall.
Qed.

(** *** The save gate *)

(** What a save in progress has done to the store it started from. *)
Definition save_progress (s0 : SettingsStore St G) (acc : SettingsStatus * bool * SettingsStore St G) : Prop :=
  let '(result, saving, s) := acc in
  settings_ s = settings_ s0 /\ profile_ s = profile_ s0 /\
  if saving : bool
  then (TryBegin (save_gate_ s0)).1 = true /\ save_gate_ s = (TryBegin (save_gate_ s0)).2 /\ result <> kPersistBlocked
  else storage_ s = storage_ s0 /\ stored_ s = stored_ s0 /\ erase_defaults_ s = erase_defaults_ s0 /\
       (result = kSuccess /\ save_gate_ s = save_gate_ s0 \/
        result = kPersistBlocked /\ (TryBegin (save_gate_ s0)).1 = false /\
        save_gate_ s = (TryBegin (save_gate_ s0)).2).

Lemma ToSettingsStatus_not_blocked st : ToSettingsStatus st <> kPersistBlocked.
Proof. by destruct st. Qed.

Lemma save_register_progress s0 acc e : save_progress s0 acc -> save_progress s0 (save_register acc e).
Proof.
  destruct acc as [[result saving] s]. intros P. unfold save_register. cbv zeta.
  destruct (negb (status_eqb result kSuccess)) eqn:R; [exact P|]. bool_prop. apply bool_decide_eq_true in R. subst result.
  destruct (negb (negb _) && negb _); [exact P|].
  destruct P as (P1 & P2 & P3).
  destruct (if saving then (true, s) else _) as [begun s1] eqn:Hg.
  assert (settings_ s1 = settings_ s0 /\ profile_ s1 = profile_ s0 /\
    if begun : bool then (TryBegin (save_gate_ s0)).1 = true /\ save_gate_ s1 = (TryBegin (save_gate_ s0)).2
    else storage_ s1 = storage_ s0 /\ stored_ s1 = stored_ s0 /\ erase_defaults_ s1 = erase_defaults_ s0 /\
      (TryBegin (save_gate_ s0)).1 = false /\ save_gate_ s1 = (TryBegin (save_gate_ s0)).2) as (Q1 & Q2 & Q3).
  { destruct saving; [injection Hg as <- <-; tauto|].
    destruct P3 as (E1 & E2 & E3 & [[_ E4]|[? _]]); [|done]. rewrite E4 in Hg.
    destruct (TryBegin (save_gate_ s0)) as [b g]. injection Hg as <- <-. destruct b; cbn; tauto. }
  destruct begun; cbn [negb].
  - destruct (if SameEncoding _ _ _ then _ else _) as [status st].
    pose proof (ToSettingsStatus_not_blocked status). destruct (status_eqb (ToSettingsStatus status) kSuccess); cbn; tauto.
  - cbn. tauto.
Qed.

Lemma save_fold_progress s : save_progress s (foldl save_register (kSuccess, false, s) registers).
Proof.
  apply (foldl_invariant (save_progress s) save_register); [|intros; by apply save_register_progress].
  cbn. tauto.
Qed.

Lemma CountUnsaved_0 s : CountUnsaved s = 0%nat <-> forall e, e ∈ registers -> saved s e.
Proof.
  unfold CountUnsaved.
  assert (forall l c, foldl (fun count entry => (count + if SameEncoding (entry_field entry) (settings_ s) (stored_ s) then 0 else 1)%nat) c l = 0%nat
    <-> c = 0%nat /\ forall e, e ∈ l -> saved s e) as H.
  { intros l. induction l as [|e l IH]; intros c; cbn [foldl].
    - split; [intros ->|tauto]. split; [done|]. by intros e ?%not_elem_of_nil.
    - rewrite IH. unfold saved at 2. unfold SameEncoding.
      setoid_rewrite elem_of_cons. case_bool_decide as B.
      + split; [intros [Hc Hl]; split; [lia|]; intros e' [->|?]; [by symmetry|by apply Hl]|].
        intros [Hc Hl]. split; [lia|]. intros; apply Hl; by right.
      + split; [intros [Hc _]; lia|]. intros [_ Hl]. exfalso. apply B. symmetry. apply Hl. by left. }
  rewrite H. tauto.
Qed.

(** Nothing to save, nothing done. *)
Lemma SaveChanged_idle s :
  erase_defaults_ s = false -> (forall e, e ∈ registers -> saved s e) -> SaveChanged s = (kSuccess, s).
Proof.
  intros He Hall. unfold SaveChanged.
  assert (foldl save_register (kSuccess, false, s) registers = (kSuccess, false, s)) as ->.
  { revert Hall. generalize registers. intros l. induction l as [|e l IH]; intros Hall; [done|]. cbn [foldl].
    assert (save_register (kSuccess, false, s) e = (kSuccess, false, s)) as ->; [|apply IH; intros; apply Hall; by right].
    unfold save_register. change (negb (status_eqb kSuccess kSuccess)) with false. cbv iota zeta.
    rewrite He. cbn [andb negb]. unfold SameEncoding at 1. rewrite bool_decide_eq_true_2; [done|].
    symmetry. apply Hall. by left. }
  change (status_eqb kSuccess kSuccess) with true. cbv iota. rewrite <- He at 1. by destruct s.
Qed.

(** Stored and reloaded settings are equivalent to the live ones. *)
Lemma reload_equiv s loaded und :
  (forall e, e ∈ registers -> synced s e /\ saved s e) ->
  (forall e, e ∈ registers ->
      match contents (storage_ s) !! entry_name e with
      | None => encode_reg loaded (entry_field e) = encode_reg (factory_settings (profile_ s)) (entry_field e)
      | Some b =>
          (exists u, decode_reg (entry_field e) b (factory_settings (profile_ s)) = Some u /\
             encode_reg loaded (entry_field e) = encode_reg u (entry_field e)) \/
          und = true /\ encode_reg loaded (entry_field e) = encode_reg (factory_settings (profile_ s)) (entry_field e)
      end) ->
  und = false -> settings_equiv loaded (settings_ s).
Proof.
  intros Hall He -> r. destruct (registers_complete r) as (e & Hin & <-).
  destruct (Hall e Hin) as [Sy Sa]. rewrite <- Sa. specialize (He e Hin).
  unfold synced, image in Sy. destruct (contents _ !! _) as [b|]; [|congruence].
  destruct He as [(u & D & ->)|[? _]]; [|done]. rewrite D in Sy. by injection Sy.
Qed.

(** ** Reachable stores

    A store that was loaded from an answering storage, after updates by the
    program (which keep the members in their machine words), resets, and saves
    that went through or were refused by the gate. *)
Inductive reachable_store : SettingsStore St G -> Prop :=
| reach_load s : IsValidProfile (profile_ s) = true -> settings_ok (factory_settings (profile_ s)) ->
    storage_ok (LoadAll (storage_ s)).1 = true -> reachable_store (Load s).2
| reach_update s op : reachable_store s -> (forall c, settings_ok c -> settings_ok (op c)) ->
    reachable_store (Update op s).2
| reach_reset s : reachable_store s -> reachable_store (ResetToFactoryDefaults s).2
| reach_save s : reachable_store s -> (SaveToFlash s).1 = kSuccess -> reachable_store (SaveToFlash s).2
| reach_blocked s : reachable_store s -> (TryBegin (save_gate_ s)).1 = false -> reachable_store (SaveToFlash s).2.

Lemma SaveChanged_blocked s :
  (TryBegin (save_gate_ s)).1 = false ->
  settings_ (SaveChanged s).2 = settings_ s /\ profile_ (SaveChanged s).2 = profile_ s /\
  storage_ (SaveChanged s).2 = storage_ s /\ stored_ (SaveChanged s).2 = stored_ s /\
  ((SaveChanged s).1 = kSuccess /\ save_gate_ (SaveChanged s).2 = save_gate_ s \/
   (SaveChanged s).1 = kPersistBlocked /\ erase_defaults_ (SaveChanged s).2 = erase_defaults_ s).
Proof.
  intros Hb. pose proof (save_fold_progress s) as P. unfold SaveChanged.
  destruct (foldl _ _ _) as [[result saving] t]. destruct P as (P1 & P2 & P3).
  destruct saving; [destruct P3 as (P3 & _); congruence|]. destruct P3 as (Q1 & Q2 & Q3 & Q4).
  destruct Q4 as [[-> Q4]|(-> & _ & Q4)].
  - change (status_eqb kSuccess kSuccess) with true. cbv iota. cbn. tauto.
  - change (status_eqb kPersistBlocked kSuccess) with false. cbv iota. cbn. tauto.
Qed.

Lemma SaveToFlash_store_ok s : store_ok s -> (SaveToFlash s).1 = kSuccess -> store_ok (SaveToFlash s).2.
Proof. exact (SaveChanged_store_ok s). Qed.

Lemma reachable_store_ok s : reachable_store s -> store_ok s /\ live_valid s.
Proof.
  induction 1 as [s Hv Hf Hs|s op _ [IH1 IH2] Hop|s _ [IH1 IH2]|s _ [IH1 IH2] Hs|s _ [IH1 IH2] Hb].
  - by apply Load_store_ok.
  - split; [apply Commit_store_ok; [apply Hop, IH1|done]|by apply Commit_live_valid].
  - split; [apply Commit_store_ok; [apply IH1|done]|by apply Commit_live_valid].
  - split; [by apply SaveToFlash_store_ok|].
    change (SaveToFlash s) with (SaveChanged s) in *. destruct (SaveChanged s) as [st t] eqn:E. cbn [fst snd] in *. subst st. destruct (SaveChanged_ok s t) as (E1 & E2 & _); [apply IH1|apply IH1|done|].
    unfold live_valid in *. by rewrite E1, E2.
  - destruct (SaveChanged_blocked s Hb) as (E1 & E2 & E3 & E4 & [[E5 _]|[E5 E6]]).
    + split; [by apply SaveToFlash_store_ok|]. unfold live_valid in *. change (SaveToFlash s) with (SaveChanged s).
      by rewrite E1, E2.
    + change (SaveToFlash s) with (SaveChanged s). split.
      * destruct IH1 as [I1 I2 I3]. split; rewrite ?E1, ?E2; try done.
        intros e He. unfold known, synced, image. rewrite E2, E3, E4, E6. by apply I3.
      * unfold live_valid in *. by rewrite E1, E2.
Qed.

Lemma save_register_saving r s e : (save_register (r, true, s) e).1.2 = true.
Proof.
  unfold save_register. cbv zeta. case_if; [done|]. case_if; [done|]. cbn [negb].
  by destruct (if SameEncoding _ _ _ then _ else _).
Qed.
Lemma save_fold_saving l r s : (foldl save_register (r, true, s) l).1.2 = true.
Proof.
  revert r s. induction l as [|e l IH]; intros r s; [done|]. cbn [foldl].
  pose proof (save_register_saving r s e) as H. destruct (save_register (r, true, s) e) as [[r' b] s'].
  cbn in H. subst b. apply IH.
Qed.

(** A save that succeeded without the gate had nothing to do. *)
Lemma save_register_idle s e t : save_register (kSuccess, false, s) e = (kSuccess, false, t) -> t = s /\ saved s e.
Proof.
  unfold save_register. change (negb (status_eqb kSuccess kSuccess)) with false. cbv iota zeta. case_if.
  - intros [= <-]. split; [done|]. bool_prop. apply bool_decide_eq_true in H. by symmetry.
  - destruct (TryBegin (save_gate_ s)) as [[] g]; cbn [negb]; [|done]. by destruct (if SameEncoding _ _ _ then _ else _).
Qed.
Lemma save_fold_idle l s t :
  foldl save_register (kSuccess, false, s) l = (kSuccess, false, t) -> forall e, e ∈ l -> saved s e.
Proof.
  induction l as [|e l IH]; cbn [foldl]; [by intros _ e ?%not_elem_of_nil|].
  destruct (save_register (kSuccess, false, s) e) as [[r b] u] eqn:E. intros H.
  destruct (decide (r = kSuccess)) as [->|N]; [|rewrite save_fold_fail in H by done; congruence].
  destruct b; [pose proof (save_fold_saving l kSuccess u) as S; by rewrite H in S|].
  destruct (save_register_idle s e u E) as [-> He]. intros e' [->|Hl]%elem_of_cons; [done|by apply IH].
Qed.
End Storage.

End SettingsStore.
