(* ===== verification/SettingsLimits.v ===== *)
(** * Settings: what a validated set of settings guarantees

    The limits of the register descriptions (settings_registers.hpp) and the
    port-IDs, as consequences of Validate() (settings_store.hpp). *)
From Stdlib Require Import ZArith Lia Bool SpecFloat.
From stdpp Require Import base decidable list strings gmap.
From S2P Require Import Prelude Float32 Units SettingsData SettingsCodec SettingsTypes SettingsStore.
Import SettingsData SettingsCodec SettingsTypes SettingsStore.

#[local] Open Scope Z_scope.
#[local] Open Scope unimoc_scope.

Module SettingsLimits.

(** ** Valid settings keep the described limits *)

(** The value of a member as the register protocol shows it. *)
Definition reg_value (s : NvmSettings) (f : Field) : float :=
  match field_type f with T_u8 | T_enum | T_u16 => f_of_Z (num s f) | T_float | T_unit _ => fl f s end.
Definition is_float_field (f : Field) : bool :=
  match field_type f with T_float | T_unit _ => true | _ => false end.
Definition in_limits (s : NvmSettings) (e : RegisterEntry) : Prop :=
  match entry_field e with
  | reg_num f => f_leb (minimum (description e)) (reg_value s f) = true /\
                 f_leb (reg_value s f) (maximum (description e)) = true
  | reg_name => True
  end.

Definition field_eqb (f g : Field) : bool := (field_index f =? field_index g)%nat.
Lemma field_eqb_eq f g : field_eqb f g = true -> f = g.
Proof.
  intros H%Nat.eqb_eq. apply (inj Some). by rewrite <- !field_of_index, H.
Qed.

Definition checked_field (f : Field) : bool :=
  negb (is_float_field f) || field_eqb f pwm_frequency || existsb (field_eqb f) base_floats ||
  existsb (field_eqb f) ebike_floats.
Lemma all_checked f : checked_field f = true.
Proof. revert f. apply forall_fields. vm_compute. reflexivity. Qed.

Lemma float_fields_checked f :
  is_float_field f = true -> f = pwm_frequency \/ In f base_floats \/ In f ebike_floats.
Proof.
  intros H. pose proof (all_checked f) as C. unfold checked_field in C. rewrite H in C. cbn [negb orb] in C.
  rewrite !orb_true_iff in C. destruct C as [[C|C]|C].
  - left. by apply field_eqb_eq.
  - right; left. apply existsb_exists in C as (g & Hg & ->%field_eqb_eq). done.
  - right; right. apply existsb_exists in C as (g & Hg & ->%field_eqb_eq). done.
Qed.

Lemma finite_fields s f :
  IsFinite s = true -> is_float_field f = true -> f <> pwm_frequency -> is_finite (fl f s) = true.
Proof.
  unfold IsFinite, IsFiniteEbike. intros [H1 H2]%andb_true_iff Hf N. rewrite forallb_forall in H1. rewrite forallb_forall in H2.
  destruct (float_fields_checked f Hf) as [?|[H|H]]; [done|by apply H1|by apply H2].
Qed.

Lemma finite_any x : is_finite x = true -> f_leb (f_neg f_inf) x = true /\ f_leb x f_inf = true.
Proof. destruct x as [[]| | |[] m e]; done. Qed.
Lemma not_below x m : is_finite x = true -> is_nan m = false -> f_ltb x m = false -> f_leb m x = true.
Proof. intros Hx Hm H. apply f_ltb_ge; [by apply is_finite_not_nan|done|done]. Qed.
Lemma not_at_most x m : is_finite x = true -> is_nan m = false -> f_leb x m = false -> f_leb m x = true.
Proof. intros Hx Hm H. apply is_finite_not_nan in Hx. float_order. Qed.

Lemma int_in_limits (a b z : Z) :
  0 <= a -> a <= z <= b -> b < 2 ^ 24 ->
  f_leb (f_of_Z a) (f_of_Z z) = true /\ f_leb (f_of_Z z) (f_of_Z b) = true.
Proof. intros Ha Hz Hb. split; apply f_of_Z_le; lia. Qed.

Lemma f_eqb_key x y : f_eqb x y = true -> is_nan x = false /\ is_nan y = false /\ float_key x = float_key y.
Proof.
  intros H. assert (is_nan x = false) as Hx by (by destruct x). assert (is_nan y = false) as Hy by (by destruct x, y).
  split; [done|]. split; [done|]. pose proof (SFcompare_key x y Hx Hy) as K. unfold f_eqb, SFeqb in H.
  destruct (SFcompare x y) as [[]|]; done.
Qed.
Lemma f_eqb_limits x y lo hi :
  f_eqb x y = true -> f_leb lo x = true -> f_leb x hi = true -> f_leb lo y = true /\ f_leb y hi = true.
Proof.
  intros E H1 H2. destruct (f_eqb_key x y E) as (Nx & Ny & K).
  destruct (f_leb_not_nan _ _ H1) as [Nl _], (f_leb_not_nan _ _ H2) as [_ Nh].
  split; apply f_leb_key; try done; rewrite <- K; by apply f_leb_key.
Qed.

(** The steps of the proof that a register keeps its limits. *)
Ltac finite_tac := match goal with H : forall f, is_float_field f = true -> _ |- _ => apply H; [reflexivity|discriminate] end.
Ltac lower_tac :=
  first [eassumption
        | apply finite_any; finite_tac
        | eapply not_below; [finite_tac|reflexivity|eassumption]
        | eapply not_at_most; [finite_tac|reflexivity|eassumption]].
Ltac upper_tac :=
  first [eassumption
        | apply finite_any; finite_tac
        | apply f_ltb_ge; [reflexivity|apply is_finite_not_nan; finite_tac|eassumption]].
(** The checks of Validate(), one hypothesis each. *)
Ltac validated V :=
  unfold Validate in V;
  repeat match type of V with (if ?c then _ else _) = _ => let E := fresh "E" in destruct c eqn:E; [discriminate V|] end;
  clear V.

(** The integer members of valid settings. *)
Lemma valid_enums s limits : Validate s limits = kSuccess ->
  num s node_id <= 127 /\ num s motor_type <= 2 /\ num s pole_pairs <> 0 /\ num s control_mode <= 2 /\
  num s hall_enable <= 1 /\ num s excitation_mode <= 1 /\ num s cart_wheel <= 3 /\ num s cart_reversed <= 1.
Proof.
  intros V. validated V. match goal with H : context [IsValidEnumValues] |- _ => clear - H; rename H into E end.
  bool_prop. match goal with H : IsValidEnumValues s = true |- _ => unfold IsValidEnumValues in H end. bool_prop.
  repeat match goal with H : existsb _ _ = _ |- _ => clear H | H : IsFinite _ = _ |- _ => clear H end.
  repeat match goal with H : _ \/ _ |- _ => destruct H; bool_prop end; lia.
Qed.
Lemma valid_ebike s limits : Validate s limits = kSuccess ->
  2 <= num s ebike_pulses_per_rev <= 64 /\ 1 <= num s ebike_battery_cells <= 30 /\ num s ebike_nominal_voltage <> 0.
Proof.
  intros V. validated V. match goal with H : context [ebike_battery_cells] |- _ => clear - H; rename H into E end.
  bool_prop. unfold kMinEbikePulses, kMaxEbikePulses, kMaxBatteryCells in *.
  repeat match goal with H : f_ltb _ _ = _ |- _ => clear H | H : f_leb _ _ = _ |- _ => clear H
    | H : kIsGain _ = _ |- _ => clear H end. lia.
Qed.

(** The integer registers. *)
Lemma int_registers s limits : settings_ok s -> Validate s limits = kSuccess ->
  Forall (fun e => match entry_field e with reg_num f => if is_float_field f then True else in_limits s e | reg_name => True end) registers.
Proof.
  intros [Hw _] V. destruct (valid_enums _ _ V) as (A1 & A2 & A3 & A4 & A5 & A6 & A7 & A8).
  destruct (valid_ebike _ _ V) as (B1 & B2 & B3). clear V.
  assert (forall f, field_width f = 8 -> 0 <= num s f <= 255) as W8 by (intros f E; specialize (Hw f); rewrite E in Hw; unfold in_u in Hw; lia).
  assert (forall f, field_width f = 16 -> 0 <= num s f <= 65535) as W16 by (intros f E; specialize (Hw f); rewrite E in Hw; unfold in_u in Hw; lia).
  unfold registers. repeat (apply Forall_cons; split; [|]); [..|by apply Forall_nil];
    cbn [entry_field Setting Tunable AfterRestart is_float_field field_type]; try exact I;
    unfold in_limits, reg_value;
    cbn [entry_field description minimum maximum fst snd Setting Tunable AfterRestart Between kPortId field_type];
    change f_zero with (f_of_Z 0);
    match goal with |- context [num s ?f] => first [pose proof (W8 f eq_refl) as W | pose proof (W16 f eq_refl) as W] end;
    apply int_in_limits; lia.
Qed.

(** The float members of valid settings. *)
Lemma valid_pwm_frequency s limits : Validate s limits = kSuccess ->
  exists x, In x kPwmFrequencies /\ f_eqb x (fl pwm_frequency s) = true.
Proof.
  intros V. validated V. bool_prop.
  match goal with H : IsValidEnumValues s = true |- _ => unfold IsValidEnumValues in H; rename H into HE end.
  bool_prop. by apply existsb_exists.
Qed.
Lemma valid_floats_finite s limits f : Validate s limits = kSuccess -> is_float_field f = true -> is_finite (fl f s) = true.
Proof.
  intros V Hf. destruct (decide (f = pwm_frequency)) as [->|N].
  - destruct (valid_pwm_frequency s limits V) as (x & Hx & Hpwm). repeat destruct Hx as [<-|Hx]; try done;
      destruct (fl pwm_frequency s) as [[]|[]| |[] m e]; vm_compute in Hpwm; try done.
  - validated V. bool_prop. by apply finite_fields.
Qed.

(** ** Ports *)
Lemma HasDuplicatePort_false l i j p :
  HasDuplicatePort l = false -> (i < j)%nat -> l !! i = Some p -> l !! j = Some p -> p = kUnsetPortId.
Proof.
  revert i j. induction l as [|q l IH]; intros i j H Hij Hi Hj; [done|]. cbn in H. bool_prop.
  destruct i as [|i], j as [|j]; try lia; cbn in Hi, Hj.
  - simplify_eq. destruct (decide (p = kUnsetPortId)) as [|N]; [done|exfalso].
    apply not_true_iff_false in H. apply H, existsb_exists. exists p. split; [by eapply list_elem_of_In, list_elem_of_lookup_2|].
    rewrite Z.eqb_refl, andb_true_r. apply negb_true_iff. by apply Z.eqb_neq.
  - eapply (IH i j); [done|lia|done|done].
Qed.

(** ** Properties *)

(** C18. Valid settings keep the described limits: when Validate() accepts a
    set of settings, every float is finite and the value of every register is
    between the minimum and the maximum its description reports. *)
Theorem valid_settings_in_limits (s : NvmSettings) (limits : HardwareCapabilities) :
  settings_ok s -> Validate s limits = kSuccess ->
  (forall f, is_float_field f = true -> is_finite (fl f s) = true) /\
  (forall e, e ∈ registers -> in_limits s e).
Proof.
  intros Hok V. pose proof (int_registers s limits Hok V) as Hint. destruct Hok as [Hw _].
  split; [intros f Hf; by eapply valid_floats_finite|]. destruct (valid_pwm_frequency s limits V) as (x & Hx & Hpwm). validated V. bool_prop.
  assert (forall f, is_float_field f = true -> f <> pwm_frequency -> is_finite (fl f s) = true) as Hfin
    by (intros; by apply finite_fields).
  unfold kIsRatio, kIsGain in *. bool_prop.
  match goal with H : IsValidEnumValues s = true |- _ => unfold IsValidEnumValues in H; rename H into HE end.
  bool_prop.
  assert (f_leb (f_of_Z 16000) (fl pwm_frequency s) = true /\ f_leb (fl pwm_frequency s) (f_of_Z 32000) = true) as [P1 P2].
  { eapply f_eqb_limits; [exact Hpwm|..]; repeat destruct Hx as [<-|Hx]; try done; vm_compute; reflexivity. }
  change kMaxEbikeRatio with (f_of_Z 20) in *. change kMaxTelemetryRate with (f_of_Z 1000) in *.
  change kMaxCommandTimeout with (f_of_Z 10) in *. change kMaxWheelCircumference with (f_of_Z 4) in *.
  replace (f_mul (f_of_Z 20) (f_of_Z 5)) with (f_of_Z 100) in * by (vm_compute; reflexivity).
  replace f_one with (f_of_Z 1) in * by reflexivity. replace kMinWheelCircumference with (f_lit 1 2) in * by (vm_compute; reflexivity).
  unfold kMinEbikePulses, kMaxEbikePulses, kMaxBatteryCells in *.
  assert (f_leb f_zero (fl dc_link_trip s) = true /\ f_leb f_zero (fl asm_flux_i_d_max s) = true /\
    f_leb f_zero (fl excitation_i_f_max s) = true) as (D1 & D2 & D3).
  { repeat split;
      [apply (f_leb_trans _ (fl dc_link_regen_derate_start s))|apply (f_leb_trans _ (fl asm_flux_i_d_min s))
      |apply (f_leb_trans _ (fl excitation_i_f_min s))];
      first [eapply not_at_most; [finite_tac|reflexivity|eassumption]
            |eapply not_below; [finite_tac|reflexivity|eassumption]
            |eapply not_at_most; [finite_tac|apply is_finite_not_nan; finite_tac|eassumption]
            |eapply not_below; [finite_tac|apply is_finite_not_nan; finite_tac|eassumption]]. }
  enough (Forall (fun e => match entry_field e with
    | reg_num f => if is_float_field f then in_limits s e else True | reg_name => True end) registers) as Hall.
  { intros e He. eapply Forall_forall in Hall; [|exact He]. eapply Forall_forall in Hint; [|exact He].
    unfold in_limits in *. destruct (entry_field e) as [f|]; [|done]. by destruct (is_float_field f). }
  clear Hint Hw. unfold registers. repeat (apply Forall_cons; split; [|]); [..|by apply Forall_nil];
    cbn [entry_field Setting Tunable AfterRestart is_float_field field_type]; try exact I;
    unfold in_limits, reg_value;
    cbn [entry_field description minimum maximum fst snd Setting Tunable AfterRestart AtLeast AtMost Between kAny field_type];
    (split; [lower_tac|upper_tac]).
Qed.

(** Valid settings have no port collision: no two ports of the drive that
    are in use share a subject-ID or a service-ID, the readiness subject of the
    node-ID scheme included, and the trace trigger subjects are apart from all
    of them; every subject-ID is at most 8191 and every service-ID at most 511. *)
Theorem valid_settings_ports_distinct (s : NvmSettings) (limits : HardwareCapabilities) :
  settings_ok s -> Validate s limits = kSuccess ->
  (forall i j p, (i < j)%nat -> kSubjects s !! i = Some p -> kSubjects s !! j = Some p -> p = kUnsetPortId) /\
  (forall i j p, (i < j)%nat -> kServices s !! i = Some p -> kServices s !! j = Some p -> p = kUnsetPortId) /\
  (forall p, p ∈ kSubjects s -> p <> kUnsetPortId -> num s pub_cymon_trigger_id <> p /\ num s sub_cymon_trigger_id <> p) /\
  (forall p, p ∈ kSubjects s -> p <= kMaxSubjectId \/ p = kUnsetPortId) /\
  (forall p, p ∈ kServices s -> p <= kMaxServiceId \/ p = kUnsetPortId).
Proof.
  intros [Hw _] V. pose proof V as V'. validated V'. bool_prop.
  match goal with H : HasPortIdCollision s = false |- _ => rename H into HP end. unfold HasPortIdCollision in HP. cbv zeta in HP.
  apply orb_false_iff in HP as [[[P1 P2]%orb_false_iff P3]%orb_false_iff P4].
  split; [|split; [|split; [|split]]].
  - intros i j p ? ? ?. by eapply (HasDuplicatePort_false (kSubjects s)).
  - intros i j p ? ? ?. by eapply (HasDuplicatePort_false (kServices s)).
  - intros p Hp N. assert (forall q, negb (q =? kUnsetPortId) && existsb (Z.eqb q) (kSubjects s) = false -> q <> p) as Hq.
    { intros q Hq ->. bool_prop. destruct Hq as [Hq|Hq]; bool_prop; [done|].
      apply not_true_iff_false in Hq. apply Hq, existsb_exists. exists p. split; [by apply list_elem_of_In|apply Z.eqb_refl]. }
    split; [exact (Hq _ P3)|exact (Hq _ P4)].
  - assert (forall q, kIsSubjectId q = true -> q <= kMaxSubjectId \/ q = kUnsetPortId) as Hs.
    { unfold kIsSubjectId. intros q [Hq|Hq]%orb_true_iff; bool_prop; auto. }
    assert (kReadiness s <= kMaxSubjectId \/ kReadiness s = kUnsetPortId) as Hr.
    { pose proof (valid_enums s limits V) as (Hn & _). unfold kReadiness, EffectiveReadinessId.
      destruct ((num s node_id =? 0) && _); [by right|].
      destruct (num s sub_readiness_id =? kReadinessFollowsNodeId) eqn:F; cbn [negb].
      - rewrite (proj2 (Z.leb_le _ _)) by done. left. pose proof (Hw node_id) as W.
        change (2 ^ field_width node_id) with 256 in W. unfold in_u in W. change (2 ^ field_width node_id) with 256 in W.
        rewrite wrap_id; unfold in_u, kSubReadinessBase, kMaxSubjectId; lia.
      - apply Hs. match goal with H : negb (kIsSubjectId (num s sub_readiness_id)) = false \/ _ |- _ => destruct H as [H'|H'] end;
          apply negb_false_iff in H'; [exact H'|]. discriminate H'. }
    intros p [->|Hp]%elem_of_cons; [exact Hr|]. apply Hs. cbn [map] in Hp.
    repeat (apply elem_of_cons in Hp as [->|Hp]; [assumption|]). by apply not_elem_of_nil in Hp.
  - assert (forall q, kIsServiceId q = true -> q <= kMaxServiceId \/ q = kUnsetPortId) as Hs.
    { unfold kIsServiceId. intros q [Hq|Hq]%orb_true_iff; bool_prop; auto. }
    intros p Hp. apply Hs. unfold kServices in Hp. cbn [map] in Hp.
    repeat (apply elem_of_cons in Hp as [->|Hp]; [assumption|]). by apply not_elem_of_nil in Hp.
Qed.

Lemma valid_settings_in_limits_witness :
  Forall (in_limits (NvmSettings_init 0 1)) registers.
Proof.
  apply Forall_forall. apply (valid_settings_in_limits (NvmSettings_init 0 1) HardwareCapabilities_init);
    [exact (NvmSettings_init_ok 0 1)|vm_compute; reflexivity].
Defined.

Lemma valid_settings_ports_distinct_witness :
  let s := set_num node_id 42 (NvmSettings_init 0 1) in
  (forall p, p ∈ kSubjects s -> p <= kMaxSubjectId \/ p = kUnsetPortId) /\
  (forall p, p ∈ kServices s -> p <= kMaxServiceId \/ p = kUnsetPortId).
Proof.
  assert (settings_ok (set_num node_id 42 (NvmSettings_init 0 1))) as Hok.
  { destruct (NvmSettings_init_ok 0 1) as [Hn Hl]. split; [|exact Hl]. intros f.
    destruct (decide (f = node_id)) as [->|]; [rewrite num_set_eq; by apply in_ub_spec|rewrite num_set_ne by done; apply Hn]. }
  assert (Validate (set_num node_id 42 (NvmSettings_init 0 1)) HardwareCapabilities_init = kSuccess) as V
    by (vm_compute; reflexivity).
  destruct (valid_settings_ports_distinct _ _ Hok V) as (_ & _ & _ & H4 & H5). split; [exact H4|exact H5].
Defined.

End SettingsLimits.
