(* ===== verification/RamStorage.v ===== *)
(** * Settings storage in RAM

    tests/common/ram_settings_storage.hpp: the key/value storage the host tests
    and the simulation run the settings store on, with its fault injection.  It
    discharges [StorageLaws], so what the store's theorems assume of a storage
    is met by code of the repository. *)
From Stdlib Require Import ZArith Lia Bool SpecFloat.
From stdpp Require Import base decidable list strings gmap.
From S2P Require Import Prelude Float32 Units SettingsData SettingsCodec SettingsTypes SettingsStore.
Import SettingsData SettingsCodec SettingsTypes SettingsStore.

#[local] Open Scope Z_scope.
#[local] Open Scope unimoc_scope.

Module RamStorage.

Definition kMaxEntries : nat := 96.
Definition kMaxKeySize : nat := 48.
Definition kMaxValueSize : nat := 64.

(** A slot: the key and the value with their sizes. *)
Record Entry := mkEntry { used : bool; key : string; value : list Z }.
Definition Entry_init : Entry := mkEntry false EmptyString [].

Record RamSettingsStorage := mkRamSettingsStorage {
  entries_ : list Entry;
  writes_ : Z;
  erases_ : Z;
  fail_writes_ : bool;
  unavailable_ : bool;
  fail_writes_after_ : Z }.
#[export] Instance eta_Ram : Eta RamSettingsStorage := fun s =>
  mkRamSettingsStorage (entries_ s) (writes_ s) (erases_ s) (fail_writes_ s) (unavailable_ s) (fail_writes_after_ s).
Definition RamSettingsStorage_init : RamSettingsStorage :=
  mkRamSettingsStorage (replicate kMaxEntries Entry_init) 0 0 false false (-1).

Definition FailWrites (fail : bool) (s : RamSettingsStorage) : RamSettingsStorage := s.{fail_writes_ := fail}.
Definition SetUnavailable (unavailable : bool) (s : RamSettingsStorage) : RamSettingsStorage :=
  s.{unavailable_ := unavailable}.
Definition FailWritesAfter (count : Z) (s : RamSettingsStorage) : RamSettingsStorage := s.{fail_writes_after_ := count}.

Definition matches (k : string) (entry : Entry) : bool := used entry && String.eqb (key entry) k.

Fixpoint Find (k : string) (entries : list Entry) : option Entry :=
  match entries with
  | [] => None
  | entry :: rest => if matches k entry then Some entry else Find k rest
  end.
Definition Contains (k : string) (s : RamSettingsStorage) : bool :=
  match Find k (entries_ s) with Some _ => true | None => false end.
Definition Value (k : string) (s : RamSettingsStorage) : list Z :=
  match Find k (entries_ s) with Some entry => value entry | None => [] end.
Definition Count (s : RamSettingsStorage) : nat := length (filter (fun entry => used entry = true) (entries_ s)).

(** The loop of Store(): the slot of the key, else the first free one. *)
Fixpoint store_target (k : string) (entries : list Entry) (i : nat) (target : option nat) : option nat :=
  match entries with
  | [] => target
  | entry :: rest =>
      if matches k entry then Some i
      else store_target k rest (S i)
             (match target with None => if negb (used entry) then Some i else None | Some _ => target end)
  end.
Definition Store (k : string) (v : list Z) (s : RamSettingsStorage) : bool * RamSettingsStorage :=
  if (kMaxKeySize <? String.length k)%nat || (kMaxValueSize <? length v)%nat then (false, s)
  else match store_target k (entries_ s) 0 None with
       | None => (false, s)
       | Some i => (true, s.{entries_ := <[i := mkEntry true k v]> (entries_ s)})
       end.
Definition Put (k : string) (v : list Z) (s : RamSettingsStorage) : RamSettingsStorage := (Store k v s).2.

Definition pairs (entries : list Entry) : list (string * list Z) :=
  omap (fun entry => if used entry then Some (key entry, value entry) else None) entries.

Definition LoadAll_ram (s : RamSettingsStorage) : SettingsStorageStatus * list (string * list Z) :=
  if unavailable_ s then (storage_kUnavailable, [])
  else (storage_kSuccess, pairs (entries_ s)).
Definition Write_ram (k : string) (v : list Z) (s : RamSettingsStorage) : SettingsStorageStatus * RamSettingsStorage :=
  if unavailable_ s then (storage_kUnavailable, s)
  else
    let kFailNow := fail_writes_ s || ((0 <=? fail_writes_after_ s) && (u32 (fail_writes_after_ s) <=? writes_ s)) in
    let s := s.{writes_ := u32 (writes_ s + 1)} in
    if kFailNow then (storage_kIoError, s)
    else let '(stored, s) := Store k v s in ((if stored then storage_kSuccess else storage_kIoError), s).
Definition Erase_ram (k : string) (s : RamSettingsStorage) : SettingsStorageStatus * RamSettingsStorage :=
  if unavailable_ s then (storage_kUnavailable, s)
  else
    let s := s.{erases_ := u32 (erases_ s + 1)} in
    (storage_kSuccess, s.{entries_ := map (fun entry => if matches k entry then Entry_init else entry) (entries_ s)}).

(** ** Lemmas *)

(** What the slots keep: a key is used once, values are bytes. *)
Record ram_wf (s : RamSettingsStorage) : Prop := mkRamWf {
  rw_length : length (entries_ s) = kMaxEntries;
  rw_keys : NoDup (pairs (entries_ s)).*1;
  rw_bytes : forall k v, (k, v) ∈ pairs (entries_ s) -> Forall (in_u 8) v }.

Lemma ram_init_wf : ram_wf RamSettingsStorage_init.
Proof. split; [done|apply NoDup_nil; exact I|by intros k v ?%not_elem_of_nil]. Qed.

Lemma pairs_cons u k v l :
  pairs (mkEntry u k v :: l) = if u then (k, v) :: pairs l else pairs l.
Proof. by destruct u. Qed.
#[local] Arguments pairs : simpl never.
Lemma pairs_app l l' : pairs (l ++ l') = pairs l ++ pairs l'.
Proof. unfold pairs. induction l as [|e l IH]; [done|]. cbn. destruct (used e); cbn; by rewrite IH. Qed.

Lemma elem_of_pairs l k v : (k, v) ∈ pairs l <-> mkEntry true k v ∈ l.
Proof.
  unfold pairs. rewrite list_elem_of_omap. split.
  - intros ([[] k' v'] & Hin & H); cbn in H; by simplify_eq.
  - intros H. by eexists.
Qed.

(** The slot Store() takes: that of the key, or a free one when no slot has it. *)
Lemma store_target_spec k l i t j :
  store_target k l i t = Some j ->
  (exists l1 v l2, l = (l1 ++ mkEntry true k v :: l2) /\ j = (i + length l1)%nat) \/
  (forall v, mkEntry true k v ∉ l) /\
    ((exists l1 e l2, l = (l1 ++ e :: l2) /\ used e = false /\ j = (i + length l1)%nat) \/ t = Some j).
Proof.
  revert i t. induction l as [|e l IH]; intros i t H; cbn in H; [right; split; [by intros v ?%not_elem_of_nil|by right]|].
  unfold matches in H. destruct e as [u ek ev]. cbn in H. destruct (u && String.eqb ek k) eqn:M.
  - apply (inj Some) in H as <-. apply andb_true_iff in M as [-> ->%String.eqb_eq]. left. exists [], ev, l. cbn. split; [done|lia].
  - assert (forall v, mkEntry true k v <> mkEntry u ek ev) as Ne.
    { intros v [= <- <- _]. by rewrite String.eqb_refl in M. }
    apply IH in H as [(l1 & v & l2 & -> & ->)|[Hn H]].
    + left. exists (mkEntry u ek ev :: l1), v, l2. cbn. split; [done|lia].
    + right. split; [intros v [?|?]%elem_of_cons; [by eapply Ne|by eapply Hn]|].
      destruct H as [(l1 & e & l2 & -> & E & ->)|H].
      * left. exists (mkEntry u ek ev :: l1), e, l2. cbn. split; [done|]. split; [done|lia].
      * destruct t as [t|]; [by right|]. destruct u; [done|]. apply (inj Some) in H as <-.
        left. exists [], (mkEntry false ek ev), l. cbn. split; [done|]. split; [done|lia].
Qed.

Lemma store_pairs k l j v :
  NoDup (pairs l).*1 -> store_target k l 0 None = Some j ->
  exists p1 p2, pairs (<[j := mkEntry true k v]> l) = (p1 ++ (k, v) :: p2) /\ ~ (k ∈ p1.*1) /\ ~ (k ∈ p2.*1) /\
    (pairs l = (p1 ++ p2) \/ exists v', pairs l = p1 ++ (k, v') :: p2).
Proof.
  intros Hk H. apply store_target_spec in H as [(l1 & v' & l2 & -> & ->)|[Hn [(l1 & e & l2 & -> & E & ->)|?]]]; [| |done].
  - exists (pairs l1), (pairs l2). rewrite insert_app_r_alt by lia. replace (0 + length l1 - length l1)%nat with 0%nat by lia.
    cbn. rewrite !pairs_app, !pairs_cons in *. rewrite fmap_app in Hk. cbn in Hk.
    apply NoDup_app in Hk as (_ & H1 & H2). apply NoDup_cons in H2 as [H2 _].
    split; [done|]. split; [intros ?; by eapply H1; [done|left]|]. split; [done|]. right. by exists v'.
  - exists (pairs l1), (pairs l2). rewrite insert_app_r_alt by lia. replace (0 + length l1 - length l1)%nat with 0%nat by lia.
    destruct e as [u ek ev]. cbn in E. subst u. cbn. rewrite !pairs_app, !pairs_cons in *. split; [done|].
    assert (forall p, p ⊆ l1 ++ mkEntry false ek ev :: l2 -> k ∉ (pairs p).*1) as Hout.
    { intros p Hp ([? v'] & -> & Hv)%list_elem_of_fmap. apply elem_of_pairs in Hv. by eapply Hn, Hp. }
    split; [apply Hout; set_solver|]. split; [apply Hout; set_solver|]. by left.
Qed.

Lemma NoDup_replace (p1 p2 : list (string * list Z)) k v p :
  NoDup p.*1 -> k ∉ p1.*1 -> k ∉ p2.*1 -> (p = (p1 ++ p2) \/ exists v', p = p1 ++ (k, v') :: p2) ->
  NoDup (p1 ++ (k, v) :: p2).*1 /\
  list_to_map (M := gmap string (list Z)) (p1 ++ (k, v) :: p2) = <[k := v]> (list_to_map p).
Proof.
  intros Hp N1 N2 H.
  assert (NoDup (p1 ++ p2).*1) as Hd.
  { destruct H as [->|[v' ->]]; [done|]. rewrite fmap_app in *. cbn in Hp.
    apply NoDup_app in Hp as (A & B & [_ C]%NoDup_cons). apply NoDup_app. split; [done|]. split; [|done].
    intros x Hx Hx2. eapply B; [done|by right]. }
  split.
  - rewrite fmap_app in *. cbn. apply NoDup_app in Hd as (A & B & C). apply NoDup_app. split; [done|].
    split; [|by apply NoDup_cons]. intros x Hx [->|?]%elem_of_cons; [done|by eapply B].
  - assert (forall v, list_to_map (M := gmap string (list Z)) (p1 ++ (k, v) :: p2) = <[k := v]> (list_to_map (p1 ++ p2))) as E.
    { intros w. rewrite !list_to_map_app. cbn. rewrite insert_union_r; [done|]. by apply not_elem_of_list_to_map. }
    rewrite E. destruct H as [->|[v' ->]]; [done|]. by rewrite E, insert_insert_eq.
Qed.

Lemma Store_spec k v s s' :
  ram_wf s -> Forall (in_u 8) v -> Store k v s = (true, s') ->
  ram_wf s' /\ list_to_map (M := gmap string (list Z)) (pairs (entries_ s')) = <[k := v]> (list_to_map (pairs (entries_ s))).
Proof.
  intros [Hl Hk Hb] Hv. unfold Store. case_if; [done|]. destruct (store_target k (entries_ s) 0 None) as [j|] eqn:T; [|done].
  intros [= <-]. cbn. destruct (store_pairs k (entries_ s) j v Hk T) as (p1 & p2 & E & N1 & N2 & C).
  destruct (NoDup_replace p1 p2 k v _ Hk N1 N2 C) as [D M]. rewrite E. split; [|exact M].
  split; cbn; [by rewrite length_insert|by rewrite E|]. rewrite E. intros k' v' Hin. apply elem_of_app in Hin as [Hin|[[= -> ->]|Hin]%elem_of_cons]; [|done|];
    eapply Hb; destruct C as [->|[v'' ->]]; rewrite elem_of_app; [by left|by left|by right|right; by right].
Qed.

Lemma pairs_erased k l :
  pairs (map (fun entry => if matches k entry then Entry_init else entry) l) = filter (fun p => p.1 <> k) (pairs l).
Proof.
  induction l as [|[u ek ev] l IH]; [done|]. cbn [map]. change (?a :: ?b) with ([a] ++ b). rewrite !pairs_app, filter_app. f_equal; [|exact IH].
  unfold matches, pairs. cbn. destruct u; cbn; [|done]. destruct (String.eqb_spec ek k) as [->|N]; cbn.
  - by rewrite decide_False by (intros []; done).
  - by rewrite decide_True.
Qed.

Lemma Erase_spec k s : ram_wf s ->
  ram_wf (Erase_ram k s).2 /\
  (storage_ok (Erase_ram k s).1 = true ->
   list_to_map (M := gmap string (list Z)) (pairs (entries_ (Erase_ram k s).2)) = delete k (list_to_map (pairs (entries_ s)))).
Proof.
  intros [Hl Hk Hb]. unfold Erase_ram. case_if; [split; [done|discriminate]|]. cbn.
  assert (NoDup (filter (fun p : string * list Z => p.1 <> k) (pairs (entries_ s))).*1) as Hd.
  { eapply sublist_NoDup; [exact Hk|]. apply fmap_sublist, sublist_filter. }
  split; [split; cbn; rewrite ?pairs_erased; [by rewrite length_map|done|]|].
  - intros k' v [_ ?]%list_elem_of_filter. by eapply Hb.
  - intros _. rewrite pairs_erased. apply map_eq. intros i. apply option_eq. intros v.
    rewrite <- elem_of_list_to_map by done. rewrite list_elem_of_filter. cbn.
    rewrite lookup_delete_Some, <- elem_of_list_to_map by done. split; intros []; auto.
Qed.

Lemma Write_spec k v s : ram_wf s -> Forall (in_u 8) v ->
  ram_wf (Write_ram k v s).2 /\
  (storage_ok (Write_ram k v s).1 = true ->
   list_to_map (M := gmap string (list Z)) (pairs (entries_ (Write_ram k v s).2)) = <[k := v]> (list_to_map (pairs (entries_ s)))).
Proof.
  intros Hw Hv. unfold Write_ram. case_if; [split; [done|discriminate]|]. cbv zeta.
  set (t := s.{writes_ := _}). assert (ram_wf t) as Ht by (destruct Hw; by split).
  destruct (_ || _); [split; [exact Ht|discriminate]|]. destruct (Store k v t) as [[] t'] eqn:E; cbn.
  - destruct (Store_spec k v t t' Ht Hv E) as [? M]. done.
  - split; [|done]. unfold Store in E. destruct (_ || _); [by simplify_eq|]. by destruct (store_target _ _ _ _); simplify_eq.
Qed.

(** ** The storage as an implementation of the interface

    The objects the program can have: reached from an empty storage, so with
    the invariant. *)
Record Ram := mkRam { ram : RamSettingsStorage; ram_ok : ram_wf ram }.
Definition Ram_init : Ram := mkRam RamSettingsStorage_init ram_init_wf.

(** A value of bytes, as the type of the C++ interface has it. *)
#[export] Instance in_u_dec w z : Decision (in_u w z).
Proof. unfold in_u. apply _. Defined.

#[export] Instance ram_storage : StorageOps Ram := {|
  LoadAll s := LoadAll_ram (ram s);
  Write k v s :=
    match decide (Forall (in_u 8) v) with
    | left Hv => ((Write_ram k v (ram s)).1, mkRam _ (proj1 (Write_spec k v (ram s) (ram_ok s) Hv)))
    | right _ => (storage_kIoError, s)
    end;
  Erase k s := ((Erase_ram k (ram s)).1, mkRam _ (proj1 (Erase_spec k (ram s) (ram_ok s)))) |}.

#[export, refine] Instance ram_laws : StorageLaws Ram := {|
  contents s := list_to_map (pairs (entries_ (ram s))) |}.
Proof.
  - intros [s [Hl Hk Hb]]. cbn. unfold LoadAll_ram. case_if; [done|]. intros _. cbn. split; [done|].
    intros k v. by apply elem_of_list_to_map.
  - intros [s [Hl Hk Hb]] k v. cbn. unfold LoadAll_ram. case_if; cbn; [by intros ?%not_elem_of_nil|apply Hb].
  - intros k v [s Hs] Hv _. cbn. destruct (decide (Forall (in_u 8) v)); [|done]. cbn. apply Write_spec; done.
  - intros k [s Hs]. cbn. by apply Erase_spec.
Defined.

End RamStorage.
