(* ===== verification/SettingsPersistence.v ===== *)
(** * Settings: what the store guarantees

    The contract of the settings store over any storage with [StorageLaws] and
    any save gate, its use over the RAM storage of the repository and the gate
    of the power stage, and the store as the settings interface of its clients. *)
From Stdlib Require Import ZArith Lia Bool SpecFloat.
From stdpp Require Import base decidable list strings gmap.
From S2P Require Import Prelude Float32 PowerStage Units SettingsData SettingsCodec SettingsTypes SettingsStore RamStorage.
Import SettingsData SettingsCodec SettingsTypes SettingsStore RamStorage.

#[local] Open Scope Z_scope.
#[local] Open Scope unimoc_scope.

Module SettingsPersistence.

(** ** The gates (settings_store.hpp, src/settings_save_gate.hpp) *)

(** SettingsSaveGate::Always(). *)
Definition Always : GateOps unit := {| TryBegin g := (true, g); End_ g := g |}.
(** PowerStageSaveGate(). *)
#[export] Instance power_stage_gate {P} `{!PowerStage.PowerStageOps P} : GateOps (PowerStage.PowerStageInterface P) := {|
  TryBegin := PowerStage.SaveGate_begin;
  End_ := PowerStage.SaveGate_end |}.

(** ** The store as the settings interface of its clients *)
#[export] Instance store_client {St G} `{!StorageOps St} `{!GateOps G} : SettingsClient (SettingsStore St G) := {|
  SettingsTypes.max_phase_current s := SettingsStore.max_phase_current (GetHardwareCapabilities s);
  SettingsTypes.ApplyAdcCalibration := SettingsStore.ApplyAdcCalibration |}.
#[export] Instance store_client_laws {St G} `{!StorageOps St} `{!GateOps G} : SettingsClientLaws (SettingsStore St G).
Proof.
  split; intros cal s; cbn; unfold SettingsStore.ApplyAdcCalibration, Update;
    destruct (Commit_cases (store_calibration cal (settings_ s)) s) as [[E _]|(st & E & _)]; rewrite E; done.
Qed.

#[local] Existing Instance PowerStage.sim_ops.

(** ** A store of the repository's own parts: the simulated power stage, the
    RAM storage and the default profile *)
Definition sim_store (driven : bool) : SettingsStore Ram (PowerStage.PowerStageInterface PowerStage.SimPowerStage) :=
  SettingsStore_init (mkSettingsProfile (NvmSettings_init 0 1) HardwareCapabilities_init) Ram_init
    (PowerStage.mkPowerStage false (PowerStage.mkSim true driven false)).
Definition tuned (c : NvmSettings) : NvmSettings :=
  set_fl speed_kp (f_of_Z 2) (set_num node_id 42 (set_fl telemetry_rate (f_of_Z 50) c)).
Lemma tuned_ok c : settings_ok c -> settings_ok (tuned c).
Proof.
  intros [Hn Hl]. split; [|exact Hl]. intros f. unfold tuned, set_fl.
  destruct (decide (f = speed_kp)) as [->|]; [rewrite num_set_eq; by apply in_ub_spec|rewrite num_set_ne by done].
  destruct (decide (f = node_id)) as [->|]; [rewrite num_set_eq; by apply in_ub_spec|rewrite num_set_ne by done].
  destruct (decide (f = telemetry_rate)) as [->|]; [rewrite num_set_eq; by apply in_ub_spec|rewrite num_set_ne by done]. apply Hn.
Qed.
Definition sim_loaded (driven : bool) := (Load (sim_store driven)).2.
Definition sim_tuned (driven : bool) := (Update tuned (sim_loaded driven)).2.
Lemma sim_loaded_reachable driven : reachable_store (sim_loaded driven).
Proof.
  apply (reach_load (sim_store driven)); [vm_compute; reflexivity|exact (NvmSettings_init_ok 0 1)|reflexivity].
Qed.
Lemma sim_tuned_reachable driven : reachable_store (sim_tuned driven).
Proof. apply (reach_update (sim_loaded driven) tuned); [apply sim_loaded_reachable|exact tuned_ok]. Qed.

(** The table is not unfolded from here on. *)
#[local] Strategy opaque [registers Validate].

Section Storage.
Context {St G : Type} `{!StorageOps St} `{!StorageLaws St} `{!GateOps G}.
Implicit Types s t : SettingsStore St G.

(** What is loaded after a save, from any storage with the same contents. *)
Lemma save_reload (s s' : SettingsStore St G) (st : St) (gate : G) :
  reachable_store s -> Validate (settings_ s) (capabilities (profile_ s)) = kSuccess ->
  IsValidProfile (profile_ s) = true ->
  SaveToFlash s = (kSuccess, s') -> contents st = contents (storage_ s') -> storage_ok (LoadAll st).1 = true ->
  let '(status, t) := Load (SettingsStore_init (profile_ s) st gate) in
  (status = kSuccess \/ status = kFactoryDefaults) /\ settings_equiv (settings_ t) (settings_ s).
Proof.
  intros Hr Hvalid Hp Hsave Hst0 Hs. destruct (reachable_store_ok s Hr) as [[Hf Hok Hk] _].
  destruct (SaveChanged_ok s s' Hok Hk Hsave) as (E1 & E2 & _ & Hall).
  set (b := SettingsStore_init (profile_ s) st gate).
  destruct (Load_loaded b Hp Hf Hs) as (loaded & und & Hlok & _ & _ & _ & _ & _ & He & Hu & Hlive).
  change (profile_ b) with (profile_ s) in *. change (storage_ b) with st in *.
  rewrite <- E1 in He, Hu, Hlive. rewrite Hst0 in He, Hu.
  assert (und = false) as ->.
  { destruct und; [|done]. destruct (Hu eq_refl) as (e & v & Hin & Hc & D). destruct (Hall e Hin) as [Sy _].
    unfold synced, image in Sy. rewrite Hc, D in Sy. done. }
  pose proof (reload_equiv s' loaded false Hall He eq_refl) as Heq. rewrite E2 in Heq.
  assert (Validate loaded (capabilities (profile_ s')) = kSuccess) as V.
  { rewrite E1. rewrite <- Hvalid. apply Validate_ext. intros f. by apply settings_equiv_num. }
  rewrite V in Hlive. change (negb false && status_eqb kSuccess kSuccess) with true in Hlive. cbv iota in Hlive.
  destruct (Load b) as [status t]. cbn [fst snd] in Hlive. destruct Hlive as [-> Hst]. done.
Qed.

(** ** Properties *)


(** A refused save touches nothing: with the gate closed (outputs
    released), SaveToFlash() leaves the storage, the stored copy and the live
    settings as they were, and returns success only when there was nothing to
    do, else [kPersistBlocked]. *)
Theorem blocked_save_changes_nothing (s : SettingsStore St G) :
  (TryBegin (save_gate_ s)).1 = false ->
  let '(status, t) := SaveToFlash s in
  storage_ t = storage_ s /\ stored_ t = stored_ s /\ settings_ t = settings_ s /\
  (status = kSuccess \/ status = kPersistBlocked) /\
  (UnsavedCount s <> 0%nat -> status = kPersistBlocked).
Proof.
  intros Hb. pose proof (SaveChanged_blocked s Hb) as (E1 & E2 & E3 & E4 & E5). unfold SaveToFlash.
  destruct (SaveChanged s) as [status t] eqn:E. cbn [fst snd] in *.
  split; [done|]. split; [done|]. split; [done|]. split; [tauto|]. intros Hu.
  destruct E5 as [[-> Hg]|[-> _]]; [exfalso|done]. apply Hu, CountUnsaved_0. intros e He.
  revert E. unfold SaveChanged. pose proof (save_fold_progress s) as P.
  destruct (foldl _ _ _) as [[r b] u] eqn:F. destruct P as (_ & _ & P3).
  destruct b; [destruct P3 as (P3 & _); congruence|]. intros H. assert (r = kSuccess) as -> by (by injection H).
  by eapply save_fold_idle.
Qed.

(** A save is complete and idempotent: after a successful SaveToFlash()
    no register is unsaved, and saving again neither writes nor asks the gate. *)
Theorem save_complete_idempotent (s s' : SettingsStore St G) :
  reachable_store s -> SaveToFlash s = (kSuccess, s') ->
  UnsavedCount s' = 0%nat /\ SaveToFlash s' = (kSuccess, s') /\ settings_ s' = settings_ s.
Proof.
  intros Hr Hsave. destruct (reachable_store_ok s Hr) as [[Hf Hok Hk] _].
  destruct (SaveChanged_ok s s' Hok Hk Hsave) as (E1 & E2 & E3 & Hall).
  assert (forall e, e ∈ registers -> saved s' e) as Hsv by (intros; by apply Hall).
  split; [by apply CountUnsaved_0|]. split; [by apply SaveChanged_idle|done].
Qed.

End Storage.


Lemma blocked_save_changes_nothing_witness :
  let '(status, t) := SaveToFlash (sim_tuned true) in
  storage_ t = storage_ (sim_tuned true) /\ stored_ t = stored_ (sim_tuned true) /\ settings_ t = settings_ (sim_tuned true) /\
  (status = kSuccess \/ status = kPersistBlocked) /\
  (UnsavedCount (sim_tuned true) <> 0%nat -> status = kPersistBlocked).
Proof. apply (blocked_save_changes_nothing (sim_tuned true)). vm_compute. reflexivity. Defined.

Lemma save_complete_idempotent_witness :
  exists s', SaveToFlash (sim_tuned false) = (kSuccess, s') /\
  UnsavedCount s' = 0%nat /\ SaveToFlash s' = (kSuccess, s') /\ settings_ s' = settings_ (sim_tuned false).
Proof.
  exists (SaveToFlash (sim_tuned false)).2.
  assert (SaveToFlash (sim_tuned false) = (kSuccess, (SaveToFlash (sim_tuned false)).2)) as E.
  { rewrite (surjective_pairing (SaveToFlash _)) at 1. by f_equal. }
  split; [exact E|].
  apply (save_complete_idempotent (sim_tuned false)); [apply sim_tuned_reachable|exact E].
Defined.


(** The example store has three unsaved registers, and an unsaved save is refused while driving. *)
Example sim_tuned_unsaved : UnsavedCount (sim_tuned false) = 3%nat /\ (SaveToFlash (sim_tuned true)).1 = kPersistBlocked.
Proof. split; vm_compute; reflexivity. Qed.

(** A register survives its encoding: decoding what encoding a register
    of well-formed settings gave into any other settings succeeds, gives the
    register the same stored form, leaves every other register alone and keeps
    the settings well formed; bytes of another length are refused. *)
Theorem register_codec_roundtrip (s t : NvmSettings) (r : RegField) :
  settings_ok s -> settings_ok t ->
  (exists u, decode_reg r (encode_reg s r) t = Some u /\ settings_ok u /\
     encode_reg u r = encode_reg s r /\ forall r', r' <> r -> encode_reg u r' = encode_reg t r') /\
  (forall b f, r = reg_num f -> length b <> length (encode_reg s r) -> decode_reg r b t = None).
Proof.
  intros Hs Ht. split.
  - destruct (decode_reg_encoded r s t Hs) as [u Hu]. exists u. split; [exact Hu|].
    split; [exact (decode_reg_ok r _ t u Ht (encode_reg_bytes s r Hs) Hu)|].
    split; [exact (encode_decode_reg s t r u Hs Hu)|]. intros r' N. eapply encode_reg_other; [exact Hu|congruence].
  - intros b f -> Hl. cbn [decode_reg encode_reg] in *.
    destruct (field_type f); cbn [EncodeRegisterValue DecodeRegisterValue] in *; change (length (PutFloat _)) with 4%nat in *;
      cbn [length] in Hl; by rewrite (proj2 (Z.eqb_neq _ _)) by lia.
Qed.
Lemma register_codec_roundtrip_witness :
  let s := NvmSettings_init 0 1 in
  exists u, decode_reg (reg_num stator_r) (encode_reg s (reg_num stator_r)) s = Some u /\ settings_ok u /\
     encode_reg u (reg_num stator_r) = encode_reg s (reg_num stator_r) /\
     forall r', r' <> reg_num stator_r -> encode_reg u r' = encode_reg s r'.
Proof.
  apply (register_codec_roundtrip (NvmSettings_init 0 1) (NvmSettings_init 0 1) (reg_num stator_r));
    exact (NvmSettings_init_ok 0 1).
Defined.

(** The register table is an index of the settings: every member has
    exactly one register, no two registers share a name, and every name fits
    the register protocol (at most 50 characters) and starts in one of the two
    name spaces. *)
Theorem register_table_complete :
  (forall r, exists e, e ∈ registers /\ entry_field e = r /\ forall e', e' ∈ registers -> entry_field e' = r -> e' = e) /\
  (forall e e', e ∈ registers -> e' ∈ registers -> entry_name e = entry_name e' -> e = e') /\
  (forall e, e ∈ registers -> (String.length (entry_name e) <= 50)%nat /\
     (String.prefix "uavcan." (entry_name e) || String.prefix "unimoc." (entry_name e)) = true).
Proof.
  split; [|split].
  - intros r. destruct (registers_complete r) as (e & He & E). exists e. split; [done|]. split; [done|].
    intros e' He' E'. apply registers_inj; [done|done|right; congruence].
  - intros e e' He He' E. apply registers_inj; auto.
  - intros e He.
    assert (forallb (fun e => (String.length (entry_name e) <=? 50)%nat &&
      (String.prefix "uavcan." (entry_name e) || String.prefix "unimoc." (entry_name e))) registers = true) as H
      by (vm_compute; reflexivity).
    rewrite forallb_forall in H. specialize (H e). rewrite <- list_elem_of_In in H. specialize (H He).
    apply andb_true_iff in H as [H1%Nat.leb_le H2]. done.
Qed.

End SettingsPersistence.
