(* ===== verification/Registers.v ===== *)
(** * The settings as registers on the bus

    lib/cyphal/register_value.{hpp,cpp}: values of uavcan.register.Value.1.0
    and their conversions.  src/drive/settings_register_provider.{hpp,cpp}:
    class [SettingsRegisterProvider], which reads and writes the register table
    of the settings through the settings store. *)
From Stdlib Require Import ZArith Lia Bool SpecFloat.
From stdpp Require Import base decidable list option strings.
From S2P Require Import Prelude Float32 FloatRound Units SettingsData SettingsCodec SettingsTypes SettingsStore SettingsLimits.
From S2P Require Import RamStorage SettingsPersistence.
Import SettingsData SettingsCodec SettingsTypes SettingsStore SettingsLimits RamStorage SettingsPersistence.

#[local] Open Scope Z_scope.
#[local] Open Scope unimoc_scope.

Module Registers.

(** ** Register values *)
Inductive RegisterValue :=
| V_empty
| V_string (bytes : list Z)
| V_unstructured (bytes : list Z)
| V_bit (bits : list bool)
| V_integer64 (elements : list Z) | V_integer32 (elements : list Z) | V_integer16 (elements : list Z) | V_integer8 (elements : list Z)
| V_natural64 (elements : list Z) | V_natural32 (elements : list Z) | V_natural16 (elements : list Z) | V_natural8 (elements : list Z)
| V_real64 (elements : list double) | V_real32 (elements : list float) | V_real16 (elements : list float).

Definition kTextCapacity : nat := 256.
Definition SetEmpty : RegisterValue := V_empty.
Definition SetString (text : list Z) : RegisterValue := V_string (take kTextCapacity text).
Definition SetUnstructured (bytes : list Z) : RegisterValue := V_unstructured (take kTextCapacity bytes).
Definition SetBit (bit : bool) : RegisterValue := V_bit [bit].
Definition SetNatural8 (number : Z) : RegisterValue := V_natural8 [number].
Definition SetNatural16 (number : Z) : RegisterValue := V_natural16 [number].
Definition SetNatural32 (number : Z) : RegisterValue := V_natural32 [number].
Definition SetReal32 (number : float) : RegisterValue := V_real32 [number].
Definition IsEmpty (v : RegisterValue) : bool := match v with V_empty => true | _ => false end.

(** [static_cast<float>] of the first element. *)
Definition First {A} (cast : A -> float) (elements : list A) : option float := option_map cast (head elements).
Definition GetNumber (v : RegisterValue) : option float :=
  match v with
  | V_bit b => First (fun x : bool => if x then f_one else f_zero) b
  | V_integer64 l | V_integer32 l | V_integer16 l | V_integer8 l
  | V_natural64 l | V_natural32 l | V_natural16 l | V_natural8 l => First f_of_Z l
  | V_real64 l => First f_of_d l
  | V_real32 l | V_real16 l => First id l
  | V_empty | V_string _ | V_unstructured _ => None
  end.
(** An integral float up to 9.0e15, as an integer. *)
Definition integral (x : float) : option Z :=
  if negb (is_finite x) then None
  else z ← f_trunc x; if f_eqb (f_of_Z z) x && f_leb (Abs x) (f_of_Z (9 * 10 ^ 15)) then Some z else None.
Definition GetInteger (v : RegisterValue) : option Z :=
  match v with
  | V_integer64 l | V_natural32 l | V_integer32 l => head l
  | V_natural64 l => z ← head l; if 2 ^ 63 - 1 <? z then None else Some z
  | _ => x ← GetNumber v; integral x
  end.
Definition GetString (v : RegisterValue) : option (list Z) := match v with V_string text => Some text | _ => None end.

Inductive RegisterWriteResult := kAccepted | kReadOnly | kTypeMismatch | kOutOfRange.
#[export] Instance RegisterWriteResult_eq_dec : EqDecision RegisterWriteResult.
Proof. solve_decision. Defined.

(** ** Members as register values *)
Definition kNodeId : string := "uavcan.node.id".
Definition ToValue (register_name : string) (r : RegField) (s : NvmSettings) : RegisterValue :=
  match r with
  | reg_num f =>
      match field_type f with
      | T_unit _ | T_float => SetReal32 (fl f s)
      | T_u8 => if String.eqb register_name kNodeId then SetNatural16 (num s f) else SetNatural8 (num s f)
      | T_enum => SetNatural8 (num s f)
      | T_u16 => SetNatural16 (num s f)
      end
  | reg_name => SetString (GetName_of (take (Z.to_nat kNodeNameMaxLen) (name (identity s))))
  end.
Definition ToInteger (v : RegisterValue) (max : Z) : option Z :=
  z ← GetInteger v; if (z <? 0) || (max <? z) then None else Some z.
(** FromValue(): the outcome and the member after it. *)
Definition FromInteger (v : RegisterValue) (max : Z) (f : Field) (s : NvmSettings) : RegisterWriteResult * NvmSettings :=
  match GetNumber v with
  | None => (kTypeMismatch, s)
  | Some _ => match ToInteger v max with None => (kOutOfRange, s) | Some z => (kAccepted, set_num f z s) end
  end.
Definition FromValue (v : RegisterValue) (r : RegField) (s : NvmSettings) : RegisterWriteResult * NvmSettings :=
  match r with
  | reg_num f =>
      match field_type f with
      | T_unit _ | T_float =>
          match GetNumber v with
          | None => (kTypeMismatch, s)
          | Some x => if negb (is_finite x) then (kOutOfRange, s) else (kAccepted, set_fl f x s)
          end
      | T_u8 | T_enum => FromInteger v 255 f s
      | T_u16 => FromInteger v 65535 f s
      end
  | reg_name =>
      match GetString v with
      | None => (kTypeMismatch, s)
      | Some text =>
          if kNodeNameMaxLen <? Z.of_nat (length text) then (kOutOfRange, s)
          else (kAccepted, s.{identity := (identity s).{name := text ++ replicate (51 - length text) 0}})
      end
  end.

(** ** The provider *)
Record SettingsRegisterProvider (St G : Type) := mkProvider { store_ : SettingsStore St G; write_count_ : Z }.
Arguments mkProvider {St G}.
Arguments store_ {St G}.
Arguments write_count_ {St G}.
#[export] Instance eta_SettingsRegisterProvider St G : Eta (SettingsRegisterProvider St G) := fun s =>
  mkProvider (store_ s) (write_count_ s).

Definition SettingsRegisterCount : nat := foldl (fun count _ => S count) 0%nat registers.
Definition Name (index : nat) : string := default EmptyString (entry_name <$> registers !! index).
Definition Describe (index : nat) : option RegisterDescription := DescriptionOf <$> registers !! index.

Section Provider.
Context {St G : Type} `{!StorageOps St} `{!GateOps G}.
Implicit Type p : SettingsRegisterProvider St G.

Definition WriteCount p : Z := write_count_ p.
Definition Read (index : nat) p : option RegisterValue :=
  e ← registers !! index; Some (ToValue (entry_name e) (entry_field e) (settings_ (store_ p))).
Definition Write (index : nat) (v : RegisterValue) p : RegisterWriteResult * SettingsRegisterProvider St G :=
  let operation (candidate : NvmSettings) : RegisterWriteResult * NvmSettings :=
    match registers !! index with Some e => FromValue v (entry_field e) candidate | None => (kTypeMismatch, candidate) end in
  let result := (operation (settings_ (store_ p))).1 in
  let '(kStatus, s) := Update (fun candidate => (operation candidate).2) (store_ p) in
  let p := p.{store_ := s} in
  if negb (bool_decide (result = kAccepted)) then (result, p)
  else if negb (status_eqb kStatus kSuccess) then (kOutOfRange, p)
  else (kAccepted, p.{write_count_ := u32 (write_count_ p + 1)}).
End Provider.

(** ** Lemmas *)
Lemma f_eqb_refl x : is_finite x = true -> f_eqb x x = true.
Proof.
  destruct x as [s|s| |s m e]; try done. intros _. unfold f_eqb, SFeqb, SFcompare.
  destruct s; rewrite Z.compare_refl, Pos.compare_cont_refl; done.
Qed.
Lemma integral_of_Z n : 0 <= n <= 65535 -> integral (f_of_Z n) = Some n.
Proof.
  intros Hn. destruct (f_of_Z_small n) as [F V]; [lia|]. unfold integral. rewrite (proj1 F). cbn [negb].
  destruct (f_trunc_val _ F) as (z & -> & E & _). rewrite V, Z.quot_mul in E by lia. subst z. cbn [mbind option_bind].
  rewrite f_eqb_refl by apply F. assert (fin (f_of_Z (9 * 10 ^ 15)) /\ 65536 * 2 ^ 149 <= fval (f_of_Z (9 * 10 ^ 15))) as [Fm Vm]
    by (vm_compute; done).
  assert (Abs (f_of_Z n) = f_of_Z n) as ->.
  { unfold Abs. destruct (f_ltb (f_of_Z n) f_zero) eqn:L; [|done]. apply f_ltb_val in L; [|done|done]. rewrite fval_zero in L. lia. }
  assert (f_leb (f_of_Z n) (f_of_Z (9 * 10 ^ 15)) = true) as -> by (apply f_leb_val; [done|done|lia]). done.
Qed.

(** The stored member of a register is the value [v]. *)
Definition holds (v : RegisterValue) (r : RegField) (s : NvmSettings) : Prop :=
  match r with
  | reg_num f => if is_float_field f then GetNumber v = Some (fl f s) else GetInteger v = Some (num s f)
  | reg_name => exists text, GetString v = Some text /\ name (identity s) = text ++ replicate (51 - length text) 0
  end.

Lemma FromValue_cases v r s : (forall x, GetNumber v = Some x -> f_valid x = true) ->
  ((FromValue v r s).1 <> kAccepted /\ (FromValue v r s).2 = s) \/
  ((FromValue v r s).1 = kAccepted /\ holds v r (FromValue v r s).2 /\
   forall r', r' <> r -> encode_reg (FromValue v r s).2 r' = encode_reg s r').
Proof.
  intros Hv. destruct r as [f|]; cbn [FromValue holds].
  - assert (forall n r', r' <> reg_num f -> encode_reg (set_num f n s) r' = encode_reg s r') as Other.
    { intros n [g|] N; cbn [encode_reg]; [|done]. by rewrite num_set_ne by congruence. }
    assert (forall max, is_float_field f = false -> let '(a, t) := FromInteger v max f s in
      (a <> kAccepted /\ t = s) \/ (a = kAccepted /\ GetInteger v = Some (num t f) /\
       forall r', r' <> reg_num f -> encode_reg t r' = encode_reg s r')) as Int.
    { intros max Hf. unfold FromInteger, ToInteger. destruct (GetNumber v); [|by left].
      destruct (GetInteger v) as [z|]; cbn [mbind option_bind]; [|by left]. case_if; [by left|right]. split; [done|].
      rewrite num_set_eq. by split; [|intros; apply Other]. }
    assert (is_float_field f = true -> forall x, GetNumber v = Some x -> is_finite x = true ->
      GetNumber v = Some (fl f (set_fl f x s)) /\ forall r', r' <> reg_num f -> encode_reg (set_fl f x s) r' = encode_reg s r') as Flt.
    { intros Hf x E F. split; [|by intros; apply Other]. unfold fl, set_fl. rewrite num_set_eq, float_of_bits_of_float; auto. }
    unfold is_float_field in *. destruct (field_type f).
    1,2: specialize (Int 255 eq_refl); by destruct (FromInteger v 255 f s).
    { specialize (Int 65535 eq_refl); by destruct (FromInteger v 65535 f s). }
    all: destruct (GetNumber v) as [x|]; [|by left]; destruct (is_finite x) eqn:F; cbn [negb]; [right|by left]; split; [done|];
      by apply Flt.
  - destruct (GetString v) as [text|]; [|by left]. case_if; [by left|right]. split; [done|]. split; [by exists text|].
    intros [g|] N; [done|congruence].
Qed.

(** What is read is accepted back and changes no stored form. *)
Lemma FromValue_ToValue nm r s limits : settings_ok s -> Validate s limits = kSuccess ->
  let '(result, t) := FromValue (ToValue nm r s) r s in
  result = kAccepted /\ settings_equiv t s /\ forall f, num t f = num s f.
Proof.
  intros [Hw Hn] V. destruct r as [f|]; cbn [FromValue ToValue].
  - assert (forall t : NvmSettings, num t f = num s f -> identity t = identity s -> (forall g, g <> f -> num t g = num s g) ->
      settings_equiv t s /\ forall g, num t g = num s g) as Eq.
    { intros t E1 E2 E3. assert (forall g, num t g = num s g) as E by (intros g; destruct (decide (g = f)) as [->|]; auto).
      split; [|done]. intros [g|]; cbn [encode_reg]; [by rewrite E|by rewrite E2]. }
    assert (forall max v, 0 <= num s f <= max -> max <= 65535 -> GetNumber v = Some (f_of_Z (num s f)) ->
      GetInteger v = integral (f_of_Z (num s f)) -> let '(a, t) := FromInteger v max f s in
      a = kAccepted /\ settings_equiv t s /\ forall g, num t g = num s g) as Int.
    { intros max v Hz Hm E1 E2. unfold FromInteger, ToInteger. rewrite E1, E2, integral_of_Z by lia. cbn [mbind option_bind].
      rewrite (proj2 (Z.ltb_ge _ _)), (proj2 (Z.ltb_ge _ _)) by lia. cbn [orb]. split; [done|].
      apply Eq; [apply num_set_eq|done|intros; by apply num_set_ne]. }
    pose proof (valid_floats_finite s limits f V) as Fin. specialize (Hw f). unfold in_u, field_width, is_float_field in *.
    destruct (field_type f).
    1: destruct (String.eqb nm kNodeId); apply Int; (reflexivity || lia).
    1,2: apply Int; (reflexivity || lia).
    all: cbn [SetReal32 GetNumber First head option_map id]; rewrite Fin by done; cbn [negb]; split; [done|]; apply Eq;
      [unfold set_fl; rewrite num_set_eq; by apply bits_of_float_of_bits; [|apply Fin]|done|intros; by apply num_set_ne].
  - set (text := GetName_of (take (Z.to_nat kNodeNameMaxLen) (name (identity s)))).
    assert (length text <= 50)%nat as L by apply GetName_of_take.
    unfold SetString. rewrite take_ge by (unfold kTextCapacity; lia). cbn [GetString].
    rewrite (proj2 (Z.ltb_ge _ _)) by (unfold kNodeNameMaxLen; lia). split; [done|]. split; [|done].
    intros [g|]; [done|]. cbn [encode_reg identity name set_field].
    rewrite encode_name_padded by (done || apply GetName_of_nonzero). unfold EncodeName. done.
Qed.

(** ** Properties *)
Section Properties.
Context {St G : Type} `{!StorageOps St} `{!GateOps G}.
Implicit Type p : SettingsRegisterProvider St G.

(** A register write over the bus is taken whole or not at all, in RAM
    only: either it is accepted, then the register holds exactly the written
    value, every other register is as before and the settings are valid, or it
    is refused with a reason and the settings are as before; the storage is not
    touched.  The value a register of valid settings reads is accepted back and
    changes no register. *)
Theorem register_write (index : nat) (e : RegisterEntry) (v : RegisterValue) p :
  registers !! index = Some e -> (forall x, GetNumber v = Some x -> f_valid x = true) ->
  let '(result, q) := Write index v p in
  ((result = kAccepted /\ holds v (entry_field e) (settings_ (store_ q)) /\
    Validate (settings_ (store_ q)) (capabilities (profile_ (store_ q))) = kSuccess /\
    (forall r, r <> entry_field e -> encode_reg (settings_ (store_ q)) r = encode_reg (settings_ (store_ p)) r) /\
    WriteCount q = u32 (WriteCount p + 1)) \/
   (result <> kAccepted /\ settings_ (store_ q) = settings_ (store_ p) /\ WriteCount q = WriteCount p)) /\
  profile_ (store_ q) = profile_ (store_ p) /\ storage_ (store_ q) = storage_ (store_ p) /\ stored_ (store_ q) = stored_ (store_ p) /\
  (settings_ok (settings_ (store_ p)) -> Validate (settings_ (store_ p)) (capabilities (profile_ (store_ p))) = kSuccess ->
   Read index p = Some v -> result = kAccepted /\ settings_equiv (settings_ (store_ q)) (settings_ (store_ p))).
Proof.
  intros He Hv. unfold Write, Update. rewrite He. pose proof (FromValue_cases v (entry_field e) (settings_ (store_ p)) Hv) as C.
  pose proof (FromValue_ToValue (entry_name e) (entry_field e) (settings_ (store_ p)) (capabilities (profile_ (store_ p)))) as R.
  assert (forall w, Read index p = Some w -> ToValue (entry_name e) (entry_field e) (settings_ (store_ p)) = w) as Rd.
  { intros w. unfold Read. rewrite He. cbn [mbind option_bind]. congruence. }
  destruct (Commit_cases (FromValue v (entry_field e) (settings_ (store_ p))).2 (store_ p)) as [[-> V]|(st & -> & N & V)].
  - destruct C as [[C1 C2]|(C1 & C2 & C3)].
    + rewrite bool_decide_eq_false_2 by done. cbn [negb]. cbn. rewrite C2.
      split; [right; done|]. split_and!; try done. intros Hok Vd Hr. specialize (R Hok Vd). rewrite (Rd v Hr) in R.
      destruct (FromValue v (entry_field e) _) as [a t]. cbn in *. by destruct R.
    + rewrite bool_decide_eq_true_2 by done. unfold status_eqb. rewrite bool_decide_eq_true_2 by done. cbn [negb]. cbn.
      split; [left; done|]. split_and!; try done. intros Hok Vd Hr. specialize (R Hok Vd). rewrite (Rd v Hr) in R.
      destruct (FromValue v (entry_field e) _) as [a t]. cbn in *. by destruct R as (? & ? & _).
  - assert (settings_ok (settings_ (store_ p)) -> Validate (settings_ (store_ p)) (capabilities (profile_ (store_ p))) = kSuccess ->
      Read index p = Some v -> False) as No.
    { intros Hok Vd Hr. specialize (R Hok Vd). rewrite (Rd v Hr) in R. destruct (FromValue v (entry_field e) _) as [a t].
      destruct R as (_ & _ & Hn). cbn [snd] in V. rewrite (Validate_ext t (settings_ (store_ p))) in V by done. congruence. }
    unfold status_eqb. rewrite (bool_decide_eq_false_2 (st = kSuccess)) by done. cbn [negb].
    destruct C as [[C1 _]|(C1 & _)]; [rewrite bool_decide_eq_false_2 by done|rewrite bool_decide_eq_true_2 by done];
      cbn; (split; [right; done|]; split_and!; try done; intros; by destruct No).
Qed.
End Properties.

(** The pole pairs of the settings of the tests, written as 7 and as 0. *)
Definition demo_provider : SettingsRegisterProvider _ _ := mkProvider (sim_tuned false) 0.
Lemma register_write_witness :
  (Write 3 (V_integer32 [7]) demo_provider).1 = kAccepted /\
  num (settings_ (store_ (Write 3 (V_integer32 [7]) demo_provider).2)) pole_pairs = 7.
Proof.
  destruct (registers !! 3%nat) as [e|] eqn:He; [|discriminate He].
  pose proof (register_write 3 e (V_integer32 [7]) demo_provider He) as H.
  assert ((Write 3 (V_integer32 [7]) demo_provider).1 = kAccepted) as A by (vm_compute; reflexivity).
  split; [exact A|]. destruct (Write 3 (V_integer32 [7]) demo_provider) as [result q]. cbn [fst snd] in *.
  destruct H as [[(_ & Hh & _)|(N & _)] _]; [intros x [= <-]; reflexivity| |contradiction (N A)].
  injection He as <-. cbn in Hh. injection Hh as Hh. symmetry. exact Hh.
Defined.

End Registers.
