(* ===== verification/CartControl.v ===== *)
(** * Cart: the torque source of a wheel drive

    src/drive/cart_control.{hpp,cpp} and src/current_control/battery_limits.hpp:
    the wheel command of the vehicle controller, limp-home on the pedals, the
    ramp to zero, and the battery limits of the BMS. *)
From Stdlib Require Import ZArith Lia Bool SpecFloat.
From stdpp Require Import base decidable list.
From S2P Require Import Prelude Float32 FloatRound SettingsData.
Import SettingsData.

#[local] Open Scope Z_scope.
#[local] Open Scope unimoc_scope.

Module CartControl.

(** ** Data *)
Record BatteryLimits := mkBatteryLimits { valid : bool; drive_current : float; charge_current : float }.
Definition BatteryLimits_init : BatteryLimits := mkBatteryLimits false f_zero f_zero.

Record CartParameters := mkCartParameters {
  wheel : Z;
  reversed : bool;
  timeout : float;
  torque_ramp : float;
  limp_home_torque : float;
  standstill_speed : float;
  battery_share : float }.
Definition CartParameters_init : CartParameters := mkCartParameters 0 false f_zero f_zero f_zero f_zero f_zero.
(** CartParameters::From(). *)
Definition CartParameters_From (settings : NvmSettings) : CartParameters :=
  mkCartParameters (num settings cart_wheel) (negb (num settings cart_reversed =? 0)) (fl cart_timeout settings)
    (fl cart_torque_ramp settings) (fl cart_limp_home_torque settings) (fl cart_standstill_speed settings)
    (fl cart_battery_share settings).

Record CartPedals := mkCartPedals {
  drive : float * float;
  brake : float * float;
  drive_plausible : bool;
  brake_plausible : bool }.
Definition CartPedals_init : CartPedals := mkCartPedals (f_zero, f_zero) (f_zero, f_zero) false false.

(** The contactor of the message: a byte, of which four values have a name. *)
Definition Contactor : Type := Z.
Definition kOpen : Contactor := 0.
Definition kClosed : Contactor := 2.
Definition kOpening : Contactor := 3.
Record CartBattery := mkCartBattery { discharge_limit : float; charge_limit : float; contactor : Contactor }.
Definition CartBattery_init : CartBattery := mkCartBattery f_zero f_zero kOpen.

Inductive CartMode := kOff | kVdc | kLimpHome | kStopping.
#[export] Instance CartMode_eq_dec : EqDecision CartMode.
Proof. solve_decision. Defined.
Definition mode_eqb (a b : CartMode) : bool := bool_decide (a = b).

Record CartOutput := mkCartOutput { mode : CartMode; torque : float; holds_engagement : bool }.
Definition CartOutput_init : CartOutput := mkCartOutput kOff f_zero false.

Record CartControl := mkCartControl {
  parameters_ : CartParameters;
  mode_ : CartMode;
  torque_ : float;
  last_update_us_ : Z;
  updated_ : bool;
  has_command_ : bool;
  command_us_ : Z;
  command_torque_ : float;
  has_pedals_ : bool;
  pedals_us_ : Z;
  pedals_ : CartPedals;
  has_battery_ : bool;
  battery_us_ : Z;
  battery_ : CartBattery }.
#[export] Instance eta_CartControl : Eta CartControl := fun s =>
  mkCartControl (parameters_ s) (mode_ s) (torque_ s) (last_update_us_ s) (updated_ s) (has_command_ s) (command_us_ s)
    (command_torque_ s) (has_pedals_ s) (pedals_us_ s) (pedals_ s) (has_battery_ s) (battery_us_ s) (battery_ s).
Definition CartControl_init : CartControl :=
  mkCartControl CartParameters_init kOff f_zero 0 false false 0 f_zero false 0 CartPedals_init false 0 CartBattery_init.

(** ** Operations *)
Definition kPedalDeadband : float := f_lit 1 20.
Definition ClampTravel (value : float) : float :=
  if IsFinite value then Clamp value f_zero f_one else f_zero.
Definition Microseconds (duration_us : Z) : float := f_mul (f_lit 1 1000000) (f_of_Z duration_us).

Definition Configure (parameters : CartParameters) (s : CartControl) : CartControl := s.{parameters_ := parameters}.
Definition Reset (s : CartControl) : CartControl := s.{mode_ := kOff}.{torque_ := f_zero}.
Definition OnWheelCommand (wheel_torque : float) (now_us : Z) (s : CartControl) : CartControl :=
  s.{has_command_ := true}.{command_us_ := now_us}
   .{command_torque_ := if IsFinite wheel_torque then wheel_torque else f_zero}.
Definition OnPedalState (pedals : CartPedals) (now_us : Z) (s : CartControl) : CartControl :=
  s.{has_pedals_ := true}.{pedals_us_ := now_us}.{pedals_ := pedals}.
Definition OnBatteryStatus (battery : CartBattery) (now_us : Z) (s : CartControl) : CartControl :=
  s.{has_battery_ := true}.{battery_us_ := now_us}.{battery_ := battery}.
Definition OnBusLost (s : CartControl) : CartControl :=
  s.{has_command_ := false}.{has_pedals_ := false}.{has_battery_ := false}.

Definition Fresh (received : bool) (at_us now_us : Z) (s : CartControl) : bool :=
  received && f_leb (Microseconds (u64 (now_us - at_us))) (timeout (parameters_ s)).
Definition ToCart (s : CartControl) (value : float) : float :=
  if reversed (parameters_ s) then f_neg value else value.

Definition PedalTorque (speed : float) (s : CartControl) : float :=
  let p := parameters_ s in
  let brake := Max (Max f_zero (ClampTravel (brake (pedals_ s)).1)) (ClampTravel (brake (pedals_ s)).2) in
  if f_gtb brake kPedalDeadband then
    let kFade := if f_gtb (standstill_speed p) f_zero
                 then Min (f_div (Abs speed) (standstill_speed p)) f_one else f_one in
    let kBrake := f_mul (f_mul (limp_home_torque p) brake) kFade in
    if f_gtb speed f_zero then f_neg kBrake
    else if f_ltb speed f_zero then kBrake else f_zero
  else if negb (drive_plausible (pedals_ s)) then f_zero
  else
    let kDrive := Min (ClampTravel (drive (pedals_ s)).1) (ClampTravel (drive (pedals_ s)).2) in
    if f_gtb kDrive kPedalDeadband then f_mul (limp_home_torque p) kDrive else f_zero.

(** The first switch of Update(): the next mode. *)
Definition next_mode (m : CartMode) (kCommand kPedals kStandstill : bool) : CartMode :=
  match m with
  | kOff => if kCommand then kVdc else kOff
  | kVdc => if negb kCommand then (if kPedals then kLimpHome else kStopping) else kVdc
  | kLimpHome | kStopping =>
      if kCommand && kStandstill then kVdc else if kPedals then kLimpHome else kStopping
  end.
(** The second switch: the torque of the mode. *)
Definition next_torque (kDt kSpeed : float) (s : CartControl) : float :=
  match mode_ s with
  | kOff => f_zero
  | kVdc => command_torque_ s
  | kLimpHome | kStopping =>
      let kTarget := if mode_eqb (mode_ s) kLimpHome then PedalTorque kSpeed s else f_zero in
      let kStep := f_mul (torque_ramp (parameters_ s)) kDt in
      Clamp kTarget (f_sub (torque_ s) kStep) (f_add (torque_ s) kStep)
  end.

Definition Update (now_us : Z) (shaft_speed : float) (engaged : bool) (s : CartControl) : CartOutput * CartControl :=
  let kDt := if updated_ s then Microseconds (u64 (now_us - last_update_us_ s)) else f_zero in
  let s := s.{updated_ := true}.{last_update_us_ := now_us} in
  if negb engaged then (CartOutput_init, Reset s)
  else
    let kCommand := Fresh (has_command_ s) (command_us_ s) now_us s in
    let kPedals := Fresh (has_pedals_ s) (pedals_us_ s) now_us s in
    let kSpeed := ToCart s shaft_speed in
    let kStandstill := f_leb (Abs kSpeed) (standstill_speed (parameters_ s)) in
    let s := s.{mode_ := next_mode (mode_ s) kCommand kPedals kStandstill} in
    let s := s.{torque_ := next_torque kDt kSpeed s} in
    (mkCartOutput (mode_ s) (ToCart s (torque_ s))
       (mode_eqb (mode_ s) kLimpHome || (mode_eqb (mode_ s) kStopping && negb (f_eqb (torque_ s) f_zero))), s).

Definition Battery (now_us : Z) (s : CartControl) : BatteryLimits :=
  let b := battery_ s in
  if negb (Fresh (has_battery_ s) (battery_us_ s) now_us s) then BatteryLimits_init
  else if negb (IsFinite (discharge_limit b)) || negb (IsFinite (charge_limit b)) then BatteryLimits_init
  else
    let kConnected := (contactor b =? kClosed) || (contactor b =? kOpening) in
    if negb kConnected then mkBatteryLimits true f_zero f_zero
    else mkBatteryLimits true
           (f_mul (Max (discharge_limit b) f_zero) (battery_share (parameters_ s)))
           (f_mul (Max (charge_limit b) f_zero) (battery_share (parameters_ s))).

(** The events of a drive's life the cart control sees. *)
Inductive cart_event :=
| ev_configure (p : CartParameters)
| ev_reset
| ev_command (t : float) (now : Z)
| ev_pedals (p : CartPedals) (now : Z)
| ev_battery (b : CartBattery) (now : Z)
| ev_bus_lost
| ev_update (now : Z) (speed : float) (engaged : bool).
Definition run_cart_event (s : CartControl) (e : cart_event) : CartControl :=
  match e with
  | ev_configure p => Configure p s
  | ev_reset => Reset s
  | ev_command t now => OnWheelCommand t now s
  | ev_pedals p now => OnPedalState p now s
  | ev_battery b now => OnBatteryStatus b now s
  | ev_bus_lost => OnBusLost s
  | ev_update now speed engaged => (Update now speed engaged s).2
  end.

(** ** Lemmas *)
(** Parameters that a validated settings image gives: finite, non-negative. *)
Record params_ok (p : CartParameters) : Prop := mkParamsOk {
  po_ramp : fin (torque_ramp p) /\ f_leb f_zero (torque_ramp p) = true;
  po_limp : fin (limp_home_torque p) /\ f_leb f_zero (limp_home_torque p) = true;
  po_standstill : fin (standstill_speed p) /\ f_leb f_zero (standstill_speed p) = true;
  po_share : fin (battery_share p) /\ f_leb f_zero (battery_share p) = true /\ f_leb (battery_share p) f_one = true }.

Definition pedals_valid (p : CartPedals) : Prop :=
  f_valid (drive p).1 = true /\ f_valid (drive p).2 = true /\ f_valid (brake p).1 = true /\ f_valid (brake p).2 = true.

Lemma ClampTravel_ratio x : f_valid x = true -> ratio (ClampTravel x).
Proof.
  intros V. unfold ClampTravel, IsFinite. destruct (is_finite x) eqn:F; [|done].
  assert (fin x) as Fx by done. destruct (Clamp_range x f_zero f_one) as [L U]; [by apply fin_not_nan|done|].
  split; [|done]. eapply (fin_between _ f_zero f_one); try done.
  unfold Clamp, std_min, std_max. by repeat case_if.
Qed.
Lemma Max_ratio a b : ratio a -> ratio b -> ratio (Max a b).
Proof. intros Ha Hb. unfold Max. by case_if. Qed.
Lemma Min_ratio a b : ratio a -> ratio b -> ratio (Min a b).
Proof. intros Ha Hb. unfold Min. by case_if. Qed.

Lemma fin_Abs x : fin x -> fin (Abs x).
Proof. intros F. unfold Abs. case_if; [by apply fin_neg|done]. Qed.
Lemma Abs_nonneg x : fin x -> f_leb f_zero (Abs x) = true.
Proof.
  intros F. unfold Abs. case_if.
  - rewrite f_leb_neg_r. by apply f_ltb_leb.
  - apply f_ltb_ge; [by apply fin_not_nan|done|done].
Qed.

(** The fade of the brake torque. *)
Lemma fade_ratio speed st : fin speed -> fin st ->
  ratio (if f_gtb st f_zero then Min (f_div (Abs speed) st) f_one else f_one).
Proof.
  intros Fs Ft. case_if; [|done]. pose proof (fin_Abs _ Fs) as Fa. pose proof (Abs_nonneg _ Fs) as Na.
  apply f_leb_val in Na; [|done|done]. apply f_ltb_val in Hif; [|done|done]. rewrite fval_zero in *.
  pose proof (f_div_nonneg (Abs speed) st Fa Ft Na Hif) as L. pose proof (f_div_valid (Abs speed) st Fa Ft) as V.
  unfold Min. destruct (f_ltb f_one (f_div (Abs speed) st)) eqn:E; [done|].
  destruct (f_leb_not_nan _ _ L) as [_ N]. apply f_ltb_ge in E; [|done|done].
  split; [|done]. by eapply (fin_between _ f_zero f_one).
Qed.

(** A torque times two ratios. *)
Lemma torque_ratio t r q : fin t -> f_leb f_zero t = true -> ratio r -> ratio q ->
  fin (f_mul (f_mul t r) q) /\ f_leb f_zero (f_mul (f_mul t r) q) = true /\ f_leb (f_mul (f_mul t r) q) t = true.
Proof.
  intros Ft Nt (Fr & R0 & R1) (Fq & Q0 & Q1). destruct (f_mul_ratio t r) as (F1 & L1 & U1); try done.
  destruct (f_mul_ratio (f_mul t r) q) as (F2 & L2 & U2); try done. split; [done|]. split; [done|]. by eapply f_leb_trans.
Qed.

Definition pressed (p : CartPedals) : bool :=
  f_gtb (Max (Max f_zero (ClampTravel (brake p).1)) (ClampTravel (brake p).2)) kPedalDeadband.
(** Either brake channel past the deadband is enough. *)
Lemma pressed_spec p : pedals_valid p ->
  pressed p = f_gtb (ClampTravel (brake p).1) kPedalDeadband || f_gtb (ClampTravel (brake p).2) kPedalDeadband.
Proof.
  intros (_ & _ & V1 & V2). destruct (ClampTravel_ratio _ V1) as (F1 & L1 & _), (ClampTravel_ratio _ V2) as (F2 & L2 & _).
  assert (fin kPedalDeadband) as Fk by done. unfold pressed, Max.
  apply f_leb_val in L1, L2; try done. rewrite fval_zero in *. assert (0 < fval kPedalDeadband) as K by (vm_compute; done).
  apply eq_iff_eq_true. rewrite orb_true_iff.
  destruct (f_ltb f_zero (ClampTravel (brake p).1)) eqn:E1.
  - destruct (f_ltb (ClampTravel (brake p).1) (ClampTravel (brake p).2)) eqn:E2; rewrite !f_ltb_val by done.
    + apply f_ltb_val in E2; try done. lia.
    + apply not_true_iff_false in E2. rewrite f_ltb_val in E2 by done. lia.
  - apply not_true_iff_false in E1. rewrite f_ltb_val, fval_zero in E1 by done.
    destruct (f_ltb f_zero (ClampTravel (brake p).2)) eqn:E2; rewrite !f_ltb_val by done; rewrite ?fval_zero.
    + apply f_ltb_val in E2; try done. rewrite fval_zero in E2. lia.
    + apply not_true_iff_false in E2. rewrite f_ltb_val, fval_zero in E2 by done. lia.
Qed.

Lemma neg_bounds t m : fin t -> f_leb f_zero t = true -> f_leb t m = true ->
  f_leb (f_neg m) (f_neg t) = true /\ f_leb (f_neg t) f_zero = true.
Proof. intros F L U. by rewrite f_leb_neg, f_leb_neg_l. Qed.

(** The ways of PedalTorque(). *)
Inductive pedal_torque (s : CartControl) (speed : float) : float -> Prop :=
| pt_forward_brake t : pressed (pedals_ s) = true -> f_gtb speed f_zero = true ->
    fin t -> f_leb f_zero t = true -> f_leb t (limp_home_torque (parameters_ s)) = true -> pedal_torque s speed (f_neg t)
| pt_backward_brake t : pressed (pedals_ s) = true -> f_ltb speed f_zero = true ->
    fin t -> f_leb f_zero t = true -> f_leb t (limp_home_torque (parameters_ s)) = true -> pedal_torque s speed t
| pt_none : pedal_torque s speed f_zero
| pt_drive t : pressed (pedals_ s) = false -> drive_plausible (pedals_ s) = true ->
    fin t -> f_leb f_zero t = true -> f_leb t (limp_home_torque (parameters_ s)) = true -> pedal_torque s speed t.

Lemma PedalTorque_cases s speed : params_ok (parameters_ s) -> pedals_valid (pedals_ s) -> fin speed ->
  pedal_torque s speed (PedalTorque speed s).
Proof.
  intros [_ [Fl Nl] [Fst Nst] _] (V1 & V2 & V3 & V4) Fs.
  pose proof (fade_ratio speed _ Fs Fst) as Rf. unfold PedalTorque. cbv zeta. fold (pressed (pedals_ s)).
  destruct (pressed (pedals_ s)) eqn:P.
  - assert (ratio (Max (Max f_zero (ClampTravel (brake (pedals_ s)).1)) (ClampTravel (brake (pedals_ s)).2))) as Rb.
    { apply Max_ratio; [apply Max_ratio; [done|]|]; by apply ClampTravel_ratio. }
    destruct (torque_ratio _ _ _ Fl Nl Rb Rf) as (F & L & U).
    case_if; [by apply pt_forward_brake|]. case_if; [by apply pt_backward_brake|apply pt_none].
  - destruct (drive_plausible (pedals_ s)) eqn:D; cbn [negb]; [|apply pt_none].
    case_if; [|apply pt_none].
    destruct (Min_ratio _ _ (ClampTravel_ratio _ V1) (ClampTravel_ratio _ V2)) as (Fr & R0 & R1).
    destruct (f_mul_ratio (limp_home_torque (parameters_ s)) _ Fl Fr Nl R0 R1) as (F & L & U). by apply pt_drive.
Qed.

(** *** Reachable states *)
Record cart_ok (s : CartControl) : Prop := mkCartOk {
  co_params : params_ok (parameters_ s);
  co_pedals : pedals_valid (pedals_ s);
  co_command : fin (command_torque_ s);
  co_torque : fin (torque_ s) }.

(** What the settings and the messages give: floats of the format. *)
Definition event_valid (e : cart_event) : Prop :=
  match e with
  | ev_configure p => params_ok p
  | ev_command t _ => f_valid t = true
  | ev_pedals p _ => pedals_valid p
  | ev_update _ speed _ => fin speed
  | ev_battery b _ => f_valid (discharge_limit b) = true /\ f_valid (charge_limit b) = true
  | ev_reset | ev_bus_lost => True
  end.

Lemma f_of_Z_fin z : 0 <= z < 2 ^ 64 -> fin (f_of_Z z) /\ f_leb f_zero (f_of_Z z) = true.
Proof.
  intros Hz. assert (f_leb f_zero (f_of_Z z) = true) as L by (apply normalize_ge; rewrite ?fval_zero; done || lia).
  split; [|done]. destruct (representable 1 64) as (m & Fm & Vm); [lia|lia|].
  eapply (fin_between _ f_zero m); [apply f_of_Z_valid|done| |done|apply Fm].
  apply normalize_le; [done|done|]. rewrite Vm. change (0 + 149) with 149. change (64 + 149) with (64 + 149).
  rewrite Z.pow_add_r by lia. lia.
Qed.
Lemma Microseconds_fin d : in_u 64 d -> fin (Microseconds d) /\ f_leb f_zero (Microseconds d) = true.
Proof.
  intros Hd. destruct (f_of_Z_fin d Hd) as [F L]. unfold Microseconds. rewrite f_mul_comm.
  destruct (f_mul_ratio (f_of_Z d) (f_lit 1 1000000)) as (Fm & Lm & _); done.
Qed.

(** The step of the ramp, infinite at worst. *)
Lemma step_range t st : fin t -> f_valid st = true -> f_leb f_zero st = true ->
  f_leb (f_sub t st) t = true /\ f_leb t (f_add t st) = true /\ f_valid (f_sub t st) = true /\ f_valid (f_add t st) = true.
Proof.
  intros Ft V L. destruct (is_finite st) eqn:F.
  - assert (fin st) as Fs by done. split; [by apply f_sub_below|]. split; [by apply f_add_above|].
    split; [rewrite f_sub_add; apply f_add_valid; [done|by apply fin_neg]|by apply f_add_valid].
  - destruct st as [|[]| |]; try done. by destruct t as [|[]| |[]]; destruct Ft.
Qed.
Lemma Clamp_fin x t lo hi : fin x -> fin t -> f_leb lo t = true -> f_leb t hi = true ->
  f_valid lo = true -> f_valid hi = true ->
  fin (Clamp x lo hi) /\ f_leb lo (Clamp x lo hi) = true /\ f_leb (Clamp x lo hi) hi = true.
Proof.
  intros Fx Ft L U Vl Vh. pose proof (f_leb_trans _ _ _ L U) as LU.
  destruct (Clamp_range x lo hi) as [R1 R2]; [by apply fin_not_nan|done|]. split; [|done].
  unfold Clamp, std_min, std_max in *. destruct (f_ltb x lo) eqn:E1.
  - assert (fin lo) as Fl by (eapply (fin_between lo x t); try done; [by apply f_ltb_leb|apply Fx|apply Ft]).
    destruct (f_ltb hi lo) eqn:E2; [|done]. eapply (fin_between hi t lo); try done; [by apply f_ltb_leb|apply Ft|apply Fl].
  - destruct (f_ltb hi x) eqn:E2; [|done]. eapply (fin_between hi t x); try done; [by apply f_ltb_leb|apply Ft|apply Fx].
Qed.

Lemma PedalTorque_fin s speed : params_ok (parameters_ s) -> pedals_valid (pedals_ s) -> fin speed ->
  fin (PedalTorque speed s).
Proof. intros Hp Hv Fs. destruct (PedalTorque_cases s speed Hp Hv Fs); try done. by apply fin_neg. Qed.

(** The ramp of limp-home and of the stop. *)
Lemma next_torque_ramp s dt speed : cart_ok s -> fin dt -> f_leb f_zero dt = true -> fin speed ->
  fin (next_torque dt speed s) /\
  (mode_ s = kLimpHome \/ mode_ s = kStopping ->
   let step := f_mul (torque_ramp (parameters_ s)) dt in
   f_leb (f_sub (torque_ s) step) (next_torque dt speed s) = true /\
   f_leb (next_torque dt speed s) (f_add (torque_ s) step) = true).
Proof.
  intros [Hp Hv Hc Ht] Fd Nd Fs. pose proof Hp as [[Fr Nr] _ _ _]. unfold next_torque.
  set (step := f_mul (torque_ramp (parameters_ s)) dt).
  destruct (step_range (torque_ s) step Ht) as (L & U & V1 & V2); [by apply f_mul_valid|by apply f_mul_nonneg|].
  pose proof (PedalTorque_fin s speed Hp Hv Fs) as Fp.
  assert (forall x, fin x -> let y := Clamp x (f_sub (torque_ s) step) (f_add (torque_ s) step) in
    fin y /\ f_leb (f_sub (torque_ s) step) y = true /\ f_leb y (f_add (torque_ s) step) = true) as C.
  { intros x Fx. by apply (Clamp_fin x (torque_ s)). }
  destruct (mode_ s).
  - split; [done|]. by intros [|].
  - split; [done|]. by intros [|].
  - destruct (C _ Fp). done.
  - destruct (C f_zero fin_zero). done.
Qed.

Lemma ToCart_fin s x : fin x -> fin (ToCart s x).
Proof. intros F. unfold ToCart. case_if; [by apply fin_neg|done]. Qed.

Lemma run_cart_event_ok s e : cart_ok s -> event_valid e -> cart_ok (run_cart_event s e).
Proof.
  intros Ok. pose proof Ok as [Hp Hv Hc Ht]. destruct e as [p| |t now|p now|b now| |now speed engaged]; cbn; intros V; try by split.
  - split; cbn; try done. unfold IsFinite. by destruct (is_finite t) eqn:F.
  - unfold Update. destruct engaged; cbn [negb snd]; [|by split].
    assert (fin (if updated_ s then Microseconds (u64 (now - last_update_us_ s)) else f_zero) /\
      f_leb f_zero (if updated_ s then Microseconds (u64 (now - last_update_us_ s)) else f_zero) = true) as [Fd Nd].
    { case_if; [|done]. apply Microseconds_fin. by apply wrap_in_u. }
    split; try done. cbn [torque_ set_field]. apply next_torque_ramp; [by split|done|done|by apply ToCart_fin].
Qed.

Inductive cart_reachable : CartControl -> Prop :=
| cr_init : cart_reachable CartControl_init
| cr_step s e : cart_reachable s -> event_valid e -> cart_reachable (run_cart_event s e).
Lemma cart_reachable_ok s : cart_reachable s -> cart_ok s.
Proof. induction 1; [by repeat split|by apply run_cart_event_ok]. Qed.

(** *** The stop *)

(** Updates at a fixed period with the given shaft speeds: the last output and
    the state after them. *)
Fixpoint updates (period now : Z) (speeds : list float) (os : CartOutput * CartControl) : CartOutput * CartControl :=
  match speeds with
  | [] => os
  | v :: rest => updates period (now + period) rest (Update (now + period) v true os.2)
  end.

(** No input: no wheel command, no pedals. *)
Definition inputs_lost (s : CartControl) : Prop := has_command_ s = false /\ has_pedals_ s = false.

Lemma update_lost s now period v : inputs_lost s -> in_u 64 period -> mode_ s <> kOff ->
  updated_ s = true -> last_update_us_ s = now ->
  let '(o, t) := Update (now + period) v true s in
  holds_engagement o = negb (f_eqb (torque_ t) f_zero) /\ inputs_lost t /\ mode_ t = kStopping /\ updated_ t = true /\ last_update_us_ t = now + period /\
  parameters_ t = parameters_ s /\
  torque_ t = ramp_to_zero (torque_ s) (f_mul (torque_ramp (parameters_ s)) (Microseconds period)).
Proof.
  intros [Hc Hp] Hper Hm Hu Hl. unfold Update, Fresh. cbn. rewrite Hc, Hp, Hu, Hl. cbn [andb].
  replace (now + period - now) with period by lia. rewrite wrap_id by done.
  split; [by destruct (mode_ s)|]. split; [done|]. destruct (mode_ s); done.
Qed.

Lemma updates_lost speeds o s now period : inputs_lost s -> in_u 64 period -> mode_ s <> kOff ->
  updated_ s = true -> last_update_us_ s = now -> speeds <> [] ->
  let '(o', t) := updates period now speeds (o, s) in
  mode_ t = kStopping /\ holds_engagement o' = negb (f_eqb (torque_ t) f_zero) /\
  torque_ t =
    Nat.iter (length speeds) (fun x => ramp_to_zero x (f_mul (torque_ramp (parameters_ s)) (Microseconds period))) (torque_ s).
Proof.
  revert o s now. induction speeds as [|v rest IH]; intros o s now Hi Hper Hm Hu Hl Hne; [done|]. cbn [updates length snd].
  pose proof (update_lost s now period v Hi Hper Hm Hu Hl) as U. destruct (Update (now + period) v true s) as [o1 s1].
  destruct U as (Hh & Hi' & Hm' & Hu' & Hl' & Hp' & Ht').
  destruct rest as [|w rest]; [cbn [updates length]; split; [exact Hm'|]; split; [exact Hh|exact Ht']|].
  assert (mode_ s1 <> kOff) as Hm1 by by rewrite Hm'.
  pose proof (IH o1 s1 (now + period) Hi' Hper Hm1 Hu' Hl' ltac:(done)) as R.
  destruct (updates period (now + period) (w :: rest) (o1, s1)) as [o' t]. destruct R as (M & H & T).
  split; [exact M|]. split; [exact H|]. rewrite T, Ht', Hp'.
  exact (eq_sym (Nat.iter_succ_r (length (w :: rest))
    (fun x => ramp_to_zero x (f_mul (torque_ramp (parameters_ s)) (Microseconds period))) (torque_ s))).
Qed.

(** The mode machine of an engaged cart drive. *)
Inductive mode_step (command pedals standstill : bool) : CartMode -> CartMode -> Prop :=
| ms_wait : command = false -> mode_step command pedals standstill kOff kOff
| ms_start : command = true -> mode_step command pedals standstill kOff kVdc
| ms_follow : command = true -> mode_step command pedals standstill kVdc kVdc
| ms_timeout : command = false -> mode_step command pedals standstill kVdc (if pedals then kLimpHome else kStopping)
| ms_retake m : m = kLimpHome \/ m = kStopping -> command = true -> standstill = true ->
    mode_step command pedals standstill m kVdc
| ms_lost m : m = kLimpHome \/ m = kStopping -> command = false \/ standstill = false ->
    mode_step command pedals standstill m (if pedals then kLimpHome else kStopping).

Lemma next_mode_step m c p st : mode_step c p st m (next_mode m c p st).
Proof.
  destruct m, c, st; cbn; try (by constructor); try (by apply ms_retake; auto); try (apply ms_lost; auto).
Qed.

(** ** Properties *)

(** C21. Limp-home torque is safe: whatever the pedal channels report, failed
    ones included, the torque stays within the limp-home torque; a pressed
    brake (either channel) never drives in the direction of motion and gives no
    torque at standstill; without the brake the torque is never backward, and
    it is zero when the drive pedal is not plausible. *)
Theorem limp_home_torque_safe (s : CartControl) (speed : float) :
  params_ok (parameters_ s) -> pedals_valid (pedals_ s) -> fin speed ->
  let t := PedalTorque speed s in
  let braking := f_gtb (ClampTravel (brake (pedals_ s)).1) kPedalDeadband ||
                 f_gtb (ClampTravel (brake (pedals_ s)).2) kPedalDeadband in
  fin t /\ f_leb (f_neg (limp_home_torque (parameters_ s))) t = true /\
  f_leb t (limp_home_torque (parameters_ s)) = true /\
  (braking = true -> f_gtb speed f_zero = true -> f_leb t f_zero = true) /\
  (braking = true -> f_ltb speed f_zero = true -> f_leb f_zero t = true) /\
  (braking = true -> f_eqb speed f_zero = true -> t = f_zero) /\
  (braking = false -> f_leb f_zero t = true) /\
  (braking = false -> drive_plausible (pedals_ s) = false -> t = f_zero).
Proof.
  intros Hp Hv Fs. cbv zeta. rewrite <- pressed_spec by done.
  pose proof Hp as [_ [Fl Nl] _ _].
  assert (f_leb (f_neg (limp_home_torque (parameters_ s))) f_zero = true) as Nn by by rewrite f_leb_neg_l.
  assert (forall x, f_ltb f_zero x = true -> f_eqb x f_zero = false) as E1 by (by intros [[]|[]| |[] m e]).
  assert (forall x, f_ltb x f_zero = true -> f_eqb x f_zero = false) as E2 by (by intros [[]|[]| |[] m e]).
  assert (forall x, f_ltb f_zero x = true -> f_ltb x f_zero = true -> False) as E3 by (by intros [[]|[]| |[] m e]).
  assert (forall x, fin x -> f_leb f_zero x = true -> f_leb (f_neg (limp_home_torque (parameters_ s))) x = true) as Lo.
  { intros x Fx Hx. by eapply f_leb_trans. }
  destruct (PedalTorque_cases s speed Hp Hv Fs) as [t P D F L U|t P D F L U| |t P D F L U].
  - destruct (neg_bounds t _ F L U) as [B1 B2]. rewrite (E1 _ D), P.
    split; [by apply fin_neg|]. split; [done|]. split; [by eapply f_leb_trans|].
    split; [done|]. split; [intros _ D'; destruct (E3 _ D D')|done].
  - rewrite (E2 _ D), P. split; [done|]. split; [by apply Lo|]. split; [done|].
    split; [intros _ D'; destruct (E3 _ D' D)|]. split; [done|]. split; [done|]. done.
  - done.
  - rewrite P, D. split; [done|]. split; [by apply Lo|]. done.
Qed.
Lemma limp_home_torque_safe_witness :
  let p := mkCartParameters 1 false (f_lit 1 10) (f_of_Z 50) (f_of_Z 5) f_one f_one in
  let pedals := mkCartPedals (f_half, f_half) (S754_nan, f_half) true true in
  let s := OnPedalState pedals 1000 (Configure p CartControl_init) in
  f_leb (f_neg (f_of_Z 5)) (PedalTorque (f_of_Z 3) s) = true /\ f_leb (PedalTorque (f_of_Z 3) s) f_zero = true.
Proof.
  intros p pedals s.
  destruct (limp_home_torque_safe s (f_of_Z 3)) as (_ & H1 & _ & H2 & _); [by repeat split|by repeat split|done|].
  split; [exact H1|]. apply H2; reflexivity.
Defined.

(** C20. One update of an engaged cart drive, from any reachable state: the mode
    follows the mode machine (a wheel command takes over again only when it is
    fresh and the cart stands still); in [kVdc] the torque is the command, and
    in limp-home or stopping it is within one ramp step of the torque before. *)
Theorem cart_update_machine (s : CartControl) (now : Z) (speed : float) :
  cart_reachable s -> fin speed ->
  let '(o, t) := Update now speed true s in
  let command := Fresh (has_command_ s) (command_us_ s) now s in
  let pedals := Fresh (has_pedals_ s) (pedals_us_ s) now s in
  let standstill := f_leb (Abs (ToCart s speed)) (standstill_speed (parameters_ s)) in
  let dt := if updated_ s then Microseconds (u64 (now - last_update_us_ s)) else f_zero in
  let step := f_mul (torque_ramp (parameters_ s)) dt in
  mode_step command pedals standstill (mode_ s) (mode o) /\ mode_ t = mode o /\
  torque o = ToCart s (torque_ t) /\ fin (torque_ t) /\
  match mode o with
  | kOff => torque_ t = f_zero
  | kVdc => torque_ t = command_torque_ s
  | kLimpHome | kStopping =>
      f_leb (f_sub (torque_ s) step) (torque_ t) = true /\ f_leb (torque_ t) (f_add (torque_ s) step) = true
  end.
Proof.
  intros Hr Fs. pose proof (cart_reachable_ok s Hr) as Ok. unfold Update. cbn [negb]. cbv zeta.
  set (dt := if updated_ s then Microseconds (u64 (now - last_update_us_ s)) else f_zero).
  assert (fin dt /\ f_leb f_zero dt = true) as [Fd Nd] by (unfold dt; case_if; [apply Microseconds_fin; by apply wrap_in_u|done]).
  change (Fresh _ _ now (s.{updated_ := true}.{last_update_us_ := now})) with (Fresh (has_command_ s) (command_us_ s) now s) at 1.
  set (command := Fresh (has_command_ s) (command_us_ s) now s). set (pedals := Fresh (has_pedals_ s) (pedals_us_ s) now s).
  set (standstill := f_leb (Abs (ToCart s speed)) (standstill_speed (parameters_ s))).
  set (s' := s.{updated_ := true}.{last_update_us_ := now}.{mode_ := next_mode (mode_ s) command pedals standstill}).
  assert (cart_ok s') as Ok' by (destruct Ok; by split).
  destruct (next_torque_ramp s' dt (ToCart s speed) Ok' Fd Nd (ToCart_fin s speed Fs)) as [F R].
  split; [exact (next_mode_step (mode_ s) command pedals standstill)|]. split; [done|]. split; [done|]. split; [exact F|].
  change (match mode_ s' with
    | kOff => next_torque dt (ToCart s speed) s' = f_zero
    | kVdc => next_torque dt (ToCart s speed) s' = command_torque_ s'
    | kLimpHome | kStopping =>
      f_leb (f_sub (torque_ s') (f_mul (torque_ramp (parameters_ s')) dt)) (next_torque dt (ToCart s speed) s') = true /\
      f_leb (next_torque dt (ToCart s speed) s') (f_add (torque_ s') (f_mul (torque_ramp (parameters_ s')) dt)) = true
    end).
  destruct (mode_ s') eqn:M; [unfold next_torque; by rewrite M..| |]; apply R; auto.
Qed.
Lemma cart_update_machine_witness :
  let s := run_cart_event CartControl_init (ev_command (f_of_Z 3) 1000) in
  let '(o, t) := Update 1000 f_zero true s in mode_ t = mode o /\ torque o = ToCart s (torque_ t).
Proof.
  intros s. pose proof (cart_update_machine s 1000 f_zero) as H. destruct (Update 1000 f_zero true s) as [o t].
  destruct H as (_ & H1 & H2 & _); [apply cr_step; [apply cr_init|done]|done|]. split; [exact H1|exact H2].
Defined.



End CartControl.
