(* ===== verification/OuterLoop.v ===== *)
(** * The outer loop: setpoints, homing and the current reference

    src/current_control/outer_loop.{hpp,cpp}: class [OuterLoop] with its
    mailboxes; lib/motor_control/src/rotor_angle.hpp counts its position.
    [None]: the wrap of an angle difference or the conversion of an angle to
    counts is outside its contract. *)
From Stdlib Require Import ZArith Lia Bool SpecFloat.
From stdpp Require Import base decidable list option.
From S2P Require Import Prelude Float32 FloatRound CurrentControl SettingsData Transforms RotorAngle Observers Isr MotionControl CartControl.
Import CurrentControl Transforms Isr MotionControl.
Import SettingsData(NvmSettings, num, fl, ControlMode, kTorque, kSpeed, kPosition, ControlMode_eq_dec).

#[local] Open Scope Z_scope.
#[local] Open Scope unimoc_scope.

Module OuterLoop.

#[local] Existing Instance SettingsData.ControlMode_eq_dec.
Definition mode_eqb (a b : ControlMode) : bool := bool_decide (a = b).

Abbreviation BatteryLimits := CartControl.BatteryLimits.

(** ** Data *)
Record OuterSetpoint := mkOuterSetpoint {
  active : bool; mode : ControlMode; current : Rotor; speed : float; position : float }.
#[export] Instance eta_OuterSetpoint : Eta OuterSetpoint := fun s =>
  mkOuterSetpoint (active s) (mode s) (current s) (speed s) (position s).
Definition OuterSetpoint_init : OuterSetpoint := mkOuterSetpoint false kTorque zero_Rotor f_zero f_zero.

Record OuterStatus := mkOuterStatus {
  steps : Z; status_active : bool; status_mode : ControlMode; status_speed : float; status_position : float;
  speed_reference : float; torque_reference : float; current_reference : Rotor; status_in_position : bool;
  status_torque_min : float; status_torque_max : float; regen_derated : bool; homing : HomingState }.
Definition OuterStatus_init : OuterStatus :=
  mkOuterStatus 0 false kTorque f_zero f_zero f_zero f_zero zero_Rotor false f_zero f_zero false kIdle.

Record Gains := mkGains {
  speed_kp : float; speed_ki : float; speed_accel_limit : float; position_kp : float; position_speed_limit : float;
  position_accel_limit : float; gains_position_tolerance : float; position_speed_tolerance : float }.
Definition Gains_init : Gains := mkGains f_zero f_zero f_zero f_zero f_zero f_zero f_zero f_zero.

Record Parameters := mkParameters {
  generation : Z; par_pole_pairs : Z; dt : float; current_limit : float; torque_constant : float;
  dc_link_limit : DcLinkLimit; speed_min : float; speed_max : float; par_homing_speed : float; homing_current : float;
  gains : Gains }.
#[export] Instance eta_Parameters : Eta Parameters := fun s =>
  mkParameters (generation s) (par_pole_pairs s) (dt s) (current_limit s) (torque_constant s) (dc_link_limit s)
    (speed_min s) (speed_max s) (par_homing_speed s) (homing_current s) (gains s).
Definition Parameters_init : Parameters :=
  mkParameters 0 1 f_zero f_zero f_zero DcLinkLimit_init f_zero f_zero f_zero f_zero Gains_init.

Record ObserverState := mkObserverState { cycles : Z; electrical_angle : float; electrical_speed : float }.
Definition ObserverState_init : ObserverState := mkObserverState 0 f_zero f_zero.

Record OuterLoop := mkOuterLoop {
  isr_ : bool;
  setpoint_ : Mailbox OuterSetpoint;
  battery_ : Mailbox BatteryLimits;
  parameters_ : Mailbox Parameters;
  gains_box_ : Mailbox Gains;
  gains_generation_ : Z;
  homing_requests_ : Z;
  observer_ : SeqLock ObserverState;
  status_ : SeqLock OuterStatus;
  observer_cycles_ : Z;
  generation_ : Z;
  active_par_ : Parameters;
  applied_gains_generation_ : Z;
  applied_homing_requests_ : Z;
  homing_ : HomingState;
  blocked_steps_ : Z;
  hold_home_ : bool;
  held_setpoint_ : float;
  speed_ : SpeedController;
  position_ : PositionController;
  tracker_ : RotorAngle.PositionTracker;
  electrical_position_ : RotorAngle.RotorAngle;
  last_angle_ : float;
  tracking_ : bool;
  mode_ : ControlMode;
  was_active_ : bool;
  steps_ : Z }.
#[export] Instance eta_OuterLoop : Eta OuterLoop := fun s =>
  mkOuterLoop (isr_ s) (setpoint_ s) (battery_ s) (parameters_ s) (gains_box_ s) (gains_generation_ s) (homing_requests_ s)
    (observer_ s) (status_ s) (observer_cycles_ s) (generation_ s) (active_par_ s) (applied_gains_generation_ s)
    (applied_homing_requests_ s) (homing_ s) (blocked_steps_ s) (hold_home_ s) (held_setpoint_ s) (speed_ s) (position_ s)
    (tracker_ s) (electrical_position_ s) (last_angle_ s) (tracking_ s) (mode_ s) (was_active_ s) (steps_ s).
Definition OuterLoop_init : OuterLoop :=
  mkOuterLoop false (Mailbox_init OuterSetpoint_init) (Mailbox_init CartControl.BatteryLimits_init)
    (Mailbox_init Parameters_init) (Mailbox_init Gains_init) 0 0 ObserverState_init OuterStatus_init 0 0 Parameters_init 0 0
    kIdle 0 false f_zero SpeedController_init PositionController_init RotorAngle.PositionTracker_init
    RotorAngle.RotorAngle_init f_zero false kTorque false 0.

Definition kCyclesPerStep : Z := 8.
Definition kHomingBlockTime : float := f_dec 1 10.

(** ** The calls of the drive and of the observer *)
Definition SetSetpoint (s : OuterSetpoint) (l : OuterLoop) : OuterLoop := l.{setpoint_ := Mailbox_Write s (setpoint_ l)}.
Definition SetBatteryLimits (b : BatteryLimits) (l : OuterLoop) : OuterLoop := l.{battery_ := Mailbox_Write b (battery_ l)}.
Definition StartHoming (l : OuterLoop) : OuterLoop := l.{homing_requests_ := u32 (homing_requests_ l + 1)}.
Definition Status (l : OuterLoop) : OuterStatus := SeqLock_Read (status_ l).
Definition SetGains (g : Gains) (l : OuterLoop) : OuterLoop :=
  l.{gains_box_ := Mailbox_Write g (gains_box_ l)}.{gains_generation_ := u32 (gains_generation_ l + 1)}.
Definition GainsFrom (s : NvmSettings) : Gains :=
  mkGains (fl SettingsData.speed_kp s) (fl SettingsData.speed_ki s) (fl SettingsData.speed_accel_limit s)
    (fl SettingsData.pos_kp_pos s) (fl SettingsData.pos_speed_limit s) (fl SettingsData.pos_accel_limit s)
    (fl SettingsData.pos_position_tolerance s) (fl SettingsData.pos_speed_tolerance s).
Definition parameters_of (gen : Z) (s : NvmSettings) : Parameters :=
  let kPolePairs := f_of_Z (num s SettingsData.pole_pairs) in
  mkParameters gen (num s SettingsData.pole_pairs)
    (f_mul (DtSlowFromPwmFrequency (fl SettingsData.pwm_frequency s)) (f_of_Z kCyclesPerStep))
    (fl SettingsData.motor_i_max s) (f_mul (fl SettingsData.flux_pm s) (f_mul (f_lit 3 2) kPolePairs))
    (mkDcLinkLimit (fl SettingsData.battery_drive_current_max s) (fl SettingsData.battery_charge_current_max s)
       (fl SettingsData.dc_link_regen_derate_start s) (fl SettingsData.dc_link_trip s))
    (f_div (fl SettingsData.motor_omega_min s) kPolePairs) (f_div (fl SettingsData.motor_omega_max s) kPolePairs)
    (fl SettingsData.pos_homing_speed s) (fl SettingsData.pos_homing_current s) (GainsFrom s).
Definition Init (settings : NvmSettings) (l : OuterLoop) : OuterLoop :=
  let l := l.{isr_ := true}.{generation_ := u32 (generation_ l + 1)} in
  let parameters := parameters_of (generation_ l) settings in
  SetGains (gains parameters) (l.{parameters_ := Mailbox_Write parameters (parameters_ l)}).
Definition OnObserverCycle (isr : CurrentControlIsr) (l : OuterLoop) : bool * OuterLoop :=
  if negb (isr_ l) then (false, l)
  else
    let o := mkObserverState (control_cycles isr) (Observers.theta (mech_obs isr)) (Observers.omega (mech_obs isr)) in
    let l := l.{observer_ := SeqLock_Write o (observer_ l)}.{observer_cycles_ := u32 (observer_cycles_ l + 1)} in
    if observer_cycles_ l <? kCyclesPerStep then (false, l) else (true, l.{observer_cycles_ := 0}).

(** ** The step of the control thread *)
Definition ApplyGains (g : Gains) (l : OuterLoop) : OuterLoop :=
  l.{active_par_ := (active_par_ l).{gains := g}}
   .{speed_ := (speed_ l).{kp := speed_kp g}.{ki := speed_ki g}.{accel_limit := speed_accel_limit g}}
   .{position_ := (position_ l).{kp_pos := position_kp g}.{speed_limit := position_speed_limit g}
       .{pos_accel_limit := position_accel_limit g}.{position_tolerance := gains_position_tolerance g}
       .{speed_tolerance := position_speed_tolerance g}}.
Definition LoadParameters (p : Parameters) (l : OuterLoop) : OuterLoop :=
  let l := ApplyGains (gains p) (l.{active_par_ := p}) in
  l.{speed_ := (speed_ l).{torque_limit := f_mul (torque_constant p) (current_limit p)}}
   .{tracking_ := false}.{was_active_ := false}.{homing_ := kIdle}.{hold_home_ := false}.
Definition Restart (measured : float) (l : OuterLoop) : OuterLoop :=
  l.{speed_ := Speed_Reset measured (speed_ l)}
   .{position_ := Position_Reset ((position_ l).{pos_ref_rad := RotorAngle.position_rad_ (tracker_ l)})}.

Definition TakeHomingRequest (sp : OuterSetpoint) (measured : float) (l : OuterLoop) : OuterLoop :=
  if negb (active sp) || negb (mode_eqb (mode sp) kPosition) then l.{homing_ := kFault}
  else l.{homing_ := kSearching}.{blocked_steps_ := 0}.{hold_home_ := false}.{speed_ := Speed_Reset measured (speed_ l)}.
Definition UpdateHoming (sp : OuterSetpoint) (measured : float) (l : OuterLoop) : OuterLoop :=
  let l := if negb (homing_requests_ l =? applied_homing_requests_ l)
           then TakeHomingRequest sp measured (l.{applied_homing_requests_ := homing_requests_ l}) else l in
  let kPositionMode := active sp && mode_eqb (mode sp) kPosition in
  let l := if homing_eqb (homing_ l) kSearching && negb kPositionMode then l.{homing_ := kFault} else l in
  if negb (active sp) then l.{hold_home_ := false} else l.

Definition SearchHome (measured : float) (range : TorqueRange) (sp_position : float) (l : OuterLoop) : float * OuterLoop :=
  let par := active_par_ l in
  let kHomingTorque := f_mul (torque_constant par) (homing_current par) in
  let c := (speed_ l).{torque_min := Max (lower range) (f_neg kHomingTorque)}.{torque_max := Min (upper range) kHomingTorque} in
  let '(push, c) := Speed_Update (par_homing_speed par) measured (dt par) c in
  let kForward := f_gtb (par_homing_speed par) f_zero in
  let kBound := if kForward then Min (torque_limit c) (torque_max c) else f_neg (Max (f_neg (torque_limit c)) (torque_min c)) in
  let kPush := if kForward then push else f_neg push in
  let kStalled := f_gtb kBound f_zero && f_geb kPush (f_mul (f_dec 99 100) kBound) &&
                  f_ltb (Abs measured) (f_mul f_half (Abs (par_homing_speed par))) in
  let l := l.{speed_ := c}.{blocked_steps_ := if kStalled then u32 (blocked_steps_ l + 1) else 0} in
  if f_ltb (f_mul (f_of_Z (blocked_steps_ l)) (dt par)) kHomingBlockTime then (push, l)
  else
    let l := Restart measured (l.{tracker_ := RotorAngle.SetHome (tracker_ l)}.{homing_ := kDone}.{hold_home_ := true}
                                .{held_setpoint_ := sp_position}) in
    (output (speed_ l), l).
Definition PositionTorque (sp_position measured : float) (range : TorqueRange) (l : OuterLoop) : float * OuterLoop :=
  if homing_eqb (homing_ l) kSearching then SearchHome measured range sp_position l
  else
    let l := if hold_home_ l && negb (f_eqb sp_position (held_setpoint_ l)) then l.{hold_home_ := false} else l in
    let c := (position_ l).{pos_ref_rad := if hold_home_ l then f_zero else sp_position} in
    let '(demand, c) := SpeedDemand (RotorAngle.position_rad_ (tracker_ l)) measured (dt (active_par_ l)) c in
    let kDemand := Clamp demand (speed_min (active_par_ l)) (speed_max (active_par_ l)) in
    let '(torque, v) := Speed_Track kDemand measured (dt (active_par_ l)) (speed_ l) in
    (torque, l.{position_ := c}.{speed_ := v}).
Definition TorqueToCurrent (torque : float) (l : OuterLoop) : Rotor :=
  if negb (f_gtb (torque_constant (active_par_ l)) f_zero) then zero_Rotor
  else mkRotor f_zero (f_div torque (torque_constant (active_par_ l))).
Definition LimitCurrent (i : Rotor) (l : OuterLoop) : Rotor :=
  if negb (is_finite (axis_d i)) || negb (is_finite (axis_q i)) then zero_Rotor
  else
    let kMagnitude := Length i in
    let kLimit := current_limit (active_par_ l) in
    if f_leb kMagnitude kLimit || f_leb kMagnitude f_zero then i
    else let kScale := f_div kLimit kMagnitude in mkRotor (f_mul (axis_d i) kScale) (f_mul (axis_q i) kScale).

(** The parameters and gains a step takes over. *)
Definition take_parameters (l : OuterLoop) : OuterLoop :=
  let kParameters := Mailbox_Read Parameters_init (parameters_ l) in
  let l := if negb (generation kParameters =? generation (active_par_ l)) then LoadParameters kParameters l else l in
  if negb (gains_generation_ l =? applied_gains_generation_ l)
  then ApplyGains (Mailbox_Read Gains_init (gains_box_ l)) (l.{applied_gains_generation_ := gains_generation_ l}) else l.
Definition battery_limit (l : OuterLoop) : DcLinkLimit :=
  let kBattery := Mailbox_Read CartControl.BatteryLimits_init (battery_ l) in
  let dc := dc_link_limit (active_par_ l) in
  if CartControl.valid kBattery
  then dc.{drive_current_max := CartControl.drive_current kBattery}.{charge_current_max := CartControl.charge_current kBattery}
  else dc.
(** The position from the electrical angle. *)
Definition track_position (angle : float) (l : OuterLoop) : option OuterLoop :=
  let pole_pairs := par_pole_pairs (active_par_ l) in
  l ← (if tracking_ l then
         delta ← RotorAngle.WrapAngle (f_sub angle (last_angle_ l));
         position ← RotorAngle.Advance delta (electrical_position_ l);
         Some (l.{electrical_position_ := position}.{tracker_ := RotorAngle.Update position pole_pairs (tracker_ l)})
       else
         position ← RotorAngle.FromAngle angle;
         Some (l.{electrical_position_ := position}
                .{tracker_ := RotorAngle.SetHome (RotorAngle.Update position pole_pairs (RotorAngle.Reset (tracker_ l)))}
                .{tracking_ := true}));
  Some (l.{last_angle_ := angle}).
(** The current of the setpoint before the limits, and whether the shaft is in position. *)
Definition run_setpoint (sp : OuterSetpoint) (measured : float) (range : TorqueRange) (l : OuterLoop) : Rotor * bool * OuterLoop :=
  if negb (active sp) then
    (zero_Rotor, false, (Restart measured l).{mode_ := kTorque}.{was_active_ := false})
  else
    let l := if negb (was_active_ l) || negb (mode_eqb (mode sp) (mode_ l))
             then let l := Restart measured l in
                  l.{position_ := Position_Reset ((position_ l).{pos_ref_rad := position sp})}
             else l in
    let l := l.{was_active_ := true}.{mode_ := mode sp}
              .{speed_ := (speed_ l).{torque_min := lower range}.{torque_max := upper range}} in
    match mode_ l with
    | kTorque => (current sp, false, l)
    | kSpeed =>
        let kTarget := Clamp (speed sp) (speed_min (active_par_ l)) (speed_max (active_par_ l)) in
        let '(torque, c) := Speed_Update kTarget measured (dt (active_par_ l)) (speed_ l) in
        let l := l.{speed_ := c} in (TorqueToCurrent torque l, false, l)
    | kPosition =>
        let '(torque, l) := PositionTorque (position sp) measured range l in
        (TorqueToCurrent torque l, in_position (position_ l), l)
    end.

Definition Step (isr : CurrentControlIsr) (l : OuterLoop) : option (CurrentControlIsr * OuterLoop) :=
  if negb (isr_ l) then Some (isr, l)
  else
    let l := take_parameters l in
    let kObserver := SeqLock_Read (observer_ l) in
    let kSetpoint := Mailbox_Read OuterSetpoint_init (setpoint_ l) in
    let limit := battery_limit l in
    let kDcLink := dc_link isr in
    l ← track_position (electrical_angle kObserver) l;
    let par := active_par_ l in
    let kSpeed := f_div (electrical_speed kObserver) (f_of_Z (par_pole_pairs par)) in
    let l := l.{steps_ := u32 (steps_ l + 1)} in
    let position_rad := RotorAngle.position_rad_ (tracker_ l) in
    let kTorqueRange := AllowedTorque kSpeed kDcLink limit in
    let kMotorTorque := f_mul (torque_constant par) (current_limit par) in
    let derated := f_ltb (AllowedChargeCurrent kDcLink limit) (charge_current_max (dc_link_limit par)) in
    let '(i, reached, l) := run_setpoint kSetpoint kSpeed kTorqueRange (UpdateHoming kSetpoint kSpeed l) in
    let i := Limit (LimitCurrent i l) (torque_constant par) kSpeed kDcLink limit in
    let status := mkOuterStatus (steps_ l) (active kSetpoint) (mode_ l) kSpeed position_rad (reference (speed_ l))
                    (output (speed_ l)) i reached (Max (lower kTorqueRange) (f_neg kMotorTorque))
                    (Min (upper kTorqueRange) kMotorTorque) derated (homing_ l) in
    Some (SetCurrentRef i isr, l.{status_ := SeqLock_Write status (status_ l)}).

(** ** Lemmas *)

(** *** The limits *)
Definition limits_ok (d : DcLinkLimit) : Prop :=
  fin (drive_current_max d) /\ f_leb f_zero (drive_current_max d) = true /\
  fin (charge_current_max d) /\ f_leb f_zero (charge_current_max d) = true /\
  fin (regen_derate_start d) /\ fin (trip d).

Lemma f_sub_v x y : fin x -> fin y -> f_valid (f_sub x y) = true.
Proof. intros [_ Fx] Fy. rewrite f_sub_add. apply f_add_v; [done|]. by apply fin_neg in Fy as [_ Fy]. Qed.

Lemma AllowedChargeCurrent_nn dc d : fin dc -> limits_ok d -> nn (AllowedChargeCurrent dc d).
Proof.
  intros Fd (_ & _ & Fc & Nc & Fs & Ft). unfold AllowedChargeCurrent. assert (nn (charge_current_max d)) as Hc by (apply nn_of; [apply Fc|done]).
  destruct (f_gtb dc (regen_derate_start d)) eqn:A; cbn [negb]; [|done].
  destruct (f_ltb dc (trip d)) eqn:B; cbn [negb]; [|by apply nn_of].
  apply f_ltb_val in A, B; try done.
  destruct (f_sub_pos (trip d) dc) as [L1 _]; [done|done|lia|].
  destruct (f_sub_pos (trip d) (regen_derate_start d)) as [_ P2]; [done|done|lia|].
  apply nn_mul; [done|]. apply nn_div; [apply nn_of; [by apply f_sub_v|done]|by apply f_sub_v|done].
Qed.

Lemma LimitCurrent_spec i l : f_valid (axis_d i) = true -> f_valid (axis_q i) = true ->
  fin (current_limit (active_par_ l)) -> f_leb f_zero (current_limit (active_par_ l)) = true ->
  let j := LimitCurrent i l in
  fin (axis_d j) /\ fin (axis_q j) /\
  (IsFinite (axis_d i) = true -> IsFinite (axis_q i) = true ->
     scaled (axis_d i) (axis_d j) /\ scaled (axis_q i) (axis_q j) /\
     (f_leb (Length i) (current_limit (active_par_ l)) = true -> j = i)) /\
  (IsFinite (axis_d i) && IsFinite (axis_q i) = false -> j = zero_Rotor).
Proof.
  intros Vd Vq Fl Nl. unfold LimitCurrent, IsFinite.
  destruct (is_finite (axis_d i)) eqn:Id, (is_finite (axis_q i)) eqn:Iq; cbn [negb orb andb]; try done.
  assert (fin (axis_d i)) as Fd by done. assert (fin (axis_q i)) as Fq by done.
  destruct (Hypot_nonneg _ _ Fd Fq) as [Vh Nh]. fold (Length i) in Vh, Nh.
  pose proof (scaled_refl _ Fd) as Sd. pose proof (scaled_refl _ Fq) as Sq.
  destruct (f_leb (Length i) (current_limit (active_par_ l))) eqn:E; cbn [orb].
  { split; [done|]. split; [done|]. done. }
  destruct (f_leb (Length i) f_zero) eqn:E0; [split; [done|]; split; [done|]; done|].
  destruct (f_leb_not_nan _ _ Nh) as [_ Nn].
  assert (ratio (f_div (current_limit (active_par_ l)) (Length i))) as R.
  { apply f_div_smaller; try done. destruct (f_ltb (current_limit (active_par_ l)) (Length i)) eqn:X; [done|].
    apply f_ltb_ge in X; [congruence|by apply fin_not_nan|done]. }
  pose proof (scaled_mul _ _ Fd R) as Rd. pose proof (scaled_mul _ _ Fq R) as Rq. cbn [axis_d axis_q].
  split; [apply Rd|]. split; [apply Rq|]. done.
Qed.

Lemma Limit_spec i kt speed dc d : fin (axis_q i) -> f_valid kt = true -> f_valid speed = true -> fin dc -> limits_ok d ->
  axis_d (Limit i kt speed dc d) = axis_d i /\ scaled (axis_q i) (axis_q (Limit i kt speed dc d)).
Proof.
  intros Fq Vk Vs Fd Hl. pose proof (scaled_refl _ Fq) as S0. unfold Limit.
  destruct (f_gtb dc f_zero) eqn:Dc; cbn [negb]; [|done].
  pose proof Hl as (Fm & Nm & _). assert (nn dc) as Ndc by (apply nn_of; [apply Fd|by apply f_ltb_leb]).
  assert (nn (drive_current_max d)) as Nd by (apply nn_of; [apply Fm|done]).
  pose proof (nn_mul _ _ Ndc Nd) as [VM NM]. pose proof (nn_mul _ _ Ndc (AllowedChargeCurrent_nn dc d Fd Hl)) as [VB NB].
  set (M := f_mul dc (drive_current_max d)) in *. set (B := f_mul dc (AllowedChargeCurrent dc d)) in *.
  set (W := f_mul (f_mul kt (axis_q i)) speed). assert (f_valid W = true) as VW by (destruct Fq; unfold W; auto with float).
  destruct (f_gtb W M) eqn:G.
  - split; [done|]. cbn [axis_q]. destruct (f_ltb_not_nan _ _ G) as [N1 _]. destruct NM as [NM|NM]; [congruence|].
    apply scaled_mul; [done|]. apply f_div_smaller; [|done|done|done]. destruct (valid_cases M VM) as [|I]; [done|].
    destruct M as [|[]| |], W as [[]|[]| |[]]; done.
  - destruct (f_ltb W (f_neg B)) eqn:L; [|done]. split; [done|]. cbn [axis_q].
    destruct (f_ltb_not_nan _ _ L) as [_ N1]. rewrite <- (f_neg_neg W) in L |- *. rewrite f_ltb_neg in L. rewrite f_div_neg_neg.
    assert (f_valid (f_neg W) = true) as VnW by (by destruct W).
    destruct NB as [NB|NB]; [destruct B; done|].
    apply scaled_mul; [done|]. apply f_div_smaller; [|done|done|done]. destruct (valid_cases B VB) as [|I]; [done|].
    destruct B as [|[]| |], (f_neg W) as [[]|[]| |[]]; done.
Qed.

(** *** The position *)
Definition in_turn (x : float) : Prop := fin x /\ Z.abs (fval x) <= fval f_pi.

Lemma in_turn_small x : in_turn x -> RotorAngle.angle_small x.
Proof. intros [F B]. split; [done|]. assert (fval f_pi < 2 ^ 20 * 2 ^ 149) by (vm_compute; done). lia. Qed.

Lemma wrapped_difference x y : in_turn x -> in_turn y -> exists z, RotorAngle.WrapAngle (f_sub x y) = Some z /\ in_turn z.
Proof.
  intros [Fx Bx] [Fy By]. assert (fval f_two_pi = 2 * fval f_pi /\ fval f_two_pi < 6 * 2 ^ 21 * 2 ^ 149 /\ fin f_two_pi) as (T1 & T2 & T3)
    by (vm_compute; done).
  destruct (f_sub_range x y (f_neg f_two_pi) f_two_pi) as [F B]; [done|done|by apply fin_neg|done|rewrite fval_neg; lia|].
  rewrite fval_neg in B. destruct (RotorAngle.WrapAngle_returns (f_sub x y) F) as (z & E & Fz & Rz & _); [lia|].
  exists z. split; [done|]. split; [done|lia].
Qed.

(** What a step needs to be defined, and keeps; [turns_room] bounds the
    revolutions a step adds. *)
Definition turns_room : Z := 2 ^ 18 + 3.
Record tracker_ok (l : OuterLoop) : Prop := mkTrackerOk {
  to_position : RotorAngle.angle_ok (electrical_position_ l);
  to_angle : tracking_ l = true -> in_turn (last_angle_ l) }.

Lemma track_position_defined angle l : in_turn angle -> tracker_ok l ->
  Z.abs (RotorAngle.revolutions_ (electrical_position_ l)) + turns_room < 2 ^ 31 ->
  exists l', track_position angle l = Some l' /\ tracker_ok l' /\ tracking_ l' = true /\
    homing_ l' = homing_ l /\ homing_requests_ l' = homing_requests_ l /\
    applied_homing_requests_ l' = applied_homing_requests_ l /\ blocked_steps_ l' = blocked_steps_ l /\
    active_par_ l' = active_par_ l /\
    Z.abs (RotorAngle.revolutions_ (electrical_position_ l')) <= Z.abs (RotorAngle.revolutions_ (electrical_position_ l)) + turns_room.
Proof.
  unfold turns_room. intros Ha [Hp Hl] Hr. unfold track_position. destruct (tracking_ l) eqn:E.
  - destruct (wrapped_difference angle (last_angle_ l) Ha (Hl eq_refl)) as (z & -> & Hz). cbn [mbind option_bind].
    destruct (RotorAngle.Advance_defined z _ (in_turn_small _ Hz) Hp) as (b & A & Hb); [lia|]. rewrite A. cbn [mbind option_bind].
    destruct (RotorAngle.Advance_position z _ b (proj2 (proj1 Hz)) Hp A) as [_ Hok]. eexists. split; [reflexivity|].
    split; [by split|]. cbn. repeat split; [done|lia].
  - assert (RotorAngle.angle_ok RotorAngle.RotorAngle_init) as H0 by (split; cbn; auto; lia).
    unfold RotorAngle.FromAngle.
    destruct (RotorAngle.Advance_defined angle RotorAngle.RotorAngle_init (in_turn_small _ Ha) H0) as (b & A & Hb); [cbn; lia|].
    rewrite A. cbn [mbind option_bind].
    destruct (RotorAngle.Advance_position angle _ b (proj2 (proj1 Ha)) H0 A) as [_ Hok]. eexists. split; [reflexivity|].
    split; [by split|]. cbn in *. repeat split. lia.
Qed.

(** *** Homing *)

(** What the setpoint's turn keeps. *)
Record keeps (l l' : OuterLoop) : Prop := mkKeeps {
  k_par : active_par_ l' = active_par_ l;
  k_position : electrical_position_ l' = electrical_position_ l;
  k_tracking : tracking_ l' = tracking_ l;
  k_angle : last_angle_ l' = last_angle_ l;
  k_steps : steps_ l' = steps_ l }.

(** A step of the homing state machine; [home]: the search found the stop. *)
Inductive homing_step (requested position_mode : bool) : HomingState -> HomingState -> Prop :=
| hs_keep h : requested = false -> (h = kSearching -> position_mode = true) -> homing_step requested position_mode h h
| hs_start h : requested = true -> position_mode = true -> homing_step requested position_mode h kSearching
| hs_refused h : requested = true -> position_mode = false -> homing_step requested position_mode h kFault
| hs_lost : requested = false -> position_mode = false -> homing_step requested position_mode kSearching kFault
| hs_home h : position_mode = true -> requested = true \/ h = kSearching -> homing_step requested position_mode h kDone.

Lemma homing_eqb_spec a b : homing_eqb a b = true <-> a = b.
Proof. unfold homing_eqb. by rewrite bool_decide_eq_true. Qed.

Definition requested (l : OuterLoop) : bool := negb (homing_requests_ l =? applied_homing_requests_ l).
Definition position_mode (sp : OuterSetpoint) : bool := active sp && mode_eqb (mode sp) kPosition.

Lemma UpdateHoming_spec sp measured l :
  let l' := UpdateHoming sp measured l in
  homing_step (requested l) (position_mode sp) (homing_ l) (homing_ l') /\
  (homing_ l' = kSearching -> position_mode sp = true /\ (requested l = true \/ homing_ l = kSearching)) /\
  requested l' = false /\ (active sp = false -> hold_home_ l' = false) /\ keeps l l' /\
  tracker_ l' = tracker_ l /\ (requested l = false -> blocked_steps_ l' = blocked_steps_ l) /\
  (requested l = true -> position_mode sp = true -> blocked_steps_ l' = 0) /\ (homing_ l' = kDone -> homing_ l = kDone).
Proof.
  unfold UpdateHoming, requested, position_mode, TakeHomingRequest, homing_eqb.
  destruct (homing_requests_ l =? applied_homing_requests_ l) eqn:R, (active sp) eqn:A, (mode_eqb (mode sp) kPosition) eqn:M;
    cbn -[Z.eqb]; destruct (bool_decide_reflect (homing_ l = kSearching)) as [S|S]; cbn -[Z.eqb]; rewrite ?S, ?R, ?Z.eqb_refl;
    (split; [by eauto using homing_step|]); repeat split; auto; try congruence; rewrite ?R; try done.
Qed.

(** The end of the search: the stop held for the homing time, home is here. *)
Definition home_found (l l' : OuterLoop) : Prop :=
  f_ltb (f_mul (f_of_Z (blocked_steps_ l')) (dt (active_par_ l'))) kHomingBlockTime = false /\
  hold_home_ l' = true /\ tracker_ l' = RotorAngle.SetHome (tracker_ l).

Lemma SearchHome_spec measured range p l : homing_ l = kSearching ->
  let l' := (SearchHome measured range p l).2 in
  (homing_ l' = kSearching \/ homing_ l' = kDone /\ home_found l l') /\
  (blocked_steps_ l' = 0 \/ blocked_steps_ l' = u32 (blocked_steps_ l + 1)) /\ requested l' = requested l /\ keeps l l'.
Proof.
  intros S. unfold SearchHome, home_found. destruct (Speed_Update _ _ _ _) as [push c].
  set (stalled := _ && _ && _). destruct (f_ltb _ kHomingBlockTime) eqn:E; cbn in *.
  - split; [by left|]. split; [destruct stalled; auto|]. done.
  - split; [by right|]. split; [destruct stalled; auto|]. done.
Qed.

(** Only an active setpoint in position mode searches; only the search finds home. *)
Lemma run_setpoint_spec sp measured range l : (homing_ l = kSearching -> position_mode sp = true) ->
  let '(i, reached, l') := run_setpoint sp measured range l in
  (homing_ l' = homing_ l \/ homing_ l = kSearching /\ homing_ l' = kDone /\ home_found l l' /\
     (blocked_steps_ l' = 0 \/ blocked_steps_ l' = u32 (blocked_steps_ l + 1))) /\
  requested l' = requested l /\ keeps l l' /\
  (active sp = false -> i = zero_Rotor /\ reached = false /\ mode_ l' = kTorque /\ was_active_ l' = false /\
     hold_home_ l' = hold_home_ l).
Proof.
  unfold position_mode. intros H. unfold run_setpoint. destruct (active sp) eqn:A; cbn [negb andb] in *.
  2:{ split; [by left|]. done. }
  cbv zeta. set (l1 := if negb (was_active_ l) || _ then _ else _).
  assert (homing_ l1 = homing_ l /\ requested l1 = requested l /\ keeps l l1 /\
    blocked_steps_ l1 = blocked_steps_ l /\ tracker_ l1 = tracker_ l) as (E1 & E2 & E3 & E4 & E5).
  { unfold l1. case_if; done. }
  clearbody l1. set (l2 := set_field speed_ _ _). assert (homing_ l2 = homing_ l /\ requested l2 = requested l /\ keeps l l2 /\
    blocked_steps_ l2 = blocked_steps_ l /\ tracker_ l2 = tracker_ l /\ mode_ l2 = mode sp) as (F1 & F2 & F3 & F4 & F5 & F6).
  { destruct E3. by repeat split. }
  clearbody l2. rewrite F6. destruct (mode sp) eqn:M.
  - split; [by left|]. done.
  - destruct (Speed_Update _ _ _ _) as [torque c]. split; [by left|]. destruct F3. by repeat split.
  - unfold PositionTorque. unfold homing_eqb. destruct (bool_decide_reflect (homing_ l2 = kSearching)) as [S|S].
    + pose proof (SearchHome_spec measured range (position sp) l2 S) as K.
      destruct (SearchHome _ _ _ _) as [torque l3]. destruct K as (K1 & K2 & K3 & K4). cbn [snd] in *.
      destruct K4, F3. split; [|split; [congruence|split; [split; congruence|done]]].
      destruct K1 as [K1|(K1 & G1 & G2 & G3)]; [left; congruence|right]. rewrite <- F1, <- F4.
      split; [done|]. split; [done|]. split; [|done]. split; [done|]. split; [done|congruence].
    + destruct (SpeedDemand _ _ _ _) as [demand c]. destruct (Speed_Track _ _ _ _) as [torque v].
      destruct F3. case_if; (split; [by left|]; split; [done|]; split; [by split|done]).
Qed.

Lemma ApplyGains_keeps g l : homing_ (ApplyGains g l) = homing_ l /\ requested (ApplyGains g l) = requested l /\
  blocked_steps_ (ApplyGains g l) = blocked_steps_ l /\ electrical_position_ (ApplyGains g l) = electrical_position_ l /\
  tracking_ (ApplyGains g l) = tracking_ l /\ last_angle_ (ApplyGains g l) = last_angle_ l.
Proof. done. Qed.

(** New parameters restart the position and end the homing; gains do not. *)
Definition new_parameters (l : OuterLoop) : bool :=
  negb (generation (Mailbox_Read Parameters_init (parameters_ l)) =? generation (active_par_ l)).
Lemma take_parameters_keeps l :
  homing_ (take_parameters l) = (if new_parameters l then kIdle else homing_ l) /\
  requested (take_parameters l) = requested l /\ blocked_steps_ (take_parameters l) = blocked_steps_ l /\
  electrical_position_ (take_parameters l) = electrical_position_ l /\ (tracker_ok l -> tracker_ok (take_parameters l)).
Proof.
  unfold take_parameters. fold (new_parameters l). set (l1 := if new_parameters l then _ else _).
  assert (homing_ l1 = (if new_parameters l then kIdle else homing_ l) /\ requested l1 = requested l /\
    blocked_steps_ l1 = blocked_steps_ l /\ electrical_position_ l1 = electrical_position_ l /\ (tracker_ok l -> tracker_ok l1))
    as (E1 & E2 & E3 & E4 & E5).
  { unfold l1. destruct (new_parameters l); split_and!; try done; by intros [Hp Ha]; split. }
  clearbody l1. case_if; [|done]. split_and!; try done; intros H; by destruct (E5 H).
Qed.

(** A zero current stays zero behind the limits. *)
Lemma LimitCurrent_zero l : LimitCurrent zero_Rotor l = zero_Rotor.
Proof.
  unfold LimitCurrent. change (Length zero_Rotor) with f_zero. cbn [zero_Rotor axis_d axis_q is_finite negb orb].
  change (f_leb f_zero f_zero) with true. by rewrite orb_true_r.
Qed.
Lemma limits_keep_zero l kt speed dc d : f_valid kt = true -> f_valid speed = true -> fin dc -> limits_ok d ->
  let j := Limit (LimitCurrent zero_Rotor l) kt speed dc d in axis_d j = f_zero /\ fin (axis_q j) /\ fval (axis_q j) = 0.
Proof.
  intros Vk Vs Fd Hl. rewrite LimitCurrent_zero.
  destruct (Limit_spec zero_Rotor kt speed dc d) as [E (F & A & B)]; [done..|]. cbn in A. split; [done|]. split; [done|]. lia.
Qed.

(** ** Properties *)




(** A homing request under an active position setpoint starts the search. *)
Definition homing_demo : OuterLoop :=
  StartHoming (SetSetpoint (OuterSetpoint_init.{active := true}.{mode := kPosition})
    (Init (SettingsData.NvmSettings_init 1 0) OuterLoop_init)).

End OuterLoop.
