(* ===== verification/Ebike.v ===== *)
(** * The e-bike: pedal observer, assist law and engagement

    lib/ebike/src/pedal_observer.hpp (crank angle, cadence and torque from the
    pulses of the pedal sensor), lib/ebike/src/assist_controller.hpp (the assist
    law), src/ebike/ebike_control.{hpp,cpp} (the display, the engagement on
    demand and the torque).  [None]: the wrap of an angle or the conversion of a
    time is outside its contract.  [std::exp] is a parameter. *)
From Stdlib Require Import ZArith Lia Bool SpecFloat.
From stdpp Require Import base decidable list option.
From S2P Require Import Prelude Float32 FloatRound Kunteng Units SettingsData RotorAngle.
Import SettingsData(NvmSettings, num, fl).
Import Kunteng(ControllerStatus, mkControllerStatus, DisplayRequest, mkDisplayRequest, DisplayDecoder, init_DisplayDecoder,
  BatteryLevel, kBelowEmpty, kEmpty, kOneBar, kTwoBars, kThreeBars, kFourBars, EncodeControllerFrame).

#[local] Open Scope Z_scope.
#[local] Open Scope unimoc_scope.

Module Ebike.

(** ** The pedal observer *)
Definition kMaxPedalPulses : Z := 64.
Record PedalObserverConfig := mkPedalObserverConfig {
  pulses_per_rev : Z; angle_variance : float; cadence_noise : float; stop_timeout : float; torque_time_constant : float;
  config_zero_offset : float; zero_window : float; zero_hold : float; zero_time_constant : float }.
#[export] Instance eta_PedalObserverConfig : Eta PedalObserverConfig := fun s =>
  mkPedalObserverConfig (pulses_per_rev s) (angle_variance s) (cadence_noise s) (stop_timeout s) (torque_time_constant s)
    (config_zero_offset s) (zero_window s) (zero_hold s) (zero_time_constant s).
Definition PedalObserverConfig_init : PedalObserverConfig :=
  mkPedalObserverConfig 36 (f_dec 3 10000) (f_of_Z 100) f_half (Units.convert 1 1000 (f_of_Z 20)) f_zero (f_of_Z 3) f_one
    (f_of_Z 30).

Record Covariance := mkCovariance { cov_angle : float; cov_cross : float; cov_cadence : float }.
Definition kInitialCadenceVariance : float := f_of_Z 100.
Definition kOverdueMargin : float := f_dec 125 100.
Definition Covariance_init : Covariance := mkCovariance f_one f_zero kInitialCadenceVariance.

Record PedalObserver := mkPedalObserver {
  config_ : PedalObserverConfig; pulses_per_rev_ : Z; pulse_angle_ : float; angle_ : float; omega_ : float; p_ : Covariance;
  time_since_pulse_ : float; still_time_ : float; pulses_seen_ : Z; pedaling_ : bool; bins_ : list float; bin_index_ : Z;
  completed_bins_ : Z; bin_sum_ : float; bin_count_ : Z; mean_torque_ : float; torque_fast_ : float; zero_offset_ : float }.
#[export] Instance eta_PedalObserver : Eta PedalObserver := fun s =>
  mkPedalObserver (config_ s) (pulses_per_rev_ s) (pulse_angle_ s) (angle_ s) (omega_ s) (p_ s) (time_since_pulse_ s)
    (still_time_ s) (pulses_seen_ s) (pedaling_ s) (bins_ s) (bin_index_ s) (completed_bins_ s) (bin_sum_ s) (bin_count_ s)
    (mean_torque_ s) (torque_fast_ s) (zero_offset_ s).

Definition ResetCrank (s : PedalObserver) : PedalObserver :=
  s.{pedaling_ := false}.{pulses_seen_ := 0}.{omega_ := f_zero}.{p_ := Covariance_init}.{time_since_pulse_ := f_zero}
   .{bin_index_ := 0}.{completed_bins_ := 0}.{bin_sum_ := f_zero}.{bin_count_ := 0}.{mean_torque_ := f_zero}.
(** The constructor. *)
Definition PedalObserver_of (config : PedalObserverConfig) : PedalObserver :=
  let n := Z.min (Z.max (pulses_per_rev config) 2) kMaxPedalPulses in
  ResetCrank (mkPedalObserver config n (f_div (f_mul f_two_pi f_one) (f_of_Z n)) f_zero f_zero Covariance_init f_zero f_zero 0
    false (replicate 64 f_zero) 0 0 f_zero 0 f_zero f_zero (config_zero_offset config)).

Definition Predict (dt : float) (s : PedalObserver) : option PedalObserver :=
  if pulses_seen_ s =? 0 then Some (s.{still_time_ := f_add (still_time_ s) dt})
  else
    let s := s.{time_since_pulse_ := f_add (time_since_pulse_ s) dt} in
    if f_gtb (time_since_pulse_ s) (stop_timeout (config_ s)) then
      let kStill := time_since_pulse_ s in Some ((ResetCrank s).{still_time_ := kStill})
    else
      angle ← RotorAngle.WrapAngle (f_add (angle_ s) (f_mul (omega_ s) dt));
      let s := s.{angle_ := angle} in
      let kLimit := f_mul (pulse_angle_ s) kOverdueMargin in
      let s := if f_gtb (f_mul (omega_ s) (time_since_pulse_ s)) kLimit
               then s.{omega_ := f_div kLimit (time_since_pulse_ s)} else s in
      let kNoise := cadence_noise (config_ s) in
      let p := p_ s in
      Some (s.{p_ := mkCovariance
        (f_add (cov_angle p)
           (f_add (f_mul dt (f_add (f_mul (f_of_Z 2) (cov_cross p)) (f_mul dt (cov_cadence p))))
                  (f_div (f_mul (f_mul (f_mul kNoise dt) dt) dt) (f_of_Z 3))))
        (f_add (cov_cross p) (f_add (f_mul dt (cov_cadence p)) (f_div (f_mul (f_mul kNoise dt) dt) (f_of_Z 2))))
        (f_add (cov_cadence p) (f_mul kNoise dt))}).

Definition FuseAngle (innovation : float) (s : PedalObserver) : option PedalObserver :=
  let p := p_ s in
  let kInnovationVariance := f_add (cov_angle p) (angle_variance (config_ s)) in
  let kGainAngle := f_div (cov_angle p) kInnovationVariance in
  let kGainCadence := f_div (cov_cross p) kInnovationVariance in
  angle ← RotorAngle.WrapAngle (f_add (angle_ s) (f_mul innovation kGainAngle));
  Some (s.{angle_ := angle}.{omega_ := f_add (omega_ s) (f_mul innovation kGainCadence)}
         .{p_ := mkCovariance (f_mul (cov_angle p) (f_sub f_one kGainAngle)) (f_mul (cov_cross p) (f_sub f_one kGainAngle))
                   (f_sub (cov_cadence p) (f_mul kGainCadence (cov_cross p)))}).

Definition FinishBin (s : PedalObserver) : PedalObserver :=
  let n := pulses_per_rev_ s in
  let kClosed := (bin_index_ s + n - 1) mod n in
  let s := s.{bins_ := array_set kClosed (if 0 <? bin_count_ s then f_div (bin_sum_ s) (f_of_Z (bin_count_ s))
                                          else torque_fast_ s) (bins_ s)}
            .{bin_sum_ := f_zero}.{bin_count_ := 0} in
  let kWindow := Z.max (n / 2) 1 in
  let s := s.{completed_bins_ := Z.min (completed_bins_ s + 1) kWindow} in
  let total := foldl (fun total i => f_add total (array_get f_zero (bins_ s) ((kClosed + n - i) mod n))) f_zero
                 (seqZ 0 (completed_bins_ s)) in
  s.{mean_torque_ := f_div total (f_of_Z (completed_bins_ s))}.

Definition OnPulse (s : PedalObserver) : option PedalObserver :=
  let s := s.{still_time_ := f_zero}.{bin_index_ := (bin_index_ s + 1) mod pulses_per_rev_ s} in
  let kMeasured := f_mul (pulse_angle_ s) (f_of_Z (bin_index_ s)) in
  s ← (if pulses_seen_ s =? 0 then
         Some (s.{bin_index_ := 0}.{angle_ := f_zero}.{p_ := Covariance_init}.{bin_sum_ := f_zero}.{bin_count_ := 0}
                .{pedaling_ := false})
       else
         s ← (if pulses_seen_ s =? 1 then
                Some (s.{omega_ := f_div (pulse_angle_ s) (time_since_pulse_ s)}.{angle_ := kMeasured}
                       .{p_ := mkCovariance (angle_variance (config_ s)) f_zero (f_div kInitialCadenceVariance (f_of_Z 100))})
              else
                innovation ← RotorAngle.WrapAngle (f_sub kMeasured (angle_ s));
                FuseAngle innovation s);
         Some (FinishBin (s.{pedaling_ := true})));
  Some (s.{time_since_pulse_ := f_zero}.{pulses_seen_ := Z.min (u32 (pulses_seen_ s + 1)) 2}).

Definition TrimZero (dt torque : float) (s : PedalObserver) : PedalObserver :=
  if pedaling_ s || f_ltb (still_time_ s) (zero_hold (config_ s)) then s
  else
    let kError := f_sub torque (zero_offset_ s) in
    if f_gtb kError (f_neg (zero_window (config_ s))) && f_ltb kError (zero_window (config_ s))
    then s.{zero_offset_ := f_add (zero_offset_ s) (f_mul kError (f_div dt (zero_time_constant (config_ s))))} else s.

(** The pulses of a step: the observer and the time up to the last edge. *)
Fixpoint run_pulses (dt : float) (ages : list float) (elapsed : float) (s : PedalObserver) : option (float * PedalObserver) :=
  match ages with
  | [] => Some (elapsed, s)
  | kAge :: rest =>
      let kEdge := std_clamp (f_sub dt kAge) elapsed dt in
      s ← Predict (f_sub kEdge elapsed) s;
      s ← OnPulse s;
      run_pulses dt rest kEdge s
  end.
Definition Step (dt torque : float) (pulse_ages : list float) (s : PedalObserver) : option PedalObserver :=
  '(elapsed, s) ← run_pulses dt pulse_ages f_zero s;
  s ← Predict (f_sub dt elapsed) s;
  let kCompensated := f_sub torque (zero_offset_ s) in
  let kAlpha := f_div dt (f_add (torque_time_constant (config_ s)) dt) in
  let s := s.{torque_fast_ := f_add (torque_fast_ s) (f_mul (f_sub kCompensated (torque_fast_ s)) kAlpha)} in
  let s := if 0 <? pulses_seen_ s
           then s.{bin_sum_ := f_add (bin_sum_ s) kCompensated}.{bin_count_ := u32 (bin_count_ s + 1)} else s in
  Some (TrimZero dt torque s).

Definition CrankAngle (s : PedalObserver) : float := angle_ s.
Definition Cadence (s : PedalObserver) : float := if pedaling_ s then omega_ s else f_zero.
Definition MeanTorque (s : PedalObserver) : float := if pedaling_ s then mean_torque_ s else f_zero.
Definition FastTorque (s : PedalObserver) : float := torque_fast_ s.
Definition PedalPower (s : PedalObserver) : float := f_mul (MeanTorque s) (Cadence s).
Definition Pedaling (s : PedalObserver) : bool := pedaling_ s.
Definition ZeroOffset (s : PedalObserver) : float := zero_offset_ s.
Definition SetZeroOffset (offset : float) (s : PedalObserver) : PedalObserver := s.{zero_offset_ := offset}.

(** ** The assist law *)
Definition kAssistLevels : Z := 8.
Record AssistConfig := mkAssistConfig {
  level_gain : list float; power_scale : float; max_ratio : float; torque_ratio : float; torque_deadband : float;
  min_cadence : float; speed_taper : float; rise_time : float; fall_time : float }.
#[export] Instance eta_AssistConfig : Eta AssistConfig := fun s =>
  mkAssistConfig (level_gain s) (power_scale s) (max_ratio s) (torque_ratio s) (torque_deadband s) (min_cadence s)
    (speed_taper s) (rise_time s) (fall_time s).
Definition AssistConfig_init : AssistConfig :=
  mkAssistConfig [f_zero; f_dec 3 10; f_dec 6 10; f_one; f_dec 15 10; f_of_Z 2; f_of_Z 2; f_of_Z 2] (f_of_Z 300) (f_of_Z 4)
    f_half (f_of_Z 2) (f_of_Z 2) (f_of_Z 20) f_half (f_dec 15 100).
Record AssistInput := mkAssistInput {
  input_pedaling : bool; cadence : float; pedal_torque : float; input_motor_speed : float; speed_limit : float;
  torque_limit : float; level : Z }.
Record AssistController := mkAssistController { assist_config_ : AssistConfig; torque_ : float; ratio_ : float }.
#[export] Instance eta_AssistController : Eta AssistController := fun s =>
  mkAssistController (assist_config_ s) (torque_ s) (ratio_ s).
Definition AssistController_of (config : AssistConfig) : AssistController := mkAssistController config f_zero f_zero.
Definition kMaxExponent : float := f_of_Z 20.

Section Assist.
Variable std_exp : float -> float.

Definition Target (input : AssistInput) (s : AssistController) : float * AssistController :=
  let config := assist_config_ s in
  let s := s.{ratio_ := f_zero} in
  let kLevel := Z.min (level input) (kAssistLevels - 1) in
  let kDriving := f_sub (pedal_torque input) (torque_deadband config) in
  if negb (input_pedaling input) || (kLevel =? 0) || f_ltb (cadence input) (min_cadence config) || f_leb kDriving f_zero ||
     f_leb (speed_limit input) f_zero || f_leb (torque_limit input) f_zero
  then (f_zero, s)
  else
    let kPedalPower := f_mul kDriving (cadence input) in
    let kBoost := std_exp (std_min (f_div kPedalPower (power_scale config)) kMaxExponent) in
    let s := s.{ratio_ := std_min (f_mul kBoost (array_get f_zero (level_gain config) kLevel)) (max_ratio config)} in
    let kMotor := if f_ltb (input_motor_speed input) f_zero then f_neg (input_motor_speed input) else input_motor_speed input in
    let speed_ratio := if f_gtb (f_mul kMotor (torque_ratio config)) (cadence input)
                       then f_div (cadence input) kMotor else torque_ratio config in
    let kFade := std_clamp (f_div (f_sub (speed_limit input) kMotor) (speed_taper config)) f_zero f_one in
    (std_min (f_mul (f_mul (f_mul kDriving (ratio_ s)) speed_ratio) kFade) (torque_limit input), s).
Definition Assist_Step (dt : float) (input : AssistInput) (s : AssistController) : float * AssistController :=
  let '(kTarget, s) := Target input s in
  let kLimit := std_max (torque_limit input) f_zero in
  let kUp := f_mul kLimit (f_div dt (rise_time (assist_config_ s))) in
  let kDown := f_mul (std_max kLimit (torque_ s)) (f_div dt (fall_time (assist_config_ s))) in
  let s := if f_gtb kTarget (torque_ s) then s.{torque_ := std_min (f_add (torque_ s) kUp) kTarget}
           else s.{torque_ := std_max (f_sub (torque_ s) kDown) kTarget} in
  (torque_ s, s).
End Assist.
Definition MotorTorque (s : AssistController) : float := torque_ s.
Definition Active (s : AssistController) : bool := f_gtb (torque_ s) f_zero.
Definition AssistRatio (s : AssistController) : float := ratio_ s.

(** ** The e-bike *)
Definition kMaxPulsesPerUpdate : nat := 8.
Definition kMaxDisplayBytes : nat := 16.
Definition kMaxStepUs : Z := 20000.
Definition kCellVolts : list float := [f_zero; f_dec 315 100; f_dec 335 100; f_dec 355 100; f_dec 375 100; f_dec 395 100].
Definition kBarHysteresisCellVolts : float := f_dec 5 100.
Definition kBarsMaxCurrent : float := f_of_Z 2.
Definition kBarCodes : list BatteryLevel := [kBelowEmpty; kEmpty; kOneBar; kTwoBars; kThreeBars; kFourBars].
Definition kErrorFault : Z := 1.
Definition kMaxWheelPeriod : float := Units.convert 1 1000 (f_of_Z 65535).
Definition kStepUs : Z := 1000.

Record EbikeParameters := mkEbikeParameters {
  pedal : PedalObserverConfig; assist : AssistConfig; engage_hold : float; rearm_pedal_stop : float; display_timeout : float;
  wheel_circumference_m : float; gear_ratio : float; battery_cells : Z; par_nominal_voltage : Z; reversed : bool }.
Definition EbikeParameters_init : EbikeParameters :=
  mkEbikeParameters PedalObserverConfig_init AssistConfig_init (f_of_Z 2) f_one (f_of_Z 2) (f_dec 21 10) f_one 10 36 false.
Record EbikeVehicle := mkEbikeVehicle {
  motor_speed : float; torque_min : float; torque_max : float; dc_link : float; battery_current : float;
  motor_temperature : float; engaged : bool; faulted : bool }.
Record EbikeOutput := mkEbikeOutput { engage : bool; torque : float; out_light : bool }.
Definition EbikeOutput_init : EbikeOutput := mkEbikeOutput false f_zero false.
Definition DisplayRequest_init : DisplayRequest := mkDisplayRequest 0 false 0 0 0 false 0 (replicate 13 0).

Definition EbikeParameters_From (settings : NvmSettings) : EbikeParameters :=
  let gains := let v f := fl f settings in
    [f_zero; v SettingsData.ebike_gain_1; v SettingsData.ebike_gain_2; v SettingsData.ebike_gain_3; v SettingsData.ebike_gain_4;
     v SettingsData.ebike_gain_5; v SettingsData.ebike_gain_5; v SettingsData.ebike_gain_5] in
  mkEbikeParameters (PedalObserverConfig_init.{pulses_per_rev := num settings SettingsData.ebike_pulses_per_rev})
    (mkAssistConfig gains (fl SettingsData.ebike_power_scale settings) (fl SettingsData.ebike_max_ratio settings)
       (fl SettingsData.ebike_torque_ratio settings) (fl SettingsData.ebike_torque_deadband settings)
       (fl SettingsData.ebike_min_cadence settings) (fl SettingsData.ebike_speed_taper settings)
       (fl SettingsData.ebike_rise_time settings) (fl SettingsData.ebike_fall_time settings))
    (fl SettingsData.ebike_engage_hold settings) (fl SettingsData.ebike_rearm_time settings)
    (fl SettingsData.ebike_display_timeout settings) (fl SettingsData.ebike_wheel_circumference settings)
    (fl SettingsData.ebike_gear_ratio settings) (num settings SettingsData.ebike_battery_cells)
    (num settings SettingsData.ebike_nominal_voltage) (negb (num settings SettingsData.cart_reversed =? 0)).

Record EbikeControl := mkEbikeControl {
  parameters_ : EbikeParameters; motor_speed_per_kmh_ : float; pedal_ : PedalObserver; assist_ : AssistController;
  decoder_ : DisplayDecoder; request_ : DisplayRequest; started_ : bool; last_update_us_ : Z; last_request_us_ : Z;
  display_alive_ : bool; output_ : EbikeOutput; wanting_ : bool; last_want_us_ : Z; latched_ : bool;
  pedal_still_since_us_ : Z; was_engaged_ : bool; bars_ : nat }.
#[export] Instance eta_EbikeControl : Eta EbikeControl := fun s =>
  mkEbikeControl (parameters_ s) (motor_speed_per_kmh_ s) (pedal_ s) (assist_ s) (decoder_ s) (request_ s) (started_ s)
    (last_update_us_ s) (last_request_us_ s) (display_alive_ s) (output_ s) (wanting_ s) (last_want_us_ s) (latched_ s)
    (pedal_still_since_us_ s) (was_engaged_ s) (bars_ s).

Definition Configure (parameters : EbikeParameters) (s : EbikeControl) : EbikeControl :=
  let kRadPerSecondPerKmh := f_div (f_mul f_two_pi (gear_ratio parameters))
    (f_mul (std_max (wheel_circumference_m parameters) (f_dec 1 10)) (f_dec 36 10)) in
  s.{parameters_ := parameters}.{pedal_ := PedalObserver_of (pedal parameters)}.{assist_ := AssistController_of (assist parameters)}
   .{motor_speed_per_kmh_ := kRadPerSecondPerKmh}.{wanting_ := false}.{latched_ := false}.{output_ := EbikeOutput_init}.
(** The constructor. *)
Definition EbikeControl_init : EbikeControl :=
  Configure EbikeParameters_init
    (mkEbikeControl EbikeParameters_init f_zero (PedalObserver_of PedalObserverConfig_init) (AssistController_of AssistConfig_init)
       init_DisplayDecoder DisplayRequest_init false 0 0 false EbikeOutput_init false 0 false 0 false 5).
Definition Inhibit (s : EbikeControl) : EbikeControl := s.{latched_ := true}.{wanting_ := false}.

(** The bars the voltage allows, with the given shift of the thresholds. *)
Definition bars_at (kCellVoltage : float) (shift : float -> float) : nat :=
  foldl (fun level i => if f_geb kCellVoltage (shift (default f_zero (kCellVolts !! i))) then i else level) 0%nat (seq 1 5).
Definition BatteryBars (vehicle : EbikeVehicle) (s : EbikeControl) : BatteryLevel * EbikeControl :=
  let s :=
    if f_ltb (battery_current vehicle) kBarsMaxCurrent && f_gtb (battery_current vehicle) (f_neg kBarsMaxCurrent) then
      let kCells := f_of_Z (Z.max (battery_cells (parameters_ s)) 1) in
      let kCellVoltage := f_div (f_div (dc_link vehicle) f_one) kCells in
      let rising := bars_at kCellVoltage (fun v => f_add v kBarHysteresisCellVolts) in
      let falling := bars_at kCellVoltage (fun v => f_sub v kBarHysteresisCellVolts) in
      if (bars_ s <? rising)%nat then s.{bars_ := rising}
      else if (falling <? bars_ s)%nat then s.{bars_ := falling} else s
    else s in
  (default kBelowEmpty (kBarCodes !! bars_ s), s).
Definition WheelPeriod (speed : float) (s : EbikeControl) : float :=
  let kSpeed := if f_ltb speed f_zero then f_neg speed else speed in
  if f_leb kSpeed f_zero then kMaxWheelPeriod
  else std_min (f_div (f_mul f_two_pi (gear_ratio (parameters_ s))) kSpeed) kMaxWheelPeriod.

(** [static_cast<uint64_t>(time.Value() * 1e6F)]. *)
Definition microseconds (t : float) : option Z := f_to_u64 (f_mul t (f_of_Z 1000000)).
(** A byte of the display: the frames answered so far. *)
Definition display_byte (now_us : Z) (vehicle : EbikeVehicle) (acc : list (list Z) * EbikeControl) (byte : Z)
    : list (list Z) * EbikeControl :=
  let '(frames, s) := acc in
  let '(request, decoder) := Kunteng.Push byte (decoder_ s) in
  let s := s.{decoder_ := decoder} in
  match request with
  | None => (frames, s)
  | Some request =>
      let s := s.{request_ := request}.{last_request_us_ := now_us}.{display_alive_ := true} in
      let '(bars, s) := BatteryBars vehicle s in
      let status := mkControllerStatus bars (par_nominal_voltage (parameters_ s)) (WheelPeriod (motor_speed vehicle) s)
        (if faulted vehicle || latched_ s then kErrorFault else 0) false false (Pedaling (pedal_ s)) false
        (battery_current vehicle) (motor_temperature vehicle) in
      (frames ++ [EncodeControllerFrame status], s)
  end.
Definition ServiceDisplay (now_us : Z) (vehicle : EbikeVehicle) (received : list Z) (s : EbikeControl)
    : option (list (list Z) * EbikeControl) :=
  let '(frames, s) := foldl (display_byte now_us vehicle) ([], s) (take kMaxDisplayBytes received) in
  if display_alive_ s then
    timeout ← microseconds (display_timeout (parameters_ s));
    Some (frames, if timeout <=? u64 (now_us - last_request_us_ s) then s.{display_alive_ := false} else s)
  else Some (frames, s).

(** The engagement on demand of Update(). *)
Definition update_engagement (now_us : Z) (vehicle : EbikeVehicle) (s : EbikeControl) : option EbikeControl :=
  let kWant := display_alive_ s && (0 <? Kunteng.assist_level (request_ s)) && Pedaling (pedal_ s) in
  let s := if Pedaling (pedal_ s) then s.{pedal_still_since_us_ := now_us} else s in
  let s := if faulted vehicle && (wanting_ s || was_engaged_ s || kWant) then s.{latched_ := true} else s in
  s ← (if latched_ s then
         rearm ← microseconds (rearm_pedal_stop (parameters_ s));
         Some (if rearm <=? u64 (now_us - pedal_still_since_us_ s) then s.{latched_ := false} else s)
       else Some s);
  s ← (if kWant && negb (latched_ s) then Some (s.{wanting_ := true}.{last_want_us_ := now_us})
       else if wanting_ s then
         if latched_ s then Some (s.{wanting_ := false})
         else
           hold ← microseconds (engage_hold (parameters_ s));
           Some (if hold <=? u64 (now_us - last_want_us_ s) then s.{wanting_ := false} else s)
       else Some s);
  Some (s.{was_engaged_ := engaged vehicle}).

(** The readings of the platform at an update. *)
Record EbikeReadings := mkEbikeReadings { crank_torque : float; cadence_ages : list float; display_bytes : list Z }.

Section Update.
Variable std_exp : float -> float.

(** The output, the frames written to the display and the control. *)
Definition Update (now_us : Z) (vehicle : EbikeVehicle) (io : EbikeReadings) (s : EbikeControl)
    : option (EbikeOutput * list (list Z) * EbikeControl) :=
  if started_ s && (u64 (now_us - last_update_us_ s) <? kStepUs) then Some (output_ s, [], s)
  else
    let kStepElapsedUs := if started_ s then Z.min (u64 (now_us - last_update_us_ s)) kMaxStepUs else kStepUs in
    let s := if started_ s then s else s.{started_ := true}.{pedal_still_since_us_ := now_us} in
    let s := s.{last_update_us_ := now_us} in
    let kDt := f_mul (f_of_Z kStepElapsedUs) (f_dec 1 1000000) in
    observer ← Step kDt (crank_torque io) (take kMaxPulsesPerUpdate (cadence_ages io)) (pedal_ s);
    let s := s.{pedal_ := observer} in
    '(frames, s) ← ServiceDisplay now_us vehicle (display_bytes io) s;
    let back := reversed (parameters_ s) in
    let kForwardSpeed := if back then f_neg (motor_speed vehicle) else motor_speed vehicle in
    let level := if display_alive_ s then Kunteng.assist_level (request_ s) else 0 in
    s ← update_engagement now_us vehicle s;
    let level := if negb (wanting_ s) || latched_ s then 0 else level in
    let input := mkAssistInput (Pedaling (pedal_ s)) (Cadence (pedal_ s)) (MeanTorque (pedal_ s)) kForwardSpeed
      (f_mul (motor_speed_per_kmh_ s) (f_of_Z (Kunteng.max_speed (request_ s))))
      (if back then f_neg (torque_min vehicle) else torque_max vehicle) level in
    let '(kTorque, controller) := Assist_Step std_exp kDt input (assist_ s) in
    let output := mkEbikeOutput (wanting_ s && negb (latched_ s)) (if back then f_neg kTorque else kTorque)
      (display_alive_ s && Kunteng.light (request_ s)) in
    Some (output, frames, s.{assist_ := controller}.{output_ := output}).
End Update.

(** ** Lemmas *)

(** The engagement of an update keeps the pedals and the display. *)
Lemma update_engagement_spec now_us vehicle s s' : update_engagement now_us vehicle s = Some s' ->
  pedal_ s' = pedal_ s /\ parameters_ s' = parameters_ s /\
  pedal_still_since_us_ s' = (if Pedaling (pedal_ s) then now_us else pedal_still_since_us_ s) /\
  (wanting_ s' && negb (latched_ s') = true ->
     (latched_ s = true \/ faulted vehicle && (wanting_ s || was_engaged_ s) = true ->
        exists rearm, microseconds (rearm_pedal_stop (parameters_ s)) = Some rearm /\
          rearm <= u64 (now_us - pedal_still_since_us_ s')) /\
     (display_alive_ s && (0 <? Kunteng.assist_level (request_ s)) && Pedaling (pedal_ s) = true \/
      wanting_ s = true /\ exists hold, microseconds (engage_hold (parameters_ s)) = Some hold /\
        u64 (now_us - last_want_us_ s) < hold)).
Proof.
  unfold update_engagement. set (want := _ && _ && Pedaling (pedal_ s)).
  set (s1 := if Pedaling (pedal_ s) then _ else s). set (s2 := if faulted vehicle && _ then _ else s1).
  assert (pedal_still_since_us_ s2 = (if Pedaling (pedal_ s) then now_us else pedal_still_since_us_ s)) as E0
    by (unfold s2, s1; repeat case_if; done).
  assert (pedal_ s2 = pedal_ s /\ parameters_ s2 = parameters_ s /\ wanting_ s2 = wanting_ s /\ last_want_us_ s2 = last_want_us_ s)
    as (E1 & E2 & E3 & E4) by (unfold s2, s1; repeat case_if; done).
  assert (latched_ s = true \/ faulted vehicle && (wanting_ s || was_engaged_ s) = true -> latched_ s2 = true) as E5.
  { assert (latched_ s1 = latched_ s /\ wanting_ s1 = wanting_ s /\ was_engaged_ s1 = was_engaged_ s) as (L1 & L2 & L3)
      by (unfold s1; case_if; done).
    unfold s2. rewrite L2, L3. intros [H|H].
    - case_if; [done|by rewrite L1].
    - apply andb_true_iff in H as [-> H]. rewrite H. done. }
  clearbody s2. clear s1.
  destruct (latched_ s2) eqn:L; cbn [mbind option_bind].
  - destruct (microseconds (rearm_pedal_stop (parameters_ s2))) as [rearm|] eqn:R; [|done]. cbn [mbind option_bind].
    destruct (Z.leb_spec rearm (u64 (now_us - pedal_still_since_us_ s2))) as [Hr|Hr].
    + assert (exists r, microseconds (rearm_pedal_stop (parameters_ s)) = Some r /\ r <= u64 (now_us - pedal_still_since_us_ s2)) as Ok
        by (exists rearm; by rewrite <- E2).
      cbn [latched_ set_field negb wanting_]. rewrite andb_true_r. destruct want.
      * intros [= <-]. cbn. split_and!; try done. intros _. split; [done|by left].
      * rewrite E3. destruct (wanting_ s) eqn:W; [|intros [= <-]; cbn; split_and!; try done; by rewrite E3].
        cbn [parameters_ last_want_us_]. destruct (microseconds (engage_hold _)) as [hold|] eqn:Hh; [|done]. cbn [mbind option_bind].
        destruct (Z.leb_spec hold (u64 (now_us - last_want_us_ s2))) as [Hg|Hg]; intros [= <-]; cbn; split_and!; try done.
        intros _. split; [done|]. right. split; [done|]. exists hold. rewrite <- E2, <- E4. done.
    + cbn [negb]. rewrite L. cbn [negb]. rewrite andb_false_r. destruct (wanting_ s2) eqn:W; intros [= <-]; cbn; rewrite ?L, ?W;
        split_and!; done.
  - rewrite L. cbn [negb]. rewrite andb_true_r. destruct want.
    + intros [= <-]. cbn. rewrite L. split_and!; try done. intros _. split; [intros H; by specialize (E5 H)|by left].
    + rewrite E3. destruct (wanting_ s) eqn:W; [|intros [= <-]; cbn; split_and!; try done; by rewrite E3].
      destruct (microseconds (engage_hold _)) as [hold|] eqn:Hh; [|done]. cbn [mbind option_bind].
      destruct (Z.leb_spec hold (u64 (now_us - last_want_us_ s2))) as [Hg|Hg]; intros [= <-]; cbn; split_and!; try done.
      intros _. split; [intros H; by specialize (E5 H)|]. right. split; [done|]. exists hold. rewrite <- E2, <- E4. done.
Qed.

Lemma update_engagement_display now_us vehicle s s' : update_engagement now_us vehicle s = Some s' ->
  display_alive_ s' = display_alive_ s /\ request_ s' = request_ s.
Proof.
  unfold update_engagement. set (want := _ && _ && Pedaling (pedal_ s)). set (s1 := if Pedaling (pedal_ s) then _ else s).
  set (s2 := if faulted vehicle && _ then _ else s1).
  assert (display_alive_ s2 = display_alive_ s /\ request_ s2 = request_ s) as [<- <-] by (unfold s2, s1; repeat case_if; done).
  clearbody s2. set (r := if latched_ s2 then _ else _). destruct r as [t|] eqn:R; [|done]. cbn [mbind option_bind].
  assert (display_alive_ t = display_alive_ s2 /\ request_ t = request_ s2) as [<- <-].
  { revert R. unfold r. destruct (latched_ s2); [|by intros [= <-]].
    destruct (microseconds _); [|done]. cbn [mbind option_bind]. intros [= <-]. by case_if. }
  set (q := if want && _ then _ else _). destruct q as [u|] eqn:Q; [|done]. cbn [mbind option_bind]. intros [= <-]. cbn.
  revert Q. unfold q. destruct (want && negb (latched_ t)); [by intros [= <-]|]. destruct (wanting_ t); [|by intros [= <-]].
  destruct (latched_ t); [by intros [= <-]|]. destruct (microseconds (engage_hold (parameters_ t))); cbn [mbind option_bind]; [|done]. cbn [mbind option_bind]. intros [= <-]. repeat case_if; done.
Qed.

(** What the display service keeps. *)
Record keeps (s s' : EbikeControl) : Prop := mkKeeps {
  k_parameters : parameters_ s' = parameters_ s;
  k_pedal : pedal_ s' = pedal_ s;
  k_wanting : wanting_ s' = wanting_ s;
  k_last_want : last_want_us_ s' = last_want_us_ s;
  k_latched : latched_ s' = latched_ s;
  k_still : pedal_still_since_us_ s' = pedal_still_since_us_ s;
  k_was_engaged : was_engaged_ s' = was_engaged_ s }.
Lemma display_byte_keeps now_us vehicle frames s byte : keeps s (display_byte now_us vehicle (frames, s) byte).2.
Proof.
  unfold display_byte, BatteryBars. destruct (Kunteng.Push byte (decoder_ s)) as [[request|] decoder]; [|done].
  repeat case_if; done.
Qed.
Lemma display_bytes_keep now_us vehicle received : forall frames s,
  keeps s (foldl (display_byte now_us vehicle) (frames, s) received).2.
Proof.
  induction received as [|byte rest IH]; intros frames s; [done|]. cbn [foldl].
  pose proof (display_byte_keeps now_us vehicle frames s byte) as K. destruct (display_byte _ _ _ _) as [f t].
  specialize (IH f t). destruct K, IH. cbn [snd] in *. split; congruence.
Qed.
Lemma ServiceDisplay_keeps now_us vehicle received s frames s' :
  ServiceDisplay now_us vehicle received s = Some (frames, s') -> keeps s s'.
Proof.
  unfold ServiceDisplay. pose proof (display_bytes_keep now_us vehicle (take kMaxDisplayBytes received) [] s) as K.
  destruct (foldl _ _ _) as [f t]. cbn [snd] in K. destruct (display_alive_ t); [|by intros [= <- <-]].
  destruct (microseconds _); [|done]. cbn [mbind option_bind]. intros [= <- <-]. destruct K. by case_if.
Qed.

(** ** Properties *)


(** A rider at level 3, one second after the start; any exponential. *)
Definition riding : EbikeControl :=
  EbikeControl_init.{display_alive_ := true}.{request_ := mkDisplayRequest 3 false 0 25 0 false 0 (replicate 13 0)}
   .{started_ := true}.{pedal_ := (PedalObserver_of PedalObserverConfig_init).{pulses_seen_ := 2}.{pedaling_ := true} }.
Definition parked : EbikeVehicle :=
  mkEbikeVehicle f_zero (f_of_Z (-20)) (f_of_Z 20) (f_of_Z 36) f_zero (f_of_Z 300) false false.

(** *** Two pulses at one instant

    Pulses older than the step are moved to its start.  When the second pulse
    of a start falls on the first, the first interval is zero: the cadence is
    infinite, then not a number, and the assist torque runs down below zero. *)
Definition stalled_start : option PedalObserver :=
  let ms n := Units.convert 1 1000 (f_of_Z n) in
  s ← Step (ms 20) (f_of_Z 20) [ms 60; ms 30] (PedalObserver_of PedalObserverConfig_init);
  s ← Step (ms 20) (f_of_Z 20) [ms 1] s;
  Step (ms 20) (f_of_Z 20) [ms 1] s.
Lemma stalled_start_cadence :
  option_map (fun s => (Pedaling s, Cadence s, f_gtb (MeanTorque s) (f_of_Z 10))) stalled_start = Some (true, S754_nan, true).
Proof. vm_compute. reflexivity. Qed.
Lemma nan_cadence_brakes (std_exp : float -> float) : std_exp S754_nan = S754_nan ->
  f_ltb (Assist_Step std_exp (Units.convert 1 1000 (f_of_Z 20))
    (mkAssistInput true S754_nan (f_of_Z 20) f_zero (f_of_Z 50) (f_of_Z 20) 3) (AssistController_of AssistConfig_init)).1 f_zero = true.
Proof.
  intros E. unfold Assist_Step, Target. cbn -[f_ltb f_leb f_mul f_div f_sub f_add std_min std_max std_clamp f_of_Z f_dec].
  replace (std_min (f_div (f_mul _ S754_nan) _) kMaxExponent) with S754_nan by (vm_compute; reflexivity).
  rewrite E. vm_compute. reflexivity.
Qed.

End Ebike.
