(* ===== verification/SlowUpdate.v ===== *)
(** * The observer task

    src/current_control/slow_update.{hpp,cpp}: class [SlowUpdate], which runs
    after every control cycle, fuses the measurements of the cycle into the
    mechanical observer and prepares the angles of the next one.
    src/current_control/current_control_runtime.hpp: [StartRuntime()].  [None]:
    a conversion of a float is outside its type. *)
From Stdlib Require Import ZArith Lia Bool SpecFloat.
From stdpp Require Import base decidable list option.
From S2P Require Import Prelude Float32 CurrentControl Transforms SettingsData Observers Isr PowerStage OuterLoop.
Import CurrentControl Transforms Observers Isr.
Import SettingsData(NvmSettings, num, fl).

#[local] Open Scope Z_scope.
#[local] Open Scope unimoc_scope.

Module SlowUpdate.

Section Clock.
(** Ticks per second of the platform's timestamp clock: every platform has its
    own (170 MHz on the bike controller, 1 GHz in the simulation). *)
Variable kTimestampFrequency : Z.

Definition kMaxHallEvents : nat := 8.

Record SlowUpdate := mkSlowUpdate {
  isr_ : bool; hardware_ : bool; flux_obs : PmsmFluxObserver; hall : HallFusion; flux_r_speed_ : float;
  reference_offset_ticks_ : Z; flux_setpoint_ : Rotor }.
#[export] Instance eta_SlowUpdate : Eta SlowUpdate := fun s =>
  mkSlowUpdate (isr_ s) (hardware_ s) (flux_obs s) (hall s) (flux_r_speed_ s) (reference_offset_ticks_ s) (flux_setpoint_ s).
Definition SlowUpdate_init : SlowUpdate :=
  mkSlowUpdate false false PmsmFluxObserver_init HallFusion_init f_zero 0 zero_Rotor.

Definition SetFluxSetpoint (setpoint : Rotor) (s : SlowUpdate) : SlowUpdate := s.{flux_setpoint_ := setpoint}.

Definition Init (settings : NvmSettings) (isr : CurrentControlIsr) (s : SlowUpdate) : option SlowUpdate :=
  let kOffset := f_mul (dt_fast isr) (f_of_Z 3) in
  ticks ← f_to_u32 (f_add (f_mul kOffset (f_of_Z kTimestampFrequency)) f_half);
  Some (s.{isr_ := true}.{hardware_ := true}.{flux_obs := Flux_Init settings (flux_obs s)}
         .{flux_r_speed_ := fl SettingsData.pmsm_flux_obs_r_speed settings}.{hall := Hall_Init settings (hall s)}
         .{reference_offset_ticks_ := ticks}.{flux_setpoint_ := mkRotor (fl SettingsData.flux_pm settings) f_zero}).

Definition FluxNoise (speed : float) (isr : CurrentControlIsr) (s : SlowUpdate) : float :=
  let kNoise := obs_R (mech_obs isr) in
  if negb (f_gtb (flux_r_speed_ s) f_zero) then kNoise
  else f_add kNoise (f_div (flux_r_speed_ s) (Max (f_mul speed speed) (f_mul f_one f_one))).

(** The events waiting on the platform: FuseHall() takes the oldest eight. *)
Definition FuseHall (cycle_timestamp : Z) (waiting : list HallEvent) (isr : CurrentControlIsr) (s : SlowUpdate)
    : option (list HallEvent * CurrentControlIsr * SlowUpdate) :=
  if negb (hardware_ s) then Some (waiting, isr, s)
  else
    let events := take kMaxHallEvents waiting in
    let rest := drop kMaxHallEvents waiting in
    if negb (enabled_ (hall s)) then Some (rest, isr, s)
    else
      let kTickPeriod := f_div f_one (f_of_Z kTimestampFrequency) in
      '(h, o) ← Hall_Update events (u32 (cycle_timestamp - reference_offset_ticks_ s)) kTickPeriod (hall s) (mech_obs isr);
      Some (rest, isr.{mech_obs := o}, s.{hall := h}).

(** One sample of the cycle into the injection observer. *)
Definition hfi_sample (cycle : SubStepBuffer) (acc : option CurrentControlIsr) (k : Z) : option CurrentControlIsr :=
  isr ← acc;
  let angle := array_get SinCos_init (sc cycle) k in
  '(h, o) ← Hfi_Update (array_get (mkStator f_zero f_zero) (i_ab_samples cycle) k) (sin angle) (cos angle) (dt_slow isr)
              (Isr.hfi isr) (mech_obs isr);
  Some (isr.{Isr.hfi := h}.{mech_obs := o}).

(** The angles of the next cycle; [k] counts its samples. *)
Definition next_angles (isr : CurrentControlIsr) (next : SubStepBuffer) : option SubStepBuffer :=
  let kThetaNow := theta (mech_obs isr) in
  let kStep := f_mul (omega (mech_obs isr)) (dt_fast isr) in
  let kOutOffset := f_add (f_of_Z 3) (output_delay_half_periods isr) in
  samples ← mapM (fun k => Calculate_angle (f_add kThetaNow (f_mul kStep (f_of_Z k)))) (seqZ 0 4);
  outputs ← mapM (fun k => Calculate_angle (f_add kThetaNow (f_mul kStep (f_add kOutOffset (f_of_Z k))))) (seqZ 0 4);
  Some (next.{sc := samples}.{sc_out := outputs}).

(** RunOnce(): whether it ran, the Hall events left, and the states; [enabled]:
    the outputs are released. *)
Definition RunOnce (enabled : bool) (waiting : list HallEvent) (isr : CurrentControlIsr) (s : SlowUpdate)
    : option (bool * list HallEvent * CurrentControlIsr * SlowUpdate) :=
  if negb (isr_ s) || negb (observer_pending isr) then Some (false, waiting, isr, s)
  else
    let kFinishedBuffer := observer_buffer isr in
    let cycle := array_get SubStepBuffer_init (buf isr) kFinishedBuffer in
    let isr := isr.{mech_obs := PredictCovariance (dt_slow isr) (mech_obs isr)} in
    '(isr, s) ← (if enabled then
                   let '(kFluxError, f) := Flux_Calculate (Isr.u_dq cycle) (i_dq_mean cycle) (flux_setpoint_ s) (dt_slow isr)
                                             (mech_obs isr) (flux_obs s) in
                   let s := s.{flux_obs := f} in
                   match kFluxError with
                   | None => Some (isr, s)
                   | Some error =>
                       o ← UpdateAngle error (FluxNoise (omega (mech_obs isr)) isr s) (mech_obs isr);
                       Some (isr.{mech_obs := o}, s)
                   end
                 else Some (isr, s.{flux_obs := Flux_Reset (flux_obs s)}));
    '(waiting, isr, s) ← FuseHall (timestamp cycle) waiting isr s;
    o ← Predict (i_dq_mean cycle) (dt_slow isr) (mech_obs isr);
    let isr := isr.{mech_obs := o} in
    isr ← (if hfi_active isr then foldl (hfi_sample cycle) (Some isr) (seqZ 0 4) else Some isr);
    let kNext := 1 - kFinishedBuffer in
    next ← next_angles isr (array_get SubStepBuffer_init (buf isr) kNext);
    Some (true, waiting, isr.{buf := array_set kNext next (buf isr)}.{buf_active := kNext}.{observer_pending := false}, s).

(** StartRuntime(); [Initialize] of the platform takes the PWM frequency and the
    trigger offset. *)
Definition StartRuntime (Initialize : float -> Z -> bool) (timer_clock_hz : Z) (settings : NvmSettings) (overcurrent : float)
    (isr : CurrentControlIsr) (s : SlowUpdate) (l : OuterLoop.OuterLoop)
    : option (bool * CurrentControlIsr * SlowUpdate * OuterLoop.OuterLoop) :=
  isr ← Isr.Init settings timer_clock_hz isr;
  s ← Init settings isr s;
  let isr := SetOvercurrentLimit overcurrent isr in
  Some (Initialize (fl SettingsData.pwm_frequency settings) (adc_trigger_offset isr), isr, s, OuterLoop.Init settings l).

(** ** Lemmas *)
Lemma hfi_samples_frame cycle ks : forall acc isr', foldl (hfi_sample cycle) acc ks = Some isr' ->
  exists isr, acc = Some isr /\ buf isr' = buf isr /\ observer_buffer isr' = observer_buffer isr /\
    hardware_plan isr' = hardware_plan isr /\ observer_overruns isr' = observer_overruns isr.
Proof.
  induction ks as [|k ks IH]; intros acc isr' H; cbn [foldl] in H; [by exists isr'|].
  destruct (IH _ _ H) as (t & E & B1 & B2 & B3 & B4). unfold hfi_sample in E. destruct acc as [isr|]; [|done]. cbn [mbind option_bind] in E.
  destruct (Hfi_Update _ _ _ _ _ _) as [[h o]|]; [|done]. cbn [mbind option_bind] in E. injection E as <-. exists isr. done.
Qed.

(** The observer writes only the buffer the control cycle does not use, and
    hands it over. *)
Lemma RunOnce_frame enabled waiting isr s ran rest isr' s' :
  RunOnce enabled waiting isr s = Some (ran, rest, isr', s') ->
  if ran then buf_active isr' = 1 - observer_buffer isr /\ observer_pending isr' = false /\
              (exists next, buf isr' = array_set (1 - observer_buffer isr) next (buf isr)) /\
              observer_overruns isr' = observer_overruns isr /\ hardware_plan isr' = hardware_plan isr
  else isr' = isr /\ s' = s /\ rest = waiting.
Proof.
  unfold RunOnce. destruct (negb (isr_ s) || negb (observer_pending isr)); [by intros [= <- <- <- <-]|].
  set (r := if enabled then _ else _). destruct r as [[i1 s1]|] eqn:R; [|done]. cbn [mbind option_bind].
  assert (buf i1 = buf isr /\ observer_buffer i1 = observer_buffer isr /\ hardware_plan i1 = hardware_plan isr /\
    observer_overruns i1 = observer_overruns isr) as (A1 & A2 & A3 & A4).
  { revert R. unfold r. destruct enabled; [|by intros [= <- <-]]. destruct (Flux_Calculate _ _ _ _ _ _) as [[e|] f]; [|by intros [= <- <-]].
    destruct (UpdateAngle _ _ _); [|done]. cbn [mbind option_bind]. by intros [= <- <-]. }
  clearbody r. clear R.
  destruct (FuseHall _ _ _ _) as [[[w i2] s2]|] eqn:F; [|done]. cbn [mbind option_bind].
  assert (buf i2 = buf isr /\ observer_buffer i2 = observer_buffer isr /\ hardware_plan i2 = hardware_plan isr /\
    observer_overruns i2 = observer_overruns isr) as (B1 & B2 & B3 & B4).
  { revert F. unfold FuseHall. destruct (negb (hardware_ s1)); [by intros [= <- <- <-]|]. destruct (negb (enabled_ (hall s1))); [by intros [= <- <- <-]|].
    destruct (Hall_Update _ _ _ _ _) as [[h o]|]; [|done]. cbn [mbind option_bind]. by intros [= <- <- <-]. }
  clear F. destruct (Predict _ _ _) as [o|]; [|done]. cbn [mbind option_bind].
  set (i3 := i2.{mech_obs := o}). set (r2 := if hfi_active i3 then _ else _). destruct r2 as [i4|] eqn:R; [|done]. cbn [mbind option_bind].
  assert (buf i4 = buf isr /\ hardware_plan i4 = hardware_plan isr /\ observer_overruns i4 = observer_overruns isr) as (C1 & C3 & C4).
  { revert R. unfold r2. destruct (hfi_active i3); [|by intros [= <-]]. intros H. apply hfi_samples_frame in H as (i & [= <-] & D1 & D2 & D3 & D4).
    rewrite D1, D3, D4. done. }
  clear R. destruct (next_angles _ _) as [next|]; [|done]. cbn [mbind option_bind]. intros [= <- <- <- <-].
  cbn [buf_active observer_pending set_field buf observer_overruns hardware_plan].
  split; [done|]. split; [done|]. split; [exists next; by rewrite C1|]. done.
Qed.

End Clock.
End SlowUpdate.
