(* ===== verification/HwStartup.v ===== *)
(** * Hardware bring-up state machine

    src/startup/hw_startup.{hpp,cpp}, src/startup/startup_results.hpp: class
    [HwStartup] with every handler, over the power stage and the current
    control it drives.  The log lines are output only and left out. *)
From Stdlib Require Import ZArith Lia Bool SpecFloat.
From stdpp Require Import base list.
From S2P Require Import Prelude Float32 PowerStage CurrentControl SettingsTypes Isr.
Import PowerStage CurrentControl Isr SettingsTypes(SettingsClient, max_phase_current).

#[local] Open Scope Z_scope.
#[local] Open Scope unimoc_scope.

Module HwStartup.

(** ** Data (startup_results.hpp) *)
Inductive FsmState :=
| kIdle | kPwmDisable | kAdcOffsetCal | kAdcNoiseFloor | kDutyForceLow | kDutyForceMid | kDutyForceHigh
| kDcLinkVoltageCheck | kGateDriverEnableCheck | kConnectMotor | kPhaseAdcAlignment
| kCurrentSenseCalibration | kDone | kFault | kNumStates.
#[export] Instance FsmState_eq_dec : EqDecision FsmState.
Proof. solve_decision. Defined.

Definition all_states : list FsmState :=
  [kIdle; kPwmDisable; kAdcOffsetCal; kAdcNoiseFloor; kDutyForceLow; kDutyForceMid; kDutyForceHigh;
   kDcLinkVoltageCheck; kGateDriverEnableCheck; kConnectMotor; kPhaseAdcAlignment;
   kCurrentSenseCalibration; kDone; kFault; kNumStates].
(** [static_cast<uint8_t>(state)] and back. *)
Definition fsm_index (s : FsmState) : Z :=
  match s with
  | kIdle => 0 | kPwmDisable => 1 | kAdcOffsetCal => 2 | kAdcNoiseFloor => 3 | kDutyForceLow => 4
  | kDutyForceMid => 5 | kDutyForceHigh => 6 | kDcLinkVoltageCheck => 7 | kGateDriverEnableCheck => 8
  | kConnectMotor => 9 | kPhaseAdcAlignment => 10 | kCurrentSenseCalibration => 11 | kDone => 12
  | kFault => 13 | kNumStates => 14
  end.
Definition fsm_of_index (i : Z) : FsmState := array_get kNumStates all_states i.
Definition is_state (a b : FsmState) : bool := bool_decide (a = b).

Inductive StartupFault :=
| fault_kNone | fault_kAborted | fault_kEmergencyStop | fault_kOvercurrent | fault_kTrip
| fault_kEnableLost | fault_kApplyFailed.
Inductive StartupNeeds := needs_kNone | needs_kDcLinkVoltage | needs_kPhaseCurrent | needs_kMotorConnected.
Inductive StartupStart := kStarted | kRunning | kNotReleased.
Inductive StartupContinue :=
| kAccepted | kNotRunning | kMeasuring | kNeedsReading | kNeedsConfirmation | kUnexpectedConfirmation.

Record StartupStatus := mkStartupStatus {
  status_step : FsmState;
  status_active : bool;
  status_measured : bool;
  status_needs : StartupNeeds;
  status_progress : Z;
  status_passed : Z;
  status_failed : Z;
  status_fault : StartupFault;
  status_started : bool }.

Definition kNumStartupSteps : Z := 14.

Record StartupResults := mkStartupResults {
  passed : list bool;
  adc_offset_a : float;
  adc_offset_b : float;
  adc_offset_c : float;
  adc_noise_rms_a : float;
  adc_noise_rms_b : float;
  gain_vdc : float;
  gain_a : float;
  gain_b : float;
  gain_c : float;
  adc_trigger_offset_optimal : Z;
  current_state : FsmState }.
#[export] Instance eta_StartupResults : Eta StartupResults := fun s =>
  mkStartupResults (passed s) (adc_offset_a s) (adc_offset_b s) (adc_offset_c s) (adc_noise_rms_a s)
    (adc_noise_rms_b s) (gain_vdc s) (gain_a s) (gain_b s) (gain_c s) (adc_trigger_offset_optimal s)
    (current_state s).
Definition StartupResults_init : StartupResults :=
  mkStartupResults (replicate 14 false) f_zero f_zero f_zero f_zero f_zero f_one f_one f_one f_one 168 kIdle.

(** ** The class (hw_startup.hpp) *)
Definition kNCal : Z := 1024.
Definition kNGate : Z := 512.
Definition kHoldSamples : Z := 1000.
Definition kNAlignSamples : Z := 256.
Definition kNSweepSteps : Z := 21.

Record HwStartup := mkHwStartup {
  (* thresholds, public *)
  offset_threshold : float;
  noise_threshold : float;
  gain_tolerance : float;
  vdc_gain_tolerance : float;
  vdc_min_valid : float;
  oc_fraction : float;
  duty_step_fraction : float;
  v_cal_fraction : float;
  (* results, public *)
  results : StartupResults;
  (* private members *)
  state_ : FsmState;
  step_done_ : bool;
  next_step_requested_ : bool;
  started_ : bool;
  reading_prompted_ : bool;
  completed_ : Z;
  fault_ : StartupFault;
  sample_count_ : Z;
  accum_a_ : double;
  accum_b_ : double;
  accum_c_ : double;
  accum_sq_a_ : double;
  accum_sq_b_ : double;
  sweep_pos_ : Z;
  sweep_noise_a_ : list float;
  base_trigger_offset_ : Z;
  gate_mean_disabled_ : float;
  gate_mean_enabled_ : float;
  gate_phase_disabled_ : bool;
  ext_current_ : float;
  ext_vdc_ : float;
  oc_limit_ : float }.
#[export] Instance eta_HwStartup : Eta HwStartup := fun s =>
  mkHwStartup (offset_threshold s) (noise_threshold s) (gain_tolerance s) (vdc_gain_tolerance s)
    (vdc_min_valid s) (oc_fraction s) (duty_step_fraction s) (v_cal_fraction s) (results s) (state_ s)
    (step_done_ s) (next_step_requested_ s) (started_ s) (reading_prompted_ s) (completed_ s) (fault_ s)
    (sample_count_ s) (accum_a_ s) (accum_b_ s) (accum_c_ s) (accum_sq_a_ s) (accum_sq_b_ s)
    (sweep_pos_ s) (sweep_noise_a_ s) (base_trigger_offset_ s) (gate_mean_disabled_ s)
    (gate_mean_enabled_ s) (gate_phase_disabled_ s) (ext_current_ s) (ext_vdc_ s) (oc_limit_ s).

Definition HwStartup_init : HwStartup :=
  mkHwStartup (f_lit 5 10) (f_lit 1 10) (f_lit 5 100) (f_lit 2 100) (f_of_Z 1) (f_lit 10 100) (f_lit 45 100)
    (f_lit 2 1000) StartupResults_init kIdle false false false false 0 fault_kNone 0 f_zero f_zero f_zero
    f_zero f_zero 0 (replicate 21 f_zero) 0 f_zero f_zero true f_zero f_zero (f_of_Z 10).

Definition kNeutralDuty : float := f_half.

(** The objects the state machine shares with the rest of the program: the
    current control it points to, the power stage and the settings. *)
Record Sys (P S : Type) := mkSys {
  fsm : HwStartup;
  cc_ : CurrentControlIsr;
  kPowerStage : PowerStageInterface P;
  settings_operations_ : S }.
Arguments mkSys {P S}.
Arguments fsm {P S}.
Arguments cc_ {P S}.
Arguments kPowerStage {P S}.
Arguments settings_operations_ {P S}.
#[export] Instance eta_Sys P S : Eta (Sys P S) := fun s =>
  mkSys (fsm s) (cc_ s) (kPowerStage s) (settings_operations_ s).

(** [s.fsm{m := v}] and [s.results{m := v}]: an assignment to a member of the
    state machine or of its results. *)
Definition on_fsm {P S} (g : HwStartup -> HwStartup) (s : Sys P S) : Sys P S := s.{fsm := g (fsm s)}.
Definition on_results (g : StartupResults -> StartupResults) (h : HwStartup) : HwStartup :=
  h.{results := g (results h)}.
Arguments on_fsm {P S} g s /.
Arguments on_results g h /.
#[local] Notation "s '.fsm{' f ':=' v '}'" := (on_fsm (set_field f v) s)
  (at level 1, left associativity, f at level 0).
#[local] Notation "s '.results{' f ':=' v '}'" := (on_fsm (on_results (set_field f v)) s)
  (at level 1, left associativity, f at level 0).

(** ** Operations (hw_startup.cpp) *)
Definition bit_of (s : FsmState) : Z := Z.shiftl 1 (fsm_index s).

Section Operations.
Context {P S : Type} `{!PowerStageOps P} `{!SettingsClient S}.
Implicit Type s : Sys P S.

Definition IsActive (h : HwStartup) : bool :=
  negb (is_state (state_ h) kIdle) && negb (is_state (state_ h) kDone) && negb (is_state (state_ h) kFault).

Definition SetExtCurrent (current : float) s : Sys P S := s.fsm{ext_current_ := current}.
Definition SetExtVdc (voltage : float) s : Sys P S := s.fsm{ext_vdc_ := voltage}.

Definition set_passed (step : FsmState) (value : bool) s : Sys P S :=
  s.results{passed := array_set (fsm_index step) value (passed (results (fsm s)))}.

Definition ForceNeutral s : Sys P S := s.{cc_ := ForceDuty kNeutralDuty kNeutralDuty kNeutralDuty (cc_ s)}.

Definition TransitionTo (next : FsmState) s : Sys P S :=
  s.fsm{state_ := next}.fsm{step_done_ := false}.fsm{next_step_requested_ := false}.fsm{sample_count_ := 0}
   .fsm{accum_a_ := f_zero}.fsm{accum_b_ := f_zero}.fsm{accum_c_ := f_zero}.fsm{accum_sq_a_ := f_zero}
   .fsm{accum_sq_b_ := f_zero}.results{current_state := next}.

Definition EnterFault (fault : StartupFault) s : Sys P S :=
  let s := s.fsm{fault_ := fault}.fsm{state_ := kFault}.results{current_state := kFault} in
  let s := ForceNeutral s in
  s.{kPowerStage := Disable (kPowerStage s)}.

Definition StartLimit s : float := f_mul (max_phase_current (settings_operations_ s)) (oc_fraction (fsm s)).

Definition RequestRun s : StartupStart * Sys P S :=
  if IsActive (fsm s) then (kRunning, s)
  else
    let s := s.fsm{state_ := kIdle}.results{current_state := kIdle} in
    let s := s.fsm{results := StartupResults_init}.fsm{sample_count_ := 0}.fsm{sweep_pos_ := 0}
              .fsm{step_done_ := false}.fsm{next_step_requested_ := false}.fsm{ext_current_ := f_zero}
              .fsm{ext_vdc_ := f_zero}.fsm{reading_prompted_ := false}.fsm{completed_ := 0}
              .fsm{fault_ := fault_kNone} in
    let s := s.fsm{oc_limit_ := StartLimit s} in
    let s := if state_eqb (GetState (kPowerStage s)) PowerStage.kFault
             then s.{kPowerStage := ClearFault (kPowerStage s)} else s in
    let s := s.{cc_ := ClearTrips (cc_ s)} in
    let s := ForceNeutral s in
    let '(released, stage) := Enable (kPowerStage s) in
    let s := s.{kPowerStage := stage} in
    if negb released then (kNotReleased, s.{cc_ := ReleaseForceDuty (cc_ s)})
    else
      let s := s.fsm{started_ := true} in
      (kStarted, TransitionTo kPwmDisable s).

Definition Needs (h : HwStartup) : StartupNeeds :=
  if negb (IsActive h) then needs_kNone
  else match state_ h with
  | kDcLinkVoltageCheck =>
      if negb (step_done_ h) && (kNCal <=? sample_count_ h) then needs_kDcLinkVoltage else needs_kNone
  | kCurrentSenseCalibration =>
      if negb (step_done_ h) && (kNCal <=? sample_count_ h) then needs_kPhaseCurrent else needs_kNone
  | kConnectMotor => if step_done_ h then needs_kMotorConnected else needs_kNone
  | _ => needs_kNone
  end.

Definition RequestNextStep (motor_connected : bool) s : StartupContinue * Sys P S :=
  if negb (IsActive (fsm s)) then (kNotRunning, s)
  else
    let continue := if negb (step_done_ (fsm s)) then (kMeasuring, s)
                    else (kAccepted, s.fsm{next_step_requested_ := true}) in
    match Needs (fsm s) with
    | needs_kDcLinkVoltage | needs_kPhaseCurrent => (kNeedsReading, s)
    | needs_kMotorConnected => if negb motor_connected then (kNeedsConfirmation, s) else continue
    | needs_kNone => if motor_connected then (kUnexpectedConfirmation, s) else continue
    end.

Definition Progress (h : HwStartup) : Z :=
  if negb (IsActive h) then (if is_state (state_ h) kDone then 100 else 0)
  else if step_done_ h then 100
  else
    let '(done, total) :=
      match state_ h with
      | kAdcOffsetCal | kAdcNoiseFloor | kDcLinkVoltageCheck | kCurrentSenseCalibration =>
          (sample_count_ h, kNCal)
      | kDutyForceLow | kDutyForceMid | kDutyForceHigh => (sample_count_ h, kHoldSamples)
      | kGateDriverEnableCheck =>
          (if gate_phase_disabled_ h then sample_count_ h else u32 (kNGate + sample_count_ h), 2 * kNGate)
      | kPhaseAdcAlignment =>
          (u32 (u32 (sweep_pos_ h * kNAlignSamples) + sample_count_ h), kNSweepSteps * kNAlignSamples)
      | _ => (sample_count_ h, 1)
      end in
    u8 (u32 (Z.min done total * 100) / total).

(** [status.passed]: one bit per passed step. *)
Definition passed_bits (p : list bool) : Z :=
  foldl (fun acc i => if array_get false p i then Z.lor acc (Z.shiftl 1 i) else acc) 0 (seqZ 0 kNumStartupSteps).

Definition Status (h : HwStartup) : StartupStatus :=
  let measured := IsActive h && step_done_ h in
  let passed := passed_bits (passed (results h)) in
  let finished := if measured then Z.lor (completed_ h) (bit_of (state_ h)) else completed_ h in
  mkStartupStatus (state_ h) (IsActive h) measured (Needs h) (Progress h) passed
    (Z.ldiff finished passed) (fault_ h) (started_ h).

Definition RequestAbort (reason : StartupFault) s : Sys P S :=
  if negb (IsActive (fsm s)) then s else EnterFault reason s.

Definition ValidateCurrentState s : bool :=
  if is_state (state_ (fsm s)) kCurrentSenseCalibration && f_ltb (ext_current_ (fsm s)) (f_lit 1 1000)
  then false
  else if is_state (state_ (fsm s)) kDcLinkVoltageCheck && f_ltb (ext_vdc_ (fsm s)) (vdc_min_valid (fsm s))
  then false
  else true.

Definition CheckMotorOc s : bool * Sys P S :=
  let phase_currents := raw_phase_currents (cc_ s) in
  let limit := oc_limit_ (fsm s) in
  if f_gtb (Abs (phase_a phase_currents)) limit || f_gtb (Abs (phase_b phase_currents)) limit ||
     f_gtb (Abs (phase_c phase_currents)) limit
  then (true, EnterFault fault_kOvercurrent s)
  else (false, s).

Definition CollectSample (n_samples : Z) s : bool * Sys P S :=
  let kIa := d_of_f (phase_a (raw_phase_currents (cc_ s))) in
  let kIb := d_of_f (phase_b (raw_phase_currents (cc_ s))) in
  let kIc := d_of_f (phase_c (raw_phase_currents (cc_ s))) in
  let s := s.fsm{accum_a_ := d_add (accum_a_ (fsm s)) kIa}.fsm{accum_b_ := d_add (accum_b_ (fsm s)) kIb}
            .fsm{accum_c_ := d_add (accum_c_ (fsm s)) kIc}
            .fsm{accum_sq_a_ := d_add (accum_sq_a_ (fsm s)) (d_mul kIa kIa)}
            .fsm{accum_sq_b_ := d_add (accum_sq_b_ (fsm s)) (d_mul kIb kIb)}
            .fsm{sample_count_ := u32 (sample_count_ (fsm s) + 1)} in
  (n_samples <=? sample_count_ (fsm s), s).

Definition MeanCurrent (sum : double) (n_samples : Z) : float := f_div (f_of_d sum) (f_of_Z n_samples).
Definition MeanVoltage (sum : double) (n_samples : Z) : float := f_div (f_of_d sum) (f_of_Z n_samples).
Definition RmsCurrent (sum sum_of_squares : double) (n_samples : Z) : float :=
  let kSampleCount := d_of_Z n_samples in
  let kVariance := f_of_d (d_sub (d_div sum_of_squares kSampleCount)
                             (d_mul (d_div sum kSampleCount) (d_div sum kSampleCount))) in
  if f_gtb kVariance f_zero then f_sqrt kVariance else f_zero.

(** A gain that was not measured keeps the correction at 1. *)
Definition kCorrection (gain : float) : float :=
  if f_gtb gain (f_lit 1 10000) then f_div f_one gain else f_one.

Definition Calibration (r : StartupResults) : SettingsTypes.AdcCalibration :=
  SettingsTypes.mkAdcCalibration (adc_offset_a r) (adc_offset_b r) (adc_offset_c r)
    (kCorrection (gain_a r)) (kCorrection (gain_b r)) (kCorrection (gain_c r)) (kCorrection (gain_vdc r)).

Definition RunDone s : Sys P S :=
  let s := s.{kPowerStage := Disable (kPowerStage s)} in
  let s := s.{cc_ := ReleaseForceDuty (cc_ s)} in
  let '(kCommitStatus, store) :=
    SettingsTypes.ApplyAdcCalibration (Calibration (results (fsm s))) (settings_operations_ s) in
  let s := s.{settings_operations_ := store} in
  if negb (SettingsTypes.status_eqb kCommitStatus SettingsTypes.kSuccess) then EnterFault fault_kApplyFailed s
  else s.fsm{state_ := kDone}.results{current_state := kDone}.

Definition AdvanceToNextState s : Sys P S :=
  let s := s.fsm{next_step_requested_ := false}
            .fsm{completed_ := Z.lor (completed_ (fsm s)) (bit_of (state_ (fsm s)))} in
  let kNextRaw := u8 (fsm_index (state_ (fsm s)) + 1) in
  if fsm_index kDone <=? kNextRaw then RunDone s
  else TransitionTo (fsm_of_index kNextRaw) s.

(** The end of every handler: on to the next step when it was requested. *)
Definition AdvanceIfRequested s : Sys P S :=
  if step_done_ (fsm s) && next_step_requested_ (fsm s) && ValidateCurrentState s
  then AdvanceToNextState s else s.

Definition RunPwmDisable s : Sys P S :=
  let s := ForceNeutral s in
  let s := s.fsm{step_done_ := true} in
  if step_done_ (fsm s) && next_step_requested_ (fsm s) && ValidateCurrentState s
  then AdvanceToNextState (set_passed kPwmDisable true s) else s.

Definition RunAdcOffsetCal s : Sys P S :=
  let s := ForceNeutral s in
  let s :=
    if negb (step_done_ (fsm s)) then
      let '(complete, s) := CollectSample kNCal s in
      if complete then
        let kMeanA := MeanCurrent (accum_a_ (fsm s)) kNCal in
        let kMeanB := MeanCurrent (accum_b_ (fsm s)) kNCal in
        let kMeanC := MeanCurrent (accum_c_ (fsm s)) kNCal in
        let s := s.results{adc_offset_a := kMeanA}.results{adc_offset_b := kMeanB}
                  .results{adc_offset_c := kMeanC} in
        let threshold := offset_threshold (fsm s) in
        let kPass := f_ltb (Abs kMeanA) threshold && f_ltb (Abs kMeanB) threshold &&
                     f_ltb (Abs kMeanC) threshold in
        (set_passed kAdcOffsetCal kPass s).fsm{step_done_ := true}
      else s
    else s in
  AdvanceIfRequested s.

Definition RunAdcNoiseFloor s : Sys P S :=
  let s := ForceNeutral s in
  let s :=
    if negb (step_done_ (fsm s)) then
      let '(complete, s) := CollectSample kNCal s in
      if complete then
        let s := s.results{adc_noise_rms_a := RmsCurrent (accum_a_ (fsm s)) (accum_sq_a_ (fsm s)) kNCal}
                  .results{adc_noise_rms_b := RmsCurrent (accum_b_ (fsm s)) (accum_sq_b_ (fsm s)) kNCal} in
        let kPass := f_ltb (adc_noise_rms_a (results (fsm s))) (noise_threshold (fsm s)) &&
                     f_ltb (adc_noise_rms_b (results (fsm s))) (noise_threshold (fsm s)) in
        (set_passed kAdcNoiseFloor kPass s).fsm{step_done_ := true}
      else s
    else s in
  AdvanceIfRequested s.

Definition RunDutyForce (duty : float) s : Sys P S :=
  let s := s.{cc_ := ForceDuty duty duty duty (cc_ s)} in
  if negb (step_done_ (fsm s)) then
    if sample_count_ (fsm s) <? kHoldSamples
    then s.fsm{sample_count_ := u32 (sample_count_ (fsm s) + 1)}
    else AdvanceIfRequested (set_passed (state_ (fsm s)) true s).fsm{step_done_ := true}
  else AdvanceIfRequested s.

Definition RunDcLinkVoltageCheck s : Sys P S :=
  let s := ForceNeutral s in
  if step_done_ (fsm s) then
    (if next_step_requested_ (fsm s) && ValidateCurrentState s then AdvanceToNextState s else s)
  else
    let collecting := sample_count_ (fsm s) <? kNCal in
    let s := if collecting
             then s.fsm{accum_a_ := d_add (accum_a_ (fsm s)) (d_of_f (raw_vdc (cc_ s)))}
                   .fsm{sample_count_ := u32 (sample_count_ (fsm s) + 1)}
             else s in
    if collecting && (sample_count_ (fsm s) <? kNCal) then s
    else
      let kMeasuredVdc := MeanVoltage (accum_a_ (fsm s)) kNCal in
      if f_gtb (ext_vdc_ (fsm s)) (vdc_min_valid (fsm s)) then
        let s := s.results{gain_vdc := f_div kMeasuredVdc (ext_vdc_ (fsm s))} in
        let kPass := f_ltb (Abs (f_sub (gain_vdc (results (fsm s))) f_one)) (vdc_gain_tolerance (fsm s)) in
        (set_passed kDcLinkVoltageCheck kPass s).fsm{step_done_ := true}
      else if sample_count_ (fsm s) =? kNCal
      then s.fsm{sample_count_ := u32 (sample_count_ (fsm s) + 1)}
      else s.

Definition kGateTestDutyHigh : float := f_lit 55 100.
Definition kGateTestDutyLow : float := f_lit 45 100.

(** The accumulators and the sample count back to zero. *)
Definition reset_accumulators s : Sys P S :=
  s.fsm{sample_count_ := 0}.fsm{accum_a_ := f_zero}.fsm{accum_b_ := f_zero}.fsm{accum_c_ := f_zero}
   .fsm{accum_sq_a_ := f_zero}.fsm{accum_sq_b_ := f_zero}.

Definition RunGateDriverEnableCheck s : Sys P S :=
  if step_done_ (fsm s) then
    (if next_step_requested_ (fsm s) && ValidateCurrentState s then AdvanceToNextState s else s)
  else if gate_phase_disabled_ (fsm s) then
    let s := ForceNeutral s in
    let '(complete, s) := CollectSample kNGate s in
    if complete then
      let s := s.fsm{gate_mean_disabled_ := MeanCurrent (accum_a_ (fsm s)) kNGate} in
      (reset_accumulators s).fsm{gate_phase_disabled_ := false}
    else s
  else
    let s := s.{cc_ := ForceDuty kGateTestDutyHigh kGateTestDutyLow kGateTestDutyLow (cc_ s)} in
    let '(complete, s) := CollectSample kNGate s in
    if complete then
      let s := s.fsm{gate_mean_enabled_ := MeanCurrent (accum_a_ (fsm s)) kNGate} in
      let kDelta := Abs (f_sub (gate_mean_enabled_ (fsm s)) (gate_mean_disabled_ (fsm s))) in
      let kThreshold := f_mul (f_of_Z 2) (adc_noise_rms_a (results (fsm s))) in
      let s := set_passed kGateDriverEnableCheck (f_gtb kDelta kThreshold) s in
      s.fsm{gate_phase_disabled_ := true}.fsm{step_done_ := true}
    else s.

Definition RunConnectMotorWait s : Sys P S :=
  let s := ForceNeutral s in
  let s :=
    if negb (step_done_ (fsm s)) then
      let s := s.{kPowerStage := Disable (kPowerStage s)} in
      let s := s.fsm{oc_limit_ := StartLimit s} in
      (set_passed kConnectMotor true s).fsm{step_done_ := true}
    else s in
  if step_done_ (fsm s) && next_step_requested_ (fsm s) && ValidateCurrentState s then
    let s := if state_eqb (GetState (kPowerStage s)) PowerStage.kFault
             then s.{kPowerStage := ClearFault (kPowerStage s)} else s in
    let '(released, stage) := Enable (kPowerStage s) in
    let s := s.{kPowerStage := stage} in
    if negb released then EnterFault fault_kEnableLost s
    else AdvanceToNextState s
  else s.

Definition InjectAlphaCurrent s : Sys P S :=
  let kDa := f_add kNeutralDuty (v_cal_fraction (fsm s)) in
  let kDb := f_sub kNeutralDuty (f_mul (v_cal_fraction (fsm s)) f_half) in
  let kDc := f_sub kNeutralDuty (f_mul (v_cal_fraction (fsm s)) f_half) in
  s.{cc_ := ForceDuty kDa kDb kDc (cc_ s)}.

(** The search for the sweep position of least noise: (position, noise). *)
Definition best_step (noise : list float) (best : Z * float) (i : Z) : Z * float :=
  if f_ltb (array_get f_zero noise i) best.2 then (i, array_get f_zero noise i) else best.
Definition find_best (noise : list float) : Z * float :=
  foldl (best_step noise) (0, array_get f_zero noise 0) (seqZ 1 (kNSweepSteps - 1)).

(** The trigger offset of a sweep position, in timer ticks. *)
Definition sweep_ticks (base pos : Z) : Z :=
  let kHalfTick := i32 (base / 2) in
  let kOffsetSteps := i32 pos - i32 (kNSweepSteps / 2) in
  let kSigned := i32 (i32 base + kOffsetSteps * kHalfTick) in
  if 0 <? kSigned then u32 kSigned else 0.

Definition RunPhaseAdcAlignment s : Sys P S :=
  let s := InjectAlphaCurrent s in
  if step_done_ (fsm s) then
    (if next_step_requested_ (fsm s) && ValidateCurrentState s then AdvanceToNextState s else s)
  else
    let s := if (sweep_pos_ (fsm s) =? 0) && (sample_count_ (fsm s) =? 0)
             then s.fsm{base_trigger_offset_ := adc_trigger_offset (cc_ s)} else s in
    if kNSweepSteps <=? sweep_pos_ (fsm s) then
      let '(best_pos, best_noise) := find_best (sweep_noise_a_ (fsm s)) in
      let kOptimalTicks := sweep_ticks (base_trigger_offset_ (fsm s)) best_pos in
      let s := s.results{adc_trigger_offset_optimal := kOptimalTicks} in
      let kPass := f_ltb best_noise (f_mul (f_of_Z 2) (adc_noise_rms_a (results (fsm s)))) in
      let s := set_passed kPhaseAdcAlignment kPass s in
      let s := s.{cc_ := SetAdcTriggerOffset kOptimalTicks (cc_ s)} in
      s.fsm{step_done_ := true}
    else
      let '(complete, s) := CollectSample kNAlignSamples s in
      if complete then
        let noise := RmsCurrent (accum_a_ (fsm s)) (accum_sq_a_ (fsm s)) kNAlignSamples in
        let s := s.fsm{sweep_noise_a_ := array_set (sweep_pos_ (fsm s)) noise (sweep_noise_a_ (fsm s))} in
        let s := reset_accumulators s.fsm{sweep_pos_ := u32 (sweep_pos_ (fsm s) + 1)} in
        s.{cc_ := SetAdcTriggerOffset (sweep_ticks (base_trigger_offset_ (fsm s)) (sweep_pos_ (fsm s))) (cc_ s)}
      else s.

Definition FinishCurrentSenseCalibration s : Sys P S :=
  let h := fsm s in
  let kSignalA := f_sub (MeanCurrent (accum_a_ h) kNCal) (adc_offset_a (results h)) in
  let kSignalB := f_sub (MeanCurrent (accum_b_ h) kNCal) (adc_offset_b (results h)) in
  let kSignalC := f_sub (MeanCurrent (accum_c_ h) kNCal) (adc_offset_c (results h)) in
  let kHalfReturn := f_mul (f_neg (ext_current_ h)) f_half in
  let gain signal reference :=
    if f_gtb (Abs signal) (f_lit 1 10000) then f_div signal reference else f_zero in
  let s := s.results{gain_a := gain kSignalA (ext_current_ h)}
            .results{gain_b := gain kSignalB kHalfReturn}
            .results{gain_c := gain kSignalC kHalfReturn} in
  let kWithin g := f_gtb g (f_lit 1 10000) && f_ltb (Abs (f_sub g f_one)) (gain_tolerance h) in
  let kPass := kWithin (gain_a (results (fsm s))) && kWithin (gain_b (results (fsm s))) &&
               kWithin (gain_c (results (fsm s))) in
  set_passed kCurrentSenseCalibration kPass s.

Definition RunCurrentSenseCalibration s : Sys P S :=
  let s := InjectAlphaCurrent s in
  if negb (step_done_ (fsm s)) then
    let '(complete, s) := if sample_count_ (fsm s) <? kNCal then CollectSample kNCal s else (true, s) in
    if negb complete then s
    else if f_ltb (ext_current_ (fsm s)) (f_lit 1 1000) then s.fsm{reading_prompted_ := true}
    else AdvanceIfRequested (FinishCurrentSenseCalibration s).fsm{step_done_ := true}
  else AdvanceIfRequested s.

(** The switch over the state. *)
Definition RunState s : Sys P S :=
  match state_ (fsm s) with
  | kPwmDisable => RunPwmDisable s
  | kAdcOffsetCal => RunAdcOffsetCal s
  | kAdcNoiseFloor => RunAdcNoiseFloor s
  | kDutyForceLow => RunDutyForce (f_sub kNeutralDuty (duty_step_fraction (fsm s))) s
  | kDutyForceMid => RunDutyForce kNeutralDuty s
  | kDutyForceHigh => RunDutyForce (f_add kNeutralDuty (duty_step_fraction (fsm s))) s
  | kDcLinkVoltageCheck => RunDcLinkVoltageCheck s
  | kGateDriverEnableCheck => RunGateDriverEnableCheck s
  | kConnectMotor => RunConnectMotorWait s
  | kPhaseAdcAlignment => RunPhaseAdcAlignment s
  | kCurrentSenseCalibration => RunCurrentSenseCalibration s
  | kIdle | kDone | kFault | kNumStates => s
  end.

Definition RunOnce s : Sys P S :=
  if negb (samples_ready (cc_ s)) then s
  else
    let s := s.{cc_ := (cc_ s).{samples_ready := false}} in
    if IsActive (fsm s) && negb (is_state (state_ (fsm s)) kConnectMotor) &&
       negb (state_eqb (GetState (kPowerStage s)) kEnabled)
    then EnterFault (match TripName (cc_ s) with Some _ => fault_kTrip | None => fault_kEnableLost end) s
    else
      let '(over, s) := if IsActive (fsm s) then CheckMotorOc s else (false, s) in
      if over then s
      else RunState s.
End Operations.

(** ** The run as a sequence of events

    What happens to the objects of the bring-up: the calls of the commissioning
    commands, the polling, the control cycle with new samples, and what other
    threads and interrupts do to the power stage (all but releasing it: the
    drive does not while a run is active).  The flag beside the system records
    that the user confirmed the motor since the run was started. *)
Inductive event :=
| ev_RunOnce
| ev_RequestRun
| ev_RequestNextStep (motor_connected : bool)
| ev_RequestAbort (reason : StartupFault)
| ev_SetExtCurrent (current : float)
| ev_SetExtVdc (voltage : float)
| ev_cycle (samples : ControlCycleSamples)
| ev_Disable | ev_Trip | ev_ClearFault | ev_HoldOffEnable | ev_ReleaseEnable.

Section Events.
Context {P S : Type} `{!PowerStageOps P} `{!SettingsClient S}.

(** The control cycle of the interrupt, on the shared objects. *)
Definition run_cycle (samples : ControlCycleSamples) (s : Sys P S) : Sys P S :=
  let '(c, p) := OnControlCycle samples (cc_ s) (platform (kPowerStage s)) in
  s.{cc_ := c}.{kPowerStage := (kPowerStage s).{platform := p}}.
(** The control cycle, as far as the bring-up sees it ([cycle_seen]). *)
Definition control_cycle (currents : ThreePhase) (vdc : float) (overcurrent overvoltage : bool)
    (c : CurrentControlIsr) : CurrentControlIsr :=
  c.{raw_phase_currents := currents}.{raw_vdc := vdc}.{samples_ready := true}
   .{overcurrent_tripped := overcurrent_tripped c || overcurrent}
   .{overvoltage_tripped := overvoltage_tripped c || overvoltage}.

Definition on_stage (f : PowerStageInterface P -> PowerStageInterface P) (s : Sys P S) : Sys P S :=
  s.{kPowerStage := f (kPowerStage s)}.

Definition run_event (e : event) (g : bool * Sys P S) : bool * Sys P S :=
  let '(confirmed, s) := g in
  match e with
  | ev_RunOnce => (confirmed, RunOnce s)
  | ev_RequestRun =>
      let '(answer, s) := RequestRun s in
      (match answer with kStarted => false | _ => confirmed end, s)
  | ev_RequestNextStep motor_connected =>
      let '(answer, s) := RequestNextStep motor_connected s in
      (match answer with kAccepted => confirmed || motor_connected | _ => confirmed end, s)
  | ev_RequestAbort reason => (confirmed, RequestAbort reason s)
  | ev_SetExtCurrent current => (confirmed, SetExtCurrent current s)
  | ev_SetExtVdc voltage => (confirmed, SetExtVdc voltage s)
  | ev_cycle samples => (confirmed, run_cycle samples s)
  | ev_Disable => (confirmed, on_stage Disable s)
  | ev_Trip => (confirmed, on_stage Trip s)
  | ev_ClearFault => (confirmed, on_stage ClearFault s)
  | ev_HoldOffEnable => (confirmed, on_stage (fun p => (HoldOffEnable p).2) s)
  | ev_ReleaseEnable => (confirmed, on_stage ReleaseEnable s)
  end.
Definition run_events (es : list event) (g : bool * Sys P S) : bool * Sys P S :=
  foldl (fun g e => run_event e g) g es.

(** After the boot: the state machine idle and the outputs off. *)
Definition booted (s : Sys P S) : Prop := fsm s = HwStartup_init /\ GetState (kPowerStage s) <> kEnabled.

Definition phase2 (st : FsmState) : bool :=
  is_state st kPhaseAdcAlignment || is_state st kCurrentSenseCalibration.

(** The invariant of a run. *)
Record run_inv (g : bool * Sys P S) : Prop := mkRunInv {
  inv_next : IsActive (fsm g.2) = true -> next_step_requested_ (fsm g.2) = true -> step_done_ (fsm g.2) = true;
  inv_phase2 : phase2 (state_ (fsm g.2)) = true -> g.1 = true;
  inv_connect : state_ (fsm g.2) = kConnectMotor -> next_step_requested_ (fsm g.2) = true -> g.1 = true;
  inv_stage : GetState (kPowerStage g.2) = kEnabled ->
    IsActive (fsm g.2) = true /\ (state_ (fsm g.2) = kConnectMotor -> step_done_ (fsm g.2) = false);
  inv_current : current_state (results (fsm g.2)) = state_ (fsm g.2);
  inv_valid : state_ (fsm g.2) <> kNumStates }.
End Events.

(** ** Lemmas *)
Section Lemmas.
Context {P S : Type} `{!PowerStageOps P} `{!SettingsClient S}.
Implicit Types s t : Sys P S.

(** What the measuring part of a handler leaves alone; a step that is done
    stays done. *)
Record frame s t : Prop := mkFrame {
  frame_state : state_ (fsm t) = state_ (fsm s);
  frame_next : next_step_requested_ (fsm t) = next_step_requested_ (fsm s);
  frame_completed : completed_ (fsm t) = completed_ (fsm s);
  frame_fault : fault_ (fsm t) = fault_ (fsm s);
  frame_current : current_state (results (fsm t)) = current_state (results (fsm s));
  frame_stage : kPowerStage t = kPowerStage s;
  frame_settings : settings_operations_ t = settings_operations_ s;
  frame_done : step_done_ (fsm s) = true -> step_done_ (fsm t) = true }.

#[export] Instance frame_preorder : PreOrder frame.
Proof.
  split; [by constructor|]. intros a b c [] []. constructor; etrans; eauto.
Qed.

(** How a call of RunOnce() can end. *)
Inductive outcome s : Sys P S -> Prop :=
| outcome_stay t : frame s t ->
    (state_ (fsm s) = kConnectMotor -> step_done_ (fsm t) = step_done_ (fsm s)) -> outcome s t
| outcome_disabled t u : state_ (fsm s) = kConnectMotor -> step_done_ (fsm t) = true ->
    state_ (fsm t) = kConnectMotor -> current_state (results (fsm t)) = current_state (results (fsm s)) ->
    next_step_requested_ (fsm t) = next_step_requested_ (fsm s) ->
    kPowerStage t = Disable u -> outcome s t
| outcome_advance t : IsActive (fsm s) = true -> next_step_requested_ (fsm s) = true -> frame s t -> step_done_ (fsm t) = true ->
    outcome s (AdvanceToNextState t)
| outcome_advance_connect t : next_step_requested_ (fsm s) = true -> state_ (fsm s) = kConnectMotor ->
    state_ (fsm t) = kConnectMotor -> step_done_ (fsm t) = true -> outcome s (AdvanceToNextState t)
| outcome_fault f t : IsActive (fsm s) = true -> outcome s (EnterFault f t).

Definition measuring s : Prop := IsActive (fsm s) = true /\ state_ (fsm s) <> kConnectMotor.

Lemma stay s t : measuring s -> frame s t -> outcome s t.
Proof. intros [_ N] F. by apply outcome_stay. Qed.

Lemma AdvanceIfRequested_outcome s t :
  measuring s -> frame s t -> outcome s (AdvanceIfRequested t).
Proof.
  intros N F. unfold AdvanceIfRequested. case_if; [|by apply stay].
  bool_prop. apply outcome_advance; [by apply N|by rewrite <- (frame_next _ _ F)|done|done].
Qed.

Lemma frame_outcome s t u :
  frame s t -> step_done_ (fsm t) = step_done_ (fsm s) -> outcome t u -> outcome s u.
Proof.
  intros F Hsd O. destruct O.
  - apply outcome_stay; [by etrans|]. destruct F. intros. rewrite <- Hsd. naive_solver congruence.
  - eapply outcome_disabled; eauto; destruct F; congruence.
  - apply outcome_advance; [| |by etrans|done]; destruct F as [Hs]; [|congruence].
    unfold IsActive in *. by rewrite <- Hs.
  - apply outcome_advance_connect; destruct F; congruence.
  - apply outcome_fault. destruct F as [Hs]. unfold IsActive in *. by rewrite <- Hs.
Qed.

Ltac frame_done := solve [constructor; first [reflexivity | intros _; reflexivity | exact (fun H => H) | done]].


Lemma CollectSample_frame n s : frame s (CollectSample n s).2.
Proof. frame_done. Qed.
Lemma ForceNeutral_frame s : frame s (ForceNeutral s).
Proof. frame_done. Qed.
Lemma frame_cc c s : frame s s.{cc_ := c}.
Proof. frame_done. Qed.
Lemma reset_accumulators_frame s : frame s (reset_accumulators s).
Proof. frame_done. Qed.
Lemma FinishCurrentSenseCalibration_frame s : frame s (FinishCurrentSenseCalibration s).
Proof. frame_done. Qed.

(** The sample of a handler that has set its duties first. *)
Lemma collect_frame n s t c u : frame s t -> CollectSample n t = (c, u) -> frame s u.
Proof.
  intros F E. etrans; [exact F|]. change u with ((c, u).2). rewrite <- E. apply CollectSample_frame.
Qed.

(** Solves [frame s t] for a [t] built from the end of a known frame. *)
Ltac frame_tac :=
  lazymatch goal with
  | F : frame ?s ?t |- frame ?s _ => first [exact F | etrans; [exact F|]; frame_done]
  | |- _ => frame_done
  end.
Ltac collect :=
  match goal with
  | F : frame ?s ?t |- context [CollectSample ?n ?t] =>
      let E := fresh "E" in let c := fresh "c" in let u := fresh "u" in
      destruct (CollectSample n t) as [c u] eqn:E;
      let F' := fresh "F" in pose proof (collect_frame _ _ _ _ _ F E) as F'; clear E F
  end.

Lemma RunPwmDisable_outcome s :
  measuring s -> outcome s (RunPwmDisable s).
Proof.
  intros N. unfold RunPwmDisable. cbv zeta. case_if; bool_prop; [apply outcome_advance; [by apply N|done|frame_done|done]|apply stay; [exact N|frame_done]].
Qed.

Lemma RunAdcOffsetCal_outcome s :
  measuring s -> outcome s (RunAdcOffsetCal s).
Proof.
  intros N. unfold RunAdcOffsetCal. cbv zeta. apply AdvanceIfRequested_outcome; [exact N|].
  pose proof (ForceNeutral_frame s) as F. case_if; [|done]. collect. destruct c; frame_tac.
Qed.

Lemma RunAdcNoiseFloor_outcome s :
  measuring s -> outcome s (RunAdcNoiseFloor s).
Proof.
  intros N. unfold RunAdcNoiseFloor. cbv zeta. apply AdvanceIfRequested_outcome; [exact N|].
  pose proof (ForceNeutral_frame s) as F. case_if; [|done]. collect. destruct c; frame_tac.
Qed.

Lemma RunDutyForce_outcome d s :
  measuring s -> outcome s (RunDutyForce d s).
Proof.
  intros N. unfold RunDutyForce. cbv zeta. pose proof (frame_cc (ForceDuty d d d (cc_ s)) s) as F.
  case_if; [case_if; [apply stay; [exact N|]|apply AdvanceIfRequested_outcome; [exact N|]]|apply AdvanceIfRequested_outcome; [exact N|]]; frame_tac.
Qed.

(** The handlers that end at once when the step is done. *)
Lemma advance_done_outcome s t :
  measuring s -> frame s t -> step_done_ (fsm t) = true ->
  outcome s (if next_step_requested_ (fsm t) && ValidateCurrentState t then AdvanceToNextState t else t).
Proof.
  intros N F D. case_if; [|by apply stay]. bool_prop.
  apply outcome_advance; [by apply N|by rewrite <- (frame_next _ _ F)|done|done].
Qed.

Lemma RunDcLinkVoltageCheck_outcome s :
  measuring s -> outcome s (RunDcLinkVoltageCheck s).
Proof.
  intros N. unfold RunDcLinkVoltageCheck. cbv zeta. pose proof (ForceNeutral_frame s) as F.
  case_if; [by apply advance_done_outcome|]. apply stay; [exact N|].
  destruct (sample_count_ (fsm (ForceNeutral s)) <? kNCal); repeat case_if; frame_tac.
Qed.

Lemma RunGateDriverEnableCheck_outcome s :
  measuring s -> outcome s (RunGateDriverEnableCheck s).
Proof.
  intros N. unfold RunGateDriverEnableCheck. cbv zeta. case_if; [apply advance_done_outcome; done|].
  apply stay; [exact N|]. pose proof (ForceNeutral_frame s) as F.
  pose proof (frame_cc (ForceDuty kGateTestDutyHigh kGateTestDutyLow kGateTestDutyLow (cc_ s)) s) as G.
  case_if; collect; destruct c; frame_tac.
Qed.

Lemma RunPhaseAdcAlignment_outcome s :
  measuring s -> outcome s (RunPhaseAdcAlignment s).
Proof.
  intros N. unfold RunPhaseAdcAlignment. cbv zeta.
  assert (frame s (InjectAlphaCurrent s)) as F by apply frame_cc.
  case_if; [by apply advance_done_outcome|]. apply stay; [exact N|]. clear Hif.
  match goal with |- context [CollectSample _ ?t] => assert (frame s t) as G end.
  { case_if; frame_tac. }
  clear F. case_if.
  - destruct (find_best _). frame_tac.
  - collect. destruct c; frame_tac.
Qed.

Lemma RunCurrentSenseCalibration_outcome s :
  measuring s -> outcome s (RunCurrentSenseCalibration s).
Proof.
  intros N. unfold RunCurrentSenseCalibration. cbv zeta.
  assert (frame s (InjectAlphaCurrent s)) as F by apply frame_cc.
  case_if; [|by apply AdvanceIfRequested_outcome].
  destruct (sample_count_ (fsm (InjectAlphaCurrent s)) <? kNCal); [collect|set (c := true); set (u := InjectAlphaCurrent s) in *];
    (destruct (negb c); [by apply stay|]; case_if; [apply stay; [exact N|]|apply AdvanceIfRequested_outcome; [exact N|]]; frame_tac).
Qed.

Lemma RunConnectMotorWait_outcome s :
  state_ (fsm s) = kConnectMotor -> outcome s (RunConnectMotorWait s).
Proof.
  intros Hs. unfold RunConnectMotorWait. cbv zeta.
  match goal with |- context [ValidateCurrentState ?x] => set (t := x) end.
  assert (outcome s t /\ next_step_requested_ (fsm t) = next_step_requested_ (fsm s) /\ state_ (fsm t) = kConnectMotor /\
          step_done_ (fsm t) = true) as (O & Hn & Hst & Hd).
  { subst t. case_if; bool_prop.
    - repeat split; try done. eapply outcome_disabled; done.
    - repeat split; try done. apply outcome_stay; [apply ForceNeutral_frame|done]. }
  case_if; [|done]. bool_prop. clearbody t.
  match goal with |- context [Enable (kPowerStage ?x)] => assert (fsm x = fsm t) as Hx by (by case_if); set (u := x) in * end.
  destruct (Enable (kPowerStage u)) as [[] stage]; cbn [negb].
  - apply outcome_advance_connect; cbn; rewrite ?Hx; congruence.
  - apply outcome_fault. unfold IsActive. by rewrite Hs.
Qed.

Lemma RunOnce_outcome s : outcome s (RunOnce s).
Proof.
  unfold RunOnce. case_if; [by apply outcome_stay|]. cbv zeta.
  pose proof (frame_cc (cc_ s).{samples_ready := false} s) as F. set (t := s.{cc_ := _}) in *.
  eapply frame_outcome; [exact F|done|]. clearbody t. clear s F Hif.
  case_if; [apply outcome_fault; by bool_prop|]. clear Hif.
  destruct (if IsActive (fsm t) then CheckMotorOc t else (false, t)) as [over u] eqn:E.
  assert (over = true /\ outcome t u \/ over = false /\ u = t) as [[-> O]|[-> ->]]; [|done|].
  { destruct (IsActive (fsm t)) eqn:A; [|by right; simplify_eq].
    unfold CheckMotorOc in E. destruct (_ || _); simplify_eq; [left|by right]. split; [done|by apply outcome_fault]. }
  unfold RunState. destruct (state_ (fsm t)) eqn:St;
    first [apply RunPwmDisable_outcome; (split; [by unfold IsActive; rewrite St|congruence]) | apply RunAdcOffsetCal_outcome; (split; [by unfold IsActive; rewrite St|congruence]) | apply RunAdcNoiseFloor_outcome; (split; [by unfold IsActive; rewrite St|congruence])
          | apply RunDutyForce_outcome; (split; [by unfold IsActive; rewrite St|congruence]) | apply RunDcLinkVoltageCheck_outcome; (split; [by unfold IsActive; rewrite St|congruence])
          | apply RunGateDriverEnableCheck_outcome; (split; [by unfold IsActive; rewrite St|congruence]) | apply RunConnectMotorWait_outcome; exact St
          | apply RunPhaseAdcAlignment_outcome; (split; [by unfold IsActive; rewrite St|congruence]) | apply RunCurrentSenseCalibration_outcome; (split; [by unfold IsActive; rewrite St|congruence])
          | apply outcome_stay; [reflexivity|done]].
Qed.
End Lemmas.

Section Invariant.
Context {P S : Type} `{!PowerStageOps P} `{!PowerStageLaws P} `{!SettingsClient S}.
Implicit Types s t : Sys P S.

Lemma IsActive_spec h : IsActive h = true <-> state_ h <> kIdle /\ state_ h <> kDone /\ state_ h <> kFault.
Proof. unfold IsActive, is_state. by destruct (state_ h); cbn; intuition. Qed.

Lemma EnterFault_off f s : GetState (kPowerStage (EnterFault f s)) <> kEnabled.
Proof. apply disable_off. Qed.

Lemma RunDone_cases s :
  GetState (kPowerStage (RunDone s)) <> kEnabled /\
  next_step_requested_ (fsm (RunDone s)) = next_step_requested_ (fsm s) /\
  current_state (results (fsm (RunDone s))) = state_ (fsm (RunDone s)) /\
  (state_ (fsm (RunDone s)) = kDone \/ state_ (fsm (RunDone s)) = kFault).
Proof.
  unfold RunDone. cbv zeta. destruct (SettingsTypes.ApplyAdcCalibration _ _) as [st store].
  case_if; (split; [apply disable_off|]); repeat split; by auto.
Qed.

(** The step after an active one. *)
Definition next_state (st : FsmState) : FsmState := fsm_of_index (fsm_index st + 1).

Lemma AdvanceToNextState_cases s :
  IsActive (fsm s) = true -> state_ (fsm s) <> kNumStates ->
  next_step_requested_ (fsm (AdvanceToNextState s)) = false /\
  current_state (results (fsm (AdvanceToNextState s))) = state_ (fsm (AdvanceToNextState s)) /\
  (state_ (fsm s) <> kCurrentSenseCalibration /\ kPowerStage (AdvanceToNextState s) = kPowerStage s /\
   state_ (fsm (AdvanceToNextState s)) = next_state (state_ (fsm s)) /\
   step_done_ (fsm (AdvanceToNextState s)) = false
   \/ state_ (fsm s) = kCurrentSenseCalibration /\ GetState (kPowerStage (AdvanceToNextState s)) <> kEnabled /\
      (state_ (fsm (AdvanceToNextState s)) = kDone \/ state_ (fsm (AdvanceToNextState s)) = kFault)).
Proof.
  intros (A1 & A2 & A3)%IsActive_spec A4. unfold AdvanceToNextState. cbv zeta.
  match goal with |- context [RunDone ?x] => set (t := x) end.
  assert (state_ (fsm t) = state_ (fsm s) /\ next_step_requested_ (fsm t) = false /\ kPowerStage t = kPowerStage s)
    as (Ht1 & Ht2 & Ht3) by done.
  rewrite Ht1. clearbody t. destruct (RunDone_cases t) as (D1 & D2 & D3 & D4).
  destruct (state_ (fsm s)); try done;
    try (split; [done|]; split; [done|]; left; repeat split; first [done|congruence]).
  change (fsm_index kDone <=? u8 (fsm_index kCurrentSenseCalibration + 1)) with true. cbv iota.
  split; [by rewrite D2|]. split; [done|]. by right.
Qed.

Lemma next_state_active st :
  st <> kIdle -> st <> kDone -> st <> kFault -> st <> kNumStates -> st <> kCurrentSenseCalibration ->
  next_state st <> kIdle /\ next_state st <> kDone /\ next_state st <> kFault /\ next_state st <> kNumStates /\
  (next_state st = kConnectMotor -> st = kGateDriverEnableCheck) /\
  (phase2 (next_state st) = true -> phase2 st = true \/ st = kConnectMotor).
Proof. destruct st; try done; cbn; intuition (done || discriminate). Qed.

Lemma run_inv_inactive c s :
  next_step_requested_ (fsm s) = false -> current_state (results (fsm s)) = state_ (fsm s) ->
  GetState (kPowerStage s) <> kEnabled ->
  state_ (fsm s) = kDone \/ state_ (fsm s) = kFault \/ state_ (fsm s) = kIdle -> run_inv (c, s).
Proof.
  intros Hn Hc Hs Hst. constructor; cbn; try done; try congruence;
    destruct Hst as [E|[E|E]]; rewrite E; done.
Qed.

Lemma run_inv_fault c f s : run_inv (c, EnterFault f s).
Proof. constructor; cbn; try done. intros E. by apply disable_off in E. Qed.

Lemma run_inv_frame c s t :
  frame s t -> run_inv (c, s) -> 
  (state_ (fsm s) = kConnectMotor -> step_done_ (fsm t) = step_done_ (fsm s)) -> run_inv (c, t).
Proof.
  intros [] [I1 I2 I3 I4 I5 I6] Hd. cbn in *. constructor; cbn; rewrite ?frame_state0, ?frame_next0, ?frame_stage0.
  - unfold IsActive in *. rewrite frame_state0. auto.
  - done.
  - done.
  - intros E. destruct (I4 E) as [A B]. split; [unfold IsActive in *; by rewrite frame_state0|].
    intros Hc. rewrite Hd; auto.
  - congruence.
  - done.
Qed.

Lemma run_inv_advance c s :
  IsActive (fsm s) = true -> state_ (fsm s) <> kNumStates ->
  (phase2 (state_ (fsm s)) = true -> c = true) -> (state_ (fsm s) = kConnectMotor -> c = true) ->
  run_inv (c, AdvanceToNextState s).
Proof.
  intros A V H2 H3. destruct (AdvanceToNextState_cases s A V) as (Hn & Hc & Hcase).
  apply IsActive_spec in A as (A1 & A2 & A3).
  destruct Hcase as [(N & Hp & Hs & Hd)|(N & Hoff & Hs)].
  - destruct (next_state_active (state_ (fsm s))) as (B1 & B2 & B3 & B4 & B5 & B6); try done.
    constructor; cbn; rewrite ?Hn, ?Hs; try done.
    + intros E. destruct (B6 E); auto.
    + intros _. split; [apply IsActive_spec; by rewrite Hs|done].
    + by rewrite <- Hs.
  - apply run_inv_inactive; auto. tauto.
Qed.

Lemma run_inv_outcome c s t : run_inv (c, s) -> outcome s t -> run_inv (c, t).
Proof.
  intros I O. pose proof I as [I1 I2 I3 I4 I5 I6]. cbn in *.
  destruct O as [t F Hc|t u Hs Hd Ht Hcur Hn Hp|t A Hn F Hd|t Hn Hs Ht Hd|f t A].
  - by eapply run_inv_frame.
  - constructor; cbn; rewrite ?Ht, ?Hn, ?Hcur; try done; try congruence; try (by auto).
    intros E. exfalso. revert E. unfold GetState. rewrite Hp. apply disable_off.
  - destruct F as [F1 F2 F3 F4 F5 F6 F7 F8].
    apply run_inv_advance; unfold IsActive; rewrite F1; auto.
  - apply run_inv_advance; rewrite ?Ht; try done.
    + apply IsActive_spec. by rewrite Ht.
    + auto.
  - apply run_inv_fault.
Qed.

(** Changes beside the state machine that never release the outputs. *)
Lemma run_inv_stage c s t :
  fsm t = fsm s -> (GetState (kPowerStage t) = kEnabled -> GetState (kPowerStage s) = kEnabled) ->
  run_inv (c, s) -> run_inv (c, t).
Proof. intros E Hs [I1 I2 I3 I4 I5 I6]. cbn in *. constructor; cbn; rewrite ?E; auto. Qed.

Lemma RequestRun_inv c s :
  run_inv (c, s) -> run_inv (match (RequestRun s).1 with kStarted => false | _ => c end, (RequestRun s).2).
Proof.
  intros I. unfold RequestRun. case_if; [done|]. cbv zeta.
  match goal with |- context [Enable (kPowerStage ?x)] => set (t := x) end.
  assert (GetState (kPowerStage t) <> kEnabled) as Hoff.
  { assert (GetState (kPowerStage s) <> kEnabled) as N.
    { destruct I as [_ _ _ I4 _ _]. cbn in I4. intros E. destruct (I4 E). congruence. }
    subst t. case_if; [apply clear_fault_off; exact N|exact N]. }
  assert (state_ (fsm t) = kIdle /\ next_step_requested_ (fsm t) = false /\ current_state (results (fsm t)) = kIdle)
    as (T1 & T2 & T3) by (subst t; by case_if).
  clearbody t. clear s I Hif.
  destruct (Enable (kPowerStage t)) as [[] stage] eqn:E; cbn [negb fst snd].
  - by constructor.
  - apply run_inv_inactive; cbn; try (by rewrite T1, ?T3); auto.
    unfold Enable in E. destruct (enable_lock_ _); [by simplify_eq|].
    pose proof (enable_refused (platform (kPowerStage t))) as R. unfold GetState.
    destruct (enable_ _) as [b p]; simplify_eq. by apply R.
Qed.

Lemma Needs_connect h :
  state_ h = kConnectMotor -> step_done_ h = true -> Needs h = needs_kMotorConnected.
Proof. intros Hs Hd. unfold Needs, IsActive. by rewrite Hs, Hd. Qed.

Lemma RequestNextStep_inv c b s :
  run_inv (c, s) ->
  run_inv (match (RequestNextStep b s).1 with kAccepted => c || b | _ => c end, (RequestNextStep b s).2).
Proof.
  intros I. unfold RequestNextStep. case_if; [done|]. bool_prop. cbv zeta.
  set (cont := if negb (step_done_ (fsm s)) then _ else _).
  assert ((state_ (fsm s) = kConnectMotor -> step_done_ (fsm s) = true -> b = true) ->
    run_inv (match cont.1 with kAccepted => c || b | _ => c end, cont.2)) as Hok.
  { intros Hb. subst cont. case_if; [done|]. bool_prop. destruct I as [I1 I2 I3 I4 I5 I6]. cbn in *.
    constructor; cbn; auto.
    - intros E. by rewrite I2.
    - intros E _. rewrite (Hb E Hif0). apply orb_true_r. }
  clearbody cont.
  destruct (Needs (fsm s)) eqn:N; [destruct b; [done|]|done|done|destruct b; [|done]]; cbn [negb]; apply Hok; auto.
  intros Hs Hd. rewrite Needs_connect in N; done.
Qed.

Lemma CheckMotorOc_spec s :
  CheckMotorOc s = if Exceeds (raw_phase_currents (cc_ s)) (oc_limit_ (fsm s))
                   then (true, EnterFault fault_kOvercurrent s) else (false, s).
Proof. reflexivity. Qed.

Lemma booted_inv s : booted s -> run_inv (false, s).
Proof. intros [H1 H2]. constructor; cbn; rewrite ?H1; try done. Qed.

Lemma run_event_inv e g : run_inv g -> run_inv (run_event e g).
Proof.
  destruct g as [c s]. intros I. destruct e; cbn.
  - by eapply run_inv_outcome, RunOnce_outcome.
  - pose proof (RequestRun_inv c s I) as R. by destruct (RequestRun s) as [[] t].
  - pose proof (RequestNextStep_inv c motor_connected s I) as R. by destruct (RequestNextStep _ s) as [[] t].
  - unfold RequestAbort. case_if; [done|apply run_inv_fault].
  - by apply (run_inv_frame c s); [constructor|..].
  - by apply (run_inv_frame c s); [constructor|..].
  - unfold run_cycle. pose proof (OnControlCycle_off samples (cc_ s) (platform (kPowerStage s))) as O.
    destruct (OnControlCycle _ _ _) as [c' p']. by apply (run_inv_stage c s).
  - apply (run_inv_stage c s); [done| |done]. intros E. by apply disable_off in E.
  - apply (run_inv_stage c s); [done| |done]. intros E. by apply trip_off in E.
  - apply (run_inv_stage c s); [done| |done]. intros E.
    destruct (decide (GetState (kPowerStage s) = kEnabled)) as [|N]; [done|]. by apply clear_fault_off in E.
  - by apply (run_inv_stage c s).
  - by apply (run_inv_stage c s).
Qed.

Lemma run_events_inv es s : booted s -> run_inv (run_events es (false, s)).
Proof.
  intros B. unfold run_events. apply (foldl_invariant run_inv (fun g e => run_event e g)); [by apply booted_inv|]. intros g e _. apply run_event_inv.
Qed.

(** *** Measuring *)

(** The bring-up sees of the control cycle what [control_cycle] says. *)
Lemma cycle_seen samples s :
  hardware_ (cc_ s) = true ->
  let t := run_cycle samples s in
  let i := default zero_ThreePhase (sample_currents samples !! 3%nat) in
  let seen := control_cycle i (sample_dc_link samples) (overcurrent_tripped (cc_ t)) (overvoltage_tripped (cc_ t)) (cc_ s) in
  samples_ready (cc_ t) = samples_ready seen /\ raw_phase_currents (cc_ t) = raw_phase_currents seen /\
  raw_vdc (cc_ t) = raw_vdc seen /\ overcurrent_tripped (cc_ t) = overcurrent_tripped seen /\
  overvoltage_tripped (cc_ t) = overvoltage_tripped seen.
Proof.
  intros H. unfold run_cycle. pose proof (OnControlCycle_seen samples (cc_ s) (platform (kPowerStage s)) H) as O.
  destruct (OnControlCycle _ _ _) as [c p]. destruct O as (O1 & O2 & O3 & O4 & O5).
  repeat (split; [done|]). cbn. split; [destruct (overcurrent_tripped (cc_ s))|destruct (overvoltage_tripped (cc_ s))];
    cbn; done || auto.
Qed.

(** A control cycle with new samples and the call of RunOnce() after it. *)
Definition sampled (i : ThreePhase) (vdc : float) s : Sys P S :=
  RunOnce s.{cc_ := control_cycle i vdc false false (cc_ s)}.

(** A run that can go on: released, no step requested. *)
Record ready (st : FsmState) s : Prop := mkReady {
  ready_state : state_ (fsm s) = st;
  ready_next : next_step_requested_ (fsm s) = false;
  ready_stage : GetState (kPowerStage s) = kEnabled }.

Lemma sampled_handler st i vdc s :
  ready st s -> IsActive (fsm s) = true -> Exceeds i (oc_limit_ (fsm s)) = false ->
  sampled i vdc s =
  RunState s.{cc_ := (control_cycle i vdc false false (cc_ s)).{samples_ready := false}}.
Proof.
  intros [R1 R2 R3] A X. unfold sampled, RunOnce. rewrite CheckMotorOc_spec.
  cbn [negb samples_ready control_cycle set_field cc_ fsm kPowerStage raw_phase_currents].
  rewrite A, R3, X. cbn [state_eqb]. unfold state_eqb. rewrite bool_decide_eq_true_2 by done.
  by rewrite andb_false_r.
Qed.

Lemma AdvanceIfRequested_no s :
  next_step_requested_ (fsm s) = false -> AdvanceIfRequested s = s.
Proof. intros H. unfold AdvanceIfRequested. by rewrite H, andb_false_r. Qed.

Definition offset_pass (h : HwStartup) : bool :=
  f_ltb (Abs (adc_offset_a (results h))) (offset_threshold h) &&
  f_ltb (Abs (adc_offset_b (results h))) (offset_threshold h) &&
  f_ltb (Abs (adc_offset_c (results h))) (offset_threshold h).

(** What [n] samples have left behind: their sums. *)
Record collected (n : Z) (a b c : double) s : Prop := mkCollected {
  col_count : sample_count_ (fsm s) = n;
  col_a : accum_a_ (fsm s) = a;
  col_b : accum_b_ (fsm s) = b;
  col_c : accum_c_ (fsm s) = c }.

(** One sample taken: all that changes are the sums and the count. *)
Record sample_taken (n : Z) (complete : bool) s t : Prop := mkSampleTaken {
  st_complete : complete = (n <=? sample_count_ (fsm t));
  st_count : sample_count_ (fsm t) = u32 (sample_count_ (fsm s) + 1);
  st_a : accum_a_ (fsm t) = d_add (accum_a_ (fsm s)) (d_of_f (phase_a (raw_phase_currents (cc_ s))));
  st_b : accum_b_ (fsm t) = d_add (accum_b_ (fsm s)) (d_of_f (phase_b (raw_phase_currents (cc_ s))));
  st_c : accum_c_ (fsm t) = d_add (accum_c_ (fsm s)) (d_of_f (phase_c (raw_phase_currents (cc_ s))));
  st_rest : state_ (fsm t) = state_ (fsm s) /\ next_step_requested_ (fsm t) = next_step_requested_ (fsm s) /\
    step_done_ (fsm t) = step_done_ (fsm s) /\ kPowerStage t = kPowerStage s /\ cc_ t = cc_ s /\
    oc_limit_ (fsm t) = oc_limit_ (fsm s) /\ results (fsm t) = results (fsm s) /\
    sweep_pos_ (fsm t) = sweep_pos_ (fsm s) /\ base_trigger_offset_ (fsm t) = base_trigger_offset_ (fsm s) }.

Lemma CollectSample_taken n c s t : CollectSample n s = (c, t) -> sample_taken n c s t.
Proof. intros [= <- <-]. constructor; try reflexivity. repeat split. Qed.

Lemma offset_sample n a b c i vdc s :
  ready kAdcOffsetCal s -> step_done_ (fsm s) = false -> collected n a b c s -> 0 <= n < kNCal ->
  Exceeds i (oc_limit_ (fsm s)) = false ->
  let t := sampled i vdc s in
  let a' := d_add a (d_of_f (phase_a i)) in
  let b' := d_add b (d_of_f (phase_b i)) in
  let c' := d_add c (d_of_f (phase_c i)) in
  ready kAdcOffsetCal t /\ collected (n + 1) a' b' c' t /\ oc_limit_ (fsm t) = oc_limit_ (fsm s) /\
  step_done_ (fsm t) = (kNCal <=? n + 1) /\
  (n + 1 < kNCal -> results (fsm t) = results (fsm s)) /\
  (kNCal <= n + 1 ->
   adc_offset_a (results (fsm t)) = MeanCurrent a' kNCal /\
   adc_offset_b (results (fsm t)) = MeanCurrent b' kNCal /\
   adc_offset_c (results (fsm t)) = MeanCurrent c' kNCal /\
   passed (results (fsm t)) = array_set (fsm_index kAdcOffsetCal) (offset_pass (fsm t)) (passed (results (fsm s)))).
Proof.
  intros R Hd [C1 C2 C3 C4] Hn X t a' b' c'. subst t.
  rewrite (sampled_handler kAdcOffsetCal) by (try done; unfold IsActive; by rewrite (ready_state _ _ R)).
  set (u := s.{cc_ := _}). unfold RunState. change (fsm u) with (fsm s). destruct R as [R1 R2 R3]. rewrite R1.
  unfold RunAdcOffsetCal. cbv zeta.
  assert (fsm (ForceNeutral u) = fsm s /\ kPowerStage (ForceNeutral u) = kPowerStage s /\
    raw_phase_currents (cc_ (ForceNeutral u)) = i) as (V1 & V2 & V3) by done.
  generalize dependent (ForceNeutral u). intros v V1 V2 V3. clear u. rewrite V1, Hd. cbn [negb].
  destruct (CollectSample kNCal v) as [cpl w] eqn:E.
  apply CollectSample_taken in E as [E0 E1 E2 E3 E4 (E5 & E6 & E7 & E8 & E9 & E10 & E11 & E12 & E13)].
  rewrite V1, ?V3 in *. rewrite C1 in E1. rewrite C2 in E2. rewrite C3 in E3. rewrite C4 in E4.
  assert (u32 (n + 1) = n + 1) as W. { clear - Hn. apply wrap_id. unfold in_u, kNCal in *. lia. }
  rewrite W in E1. rewrite E1 in E0. subst cpl. fold a' in E2. fold b' in E3. fold c' in E4.
  clearbody a' b' c'. clear V1 V3 W X C1 C2 C3 C4.
  destruct (kNCal <=? n + 1) eqn:Hle; bool_prop.
  - set (x := on_fsm _ (set_passed _ _ _)).
    assert (next_step_requested_ (fsm x) = false) as N by exact (eq_trans E6 R2).
    rewrite AdvanceIfRequested_no by exact N. split; [constructor|].
    { exact (eq_trans E5 R1). } { exact N. } { change (kPowerStage x) with (kPowerStage w). congruence. }
    split; [constructor; [exact E1|exact E2|exact E3|exact E4]|].
    split; [exact E10|]. split; [done|]. split; [clear - Hle; lia|]. intros _.
    rewrite <- E2, <- E3, <- E4, <- E11. done.
  - rewrite AdvanceIfRequested_no by congruence. split; [constructor; congruence|].
    split; [by constructor|]. split; [done|]. split; [congruence|]. split; [done|clear - Hle; lia].
Qed.

(** The samples of a step, one control cycle after the other. *)
Definition sampled_all (vdc : float) (l : list ThreePhase) s : Sys P S := foldl (fun s i => sampled i vdc s) s l.
Definition sum_of (phase : ThreePhase -> float) (l : list ThreePhase) (a : double) : double :=
  foldl (fun a i => d_add a (d_of_f (phase i))) a l.

Lemma sampled_all_snoc vdc l i s : sampled_all vdc (l ++ [i]) s = sampled i vdc (sampled_all vdc l s).
Proof. unfold sampled_all. by rewrite foldl_app. Qed.
Lemma sum_of_snoc phase l i a : sum_of phase (l ++ [i]) a = d_add (sum_of phase l a) (d_of_f (phase i)).
Proof. unfold sum_of. by rewrite foldl_app. Qed.

Lemma offset_samples l n a b c vdc s :
  ready kAdcOffsetCal s -> step_done_ (fsm s) = false -> collected n a b c s -> 0 <= n ->
  n + Z.of_nat (length l) < kNCal -> Forall (fun i => Exceeds i (oc_limit_ (fsm s)) = false) l ->
  let t := sampled_all vdc l s in
  ready kAdcOffsetCal t /\ step_done_ (fsm t) = false /\ oc_limit_ (fsm t) = oc_limit_ (fsm s) /\
  results (fsm t) = results (fsm s) /\
  collected (n + Z.of_nat (length l)) (sum_of phase_a l a) (sum_of phase_b l b) (sum_of phase_c l c) t.
Proof.
  revert n a b c s. induction l as [|i l IH]; intros n a b c s R D C Hn Hl X; cbn [sampled_all sum_of foldl length].
  - rewrite Z.add_0_r. done.
  - apply Forall_cons in X as [X1 X2]. cbn [length] in Hl.
    destruct (offset_sample n a b c i vdc s R D C) as (R' & C' & O' & D' & P' & _); [lia|done|].
    assert (step_done_ (fsm (sampled i vdc s)) = false) as D1 by (rewrite D'; apply Z.leb_gt; lia).
    edestruct (fun a b c => IH (n + 1) a b c (sampled i vdc s) R' D1) as (R'' & D'' & O'' & P'' & C'');
      [exact C'|lia|lia|by rewrite O'|].
    split; [exact R''|]. split; [exact D''|]. split; [by rewrite <- O'|]. split; [rewrite <- P' by lia; exact P''|].
    replace (n + Z.of_nat (Datatypes.S (length l))) with (n + 1 + Z.of_nat (length l)) by lia. exact C''.
Qed.

(** *** The phase alignment sweep *)
Lemma find_best_prefix noise k :
  (forall i, is_nan (array_get f_zero noise i) = false) ->
  let best := foldl (best_step noise) (0, array_get f_zero noise 0) (seqZ 1 (Z.of_nat k)) in
  0 <= best.1 <= Z.of_nat k /\ best.2 = array_get f_zero noise best.1 /\
  (forall i, 0 <= i <= Z.of_nat k -> f_leb best.2 (array_get f_zero noise i) = true) /\
  (forall i, 0 <= i < best.1 -> f_ltb best.2 (array_get f_zero noise i) = true).
Proof.
  intros N. induction k as [|k IH].
  - change (seqZ 1 (Z.of_nat 0)) with (@nil Z). cbn. split; [lia|]. split; [done|]. split; [|lia]. intros i Hi. replace i with 0 by lia. by apply f_leb_refl.
  - rewrite seqZ_S, foldl_app. cbn [foldl]. replace (Z.of_nat (Datatypes.S k)) with (Z.of_nat k + 1) by lia.
    set (best := foldl _ _ _) in *. destruct IH as (H1 & H2 & H3 & H4). set (j := 1 + Z.of_nat k).
    assert (is_nan best.2 = false) as Nb by (by rewrite H2). pose proof (N j) as Nj.
    unfold best_step. destruct (f_ltb (array_get f_zero noise j) best.2) eqn:L; cbn [fst snd].
    + split; [lia|]. split; [done|]. split.
      * intros i Hi. destruct (decide (i = j)) as [->|]; [by apply f_leb_refl|].
        pose proof (H3 i ltac:(lia)). float_order.
      * intros i Hi. pose proof (H3 i ltac:(lia)). float_order.
    + split; [lia|]. split; [done|]. split; [|done].
      intros i Hi. destruct (decide (i = j)) as [->|]; [float_order|]. apply H3. lia.
Qed.

(** *** The status bits *)
Lemma passed_bits_testbit p i : 0 <= i ->
  Z.testbit (passed_bits p) i = (i <? kNumStartupSteps) && array_get false p i.
Proof.
  intros Hi. unfold passed_bits.
  assert (forall l acc, Forall (Z.le 0) l ->
    Z.testbit (foldl (fun acc i => if array_get false p i then Z.lor acc (Z.shiftl 1 i) else acc) acc l) i =
    Z.testbit acc i || (bool_decide (i ∈ l) && array_get false p i)) as H.
  { intros l. induction l as [|x l IH]; intros acc Hl; cbn [foldl].
    - rewrite bool_decide_eq_false_2 by (by intros ?%not_elem_of_nil). by rewrite orb_false_r.
    - apply Forall_cons in Hl as [Hx Hl]. rewrite IH by done.
      destruct (decide (i = x)) as [<-|Hne].
      + rewrite (bool_decide_eq_true_2 (i ∈ i :: l)) by left.
        destruct (array_get false p i); [|by rewrite !andb_false_r].
        rewrite Z.lor_spec, Z.shiftl_spec, Z.sub_diag by done. cbn. by rewrite !orb_true_r.
      + assert (bool_decide (i ∈ x :: l) = bool_decide (i ∈ l)) as ->.
        { apply bool_decide_ext. rewrite elem_of_cons. naive_solver. }
        destruct (array_get false p x); [|done].
        rewrite Z.lor_spec, Z.shiftl_spec by done.
        assert (Z.testbit 1 (i - x) = false) as ->; [|by rewrite orb_false_r].
        destruct (Z_lt_ge_dec i x); [by rewrite Z.testbit_neg_r by lia|].
        change 1 with (2 ^ 0). apply Z.pow2_bits_false. lia. }
  rewrite H by (apply Forall_forall; intros x ?%elem_of_seqZ; lia).
  rewrite Z.testbit_0_l. cbn [orb]. f_equal.
  destruct (i <? kNumStartupSteps) eqn:E; bool_prop; [apply bool_decide_eq_true_2|apply bool_decide_eq_false_2];
    rewrite elem_of_seqZ; lia.
Qed.

Lemma percent_le done total : 0 <= done -> 0 < total < 2 ^ 20 ->
  0 <= u8 (u32 (Z.min done total * 100) / total) <= 100.
Proof.
  intros Hd Ht. rewrite (wrap_id 32) by (unfold in_u; lia).
  assert (0 <= Z.min done total * 100 / total <= 100) as H.
  { split; [apply Z.div_pos; lia|]. apply Z.div_le_upper_bound; lia. }
  rewrite wrap_id by (unfold in_u; lia). exact H.
Qed.

Lemma Progress_range h : 0 <= sample_count_ h -> 0 <= Progress h <= 100.
Proof.
  intros Hs. unfold Progress. case_if; [case_if; lia|]. case_if; [lia|].
  pose proof (wrap_in_u 32 (kNGate + sample_count_ h) ltac:(lia)) as [W1 _].
  pose proof (wrap_in_u 32 (u32 (sweep_pos_ h * kNAlignSamples) + sample_count_ h) ltac:(lia)) as [W2 _].
  destruct (state_ h); apply percent_le; unfold kNCal, kHoldSamples, kNGate, kNSweepSteps, kNAlignSamples in *;
    try lia. destruct (gate_phase_disabled_ h); lia.
Qed.

(** ** Properties *)


(** C8. The bring-up releases the outputs only while a run is active, and
    never while the motor is being connected: idle, done, faulted or waiting
    at the barrier, the power stage is not enabled. *)
Theorem outputs_only_in_run s (es : list event) :
  booted s ->
  let t := (run_events es (false, s)).2 in
  (IsActive (fsm t) = false \/ state_ (fsm t) = kConnectMotor /\ step_done_ (fsm t) = true) ->
  GetState (kPowerStage t) <> kEnabled.
Proof.
  intros B t Ht E. pose proof (run_events_inv es s B) as [_ _ _ I _ _]. fold t in I.
  destruct (I E) as [A Hc]. destruct Ht as [A'|[Hs Hd]]; [congruence|]. rewrite (Hc Hs) in Hd. done.
Qed.

(** One call of RunOnce() moves at most one step, and only on an accepted
    continue of a measured step: otherwise the step stays, or the run ends in
    a fault with the outputs off. *)
Theorem RunOnce_one_step s0 (es : list event) :
  booted s0 ->
  let s := (run_events es (false, s0)).2 in
  let t := RunOnce s in
  current_state (results (fsm t)) = state_ (fsm t) /\
  (state_ (fsm t) = state_ (fsm s)
   \/ IsActive (fsm s) = true /\ state_ (fsm t) = kFault /\ GetState (kPowerStage t) <> kEnabled
   \/ IsActive (fsm s) = true /\ next_step_requested_ (fsm s) = true /\ step_done_ (fsm s) = true /\
      state_ (fsm t) = next_state (state_ (fsm s)) /\ next_step_requested_ (fsm t) = false /\
      (IsActive (fsm t) = true -> step_done_ (fsm t) = false)).
Proof.
  intros B s t. pose proof (run_events_inv es s0 B) as I. fold s in I.
  pose proof (run_event_inv ev_RunOnce _ I) as J. revert I J.
  destruct (run_events es (false, s0)) as [c s'] eqn:E. cbn [snd] in s. subst s. intros I J.
  split; [exact (inv_current _ J)|]. pose proof (RunOnce_outcome s') as O. fold t in O.
  destruct I as [I1 _ _ _ _ V]. cbn in I1, V. clearbody t.
  assert (Hadv : forall u, IsActive (fsm s') = true -> state_ (fsm u) = state_ (fsm s') ->
    next_step_requested_ (fsm s') = true -> t = AdvanceToNextState u ->
    state_ (fsm t) = state_ (fsm s')
    \/ IsActive (fsm s') = true /\ state_ (fsm t) = kFault /\ GetState (kPowerStage t) <> kEnabled
    \/ IsActive (fsm s') = true /\ next_step_requested_ (fsm s') = true /\ step_done_ (fsm s') = true /\
       state_ (fsm t) = next_state (state_ (fsm s')) /\ next_step_requested_ (fsm t) = false /\
       (IsActive (fsm t) = true -> step_done_ (fsm t) = false)).
  { intros u A Hs Hn ->. destruct (AdvanceToNextState_cases u) as (Q1 & _ & Q); [by unfold IsActive in *; rewrite Hs|congruence|].
    destruct Q as [(_ & _ & Q2 & Q3)|(Q2 & Q3 & [Q4|Q4])]; [| |by right; left].
    - right; right. rewrite Hs in Q2. repeat split; auto.
    - right; right. repeat split; auto; [by rewrite Q4, <- Hs, Q2|]. unfold IsActive. by rewrite Q4. }
  destruct O as [t F _|t u Hs Hd Ht Hcur Hn Hp|u A Hn F Hd|u Hn Hs Ht Hd|f u A].
  - left. apply F.
  - left. congruence.
  - apply (Hadv u); auto. apply F.
  - apply (Hadv u); auto; [|congruence]. unfold IsActive. by rewrite Hs.
  - right; left. split; [done|]. split; [done|apply EnterFault_off].
Qed.

(** C10. Over-current and lost outputs stop the run: with a fresh sample and a
    phase current over the limit, or (outside the barrier) with the power
    stage no longer enabled, one call of RunOnce() faults the run, forces the
    neutral duty and switches the outputs off. *)
Theorem RunOnce_stops_on_fault s :
  IsActive (fsm s) = true -> samples_ready (cc_ s) = true ->
  Exceeds (raw_phase_currents (cc_ s)) (oc_limit_ (fsm s)) = true \/
  state_ (fsm s) <> kConnectMotor /\ GetState (kPowerStage s) <> kEnabled ->
  let t := RunOnce s in
  state_ (fsm t) = kFault /\ current_state (results (fsm t)) = kFault /\
  GetState (kPowerStage t) <> kEnabled /\ samples_ready (cc_ t) = false /\ force_duty_active_ (cc_ t) = true /\
  fault_ (fsm t) =
    (if negb (is_state (state_ (fsm s)) kConnectMotor) && negb (state_eqb (GetState (kPowerStage s)) kEnabled)
     then match TripName (cc_ s) with Some _ => fault_kTrip | None => fault_kEnableLost end
     else fault_kOvercurrent).
Proof.
  intros A R Hf t. subst t. unfold RunOnce. rewrite R. cbn [negb]. cbv zeta. cbn [fsm kPowerStage set_field].
  rewrite A. cbn [andb].
  destruct (negb (is_state (state_ (fsm s)) kConnectMotor) && negb (state_eqb (GetState (kPowerStage s)) kEnabled)) eqn:C.
  - repeat split. apply disable_off.
  - destruct Hf as [Hx|[H1 H2]].
    + rewrite CheckMotorOc_spec.
      match goal with |- context [if Exceeds ?a ?b then _ else _] => change (Exceeds a b) with
        (Exceeds (raw_phase_currents (cc_ s)) (oc_limit_ (fsm s))) end. rewrite Hx.
      repeat split. apply disable_off.
    + exfalso. unfold is_state, state_eqb in C. rewrite !bool_decide_eq_false_2 in C by done. done.
Qed.

(** The zero-offset calibration takes exactly 1024 samples: from the
    entry of the step, it is not done before, and after the 1024th the offset
    of each phase is the mean of its samples and the verdict is the comparison
    of the three offsets with the threshold. *)
Theorem offset_calibration_mean s0 vdc (l : list ThreePhase) :
  GetState (kPowerStage s0) = kEnabled -> length (passed (results (fsm s0))) = 14%nat ->
  Forall (fun i => Exceeds i (oc_limit_ (fsm s0)) = false) l -> Z.of_nat (length l) = kNCal ->
  let s := TransitionTo kAdcOffsetCal s0 in
  let t := sampled_all vdc l s in
  (forall k, (k < length l)%nat -> step_done_ (fsm (sampled_all vdc (take k l) s)) = false) /\
  step_done_ (fsm t) = true /\
  adc_offset_a (results (fsm t)) = MeanCurrent (sum_of phase_a l f_zero) kNCal /\
  adc_offset_b (results (fsm t)) = MeanCurrent (sum_of phase_b l f_zero) kNCal /\
  adc_offset_c (results (fsm t)) = MeanCurrent (sum_of phase_c l f_zero) kNCal /\
  array_get false (passed (results (fsm t))) (fsm_index kAdcOffsetCal) = offset_pass (fsm t).
Proof.
  intros E Hp X Hl s. assert (ready kAdcOffsetCal s) as R by (by constructor).
  assert (collected 0 f_zero f_zero f_zero s) as C by (by constructor).
  assert (step_done_ (fsm s) = false /\ oc_limit_ (fsm s) = oc_limit_ (fsm s0) /\
    passed (results (fsm s)) = passed (results (fsm s0))) as (D & O & Hps) by done.
  clearbody s. rewrite <- O in X. rewrite <- Hps in Hp. clear s0 E O Hps. split.
  - intros k Hk. apply (offset_samples (take k l) 0 f_zero f_zero f_zero); try done; [|by apply Forall_take].
    rewrite length_take. lia.
  - destruct l as [|i l _] using rev_ind; [done|]. rewrite length_app in Hl. cbn in Hl.
    apply Forall_app in X as [X [X1 _]%Forall_cons].
    rewrite sampled_all_snoc, !sum_of_snoc.
    pose proof (offset_samples l 0 f_zero f_zero f_zero vdc s R D C) as (R' & D' & O' & P' & C'); [lia|lia|done|].
    assert (length (passed (results (fsm (sampled_all vdc l s)))) = 14%nat) as Hp' by (by rewrite P').
    destruct (offset_sample _ _ _ _ i vdc _ R' D' C') as (_ & _ & _ & D'' & _ & H); [lia|by rewrite O'|].
    destruct H as (H1 & H2 & H3 & H4); [lia|].
    split; [rewrite D''; apply Z.leb_le; lia|]. split; [exact H1|]. split; [exact H2|]. split; [exact H3|].
    rewrite H4. apply array_get_set_eq. rewrite Hp'. cbn. lia.
Qed.

(** The status message is consistent: no step is reported both passed and
    failed; a step is passed when its verdict is, failed when it has finished
    measuring without passing; the progress is a percentage, 100 for a measured
    step; a reading or confirmation is asked for only in a run. *)
Theorem Status_consistent (h : HwStartup) :
  0 <= sample_count_ h -> 0 <= completed_ h ->
  let st := Status h in
  Z.land (status_passed st) (status_failed st) = 0 /\
  (forall i, 0 <= i < kNumStartupSteps ->
     Z.testbit (status_passed st) i = array_get false (passed (results h)) i /\
     Z.testbit (status_failed st) i =
       (Z.testbit (completed_ h) i || (status_measured st && (i =? fsm_index (state_ h)))) &&
       negb (array_get false (passed (results h)) i)) /\
  0 <= status_progress st <= 100 /\ (status_measured st = true -> status_progress st = 100) /\
  (status_needs st <> needs_kNone -> status_active st = true).
Proof.
  intros Hs Hc st. subst st. unfold Status. cbv zeta.
  cbn [status_passed status_failed status_measured status_progress status_needs status_active].
  split; [apply Z.bits_inj'; intros n _; rewrite Z.land_spec, Z.ldiff_spec, Z.bits_0; by destruct (Z.testbit (passed_bits _) n), (Z.testbit _ n)|].
  split; [|split; [by apply Progress_range|split]].
  - intros i Hi. rewrite Z.ldiff_spec, passed_bits_testbit by lia.
    replace (i <? kNumStartupSteps) with true by (symmetry; apply Z.ltb_lt; lia). split; [done|].
    cbn [andb]. f_equal. destruct (IsActive h && step_done_ h); [|by rewrite orb_false_r].
    rewrite Z.lor_spec. f_equal. unfold bit_of. rewrite Z.shiftl_spec by lia. cbn [andb].
    destruct (i =? fsm_index (state_ h)) eqn:E; bool_prop; [by rewrite E, Z.sub_diag|].
    destruct (Z_lt_ge_dec i (fsm_index (state_ h))); [by rewrite Z.testbit_neg_r by lia|].
    change 1 with (2 ^ 0). apply Z.pow2_bits_false. lia.
  - intros [A D]%andb_true_iff. unfold Progress. by rewrite A, D.
  - unfold Needs. case_if; bool_prop; done.
Qed.

(** The phase alignment picks the quietest sampling point: with the sweep
    complete, the next call chooses the first sweep position of least noise,
    reports its trigger offset, programs the ADC with it, and passes exactly
    when that noise is below twice the noise floor. *)
Theorem alignment_picks_minimum (vdc : float) (i : ThreePhase) s :
  ready kPhaseAdcAlignment s -> step_done_ (fsm s) = false -> sweep_pos_ (fsm s) = kNSweepSteps ->
  Exceeds i (oc_limit_ (fsm s)) = false -> hardware_ (cc_ s) = true ->
  length (passed (results (fsm s))) = 14%nat ->
  (forall k, is_nan (array_get f_zero (sweep_noise_a_ (fsm s)) k) = false) ->
  let noise := array_get f_zero (sweep_noise_a_ (fsm s)) in
  let t := sampled i vdc s in
  exists pos, 0 <= pos < kNSweepSteps /\
    (forall k, 0 <= k < kNSweepSteps -> f_leb (noise pos) (noise k) = true) /\
    (forall k, 0 <= k < pos -> f_ltb (noise pos) (noise k) = true) /\
    adc_trigger_offset_optimal (results (fsm t)) = sweep_ticks (base_trigger_offset_ (fsm s)) pos /\
    hardware_trigger_offset (cc_ t) = Some (sweep_ticks (base_trigger_offset_ (fsm s)) pos) /\
    step_done_ (fsm t) = true /\
    array_get false (passed (results (fsm t))) (fsm_index kPhaseAdcAlignment) =
      f_ltb (noise pos) (f_mul (f_of_Z 2) (adc_noise_rms_a (results (fsm s)))).
Proof.
  intros R D Hsw X Hh Hp N noise t. subst t noise.
  rewrite (sampled_handler kPhaseAdcAlignment) by (try done; unfold IsActive; by rewrite (ready_state _ _ R)).
  set (u := s.{cc_ := _}). unfold RunState. change (fsm u) with (fsm s). rewrite (ready_state _ _ R).
  unfold RunPhaseAdcAlignment. cbv zeta.
  assert (fsm (InjectAlphaCurrent u) = fsm s /\ hardware_ (cc_ (InjectAlphaCurrent u)) = true) as (V1 & V2) by done.
  generalize dependent (InjectAlphaCurrent u). intros v V1 V2. clear u. rewrite V1, D, Hsw. cbn [Z.eqb andb kNSweepSteps].
  change (kNSweepSteps <=? 21) with true. cbv iota. rewrite V1, Hsw. change (21 <=? 21) with true. cbv iota.
  pose proof (find_best_prefix _ 20 N) as Hb. cbv zeta in Hb. change (Z.of_nat 20) with 20 in Hb.
  unfold find_best. change (kNSweepSteps - 1) with 20.
  destruct (foldl _ _ _) as [pos best]. cbn [fst snd] in Hb. destruct Hb as (H1 & H2 & H3 & H4). subst best.
  exists pos. unfold kNSweepSteps. split; [lia|]. split; [intros; apply H3; lia|]. split; [done|].
  split; [done|]. split.
  - unfold SetAdcTriggerOffset. cbn. by rewrite V2.
  - split; [done|]. unfold set_passed. cbn. rewrite V1. apply array_get_set_eq. rewrite Hp. cbn. lia.
Qed.

(** A release that is refused has already discarded the last run: idle, with
    the results of a fresh start. *)
Lemma RequestRun_refused s :
  (RequestRun s).1 = kNotReleased ->
  state_ (fsm (RequestRun s).2) = kIdle /\ results (fsm (RequestRun s).2) = StartupResults_init.
Proof.
  unfold RequestRun. case_if; [done|]. cbv zeta.
  match goal with |- context [Enable (kPowerStage ?x)] => set (t := x) end.
  assert (state_ (fsm t) = kIdle /\ results (fsm t) = StartupResults_init) as (T1 & T2) by (subst t; by case_if).
  clearbody t. by destruct (Enable _) as [[] stage].
Qed.

(** A new run keeps the phase of the gate-driver check and its baseline: after
    an abort in the second half of that check the next run compares with the
    baseline of the aborted one. *)
Lemma RequestRun_keeps_gate_phase s :
  gate_phase_disabled_ (fsm (RequestRun s).2) = gate_phase_disabled_ (fsm s) /\
  gate_mean_disabled_ (fsm (RequestRun s).2) = gate_mean_disabled_ (fsm s).
Proof.
  unfold RequestRun. case_if; [done|]. cbv zeta.
  match goal with |- context [Enable (kPowerStage ?x)] => set (t := x) end.
  assert (gate_phase_disabled_ (fsm t) = gate_phase_disabled_ (fsm s) /\
    gate_mean_disabled_ (fsm t) = gate_mean_disabled_ (fsm s)) as (T1 & T2) by (subst t; by case_if).
  clearbody t. by destruct (Enable _) as [[] stage].
Qed.
End Invariant.

(** The witnesses run on the simulated power stage and a settings store that
    accepts every calibration. *)
#[local] Instance unit_settings : SettingsClient float := {|
  max_phase_current := fun m => m;
  SettingsTypes.ApplyAdcCalibration := fun _ m => (SettingsTypes.kSuccess, m) |}.
Definition neutral3 : ThreePhase := mkThreePhase f_half f_half f_half.
Definition demo_cc : CurrentControlIsr :=
  CurrentControlIsr_init.{samples_ready := true}.{adc_trigger_offset := 168}.{raw_vdc := f_of_Z 48}.{overcurrent_limit := f_of_Z 50}
    .{duty_min := f_lit 1 100}.{duty_max := f_lit 99 100}.{hardware_ := true}.
Definition demo_samples (a : float) : ControlCycleSamples :=
  mkSamples (replicate 4 (mkThreePhase a f_zero f_zero)) (f_of_Z 48) false 0.
Definition demo : Sys SimPowerStage float :=
  mkSys HwStartup_init demo_cc (mkPowerStage false (mkSim true false false)) (f_of_Z 100).
Lemma demo_booted : booted demo.
Proof. by split. Qed.


Lemma outputs_only_in_run_witness :
  let t := (run_events [ev_RequestRun; ev_RunOnce; ev_RequestAbort fault_kAborted] (false, demo)).2 in
  state_ (fsm t) = kFault /\ GetState (kPowerStage t) <> kEnabled.
Proof.
  cbv zeta. split; [reflexivity|].
  apply (outputs_only_in_run demo [ev_RequestRun; ev_RunOnce; ev_RequestAbort fault_kAborted] demo_booted).
  left. reflexivity.
Defined.

Lemma RunOnce_one_step_witness :
  let s := (run_events [ev_RequestRun; ev_RunOnce; ev_RequestNextStep false] (false, demo)).2 in
  current_state (results (fsm (RunOnce s))) = state_ (fsm (RunOnce s)).
Proof.
  apply (RunOnce_one_step demo [ev_RequestRun; ev_RunOnce; ev_RequestNextStep false] demo_booted).
Defined.

Lemma RunOnce_stops_on_fault_witness :
  let s := (run_events [ev_RequestRun; ev_cycle (demo_samples (f_of_Z 20))]
              (false, demo)).2 in
  state_ (fsm (RunOnce s)) = kFault.
Proof.
  cbv zeta. apply RunOnce_stops_on_fault; [reflexivity|reflexivity|].
  left. vm_compute. reflexivity.
Defined.

Definition demo_on : Sys SimPowerStage float := demo.{kPowerStage := mkPowerStage false (mkSim true true false)}.
Definition zero_samples (n : nat) : list ThreePhase := replicate n (mkThreePhase f_zero f_zero f_zero).
Lemma offset_calibration_mean_witness :
  step_done_ (fsm (sampled_all (f_of_Z 48) (zero_samples 1024) (TransitionTo kAdcOffsetCal demo_on))) = true.
Proof.
  destruct (offset_calibration_mean demo_on (f_of_Z 48) (zero_samples 1024)) as (_ & H & _).
  - reflexivity.
  - reflexivity.
  - apply Forall_replicate. vm_compute. reflexivity.
  - vm_compute. reflexivity.
  - exact H.
Defined.

Lemma Status_consistent_witness :
  Z.land (status_passed (Status HwStartup_init)) (status_failed (Status HwStartup_init)) = 0.
Proof. apply (Status_consistent HwStartup_init); discriminate. Defined.

Definition demo_swept : Sys SimPowerStage float :=
  (TransitionTo kPhaseAdcAlignment demo_on).fsm{sweep_pos_ := 21}.fsm{base_trigger_offset_ := 168}.
Lemma alignment_picks_minimum_witness :
  step_done_ (fsm (sampled (mkThreePhase f_zero f_zero f_zero) (f_of_Z 48) demo_swept)) = true.
Proof.
  destruct (alignment_picks_minimum (f_of_Z 48) (mkThreePhase f_zero f_zero f_zero) demo_swept)
    as (pos & _ & _ & _ & _ & _ & H & _);
    [by constructor|reflexivity|reflexivity|reflexivity|reflexivity|reflexivity| |exact H].
  intros k. unfold array_get. change (sweep_noise_a_ (fsm demo_swept)) with (replicate 21 f_zero).
  destruct (replicate 21 f_zero !! Z.to_nat k) as [x|] eqn:E; [|reflexivity].
  apply lookup_replicate in E as [-> _]. reflexivity.
Defined.

(** The first position of the sweep is measured at the present trigger offset,
    168 ticks here, and not at the offset of position 0, which is what a sweep
    that finds its least noise there programs. *)
Example sweep_position_0_measured_at_base :
  let t := sampled_all (f_of_Z 48) (zero_samples 255) (TransitionTo kPhaseAdcAlignment demo_on) in
  adc_trigger_offset (cc_ t) = 168 /\ sweep_pos_ (fsm t) = 0 /\ sample_count_ (fsm t) = 255 /\
  base_trigger_offset_ (fsm t) = 168 /\ sweep_ticks 168 0 = 0.
Proof. vm_compute. done. Qed.

End HwStartup.
