(* ===== verification/Strtof.v ===== *)
(** * strtof

    The conversion of a number in text form to a float that the meter readings
    of the commissioning use (src/drive/commissioning.cpp): the C library's
    strtof() in the "C" locale.  The result is the value and the number of
    characters taken, 0 when the text does not start with a number. *)
From Stdlib Require Import ZArith Lia Bool SpecFloat Ascii String.
From stdpp Require Import base list.
From S2P Require Import Prelude Float32.

#[local] Open Scope Z_scope.

Module Strtof.

Definition code (c : ascii) : Z := Z.of_nat (nat_of_ascii c).
Definition between (lo hi : Z) (c : ascii) : bool := (lo <=? code c) && (code c <=? hi).
Definition is_space (c : ascii) : bool := (code c =? 32) || between 9 13 c.
Definition dec_digit (c : ascii) : option Z := if between 48 57 c then Some (code c - 48) else None.
Definition hex_digit (c : ascii) : option Z :=
  if between 48 57 c then Some (code c - 48)
  else if between 65 70 c then Some (code c - 55)
  else if between 97 102 c then Some (code c - 87) else None.
Definition to_lower (c : ascii) : Z := if between 65 90 c then code c + 32 else code c.

(** The digits at the start of [s] after the number [acc]: the number, how many, the rest. *)
Fixpoint digits (digit : ascii -> option Z) (base acc : Z) (n : nat) (s : string) : Z * nat * string :=
  match s with
  | String c rest => match digit c with
                     | Some d => digits digit base (acc * base + d) (S n) rest
                     | None => (acc, n, s)
                     end
  | EmptyString => (acc, n, s)
  end.

(** Whether [s] starts with [word] (lower case), whatever its case. *)
Fixpoint starts_with (word s : string) : bool :=
  match word, s with
  | EmptyString, _ => true
  | String a w, String c r => (code a =? to_lower c) && starts_with w r
  | _, _ => false
  end.

Fixpoint skip (n : nat) (s : string) : string :=
  match n, s with S k, String _ rest => skip k rest | _, _ => s end.
Definition after (point : Z) (s : string) : option string :=
  match s with String c rest => if code c =? point then Some rest else None | EmptyString => None end.

(** An optional sign: whether it is a minus, and the rest. *)
Definition sign (s : string) : bool * string :=
  match after 45 s, after 43 s with Some r, _ => (true, r) | _, Some r => (false, r) | None, None => (false, s) end.

(** An exponent after the letter [letter], only when digits follow. *)
Definition exponent (letter : Z) (s : string) : Z * string :=
  match s with
  | String c rest =>
      if to_lower c =? letter then
        let '(minus, r) := sign rest in
        match digits dec_digit 10 0 0 r with
        | (_, O, _) => (0, s)
        | (e, _, r) => (if minus then - e else e, r)
        end
      else (0, s)
  | EmptyString => (0, s)
  end.

(** A number with an optional point and exponent: the mantissa, the digits
    after the point, the exponent and the rest; [None] without a digit. *)
Definition number (digit : ascii -> option Z) (base letter : Z) (s : string) : option (Z * Z * Z * string) :=
  let '(whole, n, r) := digits digit base 0 0 s in
  let '(m, n, k, r) :=
    match after 46 r with
    | Some f => let '(m, k, r) := digits digit base whole 0 f in (m, (n + k)%nat, k, r)
    | None => (whole, n, O, r)
    end in
  if (n =? 0)%nat then None
  else let '(e, r) := exponent letter r in Some (m, Z.of_nat k, e, r).

(** The exact value m * base^e, correctly rounded. *)
Definition scale (m base e : Z) : float :=
  if m =? 0 then f_zero else if 0 <=? e then f_dec (m * base ^ e) 1 else f_dec m (base ^ (- e)).

Fixpoint nan_chars (s : string) : option string :=
  match s with
  | String c rest => if code c =? 41 then Some rest
                     else if between 48 57 c || between 65 90 c || between 97 122 c || (code c =? 95) then nan_chars rest
                     else None
  | EmptyString => None
  end.

(** The number after blanks and sign, and the rest. *)
Definition magnitude (s : string) : option (float * string) :=
  if starts_with "infinity" s then Some (f_inf, skip 8 s)
  else if starts_with "inf" s then Some (f_inf, skip 3 s)
  else if starts_with "nan" s then
    let r := skip 3 s in
    Some (S754_nan, match after 40 r with Some f => match nan_chars f with Some r' => r' | None => r end | None => r end)
  else
    match (if starts_with "0x" s then number hex_digit 16 112 (skip 2 s) else None) with
    | Some (m, k, e, r) => Some (scale m 2 (e - 4 * k), r)
    | None =>
        match number dec_digit 10 101 s with
        | Some (m, k, e, r) => Some (scale m 10 (e - k), r)
        | None => None
        end
    end.

Fixpoint skip_space (s : string) : string :=
  match s with String c rest => if is_space c then skip_space rest else s | EmptyString => s end.
Definition strtof (s : string) : float * nat :=
  let '(minus, r) := sign (skip_space s) in
  match magnitude r with
  | Some (x, rest) => (if minus then f_neg x else x, (String.length s - String.length rest)%nat)
  | None => (f_zero, 0%nat)
  end.

Lemma strtof_reading : strtof "48.1" = (f_lit 481 10, 4%nat).
Proof. vm_compute. reflexivity. Qed.
Lemma strtof_forms :
  map strtof [" +1.5e1"; "0x1.8p1"; ".5V"; "-inf"; "nan(1)"; "0x"; "e5"; "1e"]%string =
  [(f_of_Z 15, 7%nat); (f_of_Z 3, 7%nat); (f_half, 2%nat); (f_neg f_inf, 4%nat); (S754_nan, 6%nat); (f_zero, 1%nat);
   (f_zero, 0%nat); (f_one, 1%nat)].
Proof. vm_compute. reflexivity. Qed.

End Strtof.
