(* ===== verification/Commissioning.v ===== *)
(** * The commissioning interface of the drive

    src/drive/commissioning.{hpp,cpp}: class [Commissioning], the commands,
    meter readings, status message and result register through which a tool on
    the bus runs the startup aid.  The message and the command codes are those
    of dsdl/unimoc/drive/CommissioningStatus.0.1.dsdl. *)
From Stdlib Require Import ZArith Lia Bool SpecFloat Ascii String.
From stdpp Require Import base decidable list.
From S2P Require Import Prelude Float32 PowerStage CurrentControl SettingsTypes Isr HwStartup Strtof.
Import SettingsTypes(SettingsClient).
Import PowerStage(PowerStageOps, PowerStageInterface).

#[local] Open Scope Z_scope.
#[local] Open Scope unimoc_scope.

Module Commissioning.
Import HwStartup.

(** ** Command results (lib/cyphal/node.hpp, cyphal_interface.hpp) *)
Definition kStatusSuccess : Z := 0.
Definition kStatusFailure : Z := 1.
Definition kStatusNotAuthorized : Z := 2.
Definition kStatusBadCommand : Z := 3.
Definition kStatusBadParameter : Z := 4.
Definition kStatusBadState : Z := 5.
Definition kStatusInternalError : Z := 6.
Record CommandResult := mkResult { result_status : Z; result_output : string }.

(** ** The status message *)
Record StatusMessage := mkStatusMessage {
  procedure : Z; step : Z; state : Z; needs : Z; progress : Z; message_passed : Z; message_failed : Z; message_fault : Z;
  counter : Z }.
#[export] Instance StatusMessage_eq_dec : EqDecision StatusMessage.
Proof. solve_decision. Defined.
Definition StatusMessage_init : StatusMessage := mkStatusMessage 0 0 0 0 0 0 0 0 0.
Definition STATE_IDLE : Z := 0.
Definition STATE_MEASURING : Z := 1.
Definition STATE_WAITING : Z := 2.
Definition STATE_NEEDS_READING : Z := 3.
Definition STATE_DONE : Z := 4.
Definition STATE_FAILED : Z := 5.
Definition STATE_ABORTED : Z := 6.
Definition COMMAND_START_STARTUP_AID : Z := 512.
Definition COMMAND_CONTINUE : Z := 514.
Definition COMMAND_SET_READING : Z := 515.
Definition COMMAND_ABORT : Z := 516.
Definition COMMAND_APPLY_IDENTIFICATION : Z := 517.

Definition fault_byte (f : StartupFault) : Z :=
  match f with
  | fault_kNone => 0 | fault_kAborted => 1 | fault_kEmergencyStop => 2 | fault_kOvercurrent => 3 | fault_kTrip => 4
  | fault_kEnableLost => 5 | fault_kApplyFailed => 6
  end.
Definition StateOf (s : StartupStatus) : Z :=
  if status_active s then
    match status_needs s with
    | needs_kDcLinkVoltage | needs_kPhaseCurrent => STATE_NEEDS_READING
    | _ => if status_measured s then STATE_WAITING else STATE_MEASURING
    end
  else
    match status_step s with
    | kDone => STATE_DONE
    | kFault => match status_fault s with fault_kAborted | fault_kEmergencyStop => STATE_ABORTED | _ => STATE_FAILED end
    | _ => STATE_IDLE
    end.
Definition NeedsOf (n : StartupNeeds) : Z :=
  match n with needs_kDcLinkVoltage => 1 | needs_kPhaseCurrent => 2 | needs_kMotorConnected => 3 | needs_kNone => 0 end.
Definition Same (a b : StatusMessage) : bool := bool_decide (a = b).

(** ** The class *)
Record Commissioning := mkCommissioning { last_ : StatusMessage; published_ : bool; next_us_ : Z }.
#[export] Instance eta_Commissioning : Eta Commissioning := fun s => mkCommissioning (last_ s) (published_ s) (next_us_ s).
Definition Commissioning_init : Commissioning := mkCommissioning StatusMessage_init false 0.
Definition kActivePeriodUs : Z := 500000.
Definition kIdlePeriodUs : Z := 2000000.
Definition kMotorConnected : string := "motor-connected".
Definition kMaxReading : float := f_of_Z 1000.

Definition Text (parameter : list Z) : string :=
  fold_right (fun b s => String (ascii_of_nat (Z.to_nat b)) s) EmptyString parameter.
Definition Number (text : string) : option float :=
  let size := String.length text in
  if (size =? 0)%nat || (24 <=? size)%nat then None
  else
    let '(kValue, taken) := Strtof.strtof text in
    if negb (taken =? size)%nat || negb (is_finite kValue) || negb (f_gtb kValue f_zero) || f_gtb kValue kMaxReading
    then None else Some kValue.
Definition Handles (command : Z) : bool := (COMMAND_START_STARTUP_AID <=? command) && (command <=? COMMAND_APPLY_IDENTIFICATION).

Section Operations.
Context {P S : Type} `{!PowerStageOps P} `{!SettingsClient S}.

(** The flags of the drive ([*engaged_], [*emergency_stop_]) are arguments. *)
Definition Start (engaged emergency_stop : bool) (s : Sys P S) : CommandResult * Sys P S :=
  if engaged then (mkResult kStatusBadState "engaged: disengage first", s)
  else if emergency_stop then (mkResult kStatusBadState "emergency stop latched: restart first", s)
  else
    let '(answer, s) := RequestRun s in
    (match answer with
     | kStarted => mkResult kStatusSuccess "started: phase 1 without the motor"
     | kRunning => mkResult kStatusBadState "the startup aid runs already"
     | kNotReleased => mkResult kStatusFailure "outputs not released: external enable missing"
     end, s).
Definition Continue (confirmation : string) (s : Sys P S) : CommandResult * Sys P S :=
  let kMotorConfirmed := String.eqb confirmation kMotorConnected in
  if negb (String.eqb confirmation EmptyString) && negb kMotorConfirmed then (mkResult kStatusBadParameter "unknown confirmation", s)
  else
    let '(answer, s) := RequestNextStep kMotorConfirmed s in
    (match answer with
     | kAccepted => mkResult kStatusSuccess EmptyString
     | kNotRunning => mkResult kStatusBadState "the startup aid is not running"
     | kMeasuring => mkResult kStatusBadState "the step is still measuring"
     | kNeedsReading => mkResult kStatusBadState "the step needs its meter reading"
     | kNeedsConfirmation => mkResult kStatusBadParameter "confirm motor-connected"
     | kUnexpectedConfirmation => mkResult kStatusBadParameter "this step takes no confirmation"
     end, s).
Definition SetReading (reading : string) (s : Sys P S) : CommandResult * Sys P S :=
  if negb (IsActive (fsm s)) then (mkResult kStatusBadState "the startup aid is not running", s)
  else
    match String.index 0 "=" reading with
    | None => (mkResult kStatusBadParameter "expected vdc=<V> or current=<A>", s)
    | Some kSeparator =>
        let kName := String.substring 0 kSeparator reading in
        match Number (String.substring (kSeparator + 1) (String.length reading - (kSeparator + 1)) reading) with
        | None => (mkResult kStatusBadParameter "not a positive number", s)
        | Some kValue =>
            if String.eqb kName "vdc" then (mkResult kStatusSuccess EmptyString, SetExtVdc kValue s)
            else if String.eqb kName "current" then (mkResult kStatusSuccess EmptyString, SetExtCurrent kValue s)
            else (mkResult kStatusBadParameter "expected vdc=<V> or current=<A>", s)
        end
    end.
Definition OnCommand (engaged emergency_stop : bool) (command : Z) (parameter : list Z) (s : Sys P S)
    : CommandResult * Sys P S :=
  if command =? COMMAND_START_STARTUP_AID then Start engaged emergency_stop s
  else if command =? COMMAND_CONTINUE then Continue (Text parameter) s
  else if command =? COMMAND_SET_READING then SetReading (Text parameter) s
  else if command =? COMMAND_ABORT then (mkResult kStatusSuccess EmptyString, RequestAbort fault_kAborted s)
  else (mkResult kStatusBadCommand "not implemented", s).

Definition Status (h : HwStartup) : StatusMessage :=
  let kStartup := HwStartup.Status h in
  mkStatusMessage (if status_started kStartup then 1 else 0) (fsm_index (status_step kStartup)) (StateOf kStartup)
    (NeedsOf (status_needs kStartup)) (status_progress kStartup) (status_passed kStartup) (status_failed kStartup)
    (fault_byte (status_fault kStartup)) 0.
(** True with the message when it is due. *)
Definition Due (now_us : Z) (h : HwStartup) (c : Commissioning) : option StatusMessage * Commissioning :=
  let status := Status h in
  let kChanged := negb (published_ c) || negb (Same status (last_ c)) in
  if negb kChanged && (now_us <? next_us_ c) then (None, c)
  else
    (Some status,
     c.{next_us_ := u64 (now_us + (if IsActive h then kActivePeriodUs else kIdlePeriodUs))}.{last_ := status}
      .{published_ := true}).
(** The register [unimoc.startup.results]: one byte per step. *)
Definition Read (index : nat) (h : HwStartup) : option (list Z) :=
  match index with
  | O => Some (map (fun p : bool => if p then 1 else 0) (passed (results h)))
  | _ => None
  end.

(** ** Lemmas *)

(** Only a start releases the outputs, and only without an engaged drive and
    without a latched emergency stop. *)
Lemma OnCommand_stage engaged emergency_stop command parameter (s : Sys P S) :
  let s' := (OnCommand engaged emergency_stop command parameter s).2 in
  kPowerStage s' = kPowerStage s \/ kPowerStage s' = PowerStage.Disable (kPowerStage s) \/
  (command = COMMAND_START_STARTUP_AID /\ engaged = false /\ emergency_stop = false /\ s' = (RequestRun s).2).
Proof.
  unfold OnCommand. destruct (Z.eqb_spec command COMMAND_START_STARTUP_AID) as [->|]; cbn zeta.
  { unfold Start. destruct engaged; [by left|]. destruct emergency_stop; [by left|]. destruct (RequestRun s) as [a t] eqn:E.
    right; right. done. }
  destruct (Z.eqb_spec command COMMAND_CONTINUE).
  { left. unfold Continue. case_if; [done|]. unfold RequestNextStep. repeat case_match; simplify_eq; done. }
  destruct (Z.eqb_spec command COMMAND_SET_READING).
  { left. unfold SetReading. repeat case_match; done. }
  destruct (Z.eqb_spec command COMMAND_ABORT); [|by left].
  cbn [snd]. unfold RequestAbort. case_match; [by left|right; left]. done.
Qed.

End Operations.

(** A reading is taken only as a positive number up to [kMaxReading]. *)
Lemma Number_range text x : Number text = Some x -> is_finite x = true /\ f_gtb x f_zero = true /\ f_gtb x kMaxReading = false.
Proof.
  unfold Number. case_match; [done|]. destruct (Strtof.strtof text) as [v n]. case_match eqn:E; [done|].
  intros [= <-]. repeat (apply orb_false_iff in E as [E ?]). repeat split; by apply negb_false_iff || assumption.
Qed.
Lemma Number_readings : map Number ["48.1"; "0"; "1000"; "1000.1"; "-3"; "48 "; "nan"; EmptyString]%string =
  [Some (f_lit 481 10); None; Some (f_of_Z 1000); None; None; None; None; None].
Proof. vm_compute. reflexivity. Qed.

End Commissioning.
