(* ===== verification/HandOver.v ===== *)
(** * Hand-over of values between threads and interrupts

    src/current_control/mailbox.hpp ([Mailbox], [SeqLock]) and the queue of
    lib/motor_control/src/hall_capture.hpp, one memory access per step: the two
    sides interleave in any order, a value of several words is copied word by
    word.  [CurrentControl] and [Observers] use the whole operations; the
    theorems here say that this is what the interleaved steps amount to. *)
From Stdlib Require Import ZArith Lia Bool.
From stdpp Require Import base list option.
From S2P Require Import Prelude CurrentControl Observers.
Import CurrentControl(Mailbox, mkMailbox, slots_, active_, Mailbox_init, Mailbox_Write, Mailbox_Read, mailbox_ok).
Import Observers(HallEvent, mkHallEvent, hall_code, hall_timestamp, HallEvent_init, HallEventQueue, mkHallEventQueue, events_, head_,
  tail_, latest_code_, overflows_, HallEventQueue_init).

#[local] Open Scope Z_scope.
#[local] Open Scope unimoc_scope.

#[local] Existing Instance CurrentControl.eta_Mailbox.
#[local] Existing Instance Observers.eta_HallEventQueue.

Module HandOver.

(** ** Word by word copies *)
Section Words.
Context {W : Type}.
Implicit Types (v old : list W) (k : nat).
(** [old] with the first [k] words of [v]. *)
Definition copied v k old : list W := take k v ++ drop k old.
Lemma copied_0 v old : copied v 0 old = old.
Proof. done. Qed.
Lemma copied_all v old k : (length v <= k)%nat -> (length old <= k)%nat -> copied v k old = v.
Proof. intros A B. unfold copied. by rewrite take_ge, drop_ge, app_nil_r. Qed.
Lemma copied_S v old k w : v !! k = Some w -> (k < length old)%nat -> <[k := w]> (copied v k old) = copied v (S k) old.
Proof.
  intros E L. pose proof (lookup_lt_Some _ _ _ E). unfold copied. rewrite (take_S_r _ _ _ E), <- app_assoc.
  rewrite insert_app_r_alt by (rewrite length_take; lia). rewrite length_take, Nat.min_l, Nat.sub_diag by lia. f_equal.
  destruct (lookup_lt_is_Some_2 _ _ L) as [x X]. by rewrite (drop_S _ _ _ X).
Qed.
Lemma length_copied v k old : length v = length old -> length (copied v k old) = length old.
Proof. intros E. unfold copied. rewrite length_app, length_take, length_drop. lia. Qed.
End Words.

(** ** The mailbox: the reader preempts the writer *)
Section MailboxSteps.
Context {W : Type} (size : nat).
Inductive mailbox_writer := mw_idle | mw_copy (kNext : nat) (value : list W) (k : nat).
Record MailboxRun := mkMailboxRun { box : Mailbox (list W); box_writer : mailbox_writer }.
Inductive mailbox_action := mb_write (value : list W) | mb_step | mb_read.
(** What an action shows: a value published, a value read. *)
Inductive mailbox_shown := mb_published (value : list W) | mb_got (value : list W) | mb_nothing.
Definition mailbox_act (a : mailbox_action) (s : MailboxRun) : mailbox_shown * MailboxRun :=
  match a, box_writer s with
  | mb_write v, mw_idle =>
      (mb_nothing, if (length v =? size)%nat then mkMailboxRun (box s) (mw_copy (1 - active_ (box s)) v 0) else s)
  | mb_write _, mw_copy _ _ _ => (mb_nothing, s)
  | mb_step, mw_idle => (mb_nothing, s)
  | mb_step, mw_copy n v k =>
      match v !! k with
      | Some w =>
          let slot := default [] (slots_ (box s) !! n) in
          (mb_nothing, mkMailboxRun ((box s).{slots_ := <[n := <[k := w]> slot]> (slots_ (box s))}) (mw_copy n v (S k)))
      | None => (mb_published v, mkMailboxRun ((box s).{active_ := n}) mw_idle)
      end
  | mb_read, _ => (mb_got (Mailbox_Read [] (box s)), s)
  end.
Fixpoint mailbox_run (l : list mailbox_action) (s : MailboxRun) : list mailbox_shown * MailboxRun :=
  match l with
  | [] => ([], s)
  | a :: l => let '(o, s) := mailbox_act a s in let '(os, s) := mailbox_run l s in (o :: os, s)
  end.

(** The same trace, over whole writes and reads. *)
Fixpoint mailbox_spec (l : list mailbox_shown) (m : Mailbox (list W)) : Prop :=
  match l with
  | [] => True
  | mb_published v :: l => mailbox_spec l (Mailbox_Write v m)
  | mb_got v :: l => v = Mailbox_Read [] m /\ mailbox_spec l m
  | mb_nothing :: l => mailbox_spec l m
  end.
(** The active slots agree; the other one is being filled. *)
Definition mailbox_rel (s : MailboxRun) (m : Mailbox (list W)) : Prop :=
  mailbox_ok (box s) /\ mailbox_ok m /\ active_ (box s) = active_ m /\
  slots_ (box s) !! active_ m = slots_ m !! active_ m /\
  Forall (fun slot => length slot = size) (slots_ (box s)) /\
  match box_writer s with
  | mw_idle => True
  | mw_copy n v k => n = (1 - active_ m)%nat /\ length v = size /\ (k <= size)%nat /\
      exists old, length old = size /\ slots_ (box s) !! n = Some (copied v k old)
  end.
Lemma mailbox_ok_slot {T} (m : Mailbox T) n : mailbox_ok m -> (n < 2)%nat -> exists v, slots_ m !! n = Some v.
Proof. intros [L _] H. apply lookup_lt_is_Some_2. lia. Qed.
Lemma mailbox_act_rel a s m : mailbox_rel s m ->
  match (mailbox_act a s).1 with
  | mb_published v => mailbox_rel (mailbox_act a s).2 (Mailbox_Write v m)
  | mb_got v => v = Mailbox_Read [] m /\ mailbox_rel (mailbox_act a s).2 m
  | mb_nothing => mailbox_rel (mailbox_act a s).2 m
  end.
Proof.
  destruct s as [b w]. intros (B & M & A & E & F & Wr). cbn in *. pose proof (proj2 M) as M2.
  destruct a as [v| |]; [destruct w as [|n v' k]|destruct w as [|n v k]|]; cbn; try done.
  - destruct (Nat.eqb_spec (length v) size) as [L|]; [|done]. rewrite A. split_and!; try done; try lia.
    assert (exists old, slots_ b !! (1 - active_ m)%nat = Some old) as [old O] by (apply mailbox_ok_slot; [done|lia]). cbn. split_and!; try done; try lia. exists old. rewrite copied_0. split; [|done].
    by eapply (Forall_lookup_1 (fun slot => length slot = size)).
  - destruct Wr as (-> & Lv & Lk & old & Lo & S). destruct (v !! k) as [x|] eqn:V.
    + pose proof (lookup_lt_Some _ _ _ V). rewrite S. cbn. rewrite (copied_S _ _ _ _ V) by lia.
      split_and!; cbn; try done.
      * destruct B. split; cbn; [by rewrite length_insert|done].
      * by rewrite list_lookup_insert_ne by lia.
      * apply Forall_insert; [done|]. rewrite length_copied; congruence.
      * split_and!; try done; [lia|]. exists old. split; [done|]. apply list_lookup_insert_eq. destruct B; lia.
    + apply lookup_ge_None_1 in V. rewrite copied_all in S by lia.
      split_and!; cbn; try done.
      * destruct B. split; cbn; [done|lia].
      * by apply CurrentControl.Mailbox_Write_ok.
      * rewrite S. symmetry. apply list_lookup_insert_eq. destruct M; lia.
  - split; [|done]. unfold Mailbox_Read. by rewrite A, E.
Qed.

Lemma mailbox_run_rel l : forall s m, mailbox_rel s m -> mailbox_spec (mailbox_run l s).1 m.
Proof.
  induction l as [|a l IH]; intros s m R; cbn; [done|]. apply (mailbox_act_rel a) in R.
  destruct (mailbox_act a s) as [o s']. cbn in R. pose proof (IH s') as K. destruct (mailbox_run l s') as [os s'']. cbn in *.
  destruct o; cbn; [by apply K| |by apply K]. destruct R. by split; [|apply K].
Qed.

(** The mailbox hands over whole values: in every interleaving of the
    writer's word-by-word copy into the inactive slot with reads (which preempt
    the writer) every read returns exactly what a mailbox with indivisible
    writes, performed when the index flips, returns: the last published value
    whole, never a half-written one. *)
Theorem mailbox_read_whole (x : list W) l : length x = size ->
  mailbox_spec (mailbox_run l (mkMailboxRun (Mailbox_init x) mw_idle)).1 (Mailbox_init x).
Proof.
  intros Lx. apply mailbox_run_rel. split_and!; cbn; try done; auto; by repeat constructor.
Qed.
End MailboxSteps.
Arguments mb_write {W}.
Arguments mb_step {W}.
Arguments mb_read {W}.

(** ** The sequence lock: the writer may interrupt the reader anywhere *)
Section SeqLockSteps.
Context {W : Type} (size : nat).
Inductive seq_writer := sw_idle | sw_copy (kSequence : Z) (value : list W) (k : nat).
(** [sr_top]: at the head of the loop.  [start] of a copy is not in the code:
    how many writes were complete when [kBefore] was loaded. *)
Inductive seq_reader := sr_idle | sr_top | sr_copy (kBefore : Z) (kCopy : list W) (start : nat).
(** [written]: the values of the complete writes, not in the code either. *)
Record SeqLockRun := mkSeqLockRun {
  value_ : list W; sequence_ : Z; seq_w : seq_writer; seq_r : seq_reader; written : list (list W) }.
#[export] Instance eta_SeqLockRun : Eta SeqLockRun := fun s =>
  mkSeqLockRun (value_ s) (sequence_ s) (seq_w s) (seq_r s) (written s).
Inductive seq_action := seq_write (value : list W) | seq_writer_step | seq_read | seq_reader_step.
(** What a completed read returns, and the state. *)
Definition seq_act (a : seq_action) (s : SeqLockRun) : option (list W) * SeqLockRun :=
  match a with
  | seq_write v =>
      (None, match seq_w s with
             | sw_idle => if (length v =? size)%nat
                          then s.{sequence_ := u32 (sequence_ s + 1)}.{seq_w := sw_copy (sequence_ s) v 0} else s
             | sw_copy _ _ _ => s
             end)
  | seq_writer_step =>
      (None, match seq_w s with
             | sw_idle => s
             | sw_copy q v k =>
                 match v !! k with
                 | Some w => s.{value_ := <[k := w]> (value_ s)}.{seq_w := sw_copy q v (S k)}
                 | None => s.{sequence_ := u32 (q + 2)}.{seq_w := sw_idle}.{written := written s ++ [v] }
                 end
             end)
  | seq_read => (None, match seq_r s with sr_idle => s.{seq_r := sr_top} | _ => s end)
  | seq_reader_step =>
      match seq_r s with
      | sr_idle => (None, s)
      | sr_top => (None, if negb (Z.land (sequence_ s) 1 =? 0) then s else s.{seq_r := sr_copy (sequence_ s) [] (length (written s))})
      | sr_copy b c n =>
          match value_ s !! length c with
          | Some w => (None, s.{seq_r := sr_copy b (c ++ [w]) n})
          | None => if sequence_ s =? b then (Some c, s.{seq_r := sr_idle}) else (None, s.{seq_r := sr_top})
          end
      end
  end.
Definition seq_init (x : list W) : SeqLockRun := mkSeqLockRun x 0 sw_idle sr_idle [x].
Definition seq_run (l : list seq_action) (s : SeqLockRun) : SeqLockRun := foldl (fun s a => (seq_act a s).2) s l.

(** [written] starts with the initial value: the sequence is twice the number
    of the others, plus one during a write. *)
Definition seq_inv (s : SeqLockRun) : Prop :=
  exists pre v, written s = pre ++ [v] /\ length v = size /\ length (value_ s) = size /\
  match seq_w s with
  | sw_idle => sequence_ s = u32 (2 * Z.of_nat (length pre)) /\ value_ s = v
  | sw_copy q v' k => q = u32 (2 * Z.of_nat (length pre)) /\ sequence_ s = u32 (2 * Z.of_nat (length pre) + 1) /\ length v' = size /\ (k <= size)%nat /\
      value_ s = copied v' k v
  end /\
  match seq_r s with
  | sr_copy b c n => (0 < n <= S (length pre))%nat /\ b = u32 (2 * (Z.of_nat n - 1)) /\ (length c <= size)%nat /\
      (n = S (length pre) -> seq_w s = sw_idle -> c = take (length c) v)
  | _ => True
  end.
Lemma u32_parity n : Z.land (u32 n) 1 = n mod 2.
Proof. change 1 with (Z.ones 1) at 1. rewrite Z.land_ones by lia. unfold wrap. apply Z.mod_mod_divide. by exists (2 ^ 31). Qed.
Lemma u32_odd n : negb (Z.land (u32 (2 * n + 1)) 1 =? 0) = true.
Proof. rewrite u32_parity, Z.add_comm, Z.mul_comm, Z.mod_add by lia. done. Qed.
Lemma seq_init_inv x : length x = size -> seq_inv (seq_init x).
Proof. intros L. by exists [], x. Qed.
(** While a write runs nothing is said of the copy. *)
Ltac busy Re := match type of Re with match ?r with _ => _ end => destruct r; try done end; destruct Re as (? & ? & ? & _); split_and!; try done; try lia; intros _ [=].
Lemma seq_act_inv a s : seq_inv s -> seq_inv (seq_act a s).2.
Proof.
  destruct s as [val q w r h]. intros (pre & v & Hh & Lv & Lval & Wr & Re). cbn in *. subst h. destruct a as [v'| | |]; cbn.
  - destruct w as [|q0 v0 k0]; [|by exists pre, v]. destruct (Nat.eqb_spec (length v') size) as [L|]; [|by exists pre, v].
    exists pre, v. cbn. destruct Wr as [-> ->]. split_and!; try done; try lia.
    + unfold wrap. by rewrite Z.add_mod_idemp_l.
    + busy Re.
  - destruct w as [|q0 v0 k0]; [by exists pre, v|]. destruct Wr as (-> & -> & L0 & Lk & ->). cbn in Lval.
    destruct (v0 !! k0) as [x|] eqn:V; cbn.
    + pose proof (lookup_lt_Some _ _ _ V). exists pre, v. cbn. rewrite (copied_S _ _ _ _ V) by lia.
      split_and!; try done; [by rewrite length_copied; congruence|lia|]. busy Re.
    + apply lookup_ge_None_1 in V. exists (pre ++ [v]), v0. cbn. rewrite copied_all, length_app in * by lia. cbn.
      split_and!; try done.
      * unfold wrap. rewrite Z.add_mod_idemp_l by lia. f_equal. lia.
      * destruct r; try done. destruct Re as (R1 & R2 & R3 & _). split_and!; try done; lia.
  - destruct r; exists pre, v; cbn; done.
  - destruct r as [| |b c n]; [by exists pre, v| |].
    + destruct (negb (Z.land q 1 =? 0)) eqn:T; [exists pre, v; cbn; repeat (split; [first [reflexivity|assumption]|]); assumption || exact I|]. exists pre, v. cbn. rewrite length_app. cbn.
      destruct w as [|q0 v0 k0].
      * destruct Wr as [-> ->]. split_and!; try done; try lia. f_equal. lia.
      * destruct Wr as (_ & -> & _). rewrite u32_odd in T; done.
    + destruct Re as (R1 & R2 & R3 & R4). destruct (val !! length c) as [x|] eqn:V; cbn.
      * pose proof (lookup_lt_Some _ _ _ V). exists pre, v. cbn. split_and!; try done; try (rewrite length_app; cbn; lia); try lia.
        intros -> ->. destruct Wr as [-> ->]. rewrite length_app, Nat.add_1_r, (take_S_r _ _ _ V). by rewrite <- R4.
      * destruct (q =? b); exists pre, v; cbn; repeat (split; [first [reflexivity|assumption]|]); assumption || exact I.
Qed.
Lemma seq_run_inv l s : seq_inv s -> seq_inv (seq_run l s).
Proof. intros I. apply (foldl_invariant seq_inv); [done|]. intros t a _. apply seq_act_inv. Qed.
(** A writer in the middle of a write is not idle; its sequence is odd. *)
Lemma u32_eq a b : u32 a = u32 b -> 0 <= a - b < 2 ^ 32 -> a = b.
Proof.
  unfold wrap. intros E R. pose proof (Z.div_mod a (2 ^ 32) ltac:(lia)). pose proof (Z.div_mod b (2 ^ 32) ltac:(lia)). nia.
Qed.
Lemma seq_returns s v : seq_inv s -> (seq_act seq_reader_step s).1 = Some v ->
  exists b n, seq_r s = sr_copy b v n /\ (Z.of_nat (length (written s) - n) < 2 ^ 31 -> n = length (written s) /\ list.last (written s) = Some v).
Proof.
  destruct s as [val q w r h]. intros (pre & v' & Hh & Lv & Lval & Wr & Re). cbn in *. subst h.
  destruct r as [| |b c n]; [done|done|]. destruct (val !! length c) eqn:V; [done|]. apply lookup_ge_None_1 in V.
  destruct (Z.eqb_spec q b) as [->|]; [|done]. intros [= <-]. exists b, n. split; [done|]. destruct Re as (R1 & R2 & R3 & R4).
  rewrite length_app. cbn. intros B. destruct w as [|q0 v0 k0].
  - destruct Wr as [E ->]. rewrite E in R2. assert (n = S (length pre)) as Hn.
    { apply u32_eq in R2; lia. }
    split; [lia|]. rewrite last_snoc, (R4 Hn eq_refl). f_equal. symmetry. apply take_ge. lia.
  - destruct Wr as (_ & E & _). exfalso. pose proof (u32_odd (Z.of_nat (length pre))) as O. rewrite <- E, R2 in O.
    rewrite u32_parity, Z.mul_comm, Z.mod_mul in O by lia. done.
Qed.
(** Without a write the copy goes through. *)
Lemma seq_copy_ends m : forall s b c n, seq_r s = sr_copy b c n -> length (value_ s) = (length c + m)%nat ->
  exists c', length c' = length (value_ s) /\ seq_run (replicate m seq_reader_step) s = s.{seq_r := sr_copy b c' n}.
Proof.
  induction m as [|m IH]; intros s b c n R L; cbn.
  - exists c. split; [lia|]. destruct s. cbn in *. by subst.
  - destruct (lookup_lt_is_Some_2 (value_ s) (length c)) as [x X]; [lia|].
    rewrite R, X. cbn [snd]. destruct (IH (s.{seq_r := sr_copy b (c ++ [x]) n}) b (c ++ [x]) n) as (c' & L' & E); [done| |by exists c'].
    cbn. rewrite length_app. cbn. lia.
Qed.

(** C35. The sequence lock hands over whole values: in every interleaving of the
    writer's steps (which may fall between any two steps of the reader) a read
    that ends returns the value of the last complete write, whole, as long as
    fewer than 2^31 writes complete during the last copy; it is then a value
    that was current during all of that copy.  A reader that is not interrupted
    ends after one copy, with the last complete write. *)
Theorem seqlock_read_whole (x : list W) l v : length x = size ->
  let s := seq_run l (seq_init x) in
  ((seq_act seq_reader_step s).1 = Some v ->
     exists b start, seq_r s = sr_copy b v start /\
     (Z.of_nat (length (written s) - start) < 2 ^ 31 -> start = length (written s) /\ list.last (written s) = Some v)) /\
  (seq_w s = sw_idle -> seq_r s = sr_top ->
     (seq_act seq_reader_step (seq_run (replicate (S size) seq_reader_step) s)).1 = list.last (written s)).
Proof.
  intros Lx s. assert (seq_inv s) as I by (by apply seq_run_inv, seq_init_inv). split; [by apply seq_returns|].
  intros Ws Rs. pose proof I as (pre & v' & Hh & Lv & Lval & Wr & _). rewrite Ws in Wr. destruct Wr as [Q _].
  set (t := s.{seq_r := sr_copy (sequence_ s) [] (length (written s))}).
  assert (negb (Z.land (sequence_ s) 1 =? 0) = false) as Ev by (rewrite Q, u32_parity, Z.mul_comm, Z.mod_mul by lia; done).
  assert ((seq_act seq_reader_step s).2 = t) as E by (cbn [seq_act]; rewrite Rs, Ev; done).
  cbn [replicate]. unfold seq_run at 1. cbn [foldl]. rewrite E. change (foldl _ t _) with (seq_run (replicate size seq_reader_step) t).
  destruct (seq_copy_ends size t (sequence_ s) [] (length (written s))) as (c & Lc & E2); [done|done|].
  assert (seq_inv (seq_run (replicate size seq_reader_step) t)) as I2 by (apply seq_run_inv; rewrite <- E; by apply seq_act_inv).
  assert ((seq_act seq_reader_step (seq_run (replicate size seq_reader_step) t)).1 = Some c) as C.
  { rewrite E2. cbn. rewrite lookup_ge_None_2 by (apply Nat.eq_le_incl; symmetry; exact Lc). by rewrite Z.eqb_refl. }
  rewrite C. destruct (seq_returns _ _ I2 C) as (b & n & R & K). rewrite E2 in R, K. injection R as <- <-. cbn in K.
  symmetry. apply K. rewrite Nat.sub_diag. lia.
Qed.

End SeqLockSteps.

(** ** The queue of Hall events: one producer, one consumer *)
Section QueueSteps.
Context (N : Z).
Inductive producer := hp_idle | hp_tail (event : HallEvent) (kHead : Z) | hp_code (event : HallEvent) (kHead : Z)
  | hp_time (event : HallEvent) (kHead : Z) | hp_head (event : HallEvent) (kHead : Z).
Inductive consumer := hc_idle | hc_head (kTail : Z) | hc_code (kTail : Z) | hc_time (kTail code : Z) | hc_tail (kTail : Z) (event : HallEvent)
  | hc_clear | hc_cleared (kHead : Z) (upto : nat).
(** [history]: every accepted event, [taken]: how many left the queue; like
    [upto] they are not in the code. *)
Record QueueRun := mkQueueRun {
  queue : HallEventQueue; prod : producer; cons_ : consumer; history : list HallEvent; taken : nat }.
#[export] Instance eta_QueueRun : Eta QueueRun := fun s => mkQueueRun (queue s) (prod s) (cons_ s) (history s) (taken s).
Inductive queue_action := q_push (event : HallEvent) | q_producer | q_pop | q_clear | q_consumer.
Inductive queue_shown := q_accepted (event : HallEvent) | q_refused (event : HallEvent) | q_popped (event : HallEvent) | q_empty
  | q_dropped | q_nothing.
Definition slot (i : Z) : nat := Z.to_nat (Z.land i (N - 1)).
Definition read_slot (i : Z) (q : HallEventQueue) : HallEvent := default HallEvent_init (events_ q !! slot i).
Definition write_slot (i : Z) (e : HallEvent) (q : HallEventQueue) : HallEventQueue := q.{events_ := <[slot i := e]> (events_ q)}.
Arguments read_slot : simpl never.
Arguments write_slot : simpl never.
Definition producer_act (s : QueueRun) : queue_shown * QueueRun :=
  let q := queue s in
  match prod s with
  | hp_idle => (q_nothing, s)
  | hp_tail e h =>
      if N <=? u32 (h - tail_ q) then (q_refused e, s.{queue := q.{overflows_ := u32 (overflows_ q + 1)}}.{prod := hp_idle})
      else (q_nothing, s.{prod := hp_code e h})
  | hp_code e h => (q_nothing, s.{queue := write_slot h (mkHallEvent (hall_code e) (hall_timestamp (read_slot h q))) q}.{prod := hp_time e h})
  | hp_time e h => (q_nothing, s.{queue := write_slot h (mkHallEvent (hall_code (read_slot h q)) (hall_timestamp e)) q}.{prod := hp_head e h})
  | hp_head e h => (q_accepted e, s.{queue := q.{head_ := u32 (h + 1)}}.{prod := hp_idle}.{history := history s ++ [e] })
  end.
Definition consumer_act (s : QueueRun) : queue_shown * QueueRun :=
  let q := queue s in
  match cons_ s with
  | hc_idle => (q_nothing, s)
  | hc_head t => if t =? head_ q then (q_empty, s.{cons_ := hc_idle}) else (q_nothing, s.{cons_ := hc_code t})
  | hc_code t => (q_nothing, s.{cons_ := hc_time t (hall_code (read_slot t q))})
  | hc_time t c => (q_nothing, s.{cons_ := hc_tail t (mkHallEvent c (hall_timestamp (read_slot t q)))})
  | hc_tail t e => (q_popped e, s.{queue := q.{tail_ := u32 (t + 1)}}.{cons_ := hc_idle}.{taken := S (taken s)})
  | hc_clear => (q_nothing, s.{cons_ := hc_cleared (head_ q) (length (history s))})
  | hc_cleared h n => (q_dropped, s.{queue := q.{tail_ := h}}.{cons_ := hc_idle}.{taken := n})
  end.
Definition queue_act (a : queue_action) (s : QueueRun) : queue_shown * QueueRun :=
  match a with
  | q_push e => (q_nothing, match prod s with
                            | hp_idle => s.{queue := (queue s).{latest_code_ := hall_code e}}.{prod := hp_tail e (head_ (queue s))}
                            | _ => s
                            end)
  | q_producer => producer_act s
  | q_pop => (q_nothing, match cons_ s with hc_idle => s.{cons_ := hc_head (tail_ (queue s))} | _ => s end)
  | q_clear => (q_nothing, match cons_ s with hc_idle => s.{cons_ := hc_clear} | _ => s end)
  | q_consumer => consumer_act s
  end.
Definition queue_init : QueueRun := mkQueueRun (HallEventQueue_init N) hp_idle hc_idle [] 0.
Fixpoint queue_run (l : list queue_action) (s : QueueRun) : list queue_shown * QueueRun :=
  match l with
  | [] => ([], s)
  | a :: l => let '(o, s) := queue_act a s in let '(os, s) := queue_run l s in (o :: os, s)
  end.
Definition accepted (l : list queue_shown) : list HallEvent := omap (fun o => match o with q_accepted e => Some e | _ => None end) l.
Definition popped (l : list queue_shown) : list HallEvent := omap (fun o => match o with q_popped e => Some e | _ => None end) l.
Definition waiting (s : QueueRun) : list HallEvent := drop (taken s) (history s).

(** *** Invariant *)
Context (k : Z) (HN : N = 2 ^ k) (Hk : 0 < k < 32).
Definition at_slot (i : nat) (e : HallEvent) (q : HallEventQueue) : Prop := events_ q !! slot (u32 (Z.of_nat i)) = Some e.
Definition queue_inv (s : QueueRun) : Prop :=
  let q := queue s in let H := length (history s) in let T := taken s in
  (T <= H)%nat /\ Z.of_nat H <= Z.of_nat T + N /\ head_ q = u32 (Z.of_nat H) /\ tail_ q = u32 (Z.of_nat T) /\
  length (events_ q) = Z.to_nat N /\
  (forall i e, (T <= i)%nat -> history s !! i = Some e -> at_slot i e q) /\
  match prod s with
  | hp_idle => True
  | hp_tail e h => h = u32 (Z.of_nat H)
  | hp_code e h => h = u32 (Z.of_nat H) /\ Z.of_nat H < Z.of_nat T + N
  | hp_time e h => h = u32 (Z.of_nat H) /\ Z.of_nat H < Z.of_nat T + N /\ hall_code (read_slot h q) = hall_code e
  | hp_head e h => h = u32 (Z.of_nat H) /\ Z.of_nat H < Z.of_nat T + N /\ at_slot H e q
  end /\
  match cons_ s with
  | hc_idle | hc_clear => True
  | hc_head t => t = u32 (Z.of_nat T)
  | hc_code t => t = u32 (Z.of_nat T) /\ (T < H)%nat
  | hc_time t c => t = u32 (Z.of_nat T) /\ exists e, history s !! T = Some e /\ hall_code e = c
  | hc_tail t e => t = u32 (Z.of_nat T) /\ history s !! T = Some e
  | hc_cleared h n => (T <= n <= H)%nat /\ h = u32 (Z.of_nat n)
  end.
Lemma slot_mod z : slot (u32 z) = Z.to_nat (z mod N).
Proof.
  unfold slot. f_equal. replace (N - 1) with (Z.ones k) by (rewrite HN, Z.ones_equiv; apply Z.sub_1_r). rewrite Z.land_ones by lia. rewrite HN.
  unfold wrap. apply Z.mod_mod_divide. exists (2 ^ (32 - k)). rewrite <- Z.pow_add_r by lia. f_equal. lia.
Qed.
Lemma N_pos : 0 < N <= 2 ^ 31.
Proof. rewrite HN. split; [apply Z.pow_pos_nonneg; lia|]. apply Z.pow_le_mono_r; lia. Qed.
Lemma slot_lt z : (slot (u32 z) < Z.to_nat N)%nat.
Proof. rewrite slot_mod. pose proof N_pos. pose proof (Z.mod_pos_bound z N). lia. Qed.
Lemma slot_ne i j : (i < j)%nat -> Z.of_nat j < Z.of_nat i + N -> slot (u32 (Z.of_nat i)) <> slot (u32 (Z.of_nat j)).
Proof.
  intros A B. rewrite !slot_mod. pose proof N_pos. pose proof (Z.mod_pos_bound (Z.of_nat i) N). pose proof (Z.mod_pos_bound (Z.of_nat j) N).
  intros E%Z2Nat.inj; try lia.
  pose proof (Z.div_mod (Z.of_nat i) N ltac:(lia)). pose proof (Z.div_mod (Z.of_nat j) N ltac:(lia)).
  assert (Z.of_nat j - Z.of_nat i = N * (Z.of_nat j / N - Z.of_nat i / N)) as D by lia. revert D.
  generalize (Z.of_nat j / N - Z.of_nat i / N). intros d D. destruct (Z.le_gt_cases d 0); nia.
Qed.
Lemma read_at_slot i e q : at_slot i e q -> read_slot (u32 (Z.of_nat i)) q = e.
Proof. intros E. unfold read_slot. by rewrite E. Qed.
(** A write to the slot of the next event, below the bound, keeps the others. *)
Lemma write_slot_keeps i j e e' q : (i < j)%nat -> Z.of_nat j < Z.of_nat i + N -> at_slot i e q ->
  at_slot i e (write_slot (u32 (Z.of_nat j)) e' q).
Proof. intros A B E. unfold at_slot, write_slot. cbn. rewrite list_lookup_insert_ne; [done|]. apply not_eq_sym. by apply slot_ne. Qed.
Lemma write_slot_here j e q : length (events_ q) = Z.to_nat N -> at_slot j e (write_slot (u32 (Z.of_nat j)) e q).
Proof. intros L. unfold at_slot, write_slot. cbn. apply list_lookup_insert_eq. rewrite L. apply slot_lt. Qed.
Lemma read_slot_here j e q : length (events_ q) = Z.to_nat N ->
  read_slot (u32 (Z.of_nat j)) (write_slot (u32 (Z.of_nat j)) e q) = e.
Proof. intros L. by apply read_at_slot, write_slot_here. Qed.
Lemma length_write_slot j e q : length (events_ (write_slot j e q)) = length (events_ q).
Proof. unfold write_slot. cbn. by rewrite length_insert. Qed.
(** The difference of the counters is the number of waiting events. *)
Lemma u32_difference (a b : nat) : (b <= a)%nat -> Z.of_nat a <= Z.of_nat b + N -> u32 (u32 (Z.of_nat a) - u32 (Z.of_nat b)) = Z.of_nat a - Z.of_nat b.
Proof.
  intros A B. unfold wrap. rewrite <- Zminus_mod. apply Z.mod_small. pose proof N_pos. lia.
Qed.
Lemma u32_same (a b : nat) : (b <= a)%nat -> Z.of_nat a <= Z.of_nat b + N -> u32 (Z.of_nat b) = u32 (Z.of_nat a) -> a = b.
Proof. intros A B E. pose proof (u32_difference a b A B) as D. rewrite E, Z.sub_diag in D. change (u32 0) with 0 in D. lia. Qed.

Definition shown_ok (o : queue_shown) (s t : QueueRun) : Prop :=
  match o with
  | q_accepted e => history t = history s ++ [e] /\ taken t = taken s
  | q_popped e => history t = history s /\ taken t = S (taken s) /\ history s !! taken s = Some e
  | q_dropped => history t = history s /\ (taken s <= taken t)%nat
  | q_refused e => history t = history s /\ taken t = taken s /\ Z.of_nat (length (waiting s)) = N
  | q_empty => history t = history s /\ taken t = taken s /\ waiting s = []
  | q_nothing => history t = history s /\ taken t = taken s
  end.
Lemma queue_init_inv : queue_inv queue_init.
Proof.
  pose proof N_pos. unfold queue_inv. cbn. rewrite length_replicate. split_and!; try done; try lia.
Qed.
Lemma write_next_keeps (h : list HallEvent) n e' q : Z.of_nat (length h) < Z.of_nat n + N ->
  (forall i e, (n <= i)%nat -> h !! i = Some e -> at_slot i e q) ->
  forall i e, (n <= i)%nat -> h !! i = Some e -> at_slot i e (write_slot (u32 (Z.of_nat (length h))) e' q).
Proof. intros B Sl i e Hi E. apply write_slot_keeps; [by apply lookup_lt_Some in E|lia|by apply Sl]. Qed.
Lemma producer_inv s : queue_inv s -> queue_inv (producer_act s).2 /\ shown_ok (producer_act s).1 s (producer_act s).2.
Proof.
  destruct s as [q p c h n]. intros (A & B & Hh & Ht & L & Sl & P & C). cbn in *.
  destruct p as [|e x|e x|e x|e x]; cbn [producer_act prod queue].
  - split; [|done]. by split_and!.
  - rewrite P, Ht, u32_difference by lia. destruct (Z.leb_spec N (Z.of_nat (length h) - Z.of_nat n)) as [F|F]; cbn.
    + split; [by split_and!|]. split_and!; try done. unfold waiting. cbn. rewrite length_drop. lia.
    + split; [|done]. split_and!; try done. cbn. split; [done|lia].
  - destruct P as [-> P]. split; [|done]. unfold queue_inv. cbn. split_and!; try done.
    + by rewrite length_write_slot.
    + by apply write_next_keeps.
    + by rewrite read_slot_here.
  - destruct P as (-> & P & Q). split; [|done]. unfold queue_inv. cbn. split_and!; try done.
    + by rewrite length_write_slot.
    + by apply write_next_keeps.
    + rewrite Q. destruct e. by apply write_slot_here.
  - destruct P as (-> & P & Q). split; [|done]. unfold queue_inv. cbn. rewrite length_app. cbn. split_and!; try done; try lia.
    + unfold wrap. rewrite Z.add_mod_idemp_l by lia. f_equal. lia.
    + intros i e' Hi E. apply lookup_app_Some in E as [E|[Hi' E]]; [by apply Sl|].
      apply list_lookup_singleton_Some in E as [E ->]. replace i with (length h) by lia. done.
    + destruct c; try done; [destruct C; split; [done|lia] | | |].
      * destruct C as (C1 & e' & C2 & C3). split; [done|]. exists e'. split; [by apply lookup_app_l_Some|done].
      * destruct C as (C1 & C2). split; [done|by apply lookup_app_l_Some].
      * destruct C. split; [lia|done].
Qed.
Lemma consumer_inv s : queue_inv s -> queue_inv (consumer_act s).2 /\ shown_ok (consumer_act s).1 s (consumer_act s).2.
Proof.
  destruct s as [q p c h n]. intros (A & B & Hh & Ht & L & Sl & P & C). cbn in *.
  assert (forall i e, (n <= i)%nat -> h !! i = Some e -> read_slot (u32 (Z.of_nat i)) q = e) as Rd by (intros; by apply read_at_slot, Sl).
  destruct c as [|x|x|x y|x e| |x m]; cbn [consumer_act cons_ queue].
  - split; [|done]. by split_and!.
  - rewrite C, Hh. destruct (Z.eqb_spec (u32 (Z.of_nat n)) (u32 (Z.of_nat (length h)))) as [F|F]; cbn.
    + apply u32_same in F; [|lia|lia]. split; [by split_and!|]. split_and!; try done. unfold waiting. cbn. apply drop_ge. lia.
    + split; [|done]. split_and!; try done. cbn. split; [done|]. destruct (decide (n = length h)); [congruence|lia].
  - destruct C as [-> C]. split; [|done]. split_and!; try done. cbn. split; [done|].
    destruct (lookup_lt_is_Some_2 h n C) as [e E]. exists e. split; [done|]. by rewrite (Rd n e).
  - destruct C as (-> & e & E & <-). split; [|done]. split_and!; try done. cbn. split; [done|]. rewrite (Rd n e) by done. by destruct e.
  - destruct C as (-> & E). pose proof (lookup_lt_Some _ _ _ E). split; [|done]. unfold queue_inv. cbn. split_and!; try done; try lia.
    + unfold wrap. rewrite Z.add_mod_idemp_l by lia. f_equal. lia.
    + intros i e' Hi. apply Sl. lia.
    + destruct p; intuition lia.
  - split; [|done]. split_and!; try done.
  - destruct C as (C & ->). split; [|by cbn; split; [|lia]]. unfold queue_inv. cbn. split_and!; try done; try lia.
    + intros i e' Hi. apply Sl. lia.
    + destruct p; intuition lia.
Qed.
Lemma queue_act_inv a s : queue_inv s -> queue_inv (queue_act a s).2 /\ shown_ok (queue_act a s).1 s (queue_act a s).2.
Proof.
  intros I. destruct a as [e| | | |]; [|by apply producer_inv| | |by apply consumer_inv];
    destruct s as [q p c h n]; cbn; destruct I as (A & B & Hh & Ht & L & Sl & P & C); cbn in *.
  - destruct p; (split; [|done]); by split_and!.
  - destruct c; (split; [|done]); by split_and!.
  - destruct c; (split; [|done]); by split_and!.
Qed.
(** Over a trace: what leaves the queue is what was accepted, in order. *)
Lemma queue_run_trace l : forall s, queue_inv s ->
  let '(os, t) := queue_run l s in
  queue_inv t /\ history t = history s ++ accepted os /\
  exists out, take (taken t) (history t) = take (taken s) (history s) ++ out /\ popped os `sublist_of` out /\
    (q_dropped ∉ os -> popped os = out).
Proof.
  induction l as [|a l IH]; intros s I; cbn.
  - split; [done|]. split; [by rewrite app_nil_r|]. exists []. by rewrite app_nil_r.
  - destruct (queue_act a s) as [o t] eqn:E. destruct (queue_act_inv a s I) as [I' S']. rewrite E in I', S'. cbn in I', S'.
    specialize (IH t I'). destruct (queue_run l t) as [os u]. destruct IH as (I2 & Hu & out & T & Su & Ex). split; [done|].
    assert (forall P : Prop, (q_dropped ∉ os -> P) -> q_dropped ∉ o :: os -> P) as Nd by (intros P H1 H2; apply H1; intros ?; apply H2; by right).
    destruct s as [qs ps cs hs ns]. pose proof I as (Ls & _). cbn in Ls.
    destruct o as [e|e|e| | |]; cbn in *.
    + destruct S' as [S1 S2]. rewrite Hu, S1, S2 in *. rewrite <- app_assoc. split; [done|]. exists out.
      rewrite (take_app_le hs), <- app_assoc in T by lia. split_and!; try done. by apply Nd.
    + destruct S' as (S1 & S2 & _). rewrite Hu, S1, S2 in *. split; [done|]. exists out. split_and!; try done. by apply Nd.
    + destruct S' as (S1 & S2 & S3). rewrite Hu, S1, S2 in *. split; [done|]. exists (e :: out).
      rewrite (take_S_r _ _ _ S3), <- app_assoc in T. split_and!; [done|by constructor|]. apply Nd. intros H. f_equal. by apply Ex.
    + destruct S' as (S1 & S2 & _). rewrite Hu, S1, S2 in *. split; [done|]. exists out. split_and!; try done. by apply Nd.
    + destruct S' as (S1 & S2). rewrite Hu, S1 in *. split; [done|]. exists (take (taken t - ns) (drop ns hs) ++ out).
      split_and!; [|by apply sublist_inserts_l|intros []; left].
      rewrite T, app_assoc, take_take_drop. do 2 f_equal. lia.
    + destruct S' as [S1 S2]. rewrite Hu, S1, S2 in *. split; [done|]. exists out. split_and!; try done. by apply Nd.
Qed.

(** C36. The Hall queue is a queue, for every interleaving of the steps of the
    edge interrupt (producer) with those of the observer (consumer), across the
    wrap of its counters: what is popped is accepted events, whole, each at
    most once and in the order of acceptance, none missing as long as nothing
    was cleared; accepted events are consumed or still waiting, at most N of
    them; an event is refused only when N events wait, and the queue is
    reported empty only when none does. *)
Theorem hall_queue_fifo l a :
  let '(os, s) := queue_run l queue_init in
  popped os `sublist_of` accepted os /\ (q_dropped ∉ os -> popped os `prefix_of` accepted os) /\
  (exists consumed, accepted os = consumed ++ waiting s /\ popped os `sublist_of` consumed) /\ Z.of_nat (length (waiting s)) <= N /\
  match (queue_act a s).1 with
  | q_refused _ => Z.of_nat (length (waiting s)) = N
  | q_empty => waiting s = []
  | q_popped e => head (waiting s) = Some e
  | _ => True
  end.
Proof.
  pose proof (queue_run_trace l queue_init queue_init_inv) as R. destruct (queue_run l queue_init) as [os s].
  destruct R as (I & H & out & T & Su & Ex). cbn in H, T.
  assert (accepted os = out ++ waiting s) as E by (rewrite <- H, <- T; unfold waiting; by rewrite take_drop).
  split_and!.
  - rewrite E. by apply sublist_inserts_r.
  - intros D. rewrite E, (Ex D). by eexists.
  - by exists out.
  - destruct s, I as (? & ? & _). unfold waiting. cbn in *. rewrite length_drop. lia.
  - destruct (queue_act_inv a s I) as [_ S']. destruct (queue_act a s) as [[e|e|e| | |] t]; cbn in *; try done; try tauto.
    destruct S' as (_ & _ & S'). unfold waiting. by rewrite head_lookup, lookup_drop, Nat.add_0_r.
Qed.

(** *** One side alone: the operations of [Observers] *)
Lemma push_alone e q c h n : length (events_ q) = Z.to_nat N -> in_u 32 (head_ q) ->
  let '(accepted, q') := Observers.Push N e q in
  (queue_run (q_push e :: replicate 4 q_producer) (mkQueueRun q hp_idle c h n)).2 =
  mkQueueRun q' hp_idle c (if accepted then h ++ [e] else h) n.
Proof.
  intros L Hh. unfold Observers.Push. cbn. destruct (N <=? u32 (head_ q - tail_ q)); cbn; [done|].
  unfold write_slot, read_slot. cbn. pose proof (slot_lt (head_ q)) as S. rewrite (wrap_id 32 (head_ q)) in S by done.
  rewrite list_lookup_insert_eq by lia. cbn. rewrite list_insert_insert_eq. by destruct e.
Qed.
Lemma pop_alone q p h n :
  let '(out, q') := Observers.Pop N q in
  queue_run (q_pop :: replicate 4 q_consumer) (mkQueueRun q p hc_idle h n) =
  match out with
  | None => ([q_nothing; q_empty; q_nothing; q_nothing; q_nothing], mkQueueRun q p hc_idle h n)
  | Some e => ([q_nothing; q_nothing; q_nothing; q_nothing; q_popped e], mkQueueRun q' p hc_idle h (S n))
  end.
Proof.
  unfold Observers.Pop. rewrite Z.eqb_sym. cbn. rewrite (Z.eqb_sym (tail_ q)). destruct (head_ q =? tail_ q); cbn; [done|].
  unfold read_slot, array_get. cbn. by destruct (default _ _).
Qed.
Lemma clear_alone q p h n :
  (queue_run (q_clear :: replicate 2 q_consumer) (mkQueueRun q p hc_idle h n)).2 = mkQueueRun (Observers.Clear q) p hc_idle h (length h).
Proof. done. Qed.
End QueueSteps.

(** ** Concrete interleavings *)
Lemma mailbox_read_whole_witness :
  mailbox_spec (mailbox_run 2 [mb_write [3; 4]; mb_step; mb_read; mb_step; mb_step; mb_read] (mkMailboxRun (Mailbox_init [1; 2]) mw_idle)).1
    (Mailbox_init [1; 2]).
Proof. apply (mailbox_read_whole 2 [1; 2]). reflexivity. Defined.
(** A write falls into the first copy, which is thrown away. *)
Definition torn : list seq_action :=
  [seq_read; seq_reader_step; seq_reader_step; seq_write [3; 4]; seq_writer_step; seq_writer_step; seq_writer_step;
   seq_reader_step; seq_reader_step; seq_reader_step; seq_reader_step; seq_reader_step].
Lemma seqlock_read_whole_witness : let s := seq_run 2 torn (seq_init [1; 2]) in exists b start, seq_r s = sr_copy b [3; 4] start /\
  (Z.of_nat (length (written s) - start) < 2 ^ 31 -> start = length (written s) /\ list.last (written s) = Some [3; 4]).
Proof. apply (seqlock_read_whole 2 [1; 2] torn [3; 4]); vm_compute; reflexivity. Defined.
(** The consumer preempts the producer between the two words of an event. *)
Definition preempted : list queue_action :=
  [q_push (mkHallEvent 1 100); q_producer; q_producer; q_pop; q_consumer; q_producer; q_producer; q_pop; q_consumer; q_consumer; q_consumer].
Lemma hall_queue_fifo_witness :
  let '(os, s) := queue_run 16 preempted (queue_init 16) in
  popped os `sublist_of` accepted os /\ (q_dropped ∉ os -> popped os `prefix_of` accepted os) /\
  (exists consumed, accepted os = consumed ++ waiting s /\ popped os `sublist_of` consumed) /\ Z.of_nat (length (waiting s)) <= 16 /\
  match (queue_act 16 q_consumer s).1 with
  | q_refused _ => Z.of_nat (length (waiting s)) = 16
  | q_empty => waiting s = []
  | q_popped e => head (waiting s) = Some e
  | _ => True
  end.
Proof. apply (hall_queue_fifo 16 4); [reflexivity|lia]. Defined.

End HandOver.
