(* ===== verification/Timing.v ===== *)
(** * Execution times of the hot path and their registers

    hardware/hot_path_timing.hpp: the statistics a measured interrupt keeps
    ([Probe]); src/drive/timing_registers.cpp: the registers that report them.
    A read of a probe is a whole one here ([HandOver] has the sequence lock). *)
From Stdlib Require Import ZArith Lia Bool String.
From stdpp Require Import base list option.
From S2P Require Import Prelude Registers.
Import Registers(RegisterValue, V_natural32, SetEmpty, RegisterWriteResult, kReadOnly).

#[local] Open Scope Z_scope.
#[local] Open Scope unimoc_scope.

Module Timing.

(** ** Statistics of a section *)
Record Stats := mkStats { min_cycles : Z; max_cycles : Z; sum_cycles : Z; count : Z }.
#[export] Instance eta_Stats : Eta Stats := fun s => mkStats (min_cycles s) (max_cycles s) (sum_cycles s) (count s).
Definition Stats_init : Stats := mkStats (2 ^ 32 - 1) 0 0 0.
Definition MeanCycles (s : Stats) : Z := if count s =? 0 then 0 else u32 (sum_cycles s / count s).
Record Probe := mkProbe { accumulator_ : Stats; published_ : Stats; reset_requested_ : bool }.
#[export] Instance eta_Probe : Eta Probe := fun s => mkProbe (accumulator_ s) (published_ s) (reset_requested_ s).
Definition Probe_init : Probe := mkProbe Stats_init Stats_init false.
Definition add_record (cycles : Z) (s : Stats) : Stats :=
  mkStats (Z.min (min_cycles s) cycles) (Z.max (max_cycles s) cycles) (u64 (sum_cycles s + cycles)) (u32 (count s + 1)).
Definition Record_ (cycles : Z) (p : Probe) : Probe :=
  let p := if reset_requested_ p then p.{reset_requested_ := false}.{accumulator_ := Stats_init} else p in
  let p := p.{accumulator_ := add_record cycles (accumulator_ p)} in
  p.{published_ := accumulator_ p}.
Definition Read (p : Probe) : Stats := published_ p.
Definition Reset (p : Probe) : Probe := p.{reset_requested_ := true}.

(** What a sequence of executions leaves, up to the width of the counters. *)
Definition smallest (l : list Z) : Z := foldr Z.min (2 ^ 32 - 1) l.
Definition largest (l : list Z) : Z := foldr Z.max 0 l.
Definition total (l : list Z) : Z := foldr Z.add 0 l.
Lemma foldl_add_record l : forall s, Forall (in_u 32) l -> 0 <= sum_cycles s <= 2 ^ 32 * count s -> 0 <= count s ->
  count s + Z.of_nat (length l) < 2 ^ 32 ->
  foldl (fun s c => add_record c s) s l =
  mkStats (foldl Z.min (min_cycles s) l) (foldl Z.max (max_cycles s) l) (sum_cycles s + total l) (count s + Z.of_nat (length l)).
Proof.
  induction l as [|c l IH]; intros s F B C L; cbn [foldl total foldr length]; [destruct s; cbn; f_equal; lia|].
  apply Forall_cons_1 in F as [Fc F]. unfold in_u in Fc. cbn in L.
  assert (u64 (sum_cycles s + c) = sum_cycles s + c /\ u32 (count s + 1) = count s + 1) as [E1 E2]
    by (split; apply wrap_id; unfold in_u; nia).
  rewrite IH; unfold add_record; cbn [sum_cycles count min_cycles max_cycles]; rewrite ?E1, ?E2; try done; try nia.
  f_equal; unfold total; cbn; lia.
Qed.
(** Until 2^32 records the mean is the mean. *)
Lemma mean_of_records l : Forall (in_u 32) l -> 0 < Z.of_nat (length l) < 2 ^ 32 ->
  let s := foldl (fun s c => add_record c s) Stats_init l in
  count s = Z.of_nat (length l) /\ sum_cycles s = total l /\ MeanCycles s = total l / Z.of_nat (length l).
Proof.
  intros F L. cbv zeta. rewrite foldl_add_record by (done || (cbn; lia)). unfold MeanCycles. cbn [count sum_cycles Stats_init].
  rewrite !Z.add_0_l. split; [done|]. split; [done|]. destruct (Z.eqb_spec (Z.of_nat (length l)) 0); [lia|]. apply wrap_id.
  assert (0 <= total l <= (2 ^ 32 - 1) * Z.of_nat (length l)) as T.
  { clear L n. induction l as [|c l IH]; cbn; [lia|]. apply Forall_cons_1 in F as [Fc F]. unfold in_u in Fc. specialize (IH F). unfold total in IH. lia. }
  split; [apply Z.div_pos; lia|]. apply Z.div_lt_upper_bound; lia.
Qed.
(** After 2^32 records the count starts again and the sum does not: a section
    that always took 1000 cycles has a mean above its maximum. *)
Lemma mean_after_wrap :
  let s := foldl (fun s c => add_record c s) (mkStats 1000 1000 (1000 * (2 ^ 32 - 1)) (2 ^ 32 - 1)) [1000; 1000; 1000; 1000] in
  max_cycles s = 1000 /\ 1000 < MeanCycles s.
Proof. vm_compute. done. Qed.

(** ** Registers *)
Definition kNames : list string :=
  ["unimoc.timing.sample_isr"; "unimoc.timing.control_cycle"; "unimoc.timing.observer"; "unimoc.timing.overruns"; "unimoc.timing.clock_hz"]%string.
Definition kUnits : list string := ["cycles"; "cycles"; "cycles"; EmptyString; "Hz"]%string.
Definition kHelp : list string :=
  ["Sample ISR run time: min, mean, max, count"; "Control cycle run time: min, mean, max, count";
   "Observer run time: min, mean, max, count"; "Overruns: duty updates too late, observer runs skipped";
   "Clock of the run time counters"]%string.
Definition SetNatural32Array (numbers : list Z) : RegisterValue := V_natural32 numbers.
Definition SetStats (p : Probe) : RegisterValue :=
  let kStats := Read p in
  let kMin := if count kStats =? 0 then 0 else min_cycles kStats in
  SetNatural32Array [kMin; MeanCycles kStats; max_cycles kStats; count kStats].
(** The probes of the three sections. *)
Record Probes := mkProbes { sample_isr : Probe; control_cycle : Probe; observer : Probe }.
Definition timing_Count : nat := length kNames.
Definition timing_Name (index : nat) : string := default EmptyString (kNames !! index).
Definition timing_Describe (index : nat) : string * string := (default EmptyString (kUnits !! index), default EmptyString (kHelp !! index)).
(** [kTimestampFrequency] and DutyOverruns() belong to the platform. *)
Definition timing_Read (kTimestampFrequency duty_overruns observer_overruns : Z) (p : Probes) (index : nat) : RegisterValue :=
  match (index mod 256)%nat with
  | 0%nat => SetStats (sample_isr p)
  | 1%nat => SetStats (control_cycle p)
  | 2%nat => SetStats (observer p)
  | 3%nat => SetNatural32Array [duty_overruns; observer_overruns]
  | 4%nat => Registers.SetNatural32 kTimestampFrequency
  | _ => SetEmpty
  end.
Definition timing_Write (index : nat) (v : RegisterValue) : RegisterWriteResult := kReadOnly.
Definition ResetStatistics (p : Probes) : Probes := mkProbes (Reset (sample_isr p)) (Reset (control_cycle p)) (Reset (observer p)).

End Timing.
