(* ===== verification/DriveMessages.v ===== *)
(** * What the drive node exchanges with the bus

    The messages of dsdl/unimoc and of the public regulated types, as the
    fields the drive reads or writes; their generated (de)serialisation is the
    class [Dsdl].  lib/cyphal/node.hpp: health, mode, severity and publisher;
    lib/cyphal/control_mode.hpp: the control mode of a servo setpoint;
    lib/cyphal/can_media.hpp: the bus state; src/drive/drive_node.cpp: the
    helpers and class [DriveInfoRegisters]. *)
From Stdlib Require Import ZArith Lia Bool SpecFloat Ascii String.
From stdpp Require Import base decidable list option.
From S2P Require Import Prelude Float32 CurrentControl Transforms SettingsData SettingsCodec Observers Isr Registers Commissioning.
Import CurrentControl Transforms Observers Isr SettingsData SettingsCodec.
Import Registers(RegisterValue, RegisterWriteResult).

#[local] Open Scope Z_scope.
#[local] Open Scope unimoc_scope.

Module DriveMessages.

(** ** The node (lib/cyphal) *)
Inductive Health := health_kNominal | health_kAdvisory | health_kCaution | health_kWarning.
Inductive Mode := mode_kOperational | mode_kInitialization | mode_kMaintenance | mode_kSoftwareUpdate.
Inductive Severity := sev_kTrace | sev_kDebug | sev_kInfo | sev_kNotice | sev_kWarning | sev_kError | sev_kCritical | sev_kAlert.
Inductive Priority := prio_kExceptional | prio_kImmediate | prio_kFast | prio_kHigh | prio_kNominal | prio_kLow | prio_kSlow | prio_kOptional.
Inductive CanBusState := bus_kErrorActive | bus_kErrorWarning | bus_kErrorPassive | bus_kBusOff.
#[export] Instance CanBusState_eq_dec : EqDecision CanBusState.
Proof. solve_decision. Defined.
Record CanBusStatus := mkCanBusStatus { bus_state : CanBusState; bus_off_events : Z }.
Definition is_bus_off (b : CanBusStatus) : bool := bool_decide (bus_state b = bus_kBusOff).
Definition kNodeIdUnset : Z := 255.
Record Publisher := mkPublisher { port_id : Z; priority : Priority; next_transfer_id : Z }.
#[export] Instance eta_Publisher : Eta Publisher := fun s => mkPublisher (port_id s) (priority s) (next_transfer_id s).
Definition Publisher_init : Publisher := mkPublisher kUnsetPortId prio_kNominal 0.
(** A message handed to the transport. *)
Record Transfer := mkTransfer {
  transfer_port : Z; source_node_id : Z; transfer_id : Z; transfer_priority : Priority; payload : list Z }.
(** CyphalNode::Publish(). *)
Definition Publish (node_id : Z) (p : Publisher) (bytes : list Z) : option Transfer * Publisher :=
  if (port_id p =? kUnsetPortId) || (node_id =? kNodeIdUnset) then (None, p)
  else (Some (mkTransfer (port_id p) node_id (next_transfer_id p) (priority p) bytes),
        p.{next_transfer_id := Z.land (u8 (next_transfer_id p + 1)) 0x1F}).

(** The first finite field of a servo setpoint selects the mode. *)
Definition SelectControlModeFromUdralServoRotation (position velocity acceleration torque : float) : option ControlMode :=
  if is_finite position then Some kPosition
  else if is_finite velocity then Some kSpeed
  else if is_finite acceleration then None
  else if is_finite torque then Some kTorque
  else None.

(** ** Messages *)
Inductive Readiness := SLEEP | RESERVED | STANDBY | ENGAGED.
Record CurrentSetpoint := mkCurrentSetpoint { i_d : float; i_q : float }.
Record Planar := mkPlanar {
  angular_position : float; angular_velocity : float; angular_acceleration : float; planar_torque : float }.
Record PedalState := mkPedalState {
  drive_pedal : float * float; brake_pedal : float * float; drive_pedal_plausible : bool; brake_pedal_plausible : bool }.
Record BatteryStatus := mkBatteryStatus {
  discharge_current_limit : float; charge_current_limit : float; msg_contactor : Z }.
Record Telemetry := mkTelemetry {
  tel_control_cycles : Z; tel_i_d : float; tel_i_q : float; tel_i_d_ref : float; tel_i_q_ref : float; tel_u_d : float;
  tel_u_q : float; tel_electrical_angle : float; tel_electrical_speed : float; tel_dc_link_voltage : float;
  tel_power_stage : Z; tel_overcurrent_tripped : bool; tel_engaged : bool }.
Record DriveStatus := mkDriveStatus {
  wheel_speed : float; estimated_torque : float; drive_torque_limit : float; brake_torque_limit : float;
  dc_link_voltage : float; dc_link_current : float; power_stage_temperature : float; motor_temperature : float;
  wheel : Z; power_stage : Z; ds_engaged : bool; limp_home : bool; regen_derated : bool; ds_overcurrent_tripped : bool;
  ds_overvoltage_tripped : bool }.

(** The generated (de)serialisation: [None] is a negative result. *)
Class Dsdl := {
  Readiness_deserialize : list Z -> option Readiness;
  CurrentSetpoint_deserialize : list Z -> option CurrentSetpoint;
  Torque_deserialize : list Z -> option float;
  AngularVelocity_deserialize : list Z -> option float;
  Angle_deserialize : list Z -> option float;
  Planar_deserialize : list Z -> option Planar;
  WheelCommand_deserialize : list Z -> option (list float);
  PedalState_deserialize : list Z -> option PedalState;
  BatteryStatus_deserialize : list Z -> option BatteryStatus;
  Telemetry_serialize : Telemetry -> option (list Z);
  DriveStatus_serialize : DriveStatus -> option (list Z);
  Commissioning_serialize : Commissioning.StatusMessage -> option (list Z);
  Natural8_serialize : Z -> option (list Z) }.

(** ** Helpers of drive_node.cpp *)
Definition is_immediate (e : RegisterEntry) : bool :=
  match effect (description e) with kImmediate => true | _ => false end.
(** The registers that may change while engaged, from [source] to [target]. *)
Definition CopyTunable (source target : NvmSettings) : NvmSettings :=
  foldl (fun t e => if is_immediate e then copy_reg (entry_field e) source t else t) target registers.
(** The first register that differs outside the tunable ones; empty: none. *)
Definition first_change (applied untuned : NvmSettings) (changed : string) (e : RegisterEntry) : string :=
  if String.eqb changed EmptyString && negb (SameEncoding (entry_field e) applied untuned) then entry_name e else changed.
Definition FirstUntunableChange (applied live : NvmSettings) : string :=
  foldl (first_change applied (CopyTunable applied live)) EmptyString registers.
(** [prefix] followed by [detail], cut to [size]. *)
Definition Joined (prefix detail : string) (size : nat) : string := String.substring 0 size (prefix ++ detail).

Definition ToMicroseconds (time : float) : option Z := f_to_u64 (f_mul time (f_of_Z 1000000)).
(** Publication period of a rate; 0: not published. *)
Definition PeriodMicroseconds (rate : float) : option Z :=
  if f_gtb rate f_zero then f_to_u64 (f_div (f_of_Z 1000000) rate) else Some 0.
(** The deadline of a publication and whether it was due. *)
Definition Due (period_us now_us next_us : Z) : bool * Z :=
  if (period_us =? 0) || (now_us <? next_us) then (false, next_us)
  else
    let next := u64 (next_us + period_us) in
    (true, if next <=? now_us then u64 (now_us + period_us) else next).
Definition Kelvin (temperature : option float) : float :=
  match temperature with Some t => f_add t (f_dec 27315 100) | None => S754_nan end.
Definition MeasuredCurrent (isr : CurrentControlIsr) : option Rotor :=
  kSinCos ← Calculate_angle (Observers.theta (mech_obs isr));
  Some (ToRotor kSinCos (ToStator (phase_currents isr))).

(** ** DriveInfoRegisters *)
Record InfoRegister := mkInfoRegister { info_name : string; info_type : string }.
Definition kInfoRegisters : list InfoRegister := [
  mkInfoRegister "uavcan.sub.readiness.type" "reg.udral.service.common.Readiness.0.1";
  mkInfoRegister "uavcan.sub.current_setpoint.type" "unimoc.drive.CurrentSetpoint.0.1";
  mkInfoRegister "uavcan.sub.torque_setpoint.type" "uavcan.si.unit.torque.Scalar.1.0";
  mkInfoRegister "uavcan.sub.speed_setpoint.type" "uavcan.si.unit.angular_velocity.Scalar.1.0";
  mkInfoRegister "uavcan.sub.position_setpoint.type" "uavcan.si.unit.angle.Scalar.1.0";
  mkInfoRegister "uavcan.sub.servo_setpoint.type" "reg.udral.physics.dynamics.rotation.Planar.0.1";
  mkInfoRegister "uavcan.pub.telemetry.type" "unimoc.drive.Telemetry.0.1";
  mkInfoRegister "uavcan.sub.wheel_command.type" "unimoc.cart.WheelCommand.0.1";
  mkInfoRegister "uavcan.sub.pedal_state.type" "unimoc.cart.PedalState.0.1";
  mkInfoRegister "uavcan.sub.battery_status.type" "unimoc.cart.BatteryStatus.0.1";
  mkInfoRegister "uavcan.pub.drive_status.type" "unimoc.cart.DriveStatus.0.1";
  mkInfoRegister "uavcan.pub.commissioning.type" "unimoc.drive.CommissioningStatus.0.1";
  mkInfoRegister "uavcan.pub.homing_state.type" "uavcan.primitive.scalar.Natural8.1.0";
  mkInfoRegister "uavcan.srv.cymon_variables.type" "cymon.GetVariableList.0.1";
  mkInfoRegister "uavcan.srv.cymon_buffer_info.type" "cymon.GetBufferInfo.0.1";
  mkInfoRegister "uavcan.srv.cymon_setup.type" "cymon.SetupCapture.0.1";
  mkInfoRegister "uavcan.srv.cymon_arm.type" "cymon.ArmTrigger.0.1";
  mkInfoRegister "uavcan.srv.cymon_read.type" "cymon.ReadSamples.0.1";
  mkInfoRegister "uavcan.pub.cymon_trigger.type" "cymon.TriggerEvent.0.1";
  mkInfoRegister "uavcan.sub.cymon_trigger.type" "cymon.TriggerEvent.0.1";
  mkInfoRegister "uavcan.node.unique_id" EmptyString].
Definition kSettingsPendingName : string := "unimoc.settings.pending".
Definition kCanBusOffCountName : string := "unimoc.can.bus_off_count".
Definition info_count : nat := length kInfoRegisters + 2.
Definition info_Name (index : nat) : string :=
  if (index =? length kInfoRegisters)%nat then kSettingsPendingName
  else if (index =? length kInfoRegisters + 1)%nat then kCanBusOffCountName
  else default EmptyString (info_name <$> kInfoRegisters !! index).
Definition bytes_of (s : string) : list Z := map (fun c => Z.of_nat (nat_of_ascii c)) (list_ascii_of_string s).
(** The value and whether the register is persistent; none is mutable. *)
Definition info_Read (unique_id : list Z) (settings_pending : bool) (bus_off_count : Z) (index : nat) : RegisterValue * bool :=
  if (index =? length kInfoRegisters)%nat then (Registers.SetBit settings_pending, false)
  else if (index =? length kInfoRegisters + 1)%nat then (Registers.SetNatural32 bus_off_count, false)
  else
    match kInfoRegisters !! index with
    | None => (Registers.SetEmpty, false)
    | Some r =>
        if String.eqb (info_type r) EmptyString then (Registers.SetUnstructured unique_id, true)
        else (Registers.SetString (bytes_of (info_type r)), false)
    end.
Definition info_help (index : nat) : string :=
  if (index =? length kInfoRegisters)%nat then "1 while written settings wait for the disengage"
  else if (index =? length kInfoRegisters + 1)%nat then "CAN bus-off events since the start"
  else
    match kInfoRegisters !! index with
    | None => EmptyString
    | Some r => if String.eqb (info_type r) EmptyString then "Unique-ID of the node (also in GetInfo)" else "DSDL type of the port"
    end.
Definition info_Write (index : nat) (v : RegisterValue) : RegisterWriteResult := Registers.kReadOnly.

End DriveMessages.
