(* ===== verification/DriveNode.v ===== *)
(** * The drive node

    src/drive/drive_node.{hpp,cpp}: class [DriveNode], the application of one
    drive on the bus.  It owns the engagement of the power stage, hands the
    setpoints to the outer loop, applies written settings and runs the startup
    aid.  What it calls on the node ([CyphalNode]) and on its hooks is the list
    [calls_]; what the node answers and dispatches during a spin, the
    temperatures and the e-bike readings are arguments.  [None]: a conversion of
    a float is outside its type. *)
From Stdlib Require Import ZArith Lia Bool SpecFloat String.
From stdpp Require Import base decidable list option.
From S2P Require Import Prelude Float32 PowerStage CurrentControl Transforms RotorAngle SettingsData SettingsTypes Observers Isr.
From S2P Require Import MotionControl SettingsStore SettingsPersistence Registers CartControl OuterLoop Ebike SlowUpdate HwStartup.
From S2P Require Import Commissioning DriveMessages.
Import CurrentControl Isr SettingsData DriveMessages.
Import PowerStage(PowerStageOps, PowerStageInterface, GetState, Disable, ClearFault, Enable, state_byte, state_eqb).
Import HwStartup(Sys, mkSys, fsm, cc_, kPowerStage, settings_operations_, IsActive, on_stage).
Import SettingsStore(SettingsStore, StorageOps, settings_, profile_, save_gate_, capabilities, max_phase_current, SaveToFlash,
  ResetToFactoryDefaults, SetNodeId).
Import SettingsTypes(SettingsStatus, status_eqb).
Import OuterLoop(OuterLoop, OuterSetpoint, OuterSetpoint_init, mode_eqb).
Import Commissioning(CommandResult, mkResult, kStatusSuccess, kStatusFailure, kStatusBadCommand, kStatusBadState, Commissioning,
  Commissioning_init).
Import Registers(RegisterValue).
Import MotionControl(HomingState, homing_eqb, homing_byte).

#[local] Open Scope Z_scope.
#[local] Open Scope unimoc_scope.
#[local] Existing Instance HwStartup.eta_Sys.
#[local] Existing Instance OuterLoop.eta_OuterSetpoint.
#[local] Existing Instance SettingsStore.eta_SettingsStore.
#[local] Existing Instance SettingsPersistence.power_stage_gate.
#[local] Existing Instance SettingsPersistence.store_client.

Module DriveNode.

(** ** State *)

(** What the drive asks of the node and of its hooks, in order. *)
Inductive Provider := provider_settings | provider_info | provider_commissioning | provider_timing.
Inductive NodeCall :=
| call_AddRegisterProvider (p : Provider) | call_Subscribe (port : Z) | call_AddPublisher (p : Publisher)
| call_SetCommandHandler | call_SetNodeIdListener | call_Start (node_id now_us : Z)
| call_SetMode (mode : Mode) | call_SetHealth (health : Health) | call_SetVendorStatus (status : Z)
| call_Log (severity : Severity) (text : string) | call_Send (transfer : Transfer) | call_Respond (result : CommandResult)
| call_WriteAnswered (result : Registers.RegisterWriteResult)
| call_restart | call_settings_applied (settings : NvmSettings) | call_ResetStatistics.

(** The members in groups: the engagement, the settings the controller runs
    with, the ports, the publishers and the times. *)
Record Engagement := mkEngagement {
  engaged_ : bool; rearm_required_ : bool; emergency_stop_ : bool; engage_requested_ : bool; last_readiness_us_ : Z;
  last_setpoint_us_ : Z; setpoint_active_ : bool; setpoint_ : OuterSetpoint }.
#[export] Instance eta_Engagement : Eta Engagement := fun s =>
  mkEngagement (engaged_ s) (rearm_required_ s) (emergency_stop_ s) (engage_requested_ s) (last_readiness_us_ s)
    (last_setpoint_us_ s) (setpoint_active_ s) (setpoint_ s).
Record Applied := mkApplied {
  write_count_ : Z; applied_writes_ : Z; checked_writes_ : Z; applied_settings_ : NvmSettings; settings_pending_ : bool;
  settings_waiting_ : bool; waiting_announced_ : bool }.
#[export] Instance eta_Applied : Eta Applied := fun s =>
  mkApplied (write_count_ s) (applied_writes_ s) (checked_writes_ s) (applied_settings_ s) (settings_pending_ s)
    (settings_waiting_ s) (waiting_announced_ s).
Record Ports := mkPorts {
  readiness_port_ : Z; current_setpoint_port_ : Z; torque_setpoint_port_ : Z; speed_setpoint_port_ : Z;
  position_setpoint_port_ : Z; servo_setpoint_port_ : Z; wheel_command_port_ : Z; pedal_state_port_ : Z;
  battery_status_port_ : Z }.
#[export] Instance eta_Ports : Eta Ports := fun s =>
  mkPorts (readiness_port_ s) (current_setpoint_port_ s) (torque_setpoint_port_ s) (speed_setpoint_port_ s)
    (position_setpoint_port_ s) (servo_setpoint_port_ s) (wheel_command_port_ s) (pedal_state_port_ s) (battery_status_port_ s).
Definition Ports_init : Ports :=
  mkPorts kUnsetPortId kUnsetPortId kUnsetPortId kUnsetPortId kUnsetPortId kUnsetPortId kUnsetPortId kUnsetPortId kUnsetPortId.
Record Publishers := mkPublishers {
  telemetry_ : Publisher; drive_status_ : Publisher; commissioning_publisher_ : Publisher; homing_publisher_ : Publisher }.
#[export] Instance eta_Publishers : Eta Publishers := fun s =>
  mkPublishers (telemetry_ s) (drive_status_ s) (commissioning_publisher_ s) (homing_publisher_ s).
Record Times := mkTimes {
  command_timeout_us_ : Z; telemetry_period_us_ : Z; drive_status_period_us_ : Z; next_telemetry_us_ : Z;
  next_drive_status_us_ : Z; last_homing_ : HomingState; homing_published_ : bool; next_homing_us_ : Z;
  restart_requested_ : bool; restart_at_us_ : Z; now_us_ : Z }.
#[export] Instance eta_Times : Eta Times := fun s =>
  mkTimes (command_timeout_us_ s) (telemetry_period_us_ s) (drive_status_period_us_ s) (next_telemetry_us_ s)
    (next_drive_status_us_ s) (last_homing_ s) (homing_published_ s) (next_homing_us_ s) (restart_requested_ s)
    (restart_at_us_ s) (now_us_ s).

(** The drive node and the objects it shares: the startup aid with the control
    cycle, the power stage and the settings store ([sys_]), the outer loop and
    the observer task. *)
Record DriveNode (P St : Type) := mkDriveNode {
  sys_ : Sys P (SettingsStore St (PowerStageInterface P));
  outer_ : OuterLoop;
  slow_ : SlowUpdate.SlowUpdate;
  commissioning_ : Commissioning;
  startup_active_ : bool;
  cart_ : CartControl.CartControl;
  cart_mode_ : CartControl.CartMode;
  cart_wheel_ : Z;
  current_limit_ : float;
  torque_constant_ : float;
  ebike_ : option Ebike.EbikeControl;
  ebike_engage_ : bool;
  ebike_torque_ : float;
  bus_lost_ : bool;
  bus_off_count_ : Z;
  eng_ : Engagement;
  app_ : Applied;
  ports_ : Ports;
  pubs_ : Publishers;
  times_ : Times;
  calls_ : list NodeCall }.
Arguments mkDriveNode {P St}.
Arguments sys_ {P St}.
Arguments outer_ {P St}.
Arguments slow_ {P St}.
Arguments commissioning_ {P St}.
Arguments startup_active_ {P St}.
Arguments cart_ {P St}.
Arguments cart_mode_ {P St}.
Arguments cart_wheel_ {P St}.
Arguments current_limit_ {P St}.
Arguments torque_constant_ {P St}.
Arguments ebike_ {P St}.
Arguments ebike_engage_ {P St}.
Arguments ebike_torque_ {P St}.
Arguments bus_lost_ {P St}.
Arguments bus_off_count_ {P St}.
Arguments eng_ {P St}.
Arguments app_ {P St}.
Arguments ports_ {P St}.
Arguments pubs_ {P St}.
Arguments times_ {P St}.
Arguments calls_ {P St}.
#[export] Instance eta_DriveNode P St : Eta (DriveNode P St) := fun s =>
  mkDriveNode (sys_ s) (outer_ s) (slow_ s) (commissioning_ s) (startup_active_ s) (cart_ s) (cart_mode_ s) (cart_wheel_ s)
    (current_limit_ s) (torque_constant_ s) (ebike_ s) (ebike_engage_ s) (ebike_torque_ s) (bus_lost_ s) (bus_off_count_ s)
    (eng_ s) (app_ s) (ports_ s) (pubs_ s) (times_ s) (calls_ s).

(** Assignments to a member of a group. *)
Definition on_eng {P St} (g : Engagement -> Engagement) (s : DriveNode P St) : DriveNode P St := s.{eng_ := g (eng_ s)}.
Definition on_app {P St} (g : Applied -> Applied) (s : DriveNode P St) : DriveNode P St := s.{app_ := g (app_ s)}.
Definition on_times {P St} (g : Times -> Times) (s : DriveNode P St) : DriveNode P St := s.{times_ := g (times_ s)}.
Arguments on_eng {P St} g s /.
Arguments on_app {P St} g s /.
Arguments on_times {P St} g s /.
#[local] Notation "s '.eng{' f ':=' v '}'" := (on_eng (set_field f v) s) (at level 1, left associativity, f at level 0).
#[local] Notation "s '.app{' f ':=' v '}'" := (on_app (set_field f v) s) (at level 1, left associativity, f at level 0).
#[local] Notation "s '.times{' f ':=' v '}'" := (on_times (set_field f v) s) (at level 1, left associativity, f at level 0).

Definition Engagement_init : Engagement := mkEngagement false false false false 0 0 false OuterSetpoint_init.
Definition Times_init : Times := mkTimes 500000 0 0 0 0 MotionControl.kIdle false 0 false 0 0.

Definition kRestartDelayUs : Z := 200000.
Definition kHomingActivePeriodUs : Z := 500000.
Definition kHomingIdlePeriodUs : Z := 2000000.
Definition kCommandRestart : Z := 65535.
Definition kCommandFactoryReset : Z := 65532.
Definition kCommandEmergencyStop : Z := 65531.
Definition kCommandStorePersistentStates : Z := 65530.
Definition kCmdResetTiming : Z := 0x300.
Definition kCmdStartHoming : Z := 0x400.
(** Bits of the vendor status. *)
Definition kPowerStageMask : Z := 0x07.
Definition bit_kEngaged : Z := 0x08.
Definition bit_kTripLatched : Z := 0x10.
Definition bit_kEmergencyStop : Z := 0x20.
Definition bit_kSettingsPending : Z := 0x40.
Definition bit_kLocalControl : Z := 0x80.

Section Operations.
Context {P St : Type} `{!PowerStageOps P} `{!StorageOps St} `{!Dsdl}.
(** std::exp, the clock of the timestamps, the clock of the PWM timer, what
    Initialize() of the platform answers, and the hooks that are set. *)
Variable std_exp : float -> float.
Variable kTimestampFrequency : Z.
Variable timer_clock_hz : Z.
Variable Initialize : float -> Z -> bool.
Variable has_restart_hook : bool.
Variable has_applied_hook : bool.
Abbreviation Drive := (DriveNode P St).
Implicit Type s : DriveNode P St.

Definition emit (c : NodeCall) s : Drive := s.{calls_ := calls_ s ++ [c] }.
Definition Log (severity : Severity) (text : string) s : Drive := emit (call_Log severity text) s.
Definition isr s : CurrentControlIsr := cc_ (sys_ s).
Definition on_isr (f : CurrentControlIsr -> CurrentControlIsr) s : Drive := s.{sys_ := (sys_ s).{cc_ := f (cc_ (sys_ s))}}.
Definition on_outer (f : OuterLoop -> OuterLoop) s : Drive := s.{outer_ := f (outer_ s)}.
Definition IsEngaged s : bool := engaged_ (eng_ s).
Definition stage_state s : PowerStage.PowerStageState := GetState (kPowerStage (sys_ s)).
(** The live settings: [store_->GetSnapshot().Get()]. *)
Definition live s : NvmSettings := settings_ (settings_operations_ (sys_ s)).

(** ** Setpoints *)
Definition new_setpoint (setpoint : OuterSetpoint) (now_us : Z) s : Drive :=
  s.eng{setpoint_ := setpoint}.eng{last_setpoint_us_ := now_us}.eng{setpoint_active_ := true}.
Definition SetCurrentSetpoint (id iq : float) (now_us : Z) s : Drive :=
  if negb (IsFinite id) || negb (IsFinite iq) then s
  else
    let kMagnitude := Hypot id iq in
    let kScale := if f_gtb kMagnitude (current_limit_ s) && f_gtb kMagnitude f_zero
                  then f_div (current_limit_ s) kMagnitude else f_one in
    new_setpoint (OuterSetpoint_init.{OuterLoop.mode := kTorque}
                    .{OuterLoop.current := mkRotor (f_mul id kScale) (f_mul iq kScale)}) now_us s.
Definition SetSpeedSetpoint (speed : float) (now_us : Z) s : Drive :=
  if negb (is_finite speed) then s
  else new_setpoint (OuterSetpoint_init.{OuterLoop.mode := kSpeed}.{OuterLoop.speed := speed}) now_us s.
Definition SetPositionSetpoint (position : float) (now_us : Z) s : Drive :=
  if negb (is_finite position) then s
  else new_setpoint (OuterSetpoint_init.{OuterLoop.mode := kPosition}.{OuterLoop.position := position}) now_us s.
Definition ClearSetpoint s : Drive := s.eng{setpoint_active_ := false}.eng{setpoint_ := OuterSetpoint_init}.

(** The current of a torque; zero without a torque constant. *)
Definition torque_current (torque : float) s : float :=
  if f_gtb (torque_constant_ s) f_zero then f_div torque (torque_constant_ s) else f_zero.

(** ** Settings *)
Definition LoadParameters (settings : NvmSettings) s : option Drive :=
  let v f := fl f settings in
  timeout ← ToMicroseconds (v command_timeout);
  telemetry ← PeriodMicroseconds (v telemetry_rate);
  status ← PeriodMicroseconds (v cart_status_rate);
  let s := s.times{command_timeout_us_ := timeout}.times{telemetry_period_us_ := telemetry}
            .times{drive_status_period_us_ := status}
            .{cart_wheel_ := num settings cart_wheel}
            .{cart_ := CartControl.Configure (CartControl.CartParameters_From settings) (cart_ s)} in
  let s := match ebike_ s with
           | Some e => if negb (IsEngaged s) then s.{ebike_ := Some (Ebike.Configure (Ebike.EbikeParameters_From settings) e)} else s
           | None => s
           end in
  Some (s.{current_limit_ := v motor_i_max}
         .{torque_constant_ := f_mul (v flux_pm) (f_mul (f_lit 3 2) (f_of_Z (num settings pole_pairs)))}).

Definition ApplySettings s : option (bool * Drive) :=
  if state_eqb (stage_state s) PowerStage.kEnabled then Some (false, s.app{settings_pending_ := true})
  else
    let s := s.app{applied_writes_ := write_count_ (app_ s)} in
    let s := s.app{checked_writes_ := applied_writes_ (app_ s)}.app{settings_pending_ := false} in
    let kLive := live s in
    s ← LoadParameters kLive (s.app{applied_settings_ := kLive});
    let limit := max_phase_current (capabilities (profile_ (settings_operations_ (sys_ s)))) in
    '(started, i, slow, outer) ← SlowUpdate.StartRuntime kTimestampFrequency Initialize timer_clock_hz kLive limit (isr s) (slow_ s) (outer_ s);
    let s := (on_isr (fun _ => i) s).{slow_ := slow}.{outer_ := outer} in
    if negb started then Some (false, Log sev_kError "settings rejected by the hardware (PWM frequency)" s)
    else
      let s := if has_applied_hook then emit (call_settings_applied kLive) s else s in
      let s := if waiting_announced_ (app_ s)
               then Log sev_kInfo "waiting settings applied" (s.app{waiting_announced_ := false}) else s in
      Some (true, s).

Definition TuneLive s : option Drive :=
  let s := s.app{checked_writes_ := write_count_ (app_ s)} in
  let kLive := live s in
  let kUntunable := FirstUntunableChange (applied_settings_ (app_ s)) kLive in
  if negb (String.eqb kUntunable EmptyString) then
    Some ((Log sev_kWarning (Joined "settings wait for the disengage: " kUntunable 112) (s.app{settings_pending_ := true}))
            .app{waiting_announced_ := true})
  else
    let gains := mkCurrentGains (fl current_kp_d kLive) (fl current_ki_d kLive) (fl current_kp_q kLive) (fl current_ki_q kLive) in
    let s := on_outer (OuterLoop.SetGains (OuterLoop.GainsFrom kLive)) (on_isr (SetCurrentGains gains) s) in
    s ← LoadParameters kLive s;
    Some (s.app{applied_settings_ := kLive}.app{applied_writes_ := checked_writes_ (app_ s)}).

(** ** Engagement *)
Definition Disengage (reason : string) s : Drive :=
  let s := ClearSetpoint s in
  let s := on_outer (OuterLoop.SetSetpoint OuterSetpoint_init) (s.{cart_ := CartControl.Reset (cart_ s)}) in
  let s := if IsEngaged s || negb (IsActive (fsm (sys_ s))) then s.{sys_ := on_stage Disable (sys_ s)} else s in
  if IsEngaged s then Log sev_kNotice (Joined "disengaged: " reason 64) (s.eng{engaged_ := false}) else s.

(** The release of the power stage, after the settings are applied. *)
Definition release s : Drive :=
  let s := on_outer (OuterLoop.SetSetpoint OuterSetpoint_init) ((ClearSetpoint s).{cart_ := CartControl.Reset (cart_ s)}) in
  let s := on_isr ClearTrips s in
  let '(kReleased, stage) := Enable (ClearFault (kPowerStage (sys_ s))) in
  let s := s.{sys_ := (sys_ s).{kPowerStage := stage}} in
  if negb kReleased
  then Log sev_kWarning "engage refused: external enable missing or fault latched" (s.eng{rearm_required_ := true})
  else Log sev_kInfo "engaged" (s.eng{engaged_ := true}).
Definition Engage s : option Drive :=
  if IsEngaged s || emergency_stop_ (eng_ s) then Some s
  else if IsActive (fsm (sys_ s))
  then Some (Log sev_kWarning "engage refused: the startup aid is running" (s.eng{rearm_required_ := true}))
  else if settings_pending_ (app_ s) || negb (write_count_ (app_ s) =? applied_writes_ (app_ s)) then
    '(applied, s) ← ApplySettings s;
    Some (match applied with true => release s | false => s end)
  else Some (release s).

(** ** Messages *)
Definition acknowledge s : Drive :=
  let s := on_isr ClearTrips s in s.{sys_ := on_stage ClearFault (sys_ s)}.
Definition OnReadiness (bytes : list Z) (now_us : Z) s : Drive :=
  match Readiness_deserialize bytes with
  | None => s
  | Some readiness =>
      let s := s.eng{last_readiness_us_ := now_us} in
      match readiness with
      | ENGAGED =>
          match ebike_ s with
          | Some _ => s
          | None => if negb (IsEngaged s) && negb (rearm_required_ (eng_ s)) then s.eng{engage_requested_ := true} else s
          end
      | _ =>
          let s := s.eng{rearm_required_ := false} in
          let s := match ebike_ s with Some e => s.{ebike_ := Some (Ebike.Inhibit e)} | None => s end in
          if IsEngaged s then Disengage "readiness" s
          else match readiness with STANDBY => acknowledge s | _ => s end
      end
  end.
Definition OnCurrentSetpoint (bytes : list Z) (now_us : Z) s : Drive :=
  match CurrentSetpoint_deserialize bytes with
  | None => s
  | Some setpoint => SetCurrentSetpoint (i_d setpoint) (i_q setpoint) now_us s
  end.
Definition OnTorqueSetpoint (bytes : list Z) (now_us : Z) s : Drive :=
  match Torque_deserialize bytes with
  | None => s
  | Some torque => if f_leb (torque_constant_ s) f_zero then s
                   else SetCurrentSetpoint f_zero (f_div torque (torque_constant_ s)) now_us s
  end.
Definition OnSpeedSetpoint (bytes : list Z) (now_us : Z) s : Drive :=
  match AngularVelocity_deserialize bytes with None => s | Some speed => SetSpeedSetpoint speed now_us s end.
Definition OnPositionSetpoint (bytes : list Z) (now_us : Z) s : Drive :=
  match Angle_deserialize bytes with None => s | Some position => SetPositionSetpoint position now_us s end.
Definition OnServoSetpoint (bytes : list Z) (now_us : Z) s : Drive :=
  match Planar_deserialize bytes with
  | None => s
  | Some servo =>
      match SelectControlModeFromUdralServoRotation (angular_position servo) (angular_velocity servo)
              (angular_acceleration servo) (planar_torque servo) with
      | None => s
      | Some kPosition => SetPositionSetpoint (angular_position servo) now_us s
      | Some kSpeed => SetSpeedSetpoint (angular_velocity servo) now_us s
      | Some kTorque =>
          if f_gtb (torque_constant_ s) f_zero
          then SetCurrentSetpoint f_zero (f_div (planar_torque servo) (torque_constant_ s)) now_us s else s
      end
  end.
Definition OnWheelCommand (bytes : list Z) (now_us : Z) s : Drive :=
  match WheelCommand_deserialize bytes with
  | None => s
  | Some wheel_torque =>
      match wheel_torque !! Z.to_nat (cart_wheel_ s) with
      | None => s
      | Some torque => s.{cart_ := CartControl.OnWheelCommand torque now_us (cart_ s)}
      end
  end.
Definition OnPedalState (bytes : list Z) (now_us : Z) s : Drive :=
  match PedalState_deserialize bytes with
  | None => s
  | Some state =>
      let pedals := CartControl.mkCartPedals (drive_pedal state) (brake_pedal state) (drive_pedal_plausible state)
                      (brake_pedal_plausible state) in
      s.{cart_ := CartControl.OnPedalState pedals now_us (cart_ s)}
  end.
Definition OnBatteryStatus (bytes : list Z) (now_us : Z) s : Drive :=
  match BatteryStatus_deserialize bytes with
  | None => s
  | Some status =>
      let battery := CartControl.mkCartBattery (discharge_current_limit status) (charge_current_limit status) (msg_contactor status) in
      s.{cart_ := CartControl.OnBatteryStatus battery now_us (cart_ s)}
  end.
Definition OnMessage (port : Z) (bytes : list Z) (now_us : Z) s : Drive :=
  let p := ports_ s in
  if port =? readiness_port_ p then OnReadiness bytes now_us s
  else if port =? current_setpoint_port_ p then OnCurrentSetpoint bytes now_us s
  else if port =? torque_setpoint_port_ p then OnTorqueSetpoint bytes now_us s
  else if port =? speed_setpoint_port_ p then OnSpeedSetpoint bytes now_us s
  else if port =? position_setpoint_port_ p then OnPositionSetpoint bytes now_us s
  else if port =? servo_setpoint_port_ p then OnServoSetpoint bytes now_us s
  else if port =? wheel_command_port_ p then OnWheelCommand bytes now_us s
  else if port =? pedal_state_port_ p then OnPedalState bytes now_us s
  else if port =? battery_status_port_ p then OnBatteryStatus bytes now_us s
  else s.

(** ** Commands *)

(** SaveToFlash() of the store: its gate is the power stage itself. *)
Definition save_to_flash s : SettingsStatus * Drive :=
  let store := (settings_operations_ (sys_ s)).{save_gate_ := kPowerStage (sys_ s)} in
  let '(kStatus, store) := SaveToFlash store in
  (kStatus, s.{sys_ := (sys_ s).{settings_operations_ := store}.{kPowerStage := save_gate_ store}}).
Definition save_answer (kStatus : SettingsStatus) : CommandResult :=
  if status_eqb kStatus SettingsTypes.kSuccess then mkResult kStatusSuccess EmptyString
  else if status_eqb kStatus SettingsTypes.kPersistBlocked then mkResult kStatusBadState "outputs released: disengage first"
  else mkResult kStatusFailure "flash write failed".
Definition StartHoming s : CommandResult * Drive :=
  if negb (IsEngaged s) || negb (mode_eqb (OuterLoop.mode (setpoint_ (eng_ s))) kPosition)
  then (mkResult kStatusBadState "engage in position control first", s)
  else if negb (f_gtb (fl pos_homing_current (applied_settings_ (app_ s))) f_zero)
  then (mkResult kStatusBadState "homing off: homing_current is 0", s)
  else if negb (f_gtb (Abs (fl pos_homing_speed (applied_settings_ (app_ s)))) f_zero)
  then (mkResult kStatusBadState "homing off: homing_speed is 0", s)
  else if homing_eqb (OuterLoop.homing (OuterLoop.Status (outer_ s))) MotionControl.kSearching
  then (mkResult kStatusBadState "homing runs already", s)
  else (mkResult kStatusSuccess EmptyString, Log sev_kInfo "homing started" (on_outer OuterLoop.StartHoming s)).
Definition RequestAbort (reason : HwStartup.StartupFault) s : Drive := s.{sys_ := HwStartup.RequestAbort reason (sys_ s)}.
Definition OnCommand (command : Z) (parameter : list Z) s : CommandResult * Drive :=
  if Commissioning.Handles command then
    let '(answer, y) := Commissioning.OnCommand (IsEngaged s) (emergency_stop_ (eng_ s)) command parameter (sys_ s) in
    (answer, s.{sys_ := y})
  else if command =? kCommandRestart then
    let s := Disengage "restart" (RequestAbort HwStartup.fault_kAborted s) in
    (mkResult kStatusSuccess EmptyString,
     s.times{restart_requested_ := true}.times{restart_at_us_ := u64 (now_us_ (times_ s) + kRestartDelayUs)})
  else if command =? kCommandEmergencyStop then
    let s := RequestAbort HwStartup.fault_kEmergencyStop (s.eng{emergency_stop_ := true}) in
    (mkResult kStatusSuccess EmptyString, Disengage "emergency stop" s)
  else if command =? kCmdResetTiming then (mkResult kStatusSuccess EmptyString, emit call_ResetStatistics s)
  else if command =? kCmdStartHoming then StartHoming s
  else if command =? kCommandStorePersistentStates then
    let '(kStatus, s) := save_to_flash s in (save_answer kStatus, s)
  else if command =? kCommandFactoryReset then
    if IsEngaged s || IsActive (fsm (sys_ s)) then (mkResult kStatusBadState EmptyString, s)
    else
      let '(kReset, store) := ResetToFactoryDefaults (settings_operations_ (sys_ s)) in
      let s := s.{sys_ := (sys_ s).{settings_operations_ := store}} in
      if negb (status_eqb kReset SettingsTypes.kSuccess) then (mkResult kStatusFailure EmptyString, s)
      else
        let '(kStatus, s) := save_to_flash (s.app{settings_pending_ := true}) in (save_answer kStatus, s)
  else (mkResult kStatusBadCommand EmptyString, s).

(** [subscribed]: what Subscribe() answers. *)
Definition OnNodeIdAllocated (node : Z) (subscribed : bool) s : Drive :=
  let s :=
    if readiness_port_ (ports_ s) =? kUnsetPortId then
      let port := EffectiveReadinessId (num (live s) sub_readiness_id) node in
      let s := emit (call_Subscribe port) (s.{ports_ := (ports_ s).{readiness_port_ := port}}) in
      if negb subscribed
      then Log sev_kWarning "readiness could not be subscribed" (s.{ports_ := (ports_ s).{readiness_port_ := kUnsetPortId}})
      else s
    else s in
  let '(kSet, store) := SetNodeId node (settings_operations_ (sys_ s)) in
  let s := s.{sys_ := (sys_ s).{settings_operations_ := store}} in
  let s :=
    if status_eqb kSet SettingsTypes.kSuccess then
      let '(kSaved, s) := save_to_flash s in
      if status_eqb kSaved SettingsTypes.kSuccess then Log sev_kInfo "node-ID allocated and saved" s else s
    else s in
  s.app{applied_writes_ := write_count_ (app_ s)}.

(** A write of a settings register by the node. *)
Definition WriteRegister (index : nat) (v : RegisterValue) s : Registers.RegisterWriteResult * Drive :=
  let '(result, p) := Registers.Write index v (Registers.mkProvider (settings_operations_ (sys_ s)) (write_count_ (app_ s))) in
  (result, s.{sys_ := (sys_ s).{settings_operations_ := Registers.store_ p}}.app{write_count_ := Registers.write_count_ p}).

(** ** A spin *)

(** What the node dispatches during its Spin(). *)
Inductive dispatch :=
| got_Message (port : Z) (bytes : list Z)
| got_Command (command : Z) (parameter : list Z)
| got_Write (index : nat) (v : RegisterValue)
| got_NodeId (node : Z) (subscribed : bool).
Definition run_dispatch (now_us : Z) s (d : dispatch) : Drive :=
  match d with
  | got_Message port bytes => OnMessage port bytes now_us s
  | got_Command command parameter => let '(answer, s) := OnCommand command parameter s in emit (call_Respond answer) s
  | got_Write index v => let '(answer, s) := WriteRegister index v s in emit (call_WriteAnswered answer) s
  | got_NodeId node subscribed => OnNodeIdAllocated node subscribed s
  end.
(** What the surroundings answer during a spin. *)
Record SpinInputs := mkSpinInputs {
  dispatched : list dispatch; bus : CanBusStatus; bridge_temperature : option float; motor_temperature_reading : option float;
  readings : Ebike.EbikeReadings; NodeId : Z }.

Definition WatchBus (kBus : CanBusStatus) s : Drive :=
  let kWentOff := is_bus_off kBus || negb (bus_off_events kBus =? bus_off_count_ s) in
  let s := s.{bus_off_count_ := bus_off_events kBus} in
  let s := if kWentOff && negb (bus_lost_ s) then s.{bus_lost_ := true}.{cart_ := CartControl.OnBusLost (cart_ s)} else s in
  if bus_lost_ s && negb (is_bus_off kBus) then Log sev_kWarning "CAN bus-off, back on the bus" (s.{bus_lost_ := false}) else s.

Definition SpinLocalControl (now_us : Z) (io : SpinInputs) s : option Drive :=
  match ebike_ s with
  | None => Some s
  | Some ebike =>
      let kOuter := OuterLoop.Status (outer_ s) in
      measured ← MeasuredCurrent (isr s);
      let kTorque := f_mul (torque_constant_ s) (axis_q measured) in
      let dc := dc_link (isr s) in
      let current := if f_gtb dc f_zero then f_div (f_mul kTorque (OuterLoop.status_speed kOuter)) dc else f_zero in
      let vehicle := Ebike.mkEbikeVehicle (OuterLoop.status_speed kOuter) (OuterLoop.status_torque_min kOuter)
        (OuterLoop.status_torque_max kOuter) dc current (default f_zero (motor_temperature_reading io)) (IsEngaged s)
        (rearm_required_ (eng_ s)) in
      '(kOutput, frames, ebike) ← Ebike.Update std_exp now_us vehicle (readings io) ebike;
      let s := s.{ebike_ := Some ebike}.{ebike_engage_ := Ebike.engage kOutput}.{ebike_torque_ := Ebike.torque kOutput} in
      Some (if Ebike.engage kOutput then
              let s := s.eng{last_readiness_us_ := now_us} in
              if negb (IsEngaged s) && negb (rearm_required_ (eng_ s)) then s.eng{engage_requested_ := true} else s
            else
              let s := s.eng{rearm_required_ := false} in
              if IsEngaged s then Disengage "e-bike" s else s)
  end.

Definition SpinStartup s : Drive :=
  if IsActive (fsm (sys_ s)) then s.{startup_active_ := true}.{sys_ := HwStartup.RunOnce (sys_ s)}
  else if startup_active_ s then (on_isr ReleaseForceDuty (s.{startup_active_ := false})).app{settings_pending_ := true}
  else s.

(** The text of a latched trip. *)
Definition trip_text (t : trip_name) : string :=
  match t with overcurrent_trip => "overcurrent trip" | overvoltage_trip => "DC-link overvoltage trip" end.
(** The checks of SpinEngagement(): readiness timeout, then power stage and trips. *)
Definition check_engagement (now_us : Z) (holds_engagement : bool) s : Drive :=
  if negb (IsEngaged s) then s
  else if (command_timeout_us_ (times_ s) <? u64 (now_us - last_readiness_us_ (eng_ s))) && negb holds_engagement
  then Disengage "readiness timeout" s
  else if negb (state_eqb (stage_state s) PowerStage.kEnabled) || Tripped (isr s)
  then Disengage (match TripName (isr s) with Some t => trip_text t | None => "power stage fault" end) (s.eng{rearm_required_ := true})
  else s.
Definition SpinEngagement (now_us : Z) s : Drive :=
  let '(kCart, cart) := CartControl.Update now_us (OuterLoop.status_speed (OuterLoop.Status (outer_ s))) (IsEngaged s) (cart_ s) in
  let s := s.{cart_ := cart}.{cart_mode_ := CartControl.mode kCart} in
  let s := check_engagement now_us (CartControl.holds_engagement kCart) s in
  let s := if IsEngaged s && negb (CartControl.mode_eqb (CartControl.mode kCart) CartControl.kOff)
           then SetCurrentSetpoint f_zero (torque_current (CartControl.torque kCart) s) now_us s else s in
  let s := if IsEngaged s && (match ebike_ s with Some _ => true | None => false end && ebike_engage_ s)
           then SetCurrentSetpoint f_zero (torque_current (ebike_torque_ s) s) now_us s else s in
  let s := if IsEngaged s && setpoint_active_ (eng_ s) &&
              (command_timeout_us_ (times_ s) <? u64 (now_us - last_setpoint_us_ (eng_ s)))
           then ClearSetpoint s else s in
  on_outer (OuterLoop.SetBatteryLimits (CartControl.Battery now_us (cart_ s))) s.

(** A message to the node: sent when the node has an ID and the port is set. *)
Definition send_serialized (node : Z) (publisher : Publisher) (bytes : option (list Z)) s : Drive * Publisher :=
  match bytes with
  | None => (s, publisher)
  | Some bytes =>
      let '(transfer, publisher) := Publish node publisher bytes in
      (match transfer with Some t => emit (call_Send t) s | None => s end, publisher)
  end.
Definition PublishTelemetry (io : SpinInputs) s : option Drive :=
  let state := isr s in
  kCurrent ← MeasuredCurrent state;
  angle ← RotorAngle.WrapAnglePositive (Observers.theta (mech_obs state));
  let telemetry := mkTelemetry (control_cycles state) (axis_d kCurrent) (axis_q kCurrent) (axis_d (i_ref state)) (axis_q (i_ref state))
    (axis_d (u_dq_last state)) (axis_q (u_dq_last state)) angle (Observers.omega (mech_obs state)) (dc_link state)
    (state_byte (stage_state s)) (overcurrent_tripped state) (IsEngaged s) in
  let '(s, p) := send_serialized (NodeId io) (telemetry_ (pubs_ s)) (Telemetry_serialize telemetry) s in
  Some (s.{pubs_ := (pubs_ s).{telemetry_ := p}}).
(** The torque limits of the status, relative to the motion. *)
Definition drive_limits (kOuter : OuterLoop.OuterStatus) (cart : CartControl.CartControl) : float * float :=
  let a := CartControl.ToCart cart (OuterLoop.status_torque_min kOuter) in
  let b := CartControl.ToCart cart (OuterLoop.status_torque_max kOuter) in
  let kCartMin := Min a b in
  let kCartMax := Max a b in
  let kForward := negb (f_ltb (CartControl.ToCart cart (OuterLoop.status_speed kOuter)) f_zero) in
  (Max (if kForward then kCartMax else f_neg kCartMin) f_zero, Max (if kForward then f_neg kCartMin else kCartMax) f_zero).
Definition PublishDriveStatus (io : SpinInputs) s : option Drive :=
  let state := isr s in
  let kOuter := OuterLoop.Status (outer_ s) in
  kCurrent ← MeasuredCurrent state;
  let kTorque := f_mul (torque_constant_ s) (axis_q kCurrent) in
  let '(kDriveLimit, kBrakeLimit) := drive_limits kOuter (cart_ s) in
  let current := if f_gtb (dc_link state) f_zero
                 then f_div (f_mul kTorque (OuterLoop.status_speed kOuter)) (dc_link state) else S754_nan in
  let status := mkDriveStatus (CartControl.ToCart (cart_ s) (OuterLoop.status_speed kOuter)) (CartControl.ToCart (cart_ s) kTorque)
    kDriveLimit kBrakeLimit (dc_link state) current (Kelvin (bridge_temperature io)) (Kelvin (motor_temperature_reading io))
    (cart_wheel_ s) (state_byte (stage_state s)) (IsEngaged s) (CartControl.mode_eqb (cart_mode_ s) CartControl.kLimpHome)
    (OuterLoop.regen_derated kOuter) (overcurrent_tripped state) (overvoltage_tripped state) in
  let '(s, p) := send_serialized (NodeId io) (drive_status_ (pubs_ s)) (DriveStatus_serialize status) s in
  Some (s.{pubs_ := (pubs_ s).{drive_status_ := p}}).
Definition PublishHoming (now_us : Z) (io : SpinInputs) s : Drive :=
  let kState := OuterLoop.homing (OuterLoop.Status (outer_ s)) in
  if homing_published_ (times_ s) && homing_eqb kState (last_homing_ (times_ s)) && (now_us <? next_homing_us_ (times_ s)) then s
  else
    let kSearching := homing_eqb kState MotionControl.kSearching in
    let s := s.times{next_homing_us_ := u64 (now_us + (if kSearching then kHomingActivePeriodUs else kHomingIdlePeriodUs))}
              .times{last_homing_ := kState}.times{homing_published_ := true} in
    let '(s, p) := send_serialized (NodeId io) (homing_publisher_ (pubs_ s)) (Natural8_serialize (homing_byte kState)) s in
    s.{pubs_ := (pubs_ s).{homing_publisher_ := p}}.
Definition PublishCommissioning (now_us : Z) (io : SpinInputs) s : Drive :=
  let '(due, c) := Commissioning.Due now_us (fsm (sys_ s)) (commissioning_ s) in
  let s := s.{commissioning_ := c} in
  match due with
  | None => s
  | Some status =>
      let '(s, p) := send_serialized (NodeId io) (commissioning_publisher_ (pubs_ s)) (Commissioning_serialize status) s in
      s.{pubs_ := (pubs_ s).{commissioning_publisher_ := p}}
  end.
(** The vendor status of the heartbeat. *)
Definition vendor_status s : Z :=
  let kFlag (b : bool) (bit : Z) := if b then bit else 0 in
  u8 (Z.lor (Z.lor (Z.lor (Z.lor (Z.lor (Z.land (state_byte (stage_state s)) kPowerStageMask) (kFlag (IsEngaged s) bit_kEngaged))
        (kFlag (Tripped (isr s)) bit_kTripLatched)) (kFlag (emergency_stop_ (eng_ s)) bit_kEmergencyStop))
        (kFlag (settings_waiting_ (app_ s)) bit_kSettingsPending))
        (kFlag (match ebike_ s with Some _ => true | None => false end) bit_kLocalControl)).
Definition UpdateStatus s : Drive :=
  let health := if emergency_stop_ (eng_ s) then health_kCaution
                else if state_eqb (stage_state s) PowerStage.kFault || Tripped (isr s) then health_kAdvisory else health_kNominal in
  emit (call_SetVendorStatus (vendor_status s)) (emit (call_SetHealth health) s).

(** The end of a spin: settings, publications, the restart. *)
Definition hand_over s : Drive :=
  on_outer (OuterLoop.SetSetpoint ((setpoint_ (eng_ s)).{OuterLoop.active := IsEngaged s})) s.
Definition writes_changed s : bool := negb (write_count_ (app_ s) =? applied_writes_ (app_ s)).
Definition tune_part s : option Drive :=
  if IsEngaged s && negb (write_count_ (app_ s) =? checked_writes_ (app_ s)) then TuneLive s else Some s.
Definition note_pending s : Drive :=
  if negb (IsEngaged s) && writes_changed s then s.app{settings_pending_ := true} else s.
Definition apply_part s : option Drive :=
  if negb (IsEngaged s) && settings_pending_ (app_ s) then
    '(_, s) ← ApplySettings s;
    Some s
  else Some s.
Definition SpinSettings s : option Drive := s ← tune_part s; apply_part (note_pending s).
Definition SpinPublish (now_us : Z) (io : SpinInputs) s : option Drive :=
  let '(due, next) := Due (telemetry_period_us_ (times_ s)) now_us (next_telemetry_us_ (times_ s)) in
  let s := s.times{next_telemetry_us_ := next} in
  s ← (if due : bool then PublishTelemetry io s else Some s);
  let '(due, next) := Due (drive_status_period_us_ (times_ s)) now_us (next_drive_status_us_ (times_ s)) in
  let s := s.times{next_drive_status_us_ := next} in
  s ← (if due : bool then PublishDriveStatus io s else Some s);
  let s := PublishHoming now_us io s in
  let s := if restart_requested_ (times_ s) && (restart_at_us_ (times_ s) <=? now_us) && has_restart_hook
           then emit call_restart (s.times{restart_requested_ := false}) else s in
  Some (UpdateStatus (s.app{settings_waiting_ := settings_pending_ (app_ s) || writes_changed s})).
Definition take_request s : option Drive :=
  if engage_requested_ (eng_ s) then Engage (s.eng{engage_requested_ := false}) else Some s.
(** Spin(): the node dispatches and the bus is watched; the e-bike control;
    the request; startup aid and engagement; the hand-over and the rest. *)
Definition received (now_us : Z) (io : SpinInputs) s : Drive :=
  WatchBus (bus io) (foldl (run_dispatch now_us) (s.times{now_us_ := now_us}) (dispatched io)).
Definition engagement_part (now_us : Z) (io : SpinInputs) s : Drive :=
  SpinEngagement now_us (PublishCommissioning now_us io (SpinStartup s)).
Definition Spin (now_us : Z) (io : SpinInputs) s : option Drive :=
  s ← SpinLocalControl now_us io (received now_us io s);
  s ← take_request s;
  s ← SpinSettings (hand_over (engagement_part now_us io s));
  SpinPublish now_us io s.

(** ** Start *)
Definition start_ports (node_id : Z) (settings : NvmSettings) : Ports :=
  let v := num settings in
  mkPorts (EffectiveReadinessId (v sub_readiness_id) node_id) (v sub_current_setpoint_id) (v sub_torque_setpoint_id)
    (v sub_speed_setpoint_id) (v sub_position_setpoint_id) (v sub_servo_setpoint_id) (v sub_wheel_command_id)
    (v sub_pedal_state_id) (v sub_battery_status_id).
Definition start_publishers (settings : NvmSettings) : Publishers :=
  mkPublishers (mkPublisher (num settings pub_telemetry_id) prio_kHigh 0) (mkPublisher (num settings pub_drive_status_id) prio_kFast 0)
    (mkPublisher (num settings pub_commissioning_id) prio_kNominal 0) (mkPublisher (num settings pub_homing_state_id) prio_kNominal 0).
Definition subscribed_ports (p : Ports) : list Z :=
  [readiness_port_ p; current_setpoint_port_ p; torque_setpoint_port_ p; speed_setpoint_port_ p; position_setpoint_port_ p;
   servo_setpoint_port_ p; wheel_command_port_ p; pedal_state_port_ p; battery_status_port_ p].
(** [answer]: what the node answers to a call. *)
Definition Start (answer : NodeCall -> bool) (now_us : Z) s : option (bool * Drive) :=
  let kLive := live s in
  let kNodeId := if num kLive node_id =? 0 then kNodeIdUnset else num kLive node_id in
  let s := s.times{now_us_ := now_us}.{ports_ := start_ports kNodeId kLive}.{pubs_ := start_publishers kLive} in
  let s := s.app{applied_writes_ := write_count_ (app_ s)} in
  s ← LoadParameters kLive (s.app{checked_writes_ := applied_writes_ (app_ s)}.app{applied_settings_ := kLive});
  let p := pubs_ s in
  let asked := map call_AddRegisterProvider [provider_settings; provider_info; provider_commissioning; provider_timing] ++
    map call_Subscribe (subscribed_ports (ports_ s)) ++
    map call_AddPublisher [telemetry_ p; drive_status_ p; commissioning_publisher_ p; homing_publisher_ p] in
  let start := call_Start kNodeId now_us in
  let s := s.{calls_ := calls_ s ++ asked ++ [call_SetCommandHandler; call_SetNodeIdListener; start; call_SetMode mode_kOperational] } in
  let s := s.times{next_telemetry_us_ := now_us}.times{next_drive_status_us_ := now_us} in
  Some (forallb answer asked && answer start, UpdateStatus s).

(** ** The handlers of main.cpp *)
Definition ControlCycleHandler (samples : ControlCycleSamples) s : Drive := s.{sys_ := HwStartup.run_cycle samples (sys_ s)}.
(** [waiting]: the Hall events of the platform; true: the control thread is notified. *)
Definition ObserverHandler (waiting : list Observers.HallEvent) s : option (bool * Drive) :=
  let enabled := state_eqb (stage_state s) PowerStage.kEnabled in
  '(_, _, i, slow) ← SlowUpdate.RunOnce kTimestampFrequency enabled waiting (isr s) (slow_ s);
  let '(notify, outer) := OuterLoop.OnObserverCycle i (outer_ s) in
  Some (notify, (on_isr (fun _ => i) s).{slow_ := slow}.{outer_ := outer}).
Definition ControlThreadHandler s : option Drive :=
  '(i, outer) ← OuterLoop.Step (isr s) (outer_ s);
  Some ((on_isr (fun _ => i) s).{outer_ := outer}).

(** ** The drive among the other threads

    What happens to the drive's objects: a spin of its thread, the handlers of
    the interrupts and of the control thread, a trip by an interrupt. *)
Inductive drive_event :=
| ev_Spin (now_us : Z) (io : SpinInputs)
| ev_cycle (samples : ControlCycleSamples)
| ev_observer (waiting : list Observers.HallEvent)
| ev_control
| ev_Trip.
Definition run_drive (e : drive_event) s : option Drive :=
  match e with
  | ev_Spin now_us io => Spin now_us io s
  | ev_cycle samples => Some (ControlCycleHandler samples s)
  | ev_observer waiting => '(_, s) ← ObserverHandler waiting s; Some s
  | ev_control => ControlThreadHandler s
  | ev_Trip => Some (s.{sys_ := on_stage PowerStage.Trip (sys_ s)})
  end.

(** The constructor, over a store and a power stage; then SetLocalControl(). *)
Definition DriveNode_init (i : CurrentControlIsr) (stage : PowerStageInterface P) (store : SettingsStore St (PowerStageInterface P))
    (outer : OuterLoop) (slow : SlowUpdate.SlowUpdate) (ebike : option Ebike.EbikeControl) : Drive :=
  mkDriveNode (mkSys HwStartup.HwStartup_init i stage store) outer slow Commissioning_init false CartControl.CartControl_init
    CartControl.kOff 0 f_zero f_zero ebike false f_zero false 0 Engagement_init
    (mkApplied 0 0 0 (settings_ store) false false false) Ports_init
    (mkPublishers Publisher_init Publisher_init Publisher_init Publisher_init) Times_init [].

(** main(): the settings are loaded and the motor started with them; the
    Cyphal thread then runs the drive node.  The exit code and the node. *)
Definition main (store : SettingsStore St (PowerStageInterface P)) (stage : PowerStageInterface P)
    (ebike : option Ebike.EbikeControl) : option (Z * Drive) :=
  let '(kSettingsStatus, store) := SettingsStore.Load store in
  let node i outer slow := DriveNode_init i stage store outer slow ebike in
  match kSettingsStatus with
  | SettingsTypes.kSuccess | SettingsTypes.kFactoryDefaults | SettingsTypes.kInvalidImage | SettingsTypes.kInvalidSettings
  | SettingsTypes.kOutOfRange =>
      '(started, i, slow, outer) ← SlowUpdate.StartRuntime kTimestampFrequency Initialize timer_clock_hz (settings_ store)
        (max_phase_current (capabilities (profile_ store))) CurrentControlIsr_init SlowUpdate.SlowUpdate_init OuterLoop.OuterLoop_init;
      Some (if (started : bool) then 0 else 1, node i outer slow)
  | _ => Some (1, node CurrentControlIsr_init OuterLoop.OuterLoop_init SlowUpdate.SlowUpdate_init)
  end.
End Operations.

End DriveNode.
