(* ===== verification/CyphalNode.v ===== *)
(** * The Cyphal node

    lib/cyphal/transport.hpp: the transport interface (a class with its laws);
    lib/cyphal/node.{hpp,cpp}: class [CyphalNode] with the standard services,
    the dispatch of received transfers, plug-and-play, heartbeat, port list and
    log.  The generated message code is the class [NodeDsdl], the callbacks of
    the application (registers, commands, listeners, services) are the class
    [Application]; a callback gets the node and may use it ([uses]).  Every
    transfer handed to the transport is also noted in [sent_]. *)
From Stdlib Require Import ZArith Lia Bool.
From stdpp Require Import base decidable list option.
From S2P Require Import Prelude SettingsData Registers Commissioning DriveMessages.
Import DriveMessages(Health, health_kNominal, Mode, mode_kInitialization, Severity, Priority, prio_kNominal, prio_kOptional, prio_kSlow,
  CanBusStatus, kNodeIdUnset, Publisher, mkPublisher, port_id, priority, next_transfer_id).
Import SettingsData(kUnsetPortId, kMaxServiceId).
Import Registers(RegisterValue, RegisterWriteResult, SetEmpty, IsEmpty).
Import Commissioning(kStatusBadCommand).

#[local] Open Scope Z_scope.
#[local] Open Scope unimoc_scope.
#[local] Existing Instance DriveMessages.eta_Publisher.

Module CyphalNode.

(** ** Transport *)
Definition kNodeIdMax : Z := 127.
Inductive TransferKind := kMessage | kServiceRequest | kServiceResponse.
Inductive ReceiveResult := kNoTransfer | kReceived | kError.
Record Transfer := mkTransfer {
  transfer_port : Z; source_node_id : Z; destination_node_id : Z; transfer_id : Z; kind : TransferKind;
  transfer_priority : Priority; payload : list Z }.
Definition Transfer_init : Transfer := mkTransfer 0 kNodeIdUnset kNodeIdUnset 0 kMessage prio_kNominal [].
Class TransportOps (T : Type) := {
  Send : Transfer -> T -> bool * T;
  Receive : Z -> T -> ReceiveResult * Transfer * T;
  Subscribe : TransferKind -> Z -> Z -> T -> bool * T;
  SetLocalNodeId : Z -> T -> T;
  LocalNodeId : T -> Z;
  Process : Z -> T -> T;
  BusStatus : T -> CanBusStatus }.
(** The node-ID is what was set last; nothing else changes it. *)
Class TransportLaws (T : Type) `{!TransportOps T} := {
  LocalNodeId_Set node t : LocalNodeId (SetLocalNodeId node t) = if node <=? kNodeIdMax then node else kNodeIdUnset;
  LocalNodeId_Send x t : LocalNodeId (Send x t).2 = LocalNodeId t;
  LocalNodeId_Receive n t : LocalNodeId (Receive n t).2 = LocalNodeId t;
  LocalNodeId_Subscribe k p e t : LocalNodeId (Subscribe k p e t).2 = LocalNodeId t;
  LocalNodeId_Process now t : LocalNodeId (Process now t) = LocalNodeId t }.

(** ** Data of the node *)
Definition kHeartbeat : Z := 7509.
Definition kPortList : Z := 7510.
Definition kNodeIdAllocation : Z := 8166.
Definition kDiagnosticRecord : Z := 8184.
Definition kRegisterAccess : Z := 384.
Definition kRegisterList : Z := 385.
Definition kGetInfo : Z := 430.
Definition kExecuteCommand : Z := 435.
Definition kServedServices : list Z := [kRegisterAccess; kRegisterList; kGetInfo; kExecuteCommand].
Definition kUniqueIdHashMask : Z := Z.shiftl 1 48 - 1.
Record NodeInfo := mkNodeInfo {
  info_name : list Z; hardware_major : Z; hardware_minor : Z; software_major : Z; software_minor : Z;
  vcs_revision_id : Z; unique_id : list Z }.
(** The characters of "unimoc". *)
Definition NodeInfo_init : NodeInfo := mkNodeInfo [117; 110; 105; 109; 111; 99] 0 0 0 0 0 (replicate 16 0).
Record RegisterFlags := mkFlags { is_mutable : bool; is_persistent : bool }.
Record CommandResult := mkResult { status : Z; output : list Z }.
Definition kCommandOutputMaxLength : nat := 46.
Definition kNodeNameMaxLen : nat := 50.

(** The messages of the standard services, as the fields the node uses. *)
Record GetInfoResponse := mkGetInfo {
  protocol_version : Z * Z; hardware_version : Z * Z; software_version : Z * Z; software_vcs_revision_id : Z;
  response_unique_id : list Z; response_name : list Z }.
Record AccessResponse := mkAccess { access_value : RegisterValue; access_mutable : bool; access_persistent : bool }.
Record NodeIDAllocationData := mkAllocation { unique_id_hash : Z; allocated_node_id : list Z }.
Record Heartbeat := mkHeartbeat { uptime : Z; heartbeat_health : Health; heartbeat_mode : Mode; vendor_specific_status_code : Z }.
Record DiagnosticRecord := mkRecord { record_severity : Severity; record_text : list Z }.
(** Generated by Nunavut: a deserialisation or a serialisation into a buffer
    of some size; [None] is a negative result. *)
Class NodeDsdl := {
  GetInfo_serialize : GetInfoResponse -> Z -> option (list Z);
  List_deserialize : list Z -> option Z;
  List_serialize : list Z -> Z -> option (list Z);
  Access_deserialize : list Z -> option (list Z * RegisterValue);
  Access_serialize : AccessResponse -> Z -> option (list Z);
  ExecuteCommand_deserialize : list Z -> option (Z * list Z);
  ExecuteCommand_serialize : CommandResult -> Z -> option (list Z);
  Allocation_deserialize : list Z -> option NodeIDAllocationData;
  Allocation_serialize : NodeIDAllocationData -> Z -> option (list Z);
  Heartbeat_serialize : Heartbeat -> Z -> option (list Z);
  Record_serialize : DiagnosticRecord -> Z -> option (list Z);
  (** EXTENT_BYTES of the requests and of the allocation message. *)
  GetInfo_extent : Z; List_extent : Z; Access_extent : Z; ExecuteCommand_extent : Z; Allocation_extent : Z }.
Definition kNameCapacity : nat := 255.
Definition kTextCapacity : nat := 255.

Record CyphalNode (T : Type) := mkNode {
  transport_ : T; info_ : NodeInfo; command_handler_ : bool; node_id_listener_ : bool;
  providers_ : list nat; listeners_ : list (Z * nat); servers_ : list (Z * nat); published_subjects_ : list Z;
  health_ : Health; mode_ : Mode; vendor_status_ : Z; started_ : bool; start_us_ : Z; next_heartbeat_us_ : Z;
  next_port_list_us_ : Z; next_allocation_us_ : Z; allocation_seed_ : Z;
  heartbeat_ : Publisher; port_list_ : Publisher; allocation_ : Publisher; diagnostic_ : Publisher;
  sent_ : list Transfer }.
Arguments mkNode {T}.
Arguments transport_ {T}.
Arguments info_ {T}.
Arguments command_handler_ {T}.
Arguments node_id_listener_ {T}.
Arguments providers_ {T}.
Arguments listeners_ {T}.
Arguments servers_ {T}.
Arguments published_subjects_ {T}.
Arguments health_ {T}.
Arguments mode_ {T}.
Arguments vendor_status_ {T}.
Arguments started_ {T}.
Arguments start_us_ {T}.
Arguments next_heartbeat_us_ {T}.
Arguments next_port_list_us_ {T}.
Arguments next_allocation_us_ {T}.
Arguments allocation_seed_ {T}.
Arguments heartbeat_ {T}.
Arguments port_list_ {T}.
Arguments allocation_ {T}.
Arguments diagnostic_ {T}.
Arguments sent_ {T}.
#[export] Instance eta_CyphalNode T : Eta (CyphalNode T) := fun s =>
  mkNode (transport_ s) (info_ s) (command_handler_ s) (node_id_listener_ s) (providers_ s) (listeners_ s) (servers_ s)
    (published_subjects_ s) (health_ s) (mode_ s) (vendor_status_ s) (started_ s) (start_us_ s) (next_heartbeat_us_ s)
    (next_port_list_us_ s) (next_allocation_us_ s) (allocation_seed_ s) (heartbeat_ s) (port_list_ s) (allocation_ s)
    (diagnostic_ s) (sent_ s).
Definition kMaxRegisterProviders : nat := 6.
Definition kMaxListeners : nat := 12.
Definition kMaxPublishers : nat := 8.
Definition kMaxServers : nat := 8.
Definition kHeartbeatPeriodUs : Z := 1000000.
Definition kPortListPeriodUs : Z := 5000000.
Definition kMaxTransfersPerSpin : nat := 32.
(** rx_buffer_ and tx_buffer_. *)
Definition kBufferSize : Z := 600.
Definition Node_init {T} (transport : T) : CyphalNode T :=
  mkNode transport NodeInfo_init false false [] [] [] [] health_kNominal mode_kInitialization 0 false 0 0 0 0 0
    (mkPublisher kHeartbeat prio_kNominal 0) (mkPublisher kPortList prio_kOptional 0)
    (mkPublisher kNodeIdAllocation prio_kSlow 0) (mkPublisher kDiagnosticRecord prio_kOptional 0) [].

(** ** The port list, written by hand *)
Record Writer := mkWriter { buffer_ : list Z; size_ : nat }.
Definition U8 (value : Z) (w : Writer) : Writer :=
  mkWriter (if (size_ w <? length (buffer_ w))%nat then <[size_ w := u8 value]> (buffer_ w) else buffer_ w) (S (size_ w)).
Definition U16 (value : Z) (w : Writer) : Writer := U8 (Z.shiftr value 8) (U8 (Z.land value 0xFF) w).
Definition U32 (value : Z) (w : Writer) : Writer := U16 (u16 (Z.shiftr value 16)) (U16 (u16 (Z.land value 0xFFFF)) w).
Definition Fits (w : Writer) : bool := (size_ w <=? length (buffer_ w))%nat.
Definition WriteSubjectList (subjects : list Z) (w : Writer) : Writer :=
  let kCount := u8 (Z.min (Z.of_nat (length subjects)) 255) in
  let w := U8 kCount (U8 1 (U32 (2 + 2 * kCount) w)) in
  foldl (fun w subject => U16 (Z.land subject 0x1FFF) w) w (take (Z.to_nat kCount) subjects).
Definition mask_byte (services : list Z) (byte : Z) : Z :=
  foldl (fun bits kService => if kService / 8 =? byte then u8 (Z.lor bits (Z.shiftl 1 (kService mod 8))) else bits) 0 services.
Definition kMaskBytes : nat := 64.
Definition WriteServiceList (services : list Z) (w : Writer) : Writer :=
  foldl (fun w byte => U8 (mask_byte services (Z.of_nat byte)) w) (U32 (Z.of_nat kMaskBytes) w) (seq 0 kMaskBytes).

(** ** Operations without callbacks *)
Section Node.
Context {T : Type} `{!TransportOps T} {dsdl : NodeDsdl}.
Abbreviation Node := (CyphalNode T).
Implicit Types (s : CyphalNode T).

Definition NodeId s : Z := LocalNodeId (transport_ s).
Definition on_transport (f : T -> T) s : Node := s.{transport_ := f (transport_ s)}.
(** transport_->Send(). *)
Definition send (x : Transfer) s : bool * Node :=
  let '(accepted, t) := Send x (transport_ s) in (accepted, s.{transport_ := t}.{sent_ := sent_ s ++ [x] }).
Definition subscribe (k : TransferKind) (port extent : Z) s : bool * Node :=
  let '(accepted, t) := Subscribe k port extent (transport_ s) in (accepted, s.{transport_ := t}).
Definition message (p : Publisher) (bytes : list Z) s : Transfer :=
  mkTransfer (port_id p) (NodeId s) kNodeIdUnset (next_transfer_id p) kMessage (priority p) bytes.
Definition advance (p : Publisher) : Publisher := p.{next_transfer_id := Z.land (u8 (next_transfer_id p + 1)) 0x1F}.

Definition AddRegisterProvider (provider : nat) s : bool * Node :=
  if (kMaxRegisterProviders <=? length (providers_ s))%nat then (false, s)
  else (true, s.{providers_ := providers_ s ++ [provider] }).
Definition AddSubscription (subject_id extent : Z) (listener : nat) s : bool * Node :=
  if subject_id =? kUnsetPortId then (true, s)
  else if (kMaxListeners <=? length (listeners_ s))%nat then (false, s)
  else
    let '(accepted, s) := subscribe kMessage subject_id extent s in
    if negb accepted then (false, s) else (true, s.{listeners_ := listeners_ s ++ [(subject_id, listener)] }).
Definition AddServer (service_id request_extent : Z) (handler : nat) s : bool * Node :=
  if service_id =? kUnsetPortId then (true, s)
  else
    let kTaken := existsb (Z.eqb service_id) kServedServices || existsb (fun server => fst server =? service_id) (servers_ s) in
    if (kMaxServiceId <? service_id) || kTaken || (kMaxServers <=? length (servers_ s))%nat then (false, s)
    else
      let '(accepted, s) := subscribe kServiceRequest service_id request_extent s in
      if negb accepted then (false, s) else (true, s.{servers_ := servers_ s ++ [(service_id, handler)] }).
Definition AddPublisher (publisher : Publisher) s : bool * Node :=
  if port_id publisher =? kUnsetPortId then (true, s)
  else if (kMaxPublishers <=? length (published_subjects_ s))%nat then (false, s)
  else (true, s.{published_subjects_ := published_subjects_ s ++ [port_id publisher] }).
Definition SetInfo (info : NodeInfo) s : Node := s.{info_ := info}.
Definition SetHealth (health : Health) s : Node := s.{health_ := health}.
Definition SetMode (mode : Mode) s : Node := s.{mode_ := mode}.
Definition SetVendorStatus (vendor_status : Z) s : Node := s.{vendor_status_ := vendor_status}.
Definition SetCommandHandler s : Node := s.{command_handler_ := true}.
Definition SetNodeIdListener s : Node := s.{node_id_listener_ := true}.

Definition fnv_step (hash kByte : Z) : Z := u64 (Z.lxor hash kByte * 0x100000001B3).
Definition UniqueIdHash s : Z := Z.land (foldl fnv_step 0xCBF29CE484222325 (unique_id (info_ s))) kUniqueIdHashMask.
Definition UptimeSeconds (now_us : Z) s : Z := u32 (u64 (now_us - start_us_ s) / 1000000).

Definition start_subscriptions s : bool * Node :=
  let add k port extent '(subscribed, s) := let '(a, s) := subscribe k port extent s in (a && subscribed, s) in
  let r := subscribe kServiceRequest kGetInfo GetInfo_extent s in
  let r := add kServiceRequest kRegisterList List_extent r in
  let r := add kServiceRequest kRegisterAccess Access_extent r in
  let r := add kServiceRequest kExecuteCommand ExecuteCommand_extent r in
  if NodeId (snd r) =? kNodeIdUnset then add kMessage kNodeIdAllocation Allocation_extent r else r.
Definition Start (node_id now_us : Z) s : bool * Node :=
  let s := s.{start_us_ := now_us}.{next_heartbeat_us_ := now_us}.{next_port_list_us_ := u64 (now_us + kPortListPeriodUs)} in
  let s := s.{allocation_seed_ := u32 (Z.lxor (UniqueIdHash s) (Z.shiftr (UniqueIdHash s) 32))} in
  let s := s.{next_allocation_us_ := u64 (now_us + allocation_seed_ s mod 1000000)} in
  let s := on_transport (SetLocalNodeId (if node_id <=? kNodeIdMax then node_id else kNodeIdUnset)) s in
  let '(subscribed, s) := start_subscriptions s in
  (subscribed, s.{started_ := true}).

(** Publish(): the answer, the advanced publisher and the node. *)
Definition Publish (publisher : Publisher) (bytes : list Z) s : bool * Publisher * Node :=
  if (port_id publisher =? kUnsetPortId) || (NodeId s =? kNodeIdUnset) then (false, publisher, s)
  else let '(accepted, s) := send (message publisher bytes s) s in (accepted, advance publisher, s).
(** The messages of the node itself: [PublishInternal] of one of its publishers. *)
Definition publish_heartbeat (bytes : list Z) s : Node := snd (send (message (heartbeat_ s) bytes s) (s.{heartbeat_ := advance (heartbeat_ s)})).
Definition publish_port_list (bytes : list Z) s : Node := snd (send (message (port_list_ s) bytes s) (s.{port_list_ := advance (port_list_ s)})).
Definition publish_allocation (bytes : list Z) s : Node :=
  snd (send (message (allocation_ s) bytes s) (s.{allocation_ := advance (allocation_ s)})).
Definition publish_diagnostic (bytes : list Z) s : bool * Node :=
  send (message (diagnostic_ s) bytes s) (s.{diagnostic_ := advance (diagnostic_ s)}).
Definition Log (severity : Severity) (text : list Z) s : bool * Node :=
  if NodeId s =? kNodeIdUnset then (false, s)
  else match Record_serialize (mkRecord severity (take kTextCapacity text)) kBufferSize with
       | None => (false, s)
       | Some bytes => publish_diagnostic bytes s
       end.
Definition PublishHeartbeat (now_us : Z) s : Node :=
  match Heartbeat_serialize (mkHeartbeat (UptimeSeconds now_us s) (health_ s) (mode_ s) (vendor_status_ s)) kBufferSize with
  | None => s
  | Some bytes => publish_heartbeat bytes s
  end.
Definition port_list_writer s : Writer :=
  let publishers := [kHeartbeat; kPortList; kDiagnosticRecord] ++ published_subjects_ s in
  let w := WriteSubjectList publishers (mkWriter (replicate (Z.to_nat kBufferSize) 0) 0) in
  let w := WriteSubjectList (map fst (listeners_ s)) w in
  WriteServiceList (kServedServices ++ map fst (servers_ s)) (WriteServiceList [] w).
Definition PublishPortList s : Node :=
  let writer := port_list_writer s in
  if Fits writer then publish_port_list (take (size_ writer) (buffer_ writer)) s else s.
Definition RequestNodeId (now_us : Z) s : Node :=
  let s := match Allocation_serialize (mkAllocation (UniqueIdHash s) []) kBufferSize with
           | Some bytes => publish_allocation bytes s
           | None => s
           end in
  let s := s.{allocation_seed_ := u32 (allocation_seed_ s * 1664525 + 1013904223)} in
  s.{next_allocation_us_ := u64 (now_us + 500000 + allocation_seed_ s mod 1000000)}.
Definition Respond (request : Transfer) (bytes : list Z) s : Node :=
  snd (send (mkTransfer (transfer_port request) (NodeId s) (source_node_id request) (transfer_id request) kServiceResponse
               (transfer_priority request) bytes) s).
Definition respond_with (request : Transfer) (bytes : option (list Z)) s : Node :=
  match bytes with Some bytes => Respond request bytes s | None => s end.
Definition HandleGetInfo (request : Transfer) s : Node :=
  let i := info_ s in
  respond_with request
    (GetInfo_serialize (mkGetInfo (1, 0) (hardware_major i, hardware_minor i) (software_major i, software_minor i)
       (vcs_revision_id i) (unique_id i) (take kNodeNameMaxLen (info_name i))) kBufferSize) s.
End Node.

(** ** The application

    Register providers, listeners and services are numbered objects; a callback
    that may use the node takes it and returns it with the application. *)
Class Application (T A : Type) := {
  Count : nat -> A -> nat;
  Name : nat -> nat -> A -> list Z;
  Read : nat -> nat -> A -> RegisterFlags * RegisterValue;
  Write : nat -> nat -> RegisterValue -> CyphalNode T * A -> RegisterWriteResult * (CyphalNode T * A);
  OnMessage : nat -> Transfer -> Z -> CyphalNode T * A -> CyphalNode T * A;
  OnCommand : Z -> list Z -> CyphalNode T * A -> CommandResult * (CyphalNode T * A);
  OnNodeIdAllocated : Z -> CyphalNode T * A -> CyphalNode T * A;
  OnRequest : nat -> Transfer -> CyphalNode T * A -> option (list Z) * (CyphalNode T * A) }.

Section Dispatch.
Context {T A : Type} `{!TransportOps T} {dsdl : NodeDsdl} `{!Application T A}.
Implicit Types (w : CyphalNode T * A) (request : Transfer).
Definition on_node (f : CyphalNode T -> CyphalNode T) w : CyphalNode T * A := (f w.1, w.2).

(** The index of the first register of a provider with a name. *)
Fixpoint find_name (name : list Z) (provider : nat) (a : A) (i n : nat) : option nat :=
  match n with
  | O => None
  | S n => if bool_decide (Name provider i a = name) then Some i else find_name name provider a (S i) n
  end.
Fixpoint find_register (name : list Z) (providers : list nat) (a : A) : option (nat * nat) :=
  match providers with
  | [] => None
  | p :: providers =>
      match find_name name p a 0 (Count p a) with
      | Some i => Some (p, i)
      | None => find_register name providers a
      end
  end.
Definition FindRegister (name : list Z) w : option (nat * nat) := find_register name (providers_ w.1) w.2.
(** The register an index of uavcan.register.List stands for. *)
Fixpoint nth_register (index : nat) (providers : list nat) (a : A) : option (nat * nat) :=
  match providers with
  | [] => None
  | p :: providers => if (index <? Count p a)%nat then Some (p, index) else nth_register (index - Count p a) providers a
  end.
Definition listed_name (index : nat) w : list Z :=
  match nth_register index (providers_ w.1) w.2 with Some (p, i) => take kNameCapacity (Name p i w.2) | None => [] end.
Definition HandleRegisterList request w : CyphalNode T * A :=
  match List_deserialize (payload request) with
  | None => w
  | Some index => on_node (respond_with request (List_serialize (listed_name (Z.to_nat index) w) kBufferSize)) w
  end.
Definition access_register (name : list Z) (value : RegisterValue) w : AccessResponse * (CyphalNode T * A) :=
  match FindRegister name w with
  | None => (mkAccess SetEmpty false false, w)
  | Some (p, i) =>
      let kFlags := fst (Read p i w.2) in
      let w := if negb (IsEmpty value) && is_mutable kFlags then snd (Write p i value w) else w in
      (mkAccess (snd (Read p i w.2)) (is_mutable kFlags) (is_persistent kFlags), w)
  end.
Definition HandleRegisterAccess request w : CyphalNode T * A :=
  match Access_deserialize (payload request) with
  | None => w
  | Some (name, value) =>
      let '(response, w) := access_register name value w in on_node (respond_with request (Access_serialize response kBufferSize)) w
  end.
Definition HandleExecuteCommand request w : CyphalNode T * A :=
  match ExecuteCommand_deserialize (payload request) with
  | None => w
  | Some (command, parameter) =>
      let '(kResult, w) := if command_handler_ w.1 then OnCommand command parameter w else (mkResult kStatusBadCommand [], w) in
      let response := mkResult (status kResult) (take kCommandOutputMaxLength (output kResult)) in
      on_node (respond_with request (ExecuteCommand_serialize response kBufferSize)) w
  end.
Definition HandleApplicationRequest request w : CyphalNode T * A :=
  match find (fun server => fst server =? transfer_port request) (servers_ w.1) with
  | None => w
  | Some (_, handler) =>
      let '(answer, w) := OnRequest handler request w in
      match answer with
      | Some bytes => if Z.of_nat (length bytes) <=? kBufferSize then on_node (Respond request bytes) w else w
      | None => w
      end
  end.
Definition HandleAllocation (message : Transfer) w : CyphalNode T * A :=
  let s := w.1 in
  if negb (NodeId s =? kNodeIdUnset) || (source_node_id message =? kNodeIdUnset) then w
  else
    match Allocation_deserialize (payload message) with
    | None => w
    | Some response =>
        match allocated_node_id response with
        | [node] =>
            if negb (unique_id_hash response =? UniqueIdHash s) || (kNodeIdMax <? node) then w
            else
              let kNode := u8 node in
              let w := on_node (fun s => (on_transport (SetLocalNodeId kNode) s).{next_heartbeat_us_ := 0}) w in
              if node_id_listener_ w.1 then OnNodeIdAllocated kNode w else w
        | _ => w
        end
    end.
(** The loop over the listeners, from index [i]; a callback may add one. *)
Fixpoint notify (n i : nat) (transfer : Transfer) (now_us : Z) w : CyphalNode T * A :=
  match n with
  | O => w
  | S n =>
      match listeners_ w.1 !! i with
      | Some (subject_id, listener) =>
          notify n (S i) transfer now_us (if subject_id =? transfer_port transfer then OnMessage listener transfer now_us w else w)
      | None => w
      end
  end.
Definition Dispatch (transfer : Transfer) (now_us : Z) w : CyphalNode T * A :=
  match kind transfer with
  | kServiceRequest =>
      if NodeId w.1 =? kNodeIdUnset then w
      else if transfer_port transfer =? kGetInfo then on_node (HandleGetInfo transfer) w
      else if transfer_port transfer =? kRegisterList then HandleRegisterList transfer w
      else if transfer_port transfer =? kRegisterAccess then HandleRegisterAccess transfer w
      else if transfer_port transfer =? kExecuteCommand then HandleExecuteCommand transfer w
      else HandleApplicationRequest transfer w
  | kMessage =>
      if transfer_port transfer =? kNodeIdAllocation then HandleAllocation transfer w
      else notify kMaxListeners 0 transfer now_us w
  | kServiceResponse => w
  end.
Fixpoint receive_loop (n : nat) (now_us : Z) w : CyphalNode T * A :=
  match n with
  | O => w
  | S n =>
      let '(result, transfer, t) := Receive kBufferSize (transport_ w.1) in
      let w := on_node (on_transport (fun _ => t)) w in
      match result with kReceived => receive_loop n now_us (Dispatch transfer now_us w) | _ => w end
  end.
(** The messages of the node by the clock. *)
Definition heartbeat_due (now_us : Z) (s : CyphalNode T) : CyphalNode T :=
  if next_heartbeat_us_ s <=? now_us then
    let s := PublishHeartbeat now_us s in
    let s := s.{next_heartbeat_us_ := u64 (next_heartbeat_us_ s + kHeartbeatPeriodUs)} in
    if next_heartbeat_us_ s <=? now_us then s.{next_heartbeat_us_ := u64 (now_us + kHeartbeatPeriodUs)} else s
  else s.
Definition port_list_due (now_us : Z) (s : CyphalNode T) : CyphalNode T :=
  if next_port_list_us_ s <=? now_us then (PublishPortList s).{next_port_list_us_ := u64 (now_us + kPortListPeriodUs)} else s.
Definition periodic (now_us : Z) (s : CyphalNode T) : CyphalNode T :=
  if NodeId s =? kNodeIdUnset then if next_allocation_us_ s <=? now_us then RequestNodeId now_us s else s
  else port_list_due now_us (heartbeat_due now_us s).
Definition Spin (now_us : Z) w : CyphalNode T * A :=
  let w := on_node (on_transport (Process now_us)) w in
  if negb (started_ w.1) then w
  else
    let w := receive_loop kMaxTransfersPerSpin now_us w in
    on_node (on_transport (Process now_us)) (on_node (periodic now_us) w).
End Dispatch.

End CyphalNode.
