(* ===== verification/CyphalTraffic.v ===== *)
(** * What the Cyphal node sends

    Whose transfers they are, how they are numbered, and when the node-ID
    changes, over every use of a node on any transport that keeps the laws of
    [TransportLaws]. *)
From Stdlib Require Import ZArith Lia Bool.
From stdpp Require Import base decidable list option relations.
From S2P Require Import Prelude SettingsData Registers Commissioning DriveMessages CyphalNode.
Import DriveMessages(Health, Mode, Severity, kNodeIdUnset, Publisher, port_id, next_transfer_id).
Import SettingsData(kUnsetPortId).
Import Registers(RegisterValue).
Import CyphalNode.

#[local] Open Scope Z_scope.
#[local] Open Scope unimoc_scope.
#[local] Existing Instance DriveMessages.eta_Publisher.

Module CyphalTraffic.

(** The four publishers of the node itself. *)
Inductive own := own_heartbeat | own_port_list | own_allocation | own_diagnostic.
#[export] Instance own_eq_dec : EqDecision own.
Proof. solve_decision. Defined.
Definition subject_of (o : own) : Z :=
  match o with
  | own_heartbeat => kHeartbeat | own_port_list => kPortList | own_allocation => kNodeIdAllocation | own_diagnostic => kDiagnosticRecord
  end.
Definition publisher_of {T} (o : own) (s : CyphalNode T) : Publisher :=
  match o with
  | own_heartbeat => heartbeat_ s | own_port_list => port_list_ s | own_allocation => allocation_ s | own_diagnostic => diagnostic_ s
  end.
Lemma subject_of_inj o o' : subject_of o = subject_of o' -> o = o'.
Proof. by destruct o, o'. Qed.
Definition messages_on (port : Z) (l : list Transfer) : list Transfer :=
  List.filter (fun x => match kind x with kMessage => transfer_port x =? port | _ => false end) l.
Lemma messages_on_app port l k : messages_on port (l ++ k) = messages_on port l ++ messages_on port k.
Proof. apply List.filter_app. Qed.
(** The transfer-IDs of a subject count the messages modulo 32. *)
Definition numbered (l : list Transfer) : Prop := forall i x, l !! i = Some x -> transfer_id x = Z.of_nat i mod 32.
Lemma numbered_snoc l x : numbered l -> transfer_id x = Z.of_nat (length l) mod 32 -> numbered (l ++ [x]).
Proof.
  intros N E i y [H|[Hi H]]%lookup_app_Some; [by apply N|]. apply list_lookup_singleton_Some in H as [Hi' ->].
  replace i with (length l) by lia. done.
Qed.
Definition is_response (x : Transfer) : bool := match kind x with kServiceResponse => true | _ => false end.
(** A transfer of a node with the ID [node]. *)
Definition well_sent (node : Z) (x : Transfer) : Prop :=
  (source_node_id x = node \/ source_node_id x = kNodeIdUnset /\ transfer_port x = kNodeIdAllocation /\ kind x = kMessage) /\
  (kind x = kMessage /\ destination_node_id x = kNodeIdUnset \/ kind x = kServiceResponse /\ source_node_id x <> kNodeIdUnset) /\
  (source_node_id x = kNodeIdUnset -> transfer_port x = kNodeIdAllocation).
Lemma well_sent_allocated node x : well_sent kNodeIdUnset x -> well_sent node x.
Proof. intros ([H|H] & K & L); (split; [right|done]); intuition congruence. Qed.

Section Traffic.
Context {T : Type} `{!TransportOps T} `{!TransportLaws T} {dsdl : NodeDsdl}.
Implicit Types (s t : CyphalNode T).

(** ** What an application does with the node: not Start() and Spin(), no
    transfers past Publish(), and no messages on the node's own subjects. *)
Inductive use s : CyphalNode T -> Prop :=
| use_AddRegisterProvider p : use s (AddRegisterProvider p s).2
| use_Subscribe subject extent l : use s (AddSubscription subject extent l s).2
| use_AddServer service extent h : use s (AddServer service extent h s).2
| use_AddPublisher p : use s (AddPublisher p s).2
| use_SetInfo i : use s (SetInfo i s)
| use_SetHealth h : use s (SetHealth h s)
| use_SetMode m : use s (SetMode m s)
| use_SetVendorStatus v : use s (SetVendorStatus v s)
| use_SetCommandHandler : use s (SetCommandHandler s)
| use_SetNodeIdListener : use s (SetNodeIdListener s)
| use_Publish p bytes : (forall o, port_id p <> subject_of o) -> use s (Publish p bytes s).2
| use_Log severity text : use s (Log severity text s).2.
Definition uses : relation (CyphalNode T) := rtc use.

(** ** Invariant *)
Definition publishes (p : Publisher) (port : Z) s : Prop :=
  port_id p = port /\ numbered (messages_on port (sent_ s)) /\
  next_transfer_id p = Z.of_nat (length (messages_on port (sent_ s))) mod 32.
Definition node_inv s : Prop :=
  Forall (well_sent (NodeId s)) (sent_ s) /\ forall o, publishes (publisher_of o s) (subject_of o) s.
(** Calls that send nothing. *)
Definition silent s t : Prop := NodeId t = NodeId s /\ sent_ t = sent_ s /\ forall o, publisher_of o t = publisher_of o s.
Lemma silent_inv s t : silent s t -> node_inv s -> node_inv t.
Proof. intros (E1 & E2 & E3) [I P]. split; [by rewrite E1, E2|]. intros o. unfold publishes. rewrite E2, E3. apply P. Qed.
Lemma subscribe_silent k port extent s : silent s (subscribe k port extent s).2.
Proof.
  unfold subscribe. pose proof (LocalNodeId_Subscribe k port extent (transport_ s)). destruct (Subscribe _ _ _ _). split_and!; try done.
Qed.
Lemma next_id_advance (p : Publisher) n : next_transfer_id p = n mod 32 -> next_transfer_id (advance p) = (n + 1) mod 32.
Proof.
  intros E. cbn. rewrite E. unfold wrap. change 0x1F with (Z.ones 5). rewrite Z.land_ones by lia. change (2 ^ 5) with 32.
  rewrite (Z.mod_small _ (2 ^ 8)) by (pose proof (Z.mod_pos_bound n 32); lia). by rewrite Z.add_mod_idemp_l.
Qed.
Lemma send_id x s : NodeId (send x s).2 = NodeId s.
Proof. unfold send, NodeId. pose proof (LocalNodeId_Send x (transport_ s)). by destruct (Send x (transport_ s)). Qed.
Lemma send_sent x s : sent_ (send x s).2 = sent_ s ++ [x].
Proof. unfold send. by destruct (Send x (transport_ s)). Qed.
Lemma send_fields x s : (forall o, publisher_of o (send x s).2 = publisher_of o s) /\ started_ (send x s).2 = started_ s.
Proof. unfold send. destruct (Send x (transport_ s)). split; [by intros []|done]. Qed.
(** A transfer that is no message on a subject keeps that subject's numbers. *)
Lemma publishes_other p port s t x : sent_ t = sent_ s ++ [x] -> messages_on port [x] = [] -> publishes p port s -> publishes p port t.
Proof. intros E M (P1 & P2 & P3). unfold publishes. by rewrite E, messages_on_app, M, app_nil_r. Qed.
(** The next message of a publisher of the node. *)
Lemma publishes_next p port s t bytes : publishes p port s -> sent_ t = sent_ s ++ [message p bytes s] -> publishes (advance p) port t.
Proof.
  intros (P1 & P2 & P3) E. unfold publishes. assert (messages_on port [message p bytes s] = [message p bytes s]) as M.
  { cbn. by rewrite P1, Z.eqb_refl. }
  rewrite E, messages_on_app, M, length_app. split; [done|]. split; [by apply numbered_snoc|].
  rewrite Nat2Z.inj_add. by apply next_id_advance.
Qed.
Lemma not_on port p bytes s : port_id p <> port -> messages_on port [message p bytes s] = [].
Proof. intros H%Z.eqb_neq. cbn. by rewrite H. Qed.
Lemma well_sent_message p bytes s : NodeId s <> kNodeIdUnset \/ port_id p = kNodeIdAllocation -> well_sent (NodeId s) (message p bytes s).
Proof. intros H. unfold well_sent. cbn. destruct H; [split_and!; auto; congruence|]. split_and!; auto. Qed.

(** ** Every operation keeps it *)
Lemma sent_well x s u : Forall (well_sent (NodeId s)) (sent_ s) -> NodeId u = NodeId s -> sent_ u = sent_ s -> well_sent (NodeId s) x ->
  Forall (well_sent (NodeId (send x u).2)) (sent_ (send x u).2).
Proof. intros I U1 U2 X. rewrite send_id, send_sent, U1, U2. apply Forall_app. by rewrite Forall_singleton. Qed.
(** A transfer on none of the own subjects. *)
Lemma send_other_inv x s : node_inv s -> well_sent (NodeId s) x -> (forall o, messages_on (subject_of o) [x] = []) -> node_inv (send x s).2.
Proof.
  intros [I P] X M. split; [by apply (sent_well x s)|]. intros o. destruct (send_fields x s) as [-> _].
  apply (publishes_other _ _ s _ _ (send_sent x s)); done.
Qed.
(** The next message of one of the own publishers. *)
Lemma send_own_inv o bytes s u : node_inv s -> NodeId u = NodeId s -> sent_ u = sent_ s ->
  (forall o', publisher_of o' u = if decide (o = o') then advance (publisher_of o s) else publisher_of o' s) ->
  NodeId s <> kNodeIdUnset \/ o = own_allocation -> node_inv (send (message (publisher_of o s) bytes s) u).2.
Proof.
  intros [I P] U1 U2 Ho Hid. destruct (P o) as (Ep & _). split.
  - apply (sent_well _ s); try done. apply well_sent_message. rewrite Ep. destruct Hid as [?| ->]; auto.
  - intros o'. destruct (send_fields (message (publisher_of o s) bytes s) u) as [-> _]. rewrite Ho.
    pose proof (send_sent (message (publisher_of o s) bytes s) u) as S. rewrite U2 in S.
    destruct (decide (o = o')) as [<-|N]; [by apply (publishes_next _ _ s _ bytes)|].
    apply (publishes_other _ _ s _ _ S); [|done]. apply not_on. rewrite Ep. intros E. by apply N, subject_of_inj.
Qed.
Ltac own_message o := intros I N; apply (send_own_inv o); try done; [by intros []|by auto].
Lemma publish_heartbeat_inv bytes s : node_inv s -> NodeId s <> kNodeIdUnset -> node_inv (publish_heartbeat bytes s).
Proof. own_message own_heartbeat. Qed.
Lemma publish_port_list_inv bytes s : node_inv s -> NodeId s <> kNodeIdUnset -> node_inv (publish_port_list bytes s).
Proof. own_message own_port_list. Qed.
Lemma publish_diagnostic_inv bytes s : node_inv s -> NodeId s <> kNodeIdUnset -> node_inv (publish_diagnostic bytes s).2.
Proof. own_message own_diagnostic. Qed.
Lemma publish_allocation_inv bytes s : node_inv s -> node_inv (publish_allocation bytes s).
Proof. assert (True) as N by done. revert N. own_message own_allocation. Qed.

(** What a call may do to the node: the invariant, the ID and the start stay. *)
Definition moves s t : Prop := (node_inv s -> node_inv t) /\ NodeId t = NodeId s /\ started_ t = started_ s.
#[export] Instance moves_preorder : PreOrder moves.
Proof.
  split; [by intros s|]. intros s t u (A1 & A2 & A3) (B1 & B2 & B3). split_and!; [tauto|congruence|congruence].
Qed.
Lemma silent_moves s t : silent s t -> started_ t = started_ s -> moves s t.
Proof. intros S E. split_and!; [by apply silent_inv|by destruct S|done]. Qed.
Lemma subscribe_moves k port extent s : moves s (subscribe k port extent s).2.
Proof. apply silent_moves; [apply subscribe_silent|]. unfold subscribe. by destruct (Subscribe _ _ _ _). Qed.
Lemma send_moves x s u : NodeId u = NodeId s -> started_ u = started_ s -> (node_inv s -> node_inv (send x u).2) -> moves s (send x u).2.
Proof. intros E S I. destruct (send_fields x u) as [_ F]. split_and!; [done|by rewrite send_id|by rewrite F]. Qed.
Lemma Log_moves severity text s : moves s (Log severity text s).2.
Proof.
  unfold Log. destruct (Z.eqb_spec (NodeId s) kNodeIdUnset); [done|]. destruct (Record_serialize _ _); [|done].
  apply send_moves; try done. intros I. by apply publish_diagnostic_inv.
Qed.
Lemma Publish_moves p bytes s : (forall o, port_id p <> subject_of o) -> moves s (Publish p bytes s).2.
Proof.
  intros H. unfold Publish. destruct (_ || _) eqn:E; [done|]. apply orb_false_iff in E as [_ N%Z.eqb_neq].
  destruct (send (message p bytes s) s) as [b t] eqn:S. change t with (b, t).2. rewrite <- S. apply send_moves; try done.
  intros I. apply send_other_inv; [done|apply well_sent_message; by left|]. intros o. by apply not_on.
Qed.
Lemma use_moves s t : use s t -> moves s t.
Proof.
  destruct 1; try (by apply silent_moves); [| | | |by apply Publish_moves|apply Log_moves].
  - unfold AddRegisterProvider. case_if; [done|by apply silent_moves].
  - unfold AddSubscription. do 2 (case_if; [done|]). pose proof (subscribe_moves kMessage subject extent s) as M.
    destruct (subscribe _ _ _ _) as [[] t]; cbn in *; [|done]. etransitivity; [exact M|by apply silent_moves].
  - unfold AddServer. do 2 (case_if; [done|]). pose proof (subscribe_moves kServiceRequest service extent s) as M.
    destruct (subscribe _ _ _ _) as [[] t]; cbn in *; [|done]. etransitivity; [exact M|by apply silent_moves].
  - unfold AddPublisher. do 2 (case_if; [done|]). by apply silent_moves.
Qed.
Lemma uses_moves s t : uses s t -> moves s t.
Proof. induction 1 as [|s t u H _ IH]; [done|]. etransitivity; [by apply use_moves|done]. Qed.

Lemma Respond_moves request bytes s : NodeId s <> kNodeIdUnset -> moves s (Respond request bytes s).
Proof.
  intros N. apply send_moves; try done. intros I. apply send_other_inv; [done| |by intros []].
  unfold well_sent. cbn. split_and!; auto; congruence.
Qed.
Lemma respond_with_moves request bytes s : NodeId s <> kNodeIdUnset -> moves s (respond_with request bytes s).
Proof. intros N. destruct bytes; [by apply Respond_moves|done]. Qed.
Lemma transport_moves f s : LocalNodeId (f (transport_ s)) = NodeId s -> moves s (on_transport f s).
Proof. intros E. by apply silent_moves. Qed.
Lemma PublishHeartbeat_moves now s : NodeId s <> kNodeIdUnset -> moves s (PublishHeartbeat now s).
Proof.
  intros N. unfold PublishHeartbeat. destruct (Heartbeat_serialize _ _); [|done]. apply send_moves; try done. intros I. by apply publish_heartbeat_inv.
Qed.
Lemma PublishPortList_moves s : NodeId s <> kNodeIdUnset -> moves s (PublishPortList s).
Proof.
  intros N. unfold PublishPortList. case_if; [|done]. apply send_moves; try done. intros I. by apply publish_port_list_inv.
Qed.
Lemma RequestNodeId_moves now s : moves s (RequestNodeId now s).
Proof.
  unfold RequestNodeId. match goal with |- context [match ?e with Some b => publish_allocation b s | None => s end] =>
    assert (moves s (match e with Some b => publish_allocation b s | None => s end)) as M end.
  { destruct (Allocation_serialize _ _); [|done]. apply send_moves; try done. intros I. by apply publish_allocation_inv. }
  etransitivity; [exact M|]. generalize (match Allocation_serialize (mkAllocation (UniqueIdHash s) []) kBufferSize with
    Some b => publish_allocation b s | None => s end). intros u. by apply silent_moves.
Qed.
Lemma periodic_moves now s : moves s (periodic now s).
Proof.
  unfold periodic. destruct (Z.eqb_spec (NodeId s) kNodeIdUnset) as [|N]; [case_if; [apply RequestNodeId_moves|done]|].
  assert (moves s (heartbeat_due now s)) as H.
  { unfold heartbeat_due. case_if; [|done]. etransitivity; [by apply (PublishHeartbeat_moves now)|]. generalize (PublishHeartbeat now s). intros u. cbv zeta.
    by case_if; apply silent_moves. }
  etransitivity; [exact H|]. unfold port_list_due. case_if; [|done].
  etransitivity; [apply PublishPortList_moves; by rewrite (proj1 (proj2 H))|]. generalize (PublishPortList (heartbeat_due now s)).
  intros u. by apply silent_moves.
Qed.

(** ** Dispatch and spin *)
Section Application.
Context {A : Type} `{!Application T A}.
Implicit Types (w v : CyphalNode T * A).
(** The callbacks use the node, no more. *)
Class ApplicationLaws := {
  uses_Write p i x w : uses w.1 (snd (Write p i x w)).1;
  uses_OnMessage l x now w : uses w.1 (OnMessage l x now w).1;
  uses_OnCommand c x w : uses w.1 (snd (OnCommand c x w)).1;
  uses_OnNodeIdAllocated node w : uses w.1 (OnNodeIdAllocated node w).1;
  uses_OnRequest h x w : uses w.1 (snd (OnRequest h x w)).1 }.
Context `{!ApplicationLaws}.
(** An allocation of the own unique-ID. *)
Definition allocates (x : Transfer) (node : Z) s : Prop :=
  kind x = kMessage /\ transfer_port x = kNodeIdAllocation /\ source_node_id x <> kNodeIdUnset /\
  exists n r, Allocation_deserialize (payload x) = Some r /\ unique_id_hash r = UniqueIdHash s /\ allocated_node_id r = [n] /\ n <= kNodeIdMax /\
    node = u8 n.
(** A call that may assign the node-ID. *)
Definition goes s t : Prop := (node_inv s -> node_inv t) /\ (NodeId s <> kNodeIdUnset -> NodeId t = NodeId s) /\ started_ t = started_ s.
Instance goes_preorder : PreOrder goes.
Proof.
  split; [by intros s|]. intros s t u (A1 & A2 & A3) (B1 & B2 & B3). split_and!; [tauto| |congruence].
  intros N. rewrite B2, A2; [done|done|]. by rewrite A2.
Qed.
Lemma moves_goes s t : moves s t -> goes s t.
Proof. intros (M1 & M2 & M3). by split_and!. Qed.
Lemma on_node_moves (f : CyphalNode T -> CyphalNode T) v w : moves w.1 v.1 -> (forall s, NodeId s = NodeId v.1 -> moves s (f s)) -> moves w.1 (on_node f v).1.
Proof. intros M F. etransitivity; [exact M|]. by apply F. Qed.
Lemma HandleRegisterAccess_moves x w : NodeId w.1 <> kNodeIdUnset -> moves w.1 (HandleRegisterAccess x w).1.
Proof.
  intros N. unfold HandleRegisterAccess. destruct (Access_deserialize _) as [[name value]|]; [|done].
  assert (moves w.1 (access_register name value w).2.1) as M.
  { unfold access_register. destruct (FindRegister name w) as [[p i]|]; [|done]. cbn. case_if; [apply uses_moves, uses_Write|done]. }
  destruct (access_register name value w) as [r v]. cbn in *. etransitivity; [exact M|]. apply respond_with_moves. by rewrite (proj1 (proj2 M)).
Qed.
Lemma HandleExecuteCommand_moves x w : NodeId w.1 <> kNodeIdUnset -> moves w.1 (HandleExecuteCommand x w).1.
Proof.
  intros N. unfold HandleExecuteCommand. destruct (ExecuteCommand_deserialize _) as [[c p]|]; [|done].
  pose proof (uses_moves _ _ (uses_OnCommand c p w)) as M. case_if.
  - destruct (OnCommand c p w) as [r v]. cbn in *. etransitivity; [exact M|]. apply respond_with_moves. by rewrite (proj1 (proj2 M)).
  - by apply respond_with_moves.
Qed.
Lemma HandleApplicationRequest_moves x w : NodeId w.1 <> kNodeIdUnset -> moves w.1 (HandleApplicationRequest x w).1.
Proof.
  intros N. unfold HandleApplicationRequest. destruct (find _ _) as [[p h]|]; [|done].
  pose proof (uses_moves _ _ (uses_OnRequest h x w)) as M. destruct (OnRequest h x w) as [[bytes|] v]; cbn in *; [|done].
  case_if; [|done]. etransitivity; [exact M|]. apply Respond_moves. by rewrite (proj1 (proj2 M)).
Qed.
Lemma notify_moves n : forall i x now w, moves w.1 (notify n i x now w).1.
Proof.
  induction n as [|n IH]; intros i x now w; cbn; [done|]. destruct (listeners_ w.1 !! i) as [[p l]|]; [|done].
  etransitivity; [|apply IH]. case_if; [apply uses_moves, uses_OnMessage|done].
Qed.
Lemma node_id_set_inv node s : NodeId s = kNodeIdUnset -> node_inv s ->
  node_inv ((on_transport (SetLocalNodeId node) s).{next_heartbeat_us_ := 0}).
Proof.
  intros N [I P]. split; [|exact P]. rewrite N in I. apply (Forall_impl _ _ _ I). intros x. apply well_sent_allocated.
Qed.
Lemma HandleAllocation_goes x w : kind x = kMessage -> transfer_port x = kNodeIdAllocation ->
  goes w.1 (HandleAllocation x w).1 /\
  (NodeId w.1 = kNodeIdUnset -> NodeId (HandleAllocation x w).1 = kNodeIdUnset \/ allocates x (NodeId (HandleAllocation x w).1) w.1).
Proof.
  intros Kx Px. unfold HandleAllocation. destruct (Z.eqb_spec (NodeId w.1) kNodeIdUnset) as [N|N]; cbn [negb orb]; [|by split; [|left]].
  destruct (Z.eqb_spec (source_node_id x) kNodeIdUnset) as [|Nx]; [by split; [|left]|].
  destruct (Allocation_deserialize (payload x)) as [r|] eqn:D; [|by split; [|left]].
  destruct (allocated_node_id r) as [|node [|]] eqn:L; try (by split; [|left]).
  destruct (_ || _) eqn:C; [by split; [|left]|]. apply orb_false_iff in C as [C1%negb_false_iff%Z.eqb_eq C2%Z.ltb_ge].
  cbv zeta. set (v := on_node _ w).
  assert (goes w.1 v.1) as G by (split_and!; [intros I; by apply node_id_set_inv|done|done]).
  assert (NodeId v.1 = kNodeIdUnset \/ allocates x (NodeId v.1) w.1) as Ev.
  { unfold v, NodeId. cbn. rewrite LocalNodeId_Set. case_if; [right|by left]. unfold allocates. split_and!; try done. exists node, r. split_and!; done. }
  clearbody v. case_if; [|by split].
  pose proof (uses_moves _ _ (uses_OnNodeIdAllocated (u8 node) v)) as M. split; [etransitivity; [exact G|by apply moves_goes]|].
  intros _. by rewrite (proj1 (proj2 M)).
Qed.
Lemma Dispatch_goes x now w : goes w.1 (Dispatch x now w).1 /\
  (NodeId w.1 = kNodeIdUnset -> NodeId (Dispatch x now w).1 = kNodeIdUnset \/ allocates x (NodeId (Dispatch x now w).1) w.1).
Proof.
  assert (forall v, moves w.1 v.1 -> goes w.1 v.1 /\ (NodeId w.1 = kNodeIdUnset -> NodeId v.1 = kNodeIdUnset \/ allocates x (NodeId v.1) w.1)) as K.
  { intros v M. split; [by apply moves_goes|]. intros N. left. by rewrite (proj1 (proj2 M)). }
  unfold Dispatch. destruct (kind x) eqn:Kx.
  - destruct (Z.eqb_spec (transfer_port x) kNodeIdAllocation) as [E|]; [by apply HandleAllocation_goes|]. apply K, notify_moves.
  - destruct (Z.eqb_spec (NodeId w.1) kNodeIdUnset) as [|N]; [by apply K|]. apply K. repeat case_if.
    + by apply respond_with_moves.
    + unfold HandleRegisterList. destruct (List_deserialize _); [by apply respond_with_moves|done].
    + by apply HandleRegisterAccess_moves.
    + by apply HandleExecuteCommand_moves.
    + by apply HandleApplicationRequest_moves.
  - by apply K.
Qed.
Lemma receive_goes n now : forall w, goes w.1 (receive_loop n now w).1.
Proof.
  induction n as [|n IH]; intros w; cbn; [done|]. pose proof (LocalNodeId_Receive kBufferSize (transport_ w.1)) as R.
  destruct (Receive kBufferSize (transport_ w.1)) as [[result x] t]. cbn in R.
  assert (goes w.1 (on_node (on_transport (fun _ => t)) w).1) as G by (by apply moves_goes, transport_moves).
  destruct result; [done| |done]. etransitivity; [exact G|]. etransitivity; [|apply IH]. apply Dispatch_goes.
Qed.
Lemma Spin_goes now w : goes w.1 (Spin now w).1.
Proof.
  unfold Spin. cbv zeta. set (v := on_node _ w).
  assert (goes w.1 v.1) as G by (apply moves_goes, transport_moves, LocalNodeId_Process). clearbody v. case_if; [done|].
  etransitivity; [exact G|]. etransitivity; [apply (receive_goes kMaxTransfersPerSpin now v)|].
  generalize (receive_loop kMaxTransfersPerSpin now v). intros u. apply moves_goes. etransitivity; [apply (periodic_moves now)|].
  apply transport_moves, LocalNodeId_Process.
Qed.
Lemma not_started_Spin now w : started_ w.1 = false -> sent_ (Spin now w).1 = sent_ w.1 /\ NodeId (Spin now w).1 = NodeId w.1.
Proof. intros E. unfold Spin. cbv zeta. cbn. rewrite E. cbn. split; [done|]. unfold NodeId. cbn. apply LocalNodeId_Process. Qed.
Lemma start_subscriptions_moves s : moves s (start_subscriptions s).2.
Proof.
  assert (forall k port extent (r : bool * CyphalNode T), moves s r.2 ->
    moves s (let '(subscribed, s) := r in let '(a, s) := subscribe k port extent s in (a && subscribed, s)).2) as K.
  { intros k port extent [b u] M. cbn in M. pose proof (subscribe_moves k port extent u) as S. destruct (subscribe k port extent u). by etransitivity. }
  unfold start_subscriptions. cbv zeta.
  match goal with |- context [if _ then _ else ?r] => assert (moves s r.2) as M by (do 3 apply K; apply subscribe_moves); revert M; generalize r end.
  intros r M. case_if; [by apply K|done].
Qed.
Lemma Start_inv node now s : NodeId s = kNodeIdUnset -> node_inv s -> node_inv (Start node now s).2 /\ started_ (Start node now s).2 = true.
Proof.
  intros N I. unfold Start. cbv zeta. set (u := on_transport _ _).
  assert (node_inv u) as Iu by (destruct (node_id_set_inv (if node <=? kNodeIdMax then node else kNodeIdUnset) s N I) as [J P]; by split).
  clearbody u. pose proof (start_subscriptions_moves u) as (M & _). destruct (start_subscriptions u) as [b v]. cbn in M.
  split; [|done]. destruct (M Iu) as [J P]. by split.
Qed.

(** ** Everything that happens to a node *)
Inductive reachable : CyphalNode T * A -> Prop :=
| reach_init (t : T) a : LocalNodeId t = kNodeIdUnset -> reachable (Node_init t, a)
| reach_use w s a : reachable w -> uses w.1 s -> reachable (s, a)
| reach_start w node now : reachable w -> started_ w.1 = false -> reachable ((Start node now w.1).2, w.2)
| reach_spin w now : reachable w -> reachable (Spin now w).
Lemma reachable_inv w : reachable w -> node_inv w.1 /\ (started_ w.1 = false -> NodeId w.1 = kNodeIdUnset).
Proof.
  induction 1 as [t a E|w s a _ [I N] U|w node now _ [I N] S|w now _ [I N]].
  - split; [|done]. split; [done|]. intros o. split_and!; [by destruct o|done|by destruct o].
  - apply uses_moves in U as (M1 & M2 & M3). cbn. rewrite M2, M3. auto.
  - destruct (Start_inv node now w.1 (N S) I) as [J E]. split; [done|]. intros F. cbn in F. congruence.
  - destruct (Spin_goes now w) as (G1 & G2 & G3). split; [auto|]. rewrite G3. intros F. destruct (not_started_Spin now w F) as [_ ->]. auto.
Qed.

(** C27. What a node sends is its own, and numbered: in every reachable state
    of a node, whatever the bus and the application did, each transfer handed
    to the transport carries the node-ID of the node, except for the anonymous
    requests of a node-ID; it is a message to everybody or a response, never a
    request; the k-th message on each of the node's own subjects carries the
    transfer-ID k modulo 32.  An assigned node-ID stays; an anonymous node gets
    one only by an allocation message, from a node with an ID, that carries the
    hash of its own unique-ID and a single valid ID, which it then takes. *)
Theorem node_traffic w : reachable w ->
  (forall x, x ∈ sent_ w.1 ->
     (source_node_id x = NodeId w.1 /\ NodeId w.1 <> kNodeIdUnset \/
      source_node_id x = kNodeIdUnset /\ transfer_port x = kNodeIdAllocation /\ kind x = kMessage) /\
     kind x <> kServiceRequest /\ (kind x = kMessage -> destination_node_id x = kNodeIdUnset)) /\
  (forall o i x, messages_on (subject_of o) (sent_ w.1) !! i = Some x -> transfer_id x = Z.of_nat i mod 32) /\
  (forall now, NodeId w.1 <> kNodeIdUnset -> NodeId (Spin now w).1 = NodeId w.1) /\
  (forall x now, NodeId w.1 = kNodeIdUnset -> NodeId (Dispatch x now w).1 <> kNodeIdUnset -> allocates x (NodeId (Dispatch x now w).1) w.1).
Proof.
  intros R. apply reachable_inv in R as [[I P] _]. split_and!.
  - intros x Hx. rewrite Forall_forall in I. destruct (I x Hx) as (S & K & U). split_and!; [|intuition congruence|intuition congruence].
    destruct (decide (source_node_id x = kNodeIdUnset)) as [E|E]; [right; intuition congruence|left]. intuition congruence.
  - intros o i x Hi. destruct (P o) as (_ & N & _). by apply N.
  - intros now. apply Spin_goes.
  - intros x now N U. destruct (Dispatch_goes x now w) as [_ [?|?]]; done.
Qed.
End Application.
End Traffic.

End CyphalTraffic.
