(* ===== verification/CyphalAnswers.v ===== *)
(** * The answers of the node to requests

    A request on a service of the node is answered at most once, to the node
    that asked, and what the application does meanwhile are messages. *)
From Stdlib Require Import ZArith Lia Bool.
From stdpp Require Import base decidable list option relations.
From S2P Require Import Prelude Registers DriveMessages CyphalNode CyphalTraffic.
Import DriveMessages(kNodeIdUnset, port_id).
Import CyphalNode CyphalTraffic.

#[local] Open Scope Z_scope.
#[local] Open Scope unimoc_scope.

Module CyphalAnswers.

(** A serialisation never exceeds the buffer it got. *)
Class NodeDsdlLaws {dsdl : NodeDsdl} := {
  GetInfo_fits r cap l : GetInfo_serialize r cap = Some l -> Z.of_nat (length l) <= cap;
  List_fits r cap l : List_serialize r cap = Some l -> Z.of_nat (length l) <= cap;
  Access_fits r cap l : Access_serialize r cap = Some l -> Z.of_nat (length l) <= cap;
  ExecuteCommand_fits r cap l : ExecuteCommand_serialize r cap = Some l -> Z.of_nat (length l) <= cap }.

Section Answers.
Context {T A : Type} `{!TransportOps T} `{!TransportLaws T} {dsdl : NodeDsdl} `{!Application T A} `{!ApplicationLaws}.
Context `{!NodeDsdlLaws}.
Implicit Types (s t : CyphalNode T) (w : CyphalNode T * A).

(** The application sends messages. *)
Definition only_messages s t : Prop := exists out, sent_ t = sent_ s ++ out /\ Forall (fun x => kind x = kMessage) out.
#[export] Instance only_messages_preorder : PreOrder only_messages.
Proof.
  split; [by intros s; exists []; rewrite app_nil_r|]. intros s t u (a & A1 & A2) (b & B1 & B2).
  exists (a ++ b). rewrite B1, A1, app_assoc. split; [done|]. by apply Forall_app.
Qed.
Lemma only_messages_none s t : sent_ t = sent_ s -> only_messages s t.
Proof. intros E. exists []. by rewrite app_nil_r. Qed.
Lemma use_only_messages s t : use s t -> only_messages s t.
Proof.
  destruct 1; try (by apply only_messages_none).
  - apply only_messages_none. unfold AddRegisterProvider. by repeat case_if.
  - apply only_messages_none. unfold AddSubscription, subscribe. do 2 (case_if; [done|]). by destruct (Subscribe _ _ _ _) as [[] ?].
  - apply only_messages_none. unfold AddServer, subscribe. do 2 (case_if; [done|]). by destruct (Subscribe _ _ _ _) as [[] ?].
  - apply only_messages_none. unfold AddPublisher. by repeat case_if.
  - unfold Publish. case_if; [by apply only_messages_none|]. pose proof (send_sent (message p bytes s) s) as E.
    destruct (send _ s) as [b t]. eexists. split; [exact E|]. by apply Forall_singleton.
  - unfold Log. case_if; [by apply only_messages_none|]. destruct (Record_serialize _ _) as [bytes|]; [|by apply only_messages_none].
    pose proof (send_sent (message (diagnostic_ s) bytes s) (s.{diagnostic_ := advance (diagnostic_ s)})) as E.
    eexists. split; [exact E|]. by apply Forall_singleton.
Qed.
Lemma uses_only_messages s t : uses s t -> only_messages s t.
Proof. induction 1 as [|s t u Hu _ IH]; [done|]. etransitivity; [by apply use_only_messages|done]. Qed.

(** The response of a request: everything but the payload is the request's. *)
Definition response (node : Z) (request : Transfer) (bytes : list Z) : Transfer :=
  mkTransfer (transfer_port request) node (source_node_id request) (transfer_id request) kServiceResponse (transfer_priority request) bytes.
(** Messages of the application, then at most one response. *)
Definition answers (request : Transfer) s t : Prop :=
  exists out answer, sent_ t = sent_ s ++ out ++ answer /\ Forall (fun x => kind x = kMessage) out /\
    (answer = [] \/ exists bytes, answer = [response (NodeId s) request bytes] /\ Z.of_nat (length bytes) <= kBufferSize).
Lemma answers_none request s t : only_messages s t -> answers request s t.
Proof. intros (out & E & F). exists out, []. rewrite app_nil_r. auto. Qed.
Lemma answers_Respond request bytes s t : only_messages s t -> NodeId t = NodeId s -> Z.of_nat (length bytes) <= kBufferSize ->
  answers request s (Respond request bytes t).
Proof.
  intros (out & E & F) N L. exists out, [response (NodeId s) request bytes]. split; [|split; [done|right; by exists bytes]].
  unfold Respond. rewrite send_sent, E, N, app_assoc. done.
Qed.
Lemma answers_respond_with request bytes s t : only_messages s t -> NodeId t = NodeId s ->
  (forall l, bytes = Some l -> Z.of_nat (length l) <= kBufferSize) -> answers request s (respond_with request bytes t).
Proof. intros O N L. destruct bytes; [apply answers_Respond; auto|by apply answers_none]. Qed.

(** The handlers. *)
Lemma HandleGetInfo_answers x s : answers x s (HandleGetInfo x s).
Proof. apply answers_respond_with; [done|done|]. intros l. apply GetInfo_fits. Qed.
Lemma HandleRegisterList_answers x w : answers x w.1 (HandleRegisterList x w).1.
Proof.
  unfold HandleRegisterList. destruct (List_deserialize _); [|by apply answers_none]. apply answers_respond_with; [done|done|]. intros l. apply List_fits.
Qed.
Lemma HandleRegisterAccess_answers x w : answers x w.1 (HandleRegisterAccess x w).1.
Proof.
  unfold HandleRegisterAccess. destruct (Access_deserialize _) as [[name value]|]; [|by apply answers_none].
  assert (uses w.1 (access_register name value w).2.1) as U.
  { unfold access_register. destruct (FindRegister name w) as [[p i]|]; [|done]. cbn. case_if; [apply uses_Write|done]. }
  pose proof (uses_moves _ _ U) as (_ & M & _). apply uses_only_messages in U. destruct (access_register name value w) as [r v]. cbn in *.
  apply answers_respond_with; [done|done|]. intros l. apply Access_fits.
Qed.
Lemma HandleExecuteCommand_answers x w : answers x w.1 (HandleExecuteCommand x w).1.
Proof.
  unfold HandleExecuteCommand. destruct (ExecuteCommand_deserialize _) as [[c p]|]; [|by apply answers_none].
  pose proof (uses_OnCommand c p w) as U. pose proof (uses_moves _ _ U) as (_ & M & _). apply uses_only_messages in U. case_if.
  - destruct (OnCommand c p w) as [r v]. cbn in *. apply answers_respond_with; [done|done|]. intros l. apply ExecuteCommand_fits.
  - apply answers_respond_with; [done|done|]. intros l. apply ExecuteCommand_fits.
Qed.
Lemma HandleApplicationRequest_answers x w : answers x w.1 (HandleApplicationRequest x w).1.
Proof.
  unfold HandleApplicationRequest. destruct (find _ _) as [[p h]|]; [|by apply answers_none].
  pose proof (uses_OnRequest h x w) as U. pose proof (uses_moves _ _ U) as (_ & M & _). apply uses_only_messages in U.
  destruct (OnRequest h x w) as [[bytes|] v]; cbn in *; [|by apply answers_none].
  destruct (Z.leb_spec (Z.of_nat (length bytes)) kBufferSize); [by apply answers_Respond|by apply answers_none].
Qed.
Lemma respond_with_one x bytes s : exists answer, sent_ (respond_with x bytes s) = sent_ s ++ answer /\ (length answer <= 1)%nat.
Proof.
  destruct bytes as [bytes|]; cbn; [|exists []; rewrite app_nil_r; auto]. eexists [_]. split; [apply send_sent|done].
Qed.

Lemma Dispatch_request x now w : kind x = kServiceRequest -> NodeId w.1 <> kNodeIdUnset ->
  answers x w.1 (Dispatch x now w).1 /\ moves w.1 (Dispatch x now w).1.
Proof.
  intros K N. unfold Dispatch. rewrite K, (proj2 (Z.eqb_neq _ _) N). repeat case_if.
  - split; [apply HandleGetInfo_answers|by apply respond_with_moves].
  - split; [apply HandleRegisterList_answers|]. unfold HandleRegisterList. destruct (List_deserialize _); [by apply respond_with_moves|done].
  - split; [apply HandleRegisterAccess_answers|by apply HandleRegisterAccess_moves].
  - split; [apply HandleExecuteCommand_answers|by apply HandleExecuteCommand_moves].
  - split; [apply HandleApplicationRequest_answers|by apply HandleApplicationRequest_moves].
Qed.

(** C28. Every request is answered at most once, to its sender: while the node
    has no ID a request changes nothing; otherwise the transfers a request
    causes are messages of the application followed by at most one response,
    which carries port, transfer-ID and priority of the request, goes to the
    node it came from, and fits the node's buffer.  GetInfo and register.List
    are answered from the node's own data without any message, an unknown
    service not at all; only the standard services, the added services and the
    application's callbacks touch anything. *)
Theorem request_answered x now w : kind x = kServiceRequest ->
  (NodeId w.1 = kNodeIdUnset -> Dispatch x now w = w) /\
  (NodeId w.1 <> kNodeIdUnset ->
     answers x w.1 (Dispatch x now w).1 /\ NodeId (Dispatch x now w).1 = NodeId w.1 /\
     (transfer_port x = kGetInfo \/ transfer_port x = kRegisterList ->
        (Dispatch x now w).2 = w.2 /\ exists answer, sent_ (Dispatch x now w).1 = sent_ w.1 ++ answer /\ (length answer <= 1)%nat) /\
     (transfer_port x ∉ kServedServices -> transfer_port x ∉ map fst (servers_ w.1) -> Dispatch x now w = w)).
Proof.
  intros K. split; [intros N; unfold Dispatch; by rewrite K, N, Z.eqb_refl|]. intros N.
  destruct (Dispatch_request x now w K N) as [An (_ & M & _)]. split; [done|]. split; [done|]. clear An M.
  unfold Dispatch. rewrite K, (proj2 (Z.eqb_neq _ _) N). split.
  - intros [E|E]; rewrite E.
    + rewrite Z.eqb_refl. split; [done|apply respond_with_one].
    + change (kRegisterList =? kGetInfo) with false. rewrite Z.eqb_refl. unfold HandleRegisterList.
      destruct (List_deserialize _); [split; [done|apply respond_with_one]|]. split; [done|]. exists []. rewrite app_nil_r. auto.
  - intros Ns Na. unfold kServedServices in Ns. rewrite !not_elem_of_cons in Ns. destruct Ns as (N1 & N2 & N3 & N4 & _).
    rewrite !(proj2 (Z.eqb_neq _ _)) by done. unfold HandleApplicationRequest.
    destruct (find _ _) as [[p h]|] eqn:F; [|done]. apply find_some in F as [F1 F2%Z.eqb_eq]. cbn in F2. exfalso. apply Na.
    apply list_elem_of_In, in_map_iff. by exists (p, h).
Qed.
End Answers.
End CyphalAnswers.
