(* ===== verification/CyphalRegisters.v ===== *)
(** * The registers of the node, listed and accessed

    uavcan.register.List counts through the providers ([nth_register]),
    uavcan.register.Access looks a name up ([FindRegister]): a client that
    lists the registers can access every one. *)
From Stdlib Require Import ZArith Lia Bool.
From stdpp Require Import base decidable list option.
From S2P Require Import Prelude Registers DriveMessages CyphalNode.
Import Registers(RegisterValue, SetEmpty, IsEmpty).
Import CyphalNode.

#[local] Open Scope Z_scope.
#[local] Open Scope unimoc_scope.

Module CyphalRegisters.

Section Directory.
Context {T A : Type} `{!TransportOps T} {dsdl : NodeDsdl} `{!Application T A}.
Implicit Types (w : CyphalNode T * A) (a : A).

(** The names in the order of the list. *)
Definition provider_names (a : A) (p : nat) : list (list Z) := map (fun i => Name p i a) (seq 0 (Count p a)).
Definition all_names (providers : list nat) (a : A) : list (list Z) := concat (map (provider_names a) providers).
Lemma provider_names_lookup a p i : (i < Count p a)%nat -> provider_names a p !! i = Some (Name p i a).
Proof. intros H. unfold provider_names. rewrite list_lookup_fmap, lookup_seq_lt by done. done. Qed.
Lemma length_provider_names a p : length (provider_names a p) = Count p a.
Proof. unfold provider_names. by rewrite length_map, length_seq. Qed.
Lemma nth_register_spec providers a : forall index,
  match nth_register index providers a with
  | Some (p, i) => p ∈ providers /\ (i < Count p a)%nat /\ all_names providers a !! index = Some (Name p i a)
  | None => all_names providers a !! index = None
  end.
Proof.
  induction providers as [|p providers IH]; intros index; [done|]. cbn [nth_register].
  change (all_names (p :: providers) a) with (provider_names a p ++ all_names providers a).
  destruct (Nat.ltb_spec index (Count p a)) as [L|L].
  - split_and!; [by left|done|]. rewrite lookup_app_l by (by rewrite length_provider_names).
    by apply provider_names_lookup.
  - specialize (IH (index - Count p a)%nat).
    rewrite lookup_app_r, length_provider_names by (by rewrite length_provider_names).
    destruct (nth_register _ _ _) as [[q i]|]; [|done]. destruct IH as (I1 & I2 & I3). split_and!; [by right|done|done].
Qed.
Lemma find_name_spec name p a n : forall i,
  match find_name name p a i n with
  | Some j => (i <= j < i + n)%nat /\ Name p j a = name /\ forall k, (i <= k < j)%nat -> Name p k a <> name
  | None => forall k, (i <= k < i + n)%nat -> Name p k a <> name
  end.
Proof.
  induction n as [|n IH]; intros i; cbn; [lia|]. case_bool_decide as E; [split_and!; [lia|lia|done|lia]|].
  specialize (IH (S i)). destruct (find_name _ _ _ _ _) as [j|].
  - destruct IH as (I1 & I2 & I3). split_and!; [lia|lia|done|]. intros k Hk. destruct (decide (k = i)) as [->|]; [done|]. apply I3. lia.
  - intros k Hk. destruct (decide (k = i)) as [->|]; [done|]. apply IH. lia.
Qed.
(** A lookup finds the first register of the name in the order of the list. *)
Lemma find_register_spec name providers a :
  match find_register name providers a with
  | Some r => exists index, nth_register index providers a = Some r /\ all_names providers a !! index = Some name
  | None => name ∉ all_names providers a
  end.
Proof.
  induction providers as [|p providers IH]; [apply not_elem_of_nil|]. cbn [find_register].
  change (all_names (p :: providers) a) with (provider_names a p ++ all_names providers a). pose proof (find_name_spec name p a (Count p a) 0) as F. destruct (find_name _ _ _ _ _) as [j|].
  - destruct F as (F1 & F2 & _). exists j. cbn [nth_register]. rewrite (proj2 (Nat.ltb_lt _ _)) by lia. split; [done|].
    rewrite lookup_app_l, provider_names_lookup by (rewrite ?length_provider_names; lia). by rewrite F2.
  - destruct (find_register _ _ _) as [r|].
    + destruct IH as (index & I1 & I2). exists (Count p a + index)%nat. cbn [nth_register]. rewrite (proj2 (Nat.ltb_ge _ _)) by lia.
      rewrite lookup_app_r, length_provider_names by (rewrite ?length_provider_names; lia).
      replace (Count p a + index - Count p a)%nat with index by lia. done.
    + intros [H|H]%elem_of_app; [|done]. apply list_elem_of_lookup in H as [i H].
      assert (i < Count p a)%nat as L by (rewrite <- length_provider_names; by eapply lookup_lt_Some).
      rewrite provider_names_lookup in H by done. injection H as H. by apply (F i); [lia|].
Qed.

(** C29. Listing and accessing registers agree: when no two registers have the
    same name and the names fit the protocol, uavcan.register.List answers the
    names of all providers in order, each once, then empty names; each listed
    name is found by uavcan.register.Access as the register that was listed,
    and no other name is.  An access answers the value read after the write,
    writes only a non-empty value to a mutable register, and answers an
    unknown name with an empty value and no change. *)
Theorem register_directory w : let names := all_names (providers_ w.1) w.2 in
  NoDup names -> Forall (fun name => (0 < length name <= kNameCapacity)%nat) names ->
  (forall index, listed_name index w = default [] (names !! index)) /\
  (forall index name, names !! index = Some name <->
     name <> [] /\ listed_name index w = name) /\
  (forall index name v, names !! index = Some name ->
     exists p i, nth_register index (providers_ w.1) w.2 = Some (p, i) /\ FindRegister name w = Some (p, i) /\ Name p i w.2 = name /\
       let flags := fst (Read p i w.2) in
       let w' := if negb (IsEmpty v) && is_mutable flags then snd (Write p i v w) else w in
       access_register name v w = (mkAccess (snd (Read p i w'.2)) (is_mutable flags) (is_persistent flags), w')) /\
  (forall name v, name ∉ names -> access_register name v w = (mkAccess SetEmpty false false, w)).
Proof.
  intros names Nd Fits.
  assert (forall index, listed_name index w = default [] (names !! index)) as L.
  { intros index. unfold listed_name. pose proof (nth_register_spec (providers_ w.1) w.2 index) as S. fold names in S.
    destruct (nth_register _ _ _) as [[p i]|]; [|by rewrite S]. destruct S as (_ & _ & S). rewrite S. cbn. apply take_ge.
    eapply (Forall_lookup_1 _ _ _ _ Fits) in S. exact (proj2 S). }
  split; [done|]. split; [|split].
  - intros index name. rewrite L. split.
    + intros E. rewrite E. split; [|done]. eapply (Forall_lookup_1 _ _ _ _ Fits) in E. intros ->. destruct E as [E _]. inversion E.
    + intros [N E]. destruct (names !! index); cbn in E; congruence.
  - intros index name v E. pose proof (nth_register_spec (providers_ w.1) w.2 index) as S. fold names in S. rewrite E in S.
    destruct (nth_register index _ _) as [[p i]|] eqn:R; [|done]. destruct S as (_ & _ & [= S]). exists p, i.
    pose proof (find_register_spec name (providers_ w.1) w.2) as F. fold names in F.
    assert (FindRegister name w = Some (p, i)) as Fr.
    { unfold FindRegister. destruct (find_register _ _ _) as [r|].
      - destruct F as (j & F1 & F2). replace j with index in F1 by (by eapply NoDup_lookup). congruence.
      - exfalso. apply F. by eapply list_elem_of_lookup_2. }
    split_and!; try done. unfold access_register. by rewrite Fr.
  - intros name v N. pose proof (find_register_spec name (providers_ w.1) w.2) as F. fold names in F.
    unfold access_register, FindRegister. destruct (find_register _ _ _) as [r|]; [|done]. destruct F as (j & _ & F).
    exfalso. apply N. by eapply list_elem_of_lookup_2.
Qed.
End Directory.
End CyphalRegisters.
