(* ===== verification/CyphalPortList.v ===== *)
(** * The port list of the node

    uavcan.node.port.List.1.0 is the one message the node serialises by hand
    ([WriteSubjectList], [WriteServiceList]); a reference parser of its
    encoding reads back what the node subscribes, publishes and serves. *)
From Stdlib Require Import ZArith Lia Bool.
From stdpp Require Import base decidable list option.
From S2P Require Import Prelude SettingsData DriveMessages CyphalNode.
Import DriveMessages(Publisher).
Import CyphalNode.

#[local] Open Scope Z_scope.
#[local] Open Scope unimoc_scope.

Module CyphalPortList.

(** ** Reference: little-endian numbers and the parser *)
Definition le16 (z : Z) : list Z := [z mod 256; z / 256].
Definition le32 (z : Z) : list Z := [z mod 256; z / 256 mod 256; z / 65536 mod 256; z / 16777216].
Definition parse_le16 (l : list Z) : option (Z * list Z) :=
  match l with a :: b :: l => Some (a + 256 * b, l) | _ => None end.
Definition parse_le32 (l : list Z) : option (Z * list Z) :=
  match l with a :: b :: c :: d :: l => Some (a + 256 * b + 65536 * c + 16777216 * d, l) | _ => None end.
Fixpoint parse_ids (n : nat) (l : list Z) : option (list Z * list Z) :=
  match n with
  | O => Some ([], l)
  | S n => '(id, l) ← parse_le16 l; '(ids, l) ← parse_ids n l; Some (id :: ids, l)
  end.
(** A delimited SubjectIDList: its size, the tag of a sparse list, the IDs. *)
Definition parse_subjects (l : list Z) : option (list Z * list Z) :=
  '(size, l) ← parse_le32 l;
  match l with
  | tag :: count :: l => if (tag =? 1) && (size =? 2 + 2 * count) then parse_ids (Z.to_nat count) l else None
  | _ => None
  end.
(** A delimited ServiceIDList: a mask of 512 bits. *)
Definition parse_services (l : list Z) : option (list Z * list Z) :=
  '(size, l) ← parse_le32 l;
  if (size =? 64) && (64 <=? length l)%nat then Some (take 64 l, drop 64 l) else None.
Record PortList := mkPortList { publishers : list Z; subscribers : list Z; clients : list Z; servers : list Z }.
Definition parse_port_list (l : list Z) : option PortList :=
  '(publishers, l) ← parse_subjects l;
  '(subscribers, l) ← parse_subjects l;
  '(clients, l) ← parse_services l;
  '(servers, l) ← parse_services l;
  match l with [] => Some (mkPortList publishers subscribers clients servers) | _ => None end.
(** A service is in a mask. *)
Definition in_mask (mask : list Z) (service : Z) : bool := Z.testbit (default 0 (mask !! Z.to_nat (service / 8))) (service mod 8).

(** ** The writer appends *)
Definition appends (bytes : list Z) (f : Writer -> Writer) : Prop :=
  forall w, (size_ w + length bytes <= length (buffer_ w))%nat ->
    size_ (f w) = (size_ w + length bytes)%nat /\ length (buffer_ (f w)) = length (buffer_ w) /\
    take (size_ (f w)) (buffer_ (f w)) = take (size_ w) (buffer_ w) ++ bytes.
Lemma appends_nil : appends [] (fun w => w).
Proof. intros w _. cbn. rewrite Nat.add_0_r, app_nil_r. done. Qed.
Lemma appends_app a b f g : appends a f -> appends b g -> appends (a ++ b) (fun w => g (f w)).
Proof.
  intros F G w H. rewrite length_app in H. destruct (F w ltac:(lia)) as (F1 & F2 & F3). destruct (G (f w)) as (G1 & G2 & G3); [lia|].
  rewrite length_app. split_and!; [lia|lia|]. by rewrite G3, F3, app_assoc.
Qed.
Lemma appends_U8 value : appends [u8 value] (U8 value).
Proof.
  intros w H. cbn [length] in H. unfold U8. cbn [size_ buffer_ length]. rewrite (proj2 (Nat.ltb_lt _ _)) by lia. rewrite length_insert.
  split_and!; [lia|done|].
  rewrite (take_S_r _ _ (u8 value)) by (apply list_lookup_insert_eq; lia). by rewrite take_insert_ge.
Qed.
Lemma appends_U16 value : 0 <= value < 2 ^ 16 -> appends (le16 value) (U16 value).
Proof.
  intros H. replace (le16 value) with ([u8 (Z.land value 0xFF)] ++ [u8 (Z.shiftr value 8)]);
    [exact (appends_app _ _ _ _ (appends_U8 (Z.land value 0xFF)) (appends_U8 (Z.shiftr value 8)))|].
  change 0xFF with (Z.ones 8). rewrite Z.land_ones, Z.shiftr_div_pow2 by lia. unfold wrap, le16. change (2 ^ 8) with 256.
  rewrite Z.mod_mod by lia. cbn. do 2 f_equal. apply Z.mod_small. split; [apply Z.div_pos; lia|apply Z.div_lt_upper_bound; lia].
Qed.
Lemma le32_le16 value : 0 <= value < 2 ^ 32 -> le32 value = le16 (value mod 65536) ++ le16 (value / 65536).
Proof.
  intros _. unfold le32, le16. cbn [app].
  assert ((value mod 65536) mod 256 = value mod 256) as -> by (apply Z.mod_mod_divide; by exists 256).
  assert (value mod 65536 / 256 = value / 256 mod 256) as ->.
  { change 65536 with (256 * 256). rewrite Z.rem_mul_r by lia. rewrite Z.add_comm, Z.mul_comm, Z.div_add_l by lia.
    rewrite (Z.div_small (value mod 256)) by (apply Z.mod_pos_bound; lia). lia. }
  by rewrite Z.div_div by lia.
Qed.
Lemma appends_U32 value : 0 <= value < 2 ^ 32 -> appends (le32 value) (U32 value).
Proof.
  intros H. rewrite le32_le16 by done. pose proof (Z.mod_pos_bound value 65536 ltac:(lia)).
  assert (0 <= value / 65536 < 65536) as Q by (split; [apply Z.div_pos; lia|apply Z.div_lt_upper_bound; lia]).
  assert (U32 value = fun w => U16 (value / 65536) (U16 (value mod 65536) w)) as ->.
  { unfold U32. change 0xFFFF with (Z.ones 16). rewrite Z.land_ones, Z.shiftr_div_pow2 by lia. change (2 ^ 16) with 65536.
    rewrite !(wrap_id 16) by (unfold in_u; lia). done. }
  apply appends_app; apply appends_U16; lia.
Qed.
Lemma appends_foldl {B} (g : B -> list Z) (step : B -> Writer -> Writer) l : (forall x, x ∈ l -> appends (g x) (step x)) ->
  appends (concat (map g l)) (fun w => foldl (fun w x => step x w) w l).
Proof.
  induction l as [|x l IH]; intros H; cbn; [apply appends_nil|].
  apply (appends_app _ _ (step x) (fun w => foldl (fun w x => step x w) w l)); [apply H; left|]. apply IH. intros y Hy. apply H. by right.
Qed.

(** ** The two lists *)
Definition subject (z : Z) : Prop := 0 <= z < 2 ^ 13.
Definition service (z : Z) : Prop := 0 <= z < 512.
Definition subjects_bytes (l : list Z) : list Z :=
  (le32 (2 + 2 * Z.of_nat (length l)) ++ [1; Z.of_nat (length l)]) ++ concat (map le16 l).
Lemma appends_WriteSubjectList l : Forall subject l -> (length l <= 255)%nat -> appends (subjects_bytes l) (WriteSubjectList l).
Proof.
  intros S L. assert (u8 (Z.min (Z.of_nat (length l)) 255) = Z.of_nat (length l)) as K.
  { rewrite Z.min_l by lia. apply wrap_id. unfold in_u. lia. }
  unfold subjects_bytes, WriteSubjectList. rewrite K, Nat2Z.id, take_ge by lia.
  apply (appends_app _ _ (fun w => U8 (Z.of_nat (length l)) (U8 1 (U32 (2 + 2 * Z.of_nat (length l)) w)))
    (fun w => foldl (fun w x => U16 (Z.land x 0x1FFF) w) w l)).
  - apply (appends_app _ _ (U32 (2 + 2 * Z.of_nat (length l))) (fun w => U8 (Z.of_nat (length l)) (U8 1 w))); [apply appends_U32; lia|].
    rewrite <- (wrap_id 8 (Z.of_nat (length l))) at 1 by (unfold in_u; lia).
    exact (appends_app _ _ _ _ (appends_U8 1) (appends_U8 (Z.of_nat (length l)))).
  - apply (appends_foldl le16 (fun x => U16 (Z.land x 0x1FFF))). intros x Hx.
    assert (0 <= x < 2 ^ 13) as Sx by (by eapply (list.Forall_forall subject)).
    change 0x1FFF with (Z.ones 13). rewrite Z.land_ones, Z.mod_small by lia. apply appends_U16. lia.
Qed.
Lemma length_subjects_bytes l : length (subjects_bytes l) = (6 + 2 * length l)%nat.
Proof. unfold subjects_bytes. rewrite !length_app. cbn. f_equal. induction l; cbn; lia. Qed.
Definition mask (l : list Z) : list Z := map (fun byte => mask_byte l (Z.of_nat byte)) (seq 0 kMaskBytes).
Lemma mask_step l byte bits : in_u 8 bits -> Forall service l ->
  let r := foldl (fun bits kService => if kService / 8 =? byte then u8 (Z.lor bits (Z.shiftl 1 (kService mod 8))) else bits) bits l in
  in_u 8 r /\ forall i, 0 <= i < 8 -> Z.testbit r i = Z.testbit bits i || existsb (fun k => (k / 8 =? byte) && (k mod 8 =? i)) l.
Proof.
  cbv zeta. revert bits. induction l as [|k l IH]; intros bits B S; cbn [foldl existsb]; [split; [done|intros i _; by rewrite orb_false_r]|].
  apply Forall_cons_1 in S as [Sk S]. destruct (Z.eqb_spec (k / 8) byte) as [E|E]; cbn [andb orb]; [|by apply IH].
  pose proof (Z.mod_pos_bound k 8 ltac:(lia)).
  destruct (IH (u8 (Z.lor bits (Z.shiftl 1 (k mod 8)))) ltac:(apply wrap_in_u; lia) S) as [R1 R2]. split; [done|]. intros i Hi.
  rewrite R2 by done. unfold wrap. rewrite Z.mod_pow2_bits_low, Z.lor_spec, <- orb_assoc by lia. f_equal. f_equal.
  rewrite Z.shiftl_spec by lia. rewrite Z.eqb_sym. destruct (Z.eqb_spec i (k mod 8)) as [->|N]; [by rewrite Z.sub_diag|].
  destruct (Z.ltb_spec i (k mod 8)); [apply Z.testbit_neg_r; lia|]. by apply Z.bits_above_log2; [|change (Z.log2 1) with 0; lia].
Qed.
Lemma mask_byte_spec l byte : Forall service l ->
  in_u 8 (mask_byte l byte) /\ forall i, 0 <= i < 8 -> Z.testbit (mask_byte l byte) i = existsb (fun k => (k / 8 =? byte) && (k mod 8 =? i)) l.
Proof. intros S. destruct (mask_step l byte 0 ltac:(done) S) as [A B]. unfold mask_byte. split; [done|]. intros i Hi. by rewrite (B i Hi), Z.bits_0. Qed.
Lemma in_mask_spec l k : Forall service l -> service k -> in_mask (mask l) k = true <-> k ∈ l.
Proof.
  intros S K. unfold in_mask, mask. unfold service in K.
  assert (0 <= k / 8 < 64) by (split; [apply Z.div_pos; lia|apply Z.div_lt_upper_bound; lia]).
  rewrite list_lookup_fmap, lookup_seq_lt by (unfold kMaskBytes; lia). cbn [fmap option_fmap option_map default]. rewrite Nat.add_0_l, Z2Nat.id by lia.
  destruct (mask_byte_spec l (k / 8) S) as [_ ->]; [|apply Z.mod_pos_bound; lia]. rewrite existsb_exists. split.
  - intros (j & Hj & E). apply andb_true_iff in E as [E1%Z.eqb_eq E2%Z.eqb_eq]. apply list_elem_of_In in Hj.
    replace k with j; [done|]. rewrite (Z.div_mod j 8), (Z.div_mod k 8) by lia. congruence.
  - intros Hk. exists k. split; [by apply list_elem_of_In|]. by rewrite !Z.eqb_refl.
Qed.
Definition services_bytes (l : list Z) : list Z := le32 64 ++ mask l.
Lemma concat_singletons {B} (f : B -> Z) l : concat (map (fun x => [f x]) l) = map f l.
Proof. induction l; cbn; congruence. Qed.
Lemma appends_WriteServiceList l : Forall service l -> appends (services_bytes l) (WriteServiceList l).
Proof.
  intros S. apply (appends_app _ _ (U32 64) (fun w => foldl (fun w byte => U8 (mask_byte l (Z.of_nat byte)) w) w (seq 0 kMaskBytes)));
    [apply appends_U32; lia|]. unfold mask. rewrite <- concat_singletons.
  apply (appends_foldl (fun byte => [mask_byte l (Z.of_nat byte)]) (fun byte => U8 (mask_byte l (Z.of_nat byte)))).
  intros byte _. destruct (mask_byte_spec l (Z.of_nat byte) S) as [B _]. rewrite <- (wrap_id 8 _ B) at 1. apply appends_U8.
Qed.

(** ** Parsing it back *)
Lemma parse_le32_le32 z l : parse_le32 (le32 z ++ l) = Some (z, l).
Proof.
  unfold parse_le32, le32. cbn [app]. do 2 f_equal.
  assert (z / 65536 = z / 256 / 256 /\ z / 16777216 = z / 256 / 256 / 256) as [-> ->] by (rewrite !Z.div_div by lia; done).
  pose proof (Z.div_mod z 256 ltac:(lia)). pose proof (Z.div_mod (z / 256) 256 ltac:(lia)). pose proof (Z.div_mod (z / 256 / 256) 256 ltac:(lia)). lia.
Qed.
Lemma parse_ids_le16 ids l : parse_ids (length ids) (concat (map le16 ids) ++ l) = Some (ids, l).
Proof.
  induction ids as [|id ids IH]; [done|]. cbn. replace (id mod 256 + 256 * (id / 256)) with id by (pose proof (Z.div_mod id 256); lia).
  rewrite IH. done.
Qed.
Lemma parse_subjects_bytes ids l : parse_subjects (subjects_bytes ids ++ l) = Some (ids, l).
Proof.
  unfold parse_subjects, subjects_bytes. rewrite <- !app_assoc, parse_le32_le32. cbn. rewrite Z.eqb_refl. cbn. rewrite Nat2Z.id. apply parse_ids_le16.
Qed.
Lemma length_mask l : length (mask l) = 64%nat.
Proof. unfold mask. by rewrite length_map, length_seq. Qed.
Lemma parse_services_bytes ids l : parse_services (services_bytes ids ++ l) = Some (mask ids, l).
Proof.
  unfold parse_services, services_bytes. rewrite <- app_assoc, parse_le32_le32. cbn [mbind option_bind]. rewrite length_app, length_mask.
  change (64 =? 64) with true. change (64 <=? 64 + length l)%nat with true. cbn [andb].
  rewrite take_app_length', drop_app_length' by (by rewrite length_mask). done.
Qed.

Section Node.
Context {T : Type} `{!TransportOps T}.
Implicit Types s : CyphalNode T.
(** The tables hold what the Add functions let in; the subject-IDs are 13 bit
    numbers (checked by the settings). *)
Definition listed s : Prop :=
  (length (published_subjects_ s) <= kMaxPublishers)%nat /\ Forall subject (published_subjects_ s) /\
  (length (listeners_ s) <= kMaxListeners)%nat /\ Forall subject (map fst (listeners_ s)) /\
  (length (servers_ s) <= kMaxServers)%nat /\ Forall service (map fst (servers_ s)).
Lemma listed_init (t : T) : listed (Node_init t).
Proof. unfold listed. cbn. split_and!; auto; lia. Qed.
Lemma Forall_snoc_fst {B} (P : Z -> Prop) (l : list (Z * B)) x : Forall P (map fst l) -> P x.1 -> Forall P (map fst (l ++ [x])).
Proof. intros F H. rewrite map_app. apply Forall_app. by split; [|constructor]. Qed.
Lemma listed_AddPublisher p s : subject (DriveMessages.port_id p) -> listed s -> listed (AddPublisher p s).2.
Proof.
  intros S (A & B & C & D & E & F). unfold AddPublisher. do 2 (case_if; [by split_and!|]). apply Nat.leb_gt in Hif0.
  unfold listed. cbn. rewrite length_app. cbn. split_and!; try done; [lia|]. apply Forall_app. by split; [|constructor].
Qed.
Lemma listed_AddSubscription id extent l s : subject id -> listed s -> listed (AddSubscription id extent l s).2.
Proof.
  intros S (A & B & C & D & E & F). unfold AddSubscription, subscribe. do 2 (case_if; [by split_and!|]). apply Nat.leb_gt in Hif0.
  destruct (Subscribe _ _ _ _) as [[] t]; cbn; [|by split_and!]. unfold listed. cbn. rewrite length_app. cbn.
  split_and!; try done; [lia|]. by apply (Forall_snoc_fst subject).
Qed.
Lemma listed_AddServer id extent h s : 0 <= id -> listed s -> listed (AddServer id extent h s).2.
Proof.
  intros S (A & B & C & D & E & F). unfold AddServer, subscribe. do 2 (case_if; [by split_and!|]).
  apply orb_false_iff in Hif0 as [[H1%Z.ltb_ge _]%orb_false_iff H3%Nat.leb_gt].
  destruct (Subscribe _ _ _ _) as [[] t]; cbn; [|by split_and!]. unfold listed. cbn. rewrite length_app. cbn.
  split_and!; try done; [lia|]. apply (Forall_snoc_fst service); [done|]. unfold service, SettingsData.kMaxServiceId in *. cbn. lia.
Qed.
Definition subjects_published s : list Z := [kHeartbeat; kPortList; kDiagnosticRecord] ++ published_subjects_ s.
Definition services_served s : list Z := kServedServices ++ map fst (servers_ s).
Lemma port_list_written s : listed s -> let w := port_list_writer s in
  Fits w = true /\ take (size_ w) (buffer_ w) = subjects_bytes (subjects_published s) ++ subjects_bytes (map fst (listeners_ s)) ++
    services_bytes [] ++ services_bytes (services_served s).
Proof.
  intros (A & B & C & D & E & F) w. unfold kMaxPublishers, kMaxListeners, kMaxServers in *.
  set (e := mkWriter (replicate (Z.to_nat kBufferSize) 0) 0).
  assert (Forall subject (subjects_published s)) as Sp by (unfold subjects_published; cbn; repeat (apply Forall_cons_2; [unfold subject, kHeartbeat, kPortList, kDiagnosticRecord; lia|]); exact B).
  assert (Forall service (services_served s)) as Ss by (unfold services_served; cbn; repeat (apply Forall_cons_2; [unfold service, kRegisterAccess, kRegisterList, kGetInfo, kExecuteCommand; lia|]); exact F).
  pose proof (appends_WriteSubjectList _ Sp ltac:(unfold subjects_published; rewrite length_app; cbn; lia)) as W1.
  pose proof (appends_WriteSubjectList _ D ltac:(rewrite length_map; lia)) as W2.
  pose proof (appends_WriteServiceList [] (Forall_nil _)) as W3. pose proof (appends_WriteServiceList _ Ss) as W4.
  pose proof (appends_app _ _ _ _ (appends_app _ _ _ _ (appends_app _ _ _ _ W1 W2) W3) W4 e) as W. cbv beta in W.
  assert (length (((subjects_bytes (subjects_published s) ++ subjects_bytes (map fst (listeners_ s))) ++ services_bytes []) ++
    services_bytes (services_served s)) <= 600)%nat as Ln.
  { assert (forall l, length (services_bytes l) = 68%nat) as Hv by (intros l; unfold services_bytes; by rewrite length_app, length_mask).
    rewrite !length_app, !length_subjects_bytes, !Hv, length_map. unfold subjects_published. rewrite length_app. cbn. lia. }
  destruct W as (S1 & S2 & S3); [unfold e; cbn [size_ buffer_]; rewrite length_replicate; exact Ln|].
  assert (w = WriteServiceList (services_served s) (WriteServiceList [] (WriteSubjectList (map fst (listeners_ s))
    (WriteSubjectList (subjects_published s) e)))) as Ew by reflexivity.
  rewrite <- Ew in S1, S2, S3. split.
  - unfold Fits. apply Nat.leb_le. rewrite S1, S2. unfold e. cbn [size_ buffer_]. rewrite length_replicate. exact Ln.
  - rewrite S3. unfold e. cbn [size_ take app]. by rewrite <- !app_assoc.
Qed.

(** C30. The port list says what the node does: a node whose tables were filled
    by the Add functions sends one port list message, which fits its buffer,
    and a parser of uavcan.node.port.List reads from it exactly the published
    subjects (the node's own first), the subscribed subjects in order, no
    client, and of the 512 services exactly the four standard ones and the
    added ones. *)
Theorem port_list_roundtrip s : listed s ->
  exists bytes p, sent_ (PublishPortList s) = sent_ s ++ [message (port_list_ s) bytes s] /\ (length bytes <= 194)%nat /\
    parse_port_list bytes = Some p /\
    publishers p = [kHeartbeat; kPortList; kDiagnosticRecord] ++ published_subjects_ s /\ subscribers p = map fst (listeners_ s) /\
    (forall k, service k -> in_mask (clients p) k = false) /\
    (forall k, service k -> in_mask (servers p) k = true <-> k ∈ [kRegisterAccess; kRegisterList; kGetInfo; kExecuteCommand] ++ map fst (servers_ s)).
Proof.
  intros L. destruct (port_list_written s L) as [F E]. pose proof L as (A & _ & _ & _ & _ & Sv). cbv zeta in F, E.
  assert (sent_ (PublishPortList s) = sent_ s ++ [message (port_list_ s) (take (size_ (port_list_writer s)) (buffer_ (port_list_writer s))) s]) as K.
  { unfold PublishPortList. revert F. generalize (port_list_writer s). intros w Fw. cbv zeta. rewrite Fw. generalize (take (size_ w) (buffer_ w)). intros bytes.
    unfold publish_port_list, send. by destruct (Send _ _). }
  rewrite E in K. clear E F.
  assert (Forall service (services_served s)) as Ss by (unfold services_served; cbn; repeat (apply Forall_cons_2;
    [unfold service, kRegisterAccess, kRegisterList, kGetInfo, kExecuteCommand; lia|]); exact Sv).
  eexists _, (mkPortList (subjects_published s) (map fst (listeners_ s)) (mask []) (mask (services_served s))). split; [|split; [|split]].
  - exact K.
  - rewrite !length_app.
    assert (forall l, length (services_bytes l) = 68%nat) as Hv by (intros l; unfold services_bytes; by rewrite length_app, length_mask).
    rewrite !length_subjects_bytes, !Hv, length_map. unfold subjects_published. rewrite length_app. 
    destruct L as (? & _ & ? & _). unfold kMaxPublishers, kMaxListeners in *. cbn [length]. lia.
  - unfold parse_port_list. rewrite parse_subjects_bytes. cbn [mbind option_bind]. rewrite parse_subjects_bytes. cbn [mbind option_bind].
    rewrite parse_services_bytes. cbn [mbind option_bind]. rewrite <- (app_nil_r (services_bytes _)), parse_services_bytes. reflexivity.
  - cbn [publishers subscribers clients servers]. split_and!; try done.
    + intros k Hk. apply not_true_is_false. rewrite (in_mask_spec [] k (Forall_nil _) Hk). apply not_elem_of_nil.
    + intros k Hk. by apply in_mask_spec.
Qed.
End Node.
End CyphalPortList.
