(* ===== verification/CyphalDemo.v ===== *)
(** * A node on a concrete bus

    Instances of the interfaces of [CyphalNode] for examples: a transport with
    an inbox, a plain message code, and an application with the register names
    of the firmware (settings, drive information, startup aid, timing). *)
From Stdlib Require Import ZArith Lia Bool String.
From stdpp Require Import base decidable list option relations.
From S2P Require Import Prelude Registers DriveMessages Timing CyphalNode CyphalTraffic CyphalAnswers CyphalRegisters CyphalPortList.
Import DriveMessages(kNodeIdUnset, CanBusStatus, mkCanBusStatus, bus_kErrorActive, bytes_of, info_count, info_Name, prio_kNominal).
Import Registers(RegisterValue, SetEmpty, kReadOnly).
Import CyphalNode CyphalTraffic CyphalAnswers CyphalRegisters CyphalPortList.

#[local] Open Scope Z_scope.

Module CyphalDemo.

(** ** A bus: the node-ID and the transfers to come *)
Record DemoBus := mkBus { bus_id : Z; inbox : list Transfer }.
#[export] Instance demo_bus : TransportOps DemoBus := {|
  Send x t := (true, t);
  Receive size t := match inbox t with
                    | [] => (kNoTransfer, Transfer_init, t)
                    | x :: l => (kReceived, x, mkBus (bus_id t) l)
                    end;
  Subscribe k port extent t := (true, t);
  SetLocalNodeId node t := mkBus (if node <=? kNodeIdMax then node else kNodeIdUnset) (inbox t);
  LocalNodeId t := bus_id t;
  Process now t := t;
  BusStatus t := mkCanBusStatus bus_kErrorActive 0 |}.
#[export] Instance demo_bus_laws : TransportLaws DemoBus.
Proof. split; try done. intros n t. cbn. by destruct (inbox t). Qed.

(** ** A message code *)
Definition fit (l : list Z) (cap : Z) : option (list Z) := if Z.of_nat (List.length l) <=? cap then Some l else None.
#[export] Instance demo_node_dsdl : NodeDsdl := {|
  GetInfo_serialize r cap := fit (response_name r) cap;
  List_deserialize l := head l;
  List_serialize r cap := fit r cap;
  Access_deserialize l := Some (l, SetEmpty);
  Access_serialize r cap := fit [if access_mutable r then 1 else 0] cap;
  ExecuteCommand_deserialize l := match l with c :: l => Some (c, l) | [] => None end;
  ExecuteCommand_serialize r cap := fit (status r :: output r) cap;
  Allocation_deserialize l := match l with h :: l => Some (mkAllocation h l) | [] => None end;
  Allocation_serialize r cap := fit (unique_id_hash r :: allocated_node_id r) cap;
  Heartbeat_serialize r cap := fit [uptime r; vendor_specific_status_code r] cap;
  Record_serialize r cap := fit (record_text r) cap;
  GetInfo_extent := 0; List_extent := 2; Access_extent := 515; ExecuteCommand_extent := 300; Allocation_extent := 48 |}.
Lemma fit_fits l cap r : fit l cap = Some r -> Z.of_nat (List.length r) <= cap.
Proof. unfold fit. destruct (Z.leb_spec (Z.of_nat (List.length l)) cap); [|done]. by intros [= <-]. Qed.
#[export] Instance demo_node_dsdl_laws : NodeDsdlLaws.
Proof. split; intros r cap l; apply fit_fits. Qed.

(** ** The application: the register providers of the drive, and a log of commands *)
Definition provider_count (p : nat) : nat :=
  match p with
  | 0%nat => Registers.SettingsRegisterCount
  | 1%nat => info_count
  | 2%nat => 1
  | _ => Timing.timing_Count
  end.
Definition provider_name (p i : nat) : string :=
  match p with
  | 0%nat => Registers.Name i
  | 1%nat => info_Name i
  | 2%nat => "unimoc.startup.results"
  | _ => Timing.timing_Name i
  end.
#[export] Instance demo_application : Application DemoBus unit := {|
  Count p a := provider_count p;
  Name p i a := bytes_of (provider_name p i);
  Read p i a := (mkFlags false false, SetEmpty);
  Write p i v w := (kReadOnly, w);
  OnMessage l x now w := w;
  OnCommand c parameter w := (mkResult 0 [], (snd (Log DriveMessages.sev_kInfo parameter w.1), w.2));
  OnNodeIdAllocated node w := w;
  OnRequest h x w := (None, w) |}.
#[export] Instance demo_application_laws : ApplicationLaws.
Proof. split; try done. intros c x w. apply rtc_once, use_Log. Qed.

(** ** Nodes *)
Definition demo_node (inbox : list Transfer) : CyphalNode DemoBus := Node_init (mkBus kNodeIdUnset inbox).
(** Four providers and the command handler, anonymous, started at 0. *)
Definition demo_filled (inbox : list Transfer) : CyphalNode DemoBus :=
  let s := (AddRegisterProvider 1 (AddRegisterProvider 0 (demo_node inbox)).2).2 in
  SetCommandHandler (AddRegisterProvider 3 (AddRegisterProvider 2 s).2).2.
Definition demo_started (inbox : list Transfer) : CyphalNode DemoBus * unit := ((Start 255 0 (demo_filled inbox)).2, tt).
(** Node 1 allocates the ID 42. *)
Definition demo_allocation : Transfer :=
  mkTransfer kNodeIdAllocation 1 kNodeIdUnset 0 kMessage prio_kNominal [UniqueIdHash (demo_node []); 42].
Definition demo_request (port : Z) (bytes : list Z) : Transfer := mkTransfer port 7 42 3 kServiceRequest prio_kNominal bytes.

Definition demo_inbox : list Transfer := [demo_allocation; demo_request kExecuteCommand [5; 65; 66]; demo_request kRegisterList [3]].
(** It takes the ID, answers both requests and sends heartbeats and a port list. *)
Definition demo_run : CyphalNode DemoBus * unit := Spin 7000000 (Spin 2000000 (demo_started demo_inbox)).
Example demo_sent : map (fun x => (transfer_port x, source_node_id x, transfer_id x)) (sent_ demo_run.1) =
  [(kDiagnosticRecord, 42, 0); (kExecuteCommand, 42, 3); (kRegisterList, 42, 3); (kHeartbeat, 42, 0); (kHeartbeat, 42, 1);
   (kPortList, 42, 0)].
Proof. vm_compute. reflexivity. Qed.
Lemma demo_run_reachable : reachable demo_run.
Proof.
  unfold demo_run. apply reach_spin, reach_spin. apply (reach_start (demo_filled demo_inbox, tt) 255 0); [|vm_compute; reflexivity].
  apply (reach_use (demo_node demo_inbox, tt)); [apply reach_init; reflexivity|].
  do 4 (eapply rtc_l; [apply use_AddRegisterProvider|]). apply rtc_once, use_SetCommandHandler.
Qed.

(** ** The theorems there *)
Lemma node_traffic_witness :
  (forall o i x, messages_on (subject_of o) (sent_ demo_run.1) !! i = Some x -> transfer_id x = Z.of_nat i mod 32) /\
  NodeId (Spin 8000000 demo_run).1 = NodeId demo_run.1.
Proof.
  pose proof (node_traffic demo_run demo_run_reachable) as (_ & H1 & H2 & _). split; [exact H1|]. apply H2. vm_compute. discriminate.
Defined.
Lemma request_answered_witness :
  answers (demo_request kRegisterList [3]) demo_run.1 (Dispatch (demo_request kRegisterList [3]) 8000000 demo_run).1.
Proof.
  destruct (request_answered (demo_request kRegisterList [3]) 8000000 demo_run) as [_ H]; [reflexivity|].
  apply H. vm_compute. discriminate.
Defined.
(** The registers of the firmware: their names differ, across the providers too. *)
Definition names_okb (l : list (list Z)) : bool :=
  bool_decide (NoDup l) && forallb (fun name => (0 <? List.length name)%nat && (List.length name <=? kNameCapacity)%nat) l.
Lemma names_okb_spec l : names_okb l = true -> NoDup l /\ Forall (fun name => (0 < List.length name <= kNameCapacity)%nat) l.
Proof.
  intros [N%bool_decide_eq_true F]%andb_true_iff. split; [done|]. apply list.Forall_forall. intros name Hn%list_elem_of_In.
  rewrite forallb_forall in F. apply F, andb_true_iff in Hn as [?%Nat.ltb_lt ?%Nat.leb_le]. done.
Qed.
Lemma demo_names_ok : names_okb (all_names (providers_ demo_run.1) demo_run.2) = true.
Proof. vm_compute. reflexivity. Qed.
Lemma register_directory_witness :
  listed_name 3 demo_run = default [] (all_names (providers_ demo_run.1) demo_run.2 !! 3%nat).
Proof. destruct (names_okb_spec _ demo_names_ok) as [N F]. exact (proj1 (register_directory demo_run N F) 3%nat). Defined.
Lemma demo_listed : listed demo_run.1.
Proof. vm_compute. split_and!; repeat constructor. Qed.
Lemma port_list_roundtrip_witness : exists bytes p, parse_port_list bytes = Some p /\ subscribers p = map fst (listeners_ demo_run.1).
Proof.
  pose proof (port_list_roundtrip demo_run.1 demo_listed) as (bytes & p & _ & _ & H1 & _ & H2 & _). exists bytes, p. split; [exact H1|exact H2].
Defined.

End CyphalDemo.
