(* ===== verification/DriveDemo.v ===== *)
(** * A drive to try things on

    The drive node over the simulated power stage, the RAM storage and a small
    (de)serialisation, booted by [main] and started: the concrete inputs of the
    witnesses. *)
From Stdlib Require Import ZArith Bool SpecFloat String.
From stdpp Require Import base decidable list option.
From S2P Require Import Prelude Float32 PowerStage CurrentControl SettingsData SettingsStore RamStorage SettingsPersistence Isr Ebike.
From S2P Require Import HwStartup DriveMessages DriveNode.
Import Isr DriveMessages DriveNode RamStorage.

#[local] Open Scope Z_scope.
#[local] Open Scope unimoc_scope.

Module DriveDemo.
#[export] Existing Instance PowerStage.sim_ops.
#[export] Existing Instance PowerStage.sim_laws.

(** One byte of readiness, two of a current setpoint; nothing else arrives. *)
#[export] Instance demo_dsdl : Dsdl := {|
  Readiness_deserialize bytes :=
    match bytes with [0] => Some SLEEP | [1] => Some RESERVED | [2] => Some STANDBY | [3] => Some ENGAGED | _ => None end;
  CurrentSetpoint_deserialize bytes := match bytes with [a; b] => Some (mkCurrentSetpoint (f_of_Z a) (f_of_Z b)) | _ => None end;
  Torque_deserialize _ := None;
  AngularVelocity_deserialize _ := None;
  Angle_deserialize _ := None;
  Planar_deserialize _ := None;
  WheelCommand_deserialize _ := None;
  PedalState_deserialize _ := None;
  BatteryStatus_deserialize _ := None;
  Telemetry_serialize _ := Some [];
  DriveStatus_serialize _ := Some [];
  Commissioning_serialize _ := Some [];
  Natural8_serialize value := Some [value] |}.

Definition demo_exp (x : float) : float := f_one.
Definition demo_clock : Z := 1000000000.
Definition demo_timer : Z := 170000000.
Definition demo_Initialize (frequency : float) (offset : Z) : bool := true.
Definition Demo : Type := DriveNode PowerStage.SimPowerStage Ram.
Definition demo_spin : Z -> SpinInputs -> Demo -> option Demo :=
  Spin demo_exp demo_clock demo_timer demo_Initialize true true.
Definition demo_run : drive_event -> Demo -> option Demo :=
  run_drive demo_exp demo_clock demo_timer demo_Initialize true true.

Definition demo_readings : Ebike.EbikeReadings := Ebike.mkEbikeReadings f_zero [] [].
(** A spin of node 42 on a healthy bus. *)
Definition demo_io (messages : list dispatch) : SpinInputs :=
  mkSpinInputs messages (mkCanBusStatus bus_kErrorActive 0) None None demo_readings 42.
Definition quiet_node : NodeCall -> bool := fun _ => true.
Definition off_stage : PowerStage.PowerStageInterface PowerStage.SimPowerStage :=
  PowerStage.mkPowerStage false (PowerStage.mkSim true false false).
Definition booted_node : Demo :=
  let fresh := DriveNode_init CurrentControlIsr_init off_stage (SettingsPersistence.sim_store false) OuterLoop.OuterLoop.OuterLoop_init
                 SlowUpdate.SlowUpdate.SlowUpdate_init None in
  match main demo_clock demo_timer demo_Initialize (SettingsPersistence.sim_store false) off_stage None with
  | Some (_, node) => node
  | None => fresh
  end.
(** After Start(), at time 0. *)
Definition started_node : Demo := match Start quiet_node 0 booted_node with Some (_, node) => node | None => booted_node end.
Definition after (e : drive_event) (s : Demo) : Demo := default s (demo_run e s).
Definition readiness (value : Z) (s : Demo) : dispatch := got_Message (readiness_port_ (ports_ s)) [value].

End DriveDemo.
