(* ===== verification/DriveSafety.v ===== *)
(** * The drive node: who may release the outputs

    The power stage is released either by an engaged drive or by a run of the
    startup aid, never by both, and not at all after an emergency stop: the
    invariant [drive_ok] of the drive and the proof that every operation keeps
    it, over any power stage with [PowerStageLaws] and any storage. *)
From Stdlib Require Import ZArith Lia Bool SpecFloat String.
From stdpp Require Import base decidable list option.
From S2P Require Import Prelude Float32 PowerStage CurrentControl RotorAngle SettingsData SettingsCodec SettingsTypes Isr MotionControl.
From S2P Require Import SettingsStore.
From S2P Require Import RamStorage SettingsPersistence Registers CartControl OuterLoop Ebike SlowUpdate HwStartup Commissioning.
From S2P Require Import DriveMessages DriveNode DriveDemo.
Import CurrentControl Isr DriveMessages DriveNode DriveDemo.
Import PowerStage(PowerStageOps, PowerStageLaws, PowerStageInterface, GetState, Disable, ClearFault, Enable, state_eqb).
Import HwStartup(Sys, fsm, cc_, kPowerStage, settings_operations_, IsActive, on_stage, run_inv).
Import SettingsStore(SettingsStore, StorageOps, save_gate_, TryBegin, End_).

#[local] Open Scope Z_scope.
#[local] Open Scope unimoc_scope.
#[local] Existing Instance HwStartup.eta_Sys.
#[local] Existing Instance SettingsStore.eta_SettingsStore.
#[local] Existing Instance SettingsPersistence.power_stage_gate.
#[local] Existing Instance SettingsPersistence.store_client.
#[local] Existing Instance RamStorage.ram_storage.

Module DriveSafety.

Section Safety.
Context {P St : Type} `{!PowerStageOps P} `{!PowerStageLaws P} `{!StorageOps St} {dsdl : Dsdl}.
Abbreviation System := (Sys P (SettingsStore St (PowerStageInterface P))).
Abbreviation Drive := (DriveNode P St).
Implicit Types (y z : System) (s t : Drive).

(** ** The invariant *)
Record safe (engaged stopped : bool) y : Prop := mkSafe {
  safe_fsm : exists confirmed, run_inv (confirmed, if engaged then on_stage Disable y else y);
  safe_engaged : engaged = true -> IsActive (fsm y) = false;
  safe_stopped : stopped = true -> engaged = false /\ IsActive (fsm y) = false }.
Definition drive_ok s : Prop := safe (engaged_ (eng_ s)) (emergency_stop_ (eng_ s)) (sys_ s).
(** A step keeps the invariant and the emergency stop. *)
Record safe_step s t : Prop := mkSafeStep {
  step_ok : drive_ok s -> drive_ok t;
  step_stop : drive_ok s -> emergency_stop_ (eng_ s) = true -> emergency_stop_ (eng_ t) = true }.
#[local] Instance safe_step_preorder : PreOrder safe_step.
Proof. split; [by split|]. intros s t u [A B] [C D]. split; auto. Qed.

Lemma safe_off b em y : safe b em y -> GetState (kPowerStage y) = PowerStage.kEnabled ->
  em = false /\ (if b then IsActive (fsm y) = false else IsActive (fsm y) = true).
Proof.
  intros [[c I] He Hs] E. destruct b.
  - destruct em; [by destruct (Hs eq_refl)|]. auto.
  - destruct (HwStartup.inv_stage _ I E) as [A _]. cbn in A. split; [|done]. destruct em; [|done]. destruct (Hs eq_refl). congruence.
Qed.
(** The outputs may change beside the state machine, unless they are released. *)
Lemma safe_stage b em y z : fsm z = fsm y ->
  (b = false -> GetState (kPowerStage z) = PowerStage.kEnabled -> GetState (kPowerStage y) = PowerStage.kEnabled) ->
  safe b em y -> safe b em z.
Proof.
  intros E Hs [[c I] A B]. split; rewrite ?E; try done. exists c. destruct b.
  - eapply HwStartup.run_inv_stage; [..|exact I]; [done|]. intros D. by apply PowerStage.disable_off in D.
  - eapply HwStartup.run_inv_stage; [..|exact I]; [done|auto].
Qed.
Lemma safe_engage em y z : fsm z = fsm y -> IsActive (fsm y) = false -> em = false -> safe false em y -> safe true em z.
Proof.
  intros E Ha -> [[c I] _ _]. split; rewrite ?E; try done. exists c. eapply HwStartup.run_inv_stage; [..|exact I]; [done|].
  intros D. by apply PowerStage.disable_off in D.
Qed.
Lemma safe_event (e : HwStartup.event) em y c : safe false em y -> em = false ->
  safe false em (HwStartup.run_event e (c, y)).2.
Proof.
  intros [[c' I] _ _] ->. split; try done.
  pose proof (HwStartup.run_event_inv e _ I) as J. exists (HwStartup.run_event e (c', y)).1.
  assert ((HwStartup.run_event e (c, y)).2 = (HwStartup.run_event e (c', y)).2) as ->.
  { unfold HwStartup.run_event. destruct e; cbn; repeat case_match; simplify_eq; done. }
  by destruct (HwStartup.run_event e (c', y)).
Qed.

(** ** Operations that leave engagement and outputs alone *)
Record keeps s t : Prop := mkKeeps {
  keeps_sys : sys_ t = sys_ s;
  keeps_engaged : engaged_ (eng_ t) = engaged_ (eng_ s);
  keeps_stopped : emergency_stop_ (eng_ t) = emergency_stop_ (eng_ s) }.
#[local] Instance keeps_preorder : PreOrder keeps.
Proof. split; [by split|]. intros s t u [] []. split; etrans; eauto. Qed.
Lemma keeps_step s t : keeps s t -> safe_step s t.
Proof. intros [A B C]. unfold drive_ok. split; unfold drive_ok; rewrite ?A, ?B, ?C; done. Qed.

(** Also the request, the re-arm and the setpoint handed over are left alone. *)
Record still s t : Prop := mkStill {
  still_keeps : keeps s t;
  still_rearm : rearm_required_ (eng_ t) = rearm_required_ (eng_ s);
  still_requested : engage_requested_ (eng_ t) = engage_requested_ (eng_ s);
  still_ebike : ebike_ t = ebike_ s;
  still_ports : ports_ t = ports_ s;
  still_setpoint : OuterLoop.setpoint_ (outer_ t) = OuterLoop.setpoint_ (outer_ s) }.
#[local] Instance still_preorder : PreOrder still.
Proof. split; [by do 2 split|]. intros s t u [] []. split; etrans; eauto. Qed.

Lemma still_step s t : still s t -> safe_step s t.
Proof. intros [K _ _ _ _ _]. by apply keeps_step. Qed.

(** The objects beside the state machine changed, the outputs were not released. *)
Record keeps_fsm s t : Prop := mkKeepsFsm {
  kf_fsm : fsm (sys_ t) = fsm (sys_ s);
  kf_stage : GetState (kPowerStage (sys_ t)) = PowerStage.kEnabled -> GetState (kPowerStage (sys_ s)) = PowerStage.kEnabled;
  kf_engaged : engaged_ (eng_ t) = engaged_ (eng_ s);
  kf_stopped : emergency_stop_ (eng_ t) = emergency_stop_ (eng_ s) }.
#[local] Instance keeps_fsm_preorder : PreOrder keeps_fsm.
Proof. split; [by split|]. intros s t u [] []. split; [congruence|auto|congruence|congruence]. Qed.
Lemma keeps_keeps_fsm s t : keeps s t -> keeps_fsm s t.
Proof. intros [A B C]. split; by rewrite ?A. Qed.
Lemma keeps_fsm_step s t : keeps_fsm s t -> safe_step s t.
Proof.
  intros [A B C D]. split; unfold drive_ok; rewrite ?C, ?D; [|done]. intros S. eapply safe_stage; [exact A| |exact S]. auto.
Qed.

(** Saving: what the gate's two calls keep, a save keeps. *)
Lemma save_register_gate (Q : PowerStageInterface P -> Prop) acc e :
  (forall g, Q g -> Q (TryBegin g).2) -> Q (save_gate_ acc.2) ->
  Q (save_gate_ (SettingsStore.save_register (St := St) acc e).2).
Proof.
  intros Ht. destruct acc as [[result saving] store]. unfold SettingsStore.save_register. cbv zeta. cbn [snd]. intros HQ.
  case_if; [done|]. case_if; [done|].
  assert (Q (save_gate_ (if saving then (true, store) else let '(b, g) := TryBegin (save_gate_ store) in (b, store.{save_gate_ := g})).2)) as G.
  { destruct saving; [done|]. specialize (Ht _ HQ). by destruct (TryBegin (save_gate_ store)). }
  destruct (if saving then _ else _) as [begun store1]. cbn [snd] in G. case_if; [done|].
  destruct (if SettingsCodec.SameEncoding _ _ _ then _ else _) as [status st]. cbn [snd]. by case_if.
Qed.
Lemma save_gate_platform (g : PowerStageInterface P) :
  PowerStage.platform (TryBegin g).2 = PowerStage.platform g /\ PowerStage.platform (End_ g) = PowerStage.platform g.
Proof.
  split; [|done]. cbn. unfold PowerStage.SaveGate_begin, PowerStage.HoldOffEnable. cbn. by repeat case_if.
Qed.
Lemma SaveToFlash_platform (store : SettingsStore St (PowerStageInterface P)) :
  PowerStage.platform (save_gate_ (SettingsStore.SaveToFlash store).2) = PowerStage.platform (save_gate_ store).
Proof.
  unfold SettingsStore.SaveToFlash, SettingsStore.SaveChanged.
  pose proof (foldl_invariant (fun acc : SettingsTypes.SettingsStatus * bool * SettingsStore St (PowerStageInterface P) =>
    PowerStage.platform (save_gate_ acc.2) = PowerStage.platform (save_gate_ store)) SettingsStore.save_register
    SettingsData.registers (SettingsTypes.kSuccess, false, store) eq_refl) as I.
  destruct (foldl _ _ _) as [[result saving] store']. cbn [snd] in *.
  assert (PowerStage.platform (save_gate_ store') = PowerStage.platform (save_gate_ store)) as E.
  { apply I. intros acc e _ Hacc. apply (save_register_gate (fun g => PowerStage.platform g = PowerStage.platform (save_gate_ store))); [|done].
    intros g <-. apply save_gate_platform. }
  rewrite <- E. by repeat case_if.
Qed.
Lemma save_to_flash_keeps s : keeps_fsm s (save_to_flash s).2.
Proof.
  unfold save_to_flash. pose proof (SaveToFlash_platform ((settings_operations_ (sys_ s)).{save_gate_ := kPowerStage (sys_ s)})) as E.
  destruct (SettingsStore.SaveToFlash _) as [status store']. cbn in E. split; try done. cbn. unfold GetState. by rewrite E.
Qed.

(** *** Setpoints, bus and publications *)
Ltac keep := repeat (case_match || case_if); first [reflexivity | by do 2 split].
Lemma SetCurrentSetpoint_still a b now s : still s (SetCurrentSetpoint a b now s).
Proof. unfold SetCurrentSetpoint, new_setpoint. keep. Qed.
Lemma SetSpeedSetpoint_still x now s : still s (SetSpeedSetpoint x now s).
Proof. unfold SetSpeedSetpoint, new_setpoint. keep. Qed.
Lemma SetPositionSetpoint_still x now s : still s (SetPositionSetpoint x now s).
Proof. unfold SetPositionSetpoint, new_setpoint. keep. Qed.
#[local] Hint Resolve SetCurrentSetpoint_still SetSpeedSetpoint_still SetPositionSetpoint_still : core.
Lemma OnServoSetpoint_still bytes now s : still s (OnServoSetpoint bytes now s).
Proof. unfold OnServoSetpoint. repeat case_match; auto; reflexivity. Qed.
Lemma other_messages_still bytes now s :
  still s (OnCurrentSetpoint bytes now s) /\ still s (OnTorqueSetpoint bytes now s) /\ still s (OnSpeedSetpoint bytes now s) /\
  still s (OnPositionSetpoint bytes now s) /\ still s (OnWheelCommand bytes now s) /\ still s (OnPedalState bytes now s) /\
  still s (OnBatteryStatus bytes now s).
Proof.
  unfold OnCurrentSetpoint, OnTorqueSetpoint, OnSpeedSetpoint, OnPositionSetpoint, OnWheelCommand, OnPedalState, OnBatteryStatus.
  split_and!; repeat case_match; auto; first [reflexivity | by split].
Qed.
Lemma WatchBus_still b s : still s (WatchBus b s).
Proof. unfold WatchBus. cbv zeta. keep. Qed.
Lemma send_still node p bytes s : still s (send_serialized node p bytes s).1.
Proof. unfold send_serialized. destruct bytes; [|reflexivity]. destruct (Publish _ _ _) as [[] ]; by split. Qed.
Lemma PublishTelemetry_still io s t : PublishTelemetry io s = Some t -> still s t.
Proof.
  unfold PublishTelemetry. destruct (MeasuredCurrent _); [|done]. cbn [mbind option_bind].
  destruct (RotorAngle.WrapAnglePositive _); [|done]. cbn [mbind option_bind].
  match goal with |- context [send_serialized ?n ?p ?b ?u] => pose proof (send_still n p b u) as K; destruct (send_serialized n p b u) end.
  intros [= <-]. etrans; [exact K|]. by split.
Qed.
Lemma PublishDriveStatus_still io s t : PublishDriveStatus io s = Some t -> still s t.
Proof.
  unfold PublishDriveStatus. destruct (MeasuredCurrent _); [|done]. cbn [mbind option_bind]. destruct (drive_limits _ _).
  match goal with |- context [send_serialized ?n ?p ?b ?u] => pose proof (send_still n p b u) as K; destruct (send_serialized n p b u) end.
  intros [= <-]. etrans; [exact K|]. by split.
Qed.
Lemma PublishHoming_still now io s : still s (PublishHoming now io s).
Proof.
  unfold PublishHoming. case_if; [reflexivity|].
  match goal with |- context [send_serialized ?n ?p ?b ?u] => pose proof (send_still n p b u) as K; destruct (send_serialized n p b u) end.
  etrans; [etrans; [|exact K]|]; by split.
Qed.
Lemma PublishCommissioning_still now io s : still s (PublishCommissioning now io s).
Proof.
  unfold PublishCommissioning. destruct (Commissioning.Due _ _ _) as [[st|] c]; [|by split].
  match goal with |- context [send_serialized ?n ?p ?b ?u] => pose proof (send_still n p b u) as K; destruct (send_serialized n p b u) end.
  etrans; [etrans; [|exact K]|]; by split.
Qed.

(** *** Engagement *)
Lemma Disengage_spec reason s :
  sys_ (Disengage reason s) =
    (if engaged_ (eng_ s) || negb (IsActive (fsm (sys_ s))) then on_stage Disable (sys_ s) else sys_ s) /\
  engaged_ (eng_ (Disengage reason s)) = false /\
  emergency_stop_ (eng_ (Disengage reason s)) = emergency_stop_ (eng_ s) /\
  rearm_required_ (eng_ (Disengage reason s)) = rearm_required_ (eng_ s).
Proof.
  unfold Disengage, IsEngaged. cbn. destruct (engaged_ (eng_ s)) eqn:E; cbn; rewrite ?E; [done|].
  destruct (IsActive (fsm (sys_ s))); cbn; rewrite ?E; done.
Qed.
Lemma Disengage_step reason s : safe_step s (Disengage reason s).
Proof.
  destruct (Disengage_spec reason s) as (Y & E & M & _). split; unfold drive_ok; rewrite ?M; [|done]. rewrite Y, E.
  destruct (engaged_ (eng_ s)); cbn [orb].
  - intros [F A Q]. split; [exact F|done|]. intros Hm. by destruct (Q Hm).
  - case_if; [|done]. intros S. eapply safe_stage; [..|exact S]; [done|]. intros _ D. by apply PowerStage.disable_off in D.
Qed.
Lemma OnReadiness_step bytes now s : safe_step s (OnReadiness bytes now s).
Proof.
  unfold OnReadiness. destruct (Readiness_deserialize bytes) as [r|]; [|reflexivity].
  set (s1 := on_eng _ s). assert (keeps s s1) as K1 by (by split). destruct (keeps_step _ _ K1) as [K1a K1b].
  assert (forall t, safe_step s1 t -> safe_step s t) as T by (intros t; apply (PreOrder_Transitive s s1 t), keeps_step, K1).
  clearbody s1. apply T. clear T K1 K1a K1b.
  set (s2 := match ebike_ (on_eng _ _) with Some e => _ | None => _ end).
  assert (keeps s1 s2) as K2 by (unfold s2; case_match; by split). clearbody s2.
  assert (safe_step s1 s2) as T2 by (by apply keeps_step).
  assert (safe_step s1 (if IsEngaged s2 then Disengage "readiness" s2 else s2)) as N1
    by (etrans; [exact T2|]; case_if; [apply Disengage_step|reflexivity]).
  assert (safe_step s1 (if IsEngaged s2 then Disengage "readiness" s2 else acknowledge s2)) as N2.
  { etrans; [exact T2|]. case_if; [apply Disengage_step|]. apply keeps_fsm_step. split; try done. cbn. intros D.
    destruct (PowerStage.state_eqb (GetState (kPowerStage (sys_ s2))) PowerStage.kEnabled) eqn:B; [by apply bool_decide_eq_true in B|].
    apply bool_decide_eq_false in B. by apply PowerStage.clear_fault_off in D. }
  destruct r; [exact N1|exact N1|exact N2|]. destruct (ebike_ s1); [reflexivity|]. case_if; [|reflexivity]. apply keeps_step. by split.
Qed.
Lemma OnMessage_cases port bytes now s :
  (port = readiness_port_ (ports_ s) /\ OnMessage port bytes now s = OnReadiness bytes now s) \/ still s (OnMessage port bytes now s).
Proof.
  destruct (other_messages_still bytes now s) as (A & B & C & D & E & F & G). unfold OnMessage. cbv zeta.
  destruct (Z.eqb_spec port (readiness_port_ (ports_ s))) as [->|_]; [by left|right].
  repeat (case_if; [first [assumption | apply OnServoSetpoint_still]|]). reflexivity.
Qed.
Lemma OnMessage_step port bytes now s : safe_step s (OnMessage port bytes now s).
Proof. destruct (OnMessage_cases port bytes now s) as [[_ ->]|K]; [apply OnReadiness_step|by apply still_step]. Qed.

(** *** Commands *)
Lemma commissioning_inactive b em command parameter y : IsActive (fsm y) = false ->
  (Commissioning.OnCommand b em command parameter y).2 = y \/ (b = false /\ em = false).
Proof.
  intros A. unfold Commissioning.OnCommand. case_if.
  - unfold Commissioning.Start. destruct b; [by left|]. destruct em; [by left|by right].
  - left. case_if; [|case_if; [|case_if; [|done]]].
    + unfold Commissioning.Continue. case_if; [done|]. unfold HwStartup.RequestNextStep. by rewrite A.
    + unfold Commissioning.SetReading. by rewrite A.
    + cbn. unfold HwStartup.RequestAbort. by rewrite A.
Qed.
(** A command of the commissioning is a request to the state machine. *)
Lemma commissioning_event em command parameter y : let z := (Commissioning.OnCommand false em command parameter y).2 in
  z = y \/ exists e, forall c, (HwStartup.run_event e (c, y)).2 = z.
Proof.
  cbv zeta. unfold Commissioning.OnCommand. case_if; [|case_if; [|case_if; [|case_if; [|by left]]]].
  - unfold Commissioning.Start. destruct em; [by left|]. right. exists HwStartup.ev_RequestRun. intros c. cbn.
    by destruct (HwStartup.RequestRun y).
  - unfold Commissioning.Continue. case_if; [by left|]. right. 
    set (m := String.eqb (Commissioning.Text parameter) Commissioning.kMotorConnected).
    exists (HwStartup.ev_RequestNextStep m). intros c. cbn. by destruct (HwStartup.RequestNextStep m y).
  - unfold Commissioning.SetReading. case_if; [by left|]. destruct (index 0 _ _) as [k|]; [|by left].
    destruct (Commissioning.Number _) as [x|]; [|by left]. case_if; [right; by exists (HwStartup.ev_SetExtVdc x)|].
    case_if; [right; by exists (HwStartup.ev_SetExtCurrent x)|by left].
  - right. by exists (HwStartup.ev_RequestAbort HwStartup.fault_kAborted).
Qed.
Lemma commissioning_safe b em command parameter y : safe b em y -> safe b em (Commissioning.OnCommand b em command parameter y).2.
Proof.
  intros S. assert (b = true \/ em = true -> (Commissioning.OnCommand b em command parameter y).2 = y) as Same.
  { intros Hb. assert (IsActive (fsm y) = false) as A by (destruct S as [_ S1 S2]; destruct Hb as [->| ->]; [auto|by apply S2]).
    destruct (commissioning_inactive b em command parameter y A) as [|[-> ->]]; [done|by destruct Hb]. }
  destruct b; [rewrite Same by auto; done|]. destruct em; [rewrite Same by auto; done|].
  destruct (commissioning_event false command parameter y) as [->|[e E]]; [done|]. rewrite <- (E false). by apply safe_event.
Qed.
Lemma RequestAbort_safe reason b em y : safe b em y ->
  safe b em (HwStartup.RequestAbort reason y) /\ IsActive (fsm (HwStartup.RequestAbort reason y)) = false.
Proof.
  intros S. destruct (IsActive (fsm y)) eqn:A.
  - assert (b = false /\ em = false) as [-> ->].
    { destruct S as [_ S1 S2]. split; [destruct b|destruct em]; try done; [by rewrite S1 in A|by destruct S2; congruence]. }
    split; [|by unfold HwStartup.RequestAbort; rewrite A].
    exact (safe_event (HwStartup.ev_RequestAbort reason) false y false S eq_refl).
  - unfold HwStartup.RequestAbort. rewrite A. done.
Qed.
Lemma RequestAbort_step reason s : safe_step s (RequestAbort reason s).
Proof. split; [|done]. intros S. by apply RequestAbort_safe. Qed.
Lemma emergency_stop_step s :
  safe_step s (Disengage "emergency stop" (RequestAbort HwStartup.fault_kEmergencyStop (set_field eng_ (set_field emergency_stop_ true (eng_ s)) s))).
Proof.
  set (u := RequestAbort _ _). destruct (Disengage_spec "emergency stop" u) as (Y & E & M & _).
  assert (emergency_stop_ (eng_ u) = true) as Mu by done. split; [|by rewrite M].
  intros S. destruct (RequestAbort_safe HwStartup.fault_kEmergencyStop _ _ _ S) as [T A].
  unfold drive_ok. rewrite E, M, Mu, Y. change (sys_ u) with (HwStartup.RequestAbort HwStartup.fault_kEmergencyStop (sys_ s)).
  rewrite A, orb_true_r. destruct T as [[c I] _ _]. split; [|done|done]. exists c. cbn.
  destruct (engaged_ (eng_ s)); [exact I|]. eapply HwStartup.run_inv_stage; [..|exact I]; [done|].
  intros D. by apply PowerStage.disable_off in D.
Qed.
Lemma StartHoming_still s : still s (StartHoming s).2.
Proof. unfold StartHoming. repeat (case_if; [reflexivity|]). by do 2 split. Qed.
Lemma restart_step s : safe_step s (Disengage "restart" (RequestAbort HwStartup.fault_kAborted s)).
Proof. etrans; [apply RequestAbort_step|apply Disengage_step]. Qed.
Lemma on_times_keeps g s : keeps s (on_times g s).
Proof. by split. Qed.
Lemma factory_reset_step s :
  safe_step s (save_to_flash (set_field app_ (set_field settings_pending_ true (app_ s))
    (set_field sys_ (set_field settings_operations_ (SettingsStore.ResetToFactoryDefaults (settings_operations_ (sys_ s))).2 (sys_ s)) s))).2.
Proof. apply keeps_fsm_step. etrans; [|apply save_to_flash_keeps]. by split. Qed.
Lemma set_store_keeps store s : keeps_fsm s (set_field sys_ (set_field settings_operations_ store (sys_ s)) s).
Proof. by split. Qed.
Lemma OnCommand_step command parameter s : safe_step s (OnCommand command parameter s).2.
Proof.
  unfold OnCommand. case_if.
  { pose proof (commissioning_safe (engaged_ (eng_ s)) (emergency_stop_ (eng_ s)) command parameter (sys_ s)) as C.
    unfold IsEngaged. destruct (Commissioning.OnCommand _ _ _ _ _) as [answer y]. by split. }
  case_if.
  { cbv zeta. cbn [snd]. etrans; [apply restart_step|]. etrans; apply keeps_step, on_times_keeps. }
  case_if; [apply emergency_stop_step|]. case_if; [apply keeps_step; by split|]. case_if; [apply still_step, StartHoming_still|].
  case_if.
  { pose proof (save_to_flash_keeps s) as K. destruct (save_to_flash s). by apply keeps_fsm_step. }
  case_if; [|reflexivity]. case_if; [reflexivity|]. pose proof (factory_reset_step s) as K.
  destruct (SettingsStore.ResetToFactoryDefaults _) as [kReset store]. cbn [snd] in K. cbv zeta.
  case_if; [apply keeps_fsm_step, set_store_keeps|]. unfold on_app. destruct (save_to_flash _) as [kStatus t]. exact K.
Qed.
Lemma OnNodeIdAllocated_step node subscribed s : safe_step s (OnNodeIdAllocated node subscribed s).
Proof.
  unfold OnNodeIdAllocated. cbv zeta. set (s1 := if readiness_port_ (ports_ s) =? _ then _ else s).
  assert (keeps_fsm s s1) as K1 by (unfold s1; repeat case_if; by split). clearbody s1.
  destruct (SettingsStore.SetNodeId _ _) as [kSet store].
  match goal with |- context [save_to_flash ?u] => pose proof (save_to_flash_keeps u) as K; destruct (save_to_flash u) as [kSaved s3]; set (s2 := u) in * end.
  assert (keeps_fsm s s2) as K2 by (etrans; [exact K1|]; by split).
  apply keeps_fsm_step. case_if; [case_if|].
  - etrans; [exact K2|]. etrans; [exact K|]. by split.
  - etrans; [exact K2|]. etrans; [exact K|]. by split.
  - etrans; [exact K2|]. by split.
Qed.
Lemma WriteRegister_step index v s : safe_step s (WriteRegister index v s).2.
Proof. unfold WriteRegister. destruct (Registers.Write _ _ _). apply keeps_fsm_step. by split. Qed.
Lemma run_dispatch_step now s d : safe_step s (run_dispatch now s d).
Proof.
  destruct d as [port bytes|command parameter|index v|node subscribed]; cbn [run_dispatch].
  - apply OnMessage_step.
  - pose proof (OnCommand_step command parameter s) as K. destruct (OnCommand command parameter s) as [answer t].
    etrans; [exact K|]. apply keeps_step. by split.
  - pose proof (WriteRegister_step index v s) as K. destruct (WriteRegister index v s) as [answer t].
    etrans; [exact K|]. apply keeps_step. by split.
  - apply OnNodeIdAllocated_step.
Qed.
Lemma foldl_step {A} (f : Drive -> A -> Drive) l : (forall s a, safe_step s (f s a)) -> forall s, safe_step s (foldl f s l).
Proof. intros F. induction l as [|a l IH]; intros s; [reflexivity|]. cbn. etrans; [apply F|apply IH]. Qed.

(** ** A spin *)
Section Spin.
Variable std_exp : float -> float.
Variable kTimestampFrequency timer_clock_hz : Z.
Variable Initialize : float -> Z -> bool.
Variable has_restart_hook has_applied_hook : bool.
Abbreviation SpinLocalControl := (DriveNode.SpinLocalControl std_exp).
Abbreviation ApplySettings := (DriveNode.ApplySettings kTimestampFrequency timer_clock_hz Initialize has_applied_hook).
Abbreviation Engage := (DriveNode.Engage kTimestampFrequency timer_clock_hz Initialize has_applied_hook).
Abbreviation take_request := (DriveNode.take_request kTimestampFrequency timer_clock_hz Initialize has_applied_hook).
Abbreviation SpinSettings := (DriveNode.SpinSettings kTimestampFrequency timer_clock_hz Initialize has_applied_hook).
Abbreviation SpinPublish := (DriveNode.SpinPublish has_restart_hook).
Abbreviation Spin := (DriveNode.Spin std_exp kTimestampFrequency timer_clock_hz Initialize has_restart_hook has_applied_hook).
Abbreviation run_drive := (DriveNode.run_drive std_exp kTimestampFrequency timer_clock_hz Initialize has_restart_hook has_applied_hook).
Abbreviation Start := (@DriveNode.Start P St _).
Abbreviation main := (DriveNode.main kTimestampFrequency timer_clock_hz Initialize).

Lemma SpinLocalControl_cases now io s t : SpinLocalControl now io s = Some t ->
  exists u, keeps s u /\ sys_ u = sys_ s /\ (ebike_ s = None -> u = s) /\
    (t = u \/ t = Disengage "e-bike" u /\ engaged_ (eng_ s) = true).
Proof.
  unfold DriveNode.SpinLocalControl. destruct (ebike_ s) as [e|]; [|intros [= <-]; exists s; split_and!; auto; reflexivity].
  destruct (MeasuredCurrent _); [|done]. cbn [mbind option_bind].
  destruct (Ebike.Update _ _ _ _ _) as [[[o f] e']|]; [|done]. cbn [mbind option_bind]. intros <-%(inj Some).
  set (s1 := s.{ebike_ := Some e'}.{ebike_engage_ := Ebike.engage o}.{ebike_torque_ := Ebike.torque o}). assert (keeps s s1) as K by (by split). clearbody s1.
  destruct (Ebike.engage o).
  - cbv zeta. eexists. split; [|split; [|split; [|left; reflexivity]]]; [|by case_if; apply K|done].
    etrans; [exact K|]. case_if; by split.
  - cbv zeta. set (s2 := on_eng _ s1). assert (keeps s1 s2) as K2 by (by split). clearbody s2.
    exists s2. split; [by etrans|]. split; [by rewrite (keeps_sys _ _ K2), (keeps_sys _ _ K)|]. split; [done|].
    unfold IsEngaged. destruct (engaged_ (eng_ s2)) eqn:E; [right|by left]. split; [done|].
    by rewrite <- (keeps_engaged _ _ K), <- (keeps_engaged _ _ K2).
Qed.
Lemma SpinLocalControl_step now io s t : SpinLocalControl now io s = Some t -> safe_step s t.
Proof.
  intros (u & K & _ & _ & [->|[-> _]])%SpinLocalControl_cases; [by apply keeps_step|].
  etrans; [by apply keeps_step|apply Disengage_step].
Qed.
(** Applying the settings keeps the engagement and the power stage. *)
Lemma LoadParameters_keeps settings s t : LoadParameters settings s = Some t ->
  keeps s t /\ app_ t = app_ s /\ eng_ t = eng_ s /\ outer_ t = outer_ s /\ ports_ t = ports_ s /\ (ebike_ s = None -> ebike_ t = None).
Proof.
  unfold LoadParameters. do 3 (match goal with |- context [mbind _ ?x] => destruct x; cbn [mbind option_bind]; [|intros D; discriminate D] end).
  intros <-%(inj Some). match goal with |- context [match ?e with Some _ => _ | None => _ end] => change e with (ebike_ s) end.
  destruct (ebike_ s) eqn:Eb; [case_if|]; (split; [by split|]); do 4 (split; [reflexivity|]); try discriminate; intros _; exact Eb.
Qed.
Record applies s t : Prop := mkApplies {
  ap_fsm : fsm (sys_ t) = fsm (sys_ s);
  ap_stage : kPowerStage (sys_ t) = kPowerStage (sys_ s);
  ap_eng : eng_ t = eng_ s;
  ap_ports : ports_ t = ports_ s;
  ap_ebike : ebike_ s = None -> ebike_ t = None;
  ap_setpoint : OuterLoop.setpoint_ (outer_ t) = OuterLoop.setpoint_ (outer_ s) }.
#[local] Instance applies_preorder : PreOrder applies.
Proof. split; [by split|]. intros s t u [] []. split; try congruence; auto. Qed.
Lemma applies_step s t : applies s t -> safe_step s t.
Proof. intros [A B C _ _ _]. apply keeps_fsm_step. split; by rewrite ?A, ?B, ?C. Qed.
Lemma StartRuntime_setpoint settings limit i slow outer b i' slow' outer' :
  SlowUpdate.StartRuntime kTimestampFrequency Initialize timer_clock_hz settings limit i slow outer = Some (b, i', slow', outer') ->
  OuterLoop.setpoint_ outer' = OuterLoop.setpoint_ outer.
Proof. unfold SlowUpdate.StartRuntime. intros (x & _ & (y & _ & [= _ _ _ <-])%bind_Some)%bind_Some. reflexivity. Qed.
Lemma ApplySettings_applies s b t : ApplySettings s = Some (b, t) -> applies s t.
Proof.
  unfold DriveNode.ApplySettings. case_if; [intros [= <- <-]; by split|].
  match goal with |- context [LoadParameters ?x ?u] => destruct (LoadParameters x u) as [s1|] eqn:L; [|done]; set (s0 := u) in * end.
  cbn [mbind option_bind]. apply LoadParameters_keeps in L as (K & _ & E & O & Po & Eb).
  assert (applies s s1) as A1 by (split; rewrite ?(keeps_sys _ _ K), ?E, ?O; done). clearbody s0.
  destruct (SlowUpdate.StartRuntime _ _ _ _ _ _ _ _) as [[[[started i] slow] outer]|] eqn:R; [|done]. cbn [mbind option_bind].
  apply StartRuntime_setpoint in R. intros H. etrans; [exact A1|]. revert H. repeat case_if; intros [= <- <-]; by split.
Qed.
Lemma release_step s : engaged_ (eng_ s) = false -> emergency_stop_ (eng_ s) = false -> IsActive (fsm (sys_ s)) = false ->
  safe_step s (release s).
Proof.
  intros E M A. unfold release. cbv zeta.
  match goal with |- context [Enable ?x] => set (p := x) end.
  assert (drive_ok s -> GetState p <> PowerStage.kEnabled) as Hp.
  { intros S D. unfold drive_ok in S. rewrite E in S. destruct (PowerStage.state_eqb (GetState (kPowerStage (sys_ s))) PowerStage.kEnabled) eqn:B.
    - apply bool_decide_eq_true in B. apply (safe_off _ _ _ S) in B as [_ B]. congruence.
    - apply bool_decide_eq_false in B. by apply PowerStage.clear_fault_off in D. }
  destruct (Enable p) as [ok stage] eqn:En. destruct ok; cbn [negb].
  - split; [|done]. intros S. unfold drive_ok in *. cbn. rewrite M. rewrite E, M in S. by eapply (safe_engage false (sys_ s)).
  - split; [|done]. intros S. pose proof (Hp S) as N. unfold drive_ok in *. eapply (safe_stage _ _ (sys_ s)); [done| |exact S].
    intros _ D. exfalso. revert En D. cbn. unfold Enable. case_if; [by intros [= <-]|].
    pose proof (PowerStage.enable_refused (PowerStage.platform p)) as R. unfold GetState.
    destruct (PowerStage.enable_ _) as [b q]. intros [= -> <-]. by apply R.
Qed.
Lemma Engage_step s t : Engage s = Some t -> safe_step s t.
Proof.
  unfold DriveNode.Engage, IsEngaged. destruct (engaged_ (eng_ s)) eqn:E; [by intros <-%(inj Some)|].
  destruct (emergency_stop_ (eng_ s)) eqn:M; [by intros <-%(inj Some)|]. cbn [orb].
  destruct (IsActive (fsm (sys_ s))) eqn:A; [intros <-%(inj Some); apply keeps_step; by split|].
  case_if; [|intros <-%(inj Some); by apply release_step].
  destruct (ApplySettings s) as [[ok u]|] eqn:S; cbn [mbind option_bind]; [|done]. intros <-%(inj Some).
  apply ApplySettings_applies in S as S1. pose proof S1 as [F G H _ _ _]. assert (safe_step s u) as K by (by apply applies_step).
  destruct ok; [|done]. etrans; [exact K|]. apply release_step; by rewrite ?H, ?F.
Qed.
Lemma take_request_step s t : take_request s = Some t -> safe_step s t.
Proof.
  unfold DriveNode.take_request. case_if; [|by intros <-%(inj Some)]. intros K%Engage_step. etrans; [|exact K]. apply keeps_step. by split.
Qed.
Lemma SpinStartup_step s : safe_step s (SpinStartup s).
Proof.
  unfold SpinStartup. destruct (IsActive (fsm (sys_ s))) eqn:A.
  - split; [|done]. intros S. unfold drive_ok in *. cbn. destruct S as [F E M].
    assert (engaged_ (eng_ s) = false) as Ee by (destruct (engaged_ (eng_ s)); [by rewrite E in A|done]).
    assert (emergency_stop_ (eng_ s) = false) as Em by (destruct (emergency_stop_ (eng_ s)); [destruct M; congruence|done]).
    rewrite Ee, Em in *. apply (safe_event HwStartup.ev_RunOnce false (sys_ s) false); [by split|done].
  - case_if; [|reflexivity]. apply keeps_fsm_step. by split.
Qed.
Lemma check_engagement_step now holds s : safe_step s (check_engagement now holds s).
Proof.
  unfold check_engagement. case_if; [reflexivity|]. case_if; [apply Disengage_step|]. case_if; [|reflexivity].
  etrans; [|apply Disengage_step]. apply keeps_step. by split.
Qed.
(** SpinEngagement() is the checks and then setpoints only. *)
Lemma SpinEngagement_cases now s : exists u holds, still s u /\ (eng_ u = eng_ s /\ times_ u = times_ s) /\
  still (check_engagement now holds u) (SpinEngagement now s).
Proof.
  unfold SpinEngagement. destruct (CartControl.Update _ _ _ _) as [k c].
  set (u := s.{cart_ := c}.{cart_mode_ := CartControl.mode k}). exists u, (CartControl.holds_engagement k). split; [by do 2 split|].
  split; [done|]. set (v := check_engagement _ _ u). clearbody v. cbv zeta.
  assert (forall b x w, still w (if (b : bool) then SetCurrentSetpoint f_zero x now w else w)) as K
    by (intros [] x w; [apply SetCurrentSetpoint_still|reflexivity]).
  match goal with |- context [if ?b then SetCurrentSetpoint f_zero (torque_current (CartControl.torque k) v) now v else v] =>
    pose proof (K b (torque_current (CartControl.torque k) v) v) as K1;
    set (w := if b then SetCurrentSetpoint f_zero (torque_current (CartControl.torque k) v) now v else v) in * end.
  clearbody w.
  match goal with |- context [if ?b then SetCurrentSetpoint f_zero (torque_current (ebike_torque_ w) w) now w else w] =>
    pose proof (K b (torque_current (ebike_torque_ w) w) w) as K2;
    set (x := if b then SetCurrentSetpoint f_zero (torque_current (ebike_torque_ w) w) now w else w) in * end.
  clearbody x. etrans; [exact K1|]. etrans; [exact K2|]. case_if; by do 2 split.
Qed.
Lemma SpinEngagement_step now s : safe_step s (SpinEngagement now s).
Proof.
  destruct (SpinEngagement_cases now s) as (u & h & K1 & _ & K2).
  etrans; [by apply still_step|]. etrans; [apply check_engagement_step|by apply still_step].
Qed.
Lemma TuneLive_applies s t : TuneLive s = Some t -> applies s t.
Proof.
  unfold TuneLive. cbv zeta. case_if; [intros <-%(inj Some); by split|].
  match goal with |- context [LoadParameters ?x ?u] => destruct (LoadParameters x u) as [s1|] eqn:L; [|done]; set (s0 := u) in * end.
  cbn [mbind option_bind]. intros <-%(inj Some). apply LoadParameters_keeps in L as (K & _ & E & O & Po & Eb).
  assert (applies s s0) as A0 by (by split). clearbody s0. etrans; [exact A0|]. split; cbn; rewrite ?(keeps_sys _ _ K), ?E, ?O; done.
Qed.
Lemma hand_over_same s : sys_ (hand_over s) = sys_ s /\ eng_ (hand_over s) = eng_ s.
Proof. done. Qed.
Lemma hand_over_setpoint s : exists setpoint box,
  OuterLoop.setpoint_ (outer_ (hand_over s)) = Mailbox_Write setpoint box /\ OuterLoop.active setpoint = IsEngaged s.
Proof. by eexists _, _. Qed.
Lemma hand_over_keeps s : keeps s (hand_over s).
Proof. by split. Qed.
Lemma note_pending_applies s : applies s (note_pending s).
Proof. unfold note_pending. case_if; by split. Qed.
Lemma SpinSettings_applies s t : SpinSettings s = Some t -> applies s t.
Proof.
  intros (u & R & H)%bind_Some. assert (applies s u) as A.
  { revert R. unfold tune_part. case_if; [apply TuneLive_applies|by intros <-%(inj Some)]. }
  etrans; [exact A|]. etrans; [apply note_pending_applies|]. revert H. unfold apply_part.
  case_if; [|by intros <-%(inj Some)]. intros H. apply bind_Some in H as ([b x] & S & H). apply (inj Some) in H as <-.
  by apply ApplySettings_applies in S.
Qed.
Lemma SpinPublish_still now io s t : SpinPublish now io s = Some t -> still s t.
Proof.
  unfold DriveNode.SpinPublish. destruct (Due _ _ _) as [d n]. cbv zeta.
  intros (s2 & R & H)%bind_Some. assert (still s s2) as K.
  { etrans; [|destruct d; [by apply PublishTelemetry_still in R|apply (inj Some) in R; by rewrite <- R]]. by do 2 split. }
  clear R. etrans; [exact K|]. clear K s. destruct (Due _ _ _) as [d2 n2].
  apply bind_Some in H as (s4 & R & H). assert (still s2 s4) as K.
  { etrans; [|destruct d2; [by apply PublishDriveStatus_still in R|apply (inj Some) in R; by rewrite <- R]]. by do 2 split. }
  clear R. etrans; [exact K|]. clear K. apply (inj Some) in H as <-. etrans; [apply (PublishHoming_still now io)|].
  set (s5 := PublishHoming _ _ _). clearbody s5. case_if; by do 2 split.
Qed.
(** The parts of a spin. *)
Lemma Spin_cases now io s t : Spin now io s = Some t -> exists s1 s2 s3,
  SpinLocalControl now io (received now io s) = Some s1 /\ take_request s1 = Some s2 /\ SpinSettings (hand_over (engagement_part now io s2)) = Some s3 /\ SpinPublish now io s3 = Some t.
Proof.
  intros (s1 & L & (s2 & T & (s3 & S & H)%bind_Some)%bind_Some)%bind_Some. exact (ex_intro _ s1 (ex_intro _ s2 (ex_intro _ s3 (conj L (conj T (conj S H)))))).
Qed.
Lemma received_step now io s : safe_step s (received now io s).
Proof.
  unfold received. etrans; [|apply still_step, WatchBus_still]. etrans; [|apply foldl_step, run_dispatch_step].
  apply keeps_step, on_times_keeps.
Qed.
Lemma engagement_part_step now io s : safe_step s (engagement_part now io s).
Proof.
  unfold engagement_part. etrans; [|apply SpinEngagement_step]. etrans; [apply SpinStartup_step|].
  apply still_step, PublishCommissioning_still.
Qed.
Lemma Spin_step now io s t : Spin now io s = Some t -> safe_step s t.
Proof.
  intros (s1 & s2 & s3 & L & T & S & H)%Spin_cases.
  apply SpinLocalControl_step in L. apply take_request_step in T.
  apply SpinSettings_applies, applies_step in S. apply SpinPublish_still, still_step in H.
  etrans; [apply received_step|]. etrans; [exact L|]. etrans; [exact T|]. etrans; [apply engagement_part_step|].
  etrans; [apply keeps_step, hand_over_keeps|]. etrans; [exact S|exact H].
Qed.
Lemma run_drive_step e s t : run_drive e s = Some t -> safe_step s t.
Proof.
  destruct e as [now io|samples|waiting| |]; cbn [DriveNode.run_drive]; intros H.
  - by apply Spin_step in H.
  - apply (inj Some) in H as <-. apply keeps_fsm_step. unfold ControlCycleHandler, HwStartup.run_cycle.
    pose proof (OnControlCycle_off samples (cc_ (sys_ s)) (PowerStage.platform (kPowerStage (sys_ s)))) as O.
    destruct (OnControlCycle _ _ _) as [c p]. by split.
  - unfold ObserverHandler in H. destruct (SlowUpdate.RunOnce _ _ _ _ _) as [[[[ran w] i] slow]|]; [|done]. cbn [mbind option_bind] in H.
    destruct (OuterLoop.OnObserverCycle _ _) as [notify o]. apply (inj Some) in H as <-. apply keeps_fsm_step. by split.
  - unfold ControlThreadHandler in H. destruct (OuterLoop.Step _ _) as [[i o]|]; [|done]. apply (inj Some) in H as <-.
    apply keeps_fsm_step. by split.
  - apply (inj Some) in H as <-. apply keeps_fsm_step. split; try done. intros D. by apply PowerStage.trip_off in D.
Qed.

(** ** From the start on *)
Fixpoint run_drives (es : list drive_event) s : option Drive :=
  match es with [] => Some s | e :: es => t ← run_drive e s; run_drives es t end.
Inductive reachable : Drive -> Prop :=
| reach_start answer now store stage ebike booted ok s : GetState stage <> PowerStage.kEnabled ->
    main store stage ebike = Some (0, booted) -> Start answer now booted = Some (ok, s) -> reachable s
| reach_step e s t : reachable s -> run_drive e s = Some t -> reachable t.

Lemma Start_keeps answer now s ok t : Start answer now s = Some (ok, t) -> keeps s t.
Proof.
  unfold DriveNode.Start. cbv zeta. intros (u & L & H)%bind_Some. apply LoadParameters_keeps in L as (K & _).
  apply (inj Some), (f_equal snd) in H. cbn [snd] in H. rewrite <- H. etrans; [|etrans; [exact K|]]; by split.
Qed.
Lemma main_ok store stage ebike code s : GetState stage <> PowerStage.kEnabled -> main store stage ebike = Some (code, s) -> drive_ok s.
Proof.
  intros G H. assert (exists i store' outer slow, s = DriveNode_init i stage store' outer slow ebike) as (i & store' & outer & slow & ->).
  { unfold DriveNode.main in H. destruct (SettingsStore.Load store) as [status store'].
    assert (forall o, (match o with Some (b, i, slow, outer) => Some (if (b : bool) then 0 else 1, DriveNode_init i stage store' outer slow ebike)
      | None => None end = Some (code, s)) -> exists i store' outer slow, s = DriveNode_init i stage store' outer slow ebike) as K.
    { intros [[[[b i] slow] outer]|] E; [|done]. apply (inj Some), (f_equal snd) in E. cbn [snd] in E. by exists i, store', outer, slow. }
    destruct status; try (by apply K in H); apply (inj Some), (f_equal snd) in H; cbn [snd] in H; eauto. }
  split; try done. exists false. cbn. by apply HwStartup.booted_inv.
Qed.
Lemma reachable_ok s : reachable s -> drive_ok s.
Proof.
  induction 1 as [answer now store stage ebike booted ok s G B H|e s t _ IH H].
  - apply Start_keeps in H. apply (step_ok _ _ (keeps_step _ _ H)). by eapply main_ok.
  - apply run_drive_step in H. by apply (step_ok _ _ H).
Qed.
Lemma run_drives_step es : forall s t, run_drives es s = Some t -> safe_step s t.
Proof.
  induction es as [|e es IH]; cbn [run_drives]; intros s t; [by intros <-%(inj Some)|].
  intros (u & K%run_drive_step & H)%bind_Some. etrans; [exact K|by apply IH].
Qed.

(** C1. The outputs are released only by an engaged drive or by a running
    startup aid, never by both; after an emergency stop nothing releases them
    again: whatever the drive has done since its start, released outputs mean
    exactly one of the two, the command itself turns the outputs off, and from
    then on every run of spins (with any messages, commands and register
    writes), control cycles, observer runs, control steps and trips keeps them
    off. *)
Theorem outputs_accounted s : reachable s ->
  (stage_state s = PowerStage.kEnabled ->
     (IsEngaged s = true /\ IsActive (fsm (sys_ s)) = false) \/ (IsEngaged s = false /\ IsActive (fsm (sys_ s)) = true)) /\
  (forall parameter, emergency_stop_ (eng_ (OnCommand kCommandEmergencyStop parameter s).2) = true /\
     stage_state (OnCommand kCommandEmergencyStop parameter s).2 <> PowerStage.kEnabled) /\
  (emergency_stop_ (eng_ s) = true -> forall es t, run_drives es s = Some t ->
     emergency_stop_ (eng_ t) = true /\ stage_state t <> PowerStage.kEnabled).
Proof.
  intros R%reachable_ok. split; [|split].
  - intros E. apply (safe_off _ _ _ R) in E as [_ E]. unfold IsEngaged. destruct (engaged_ (eng_ s)); auto.
  - intros parameter. pose proof (emergency_stop_step s) as [K1 K2].
    change (OnCommand kCommandEmergencyStop parameter s).2 with
      (Disengage "emergency stop" (RequestAbort HwStartup.fault_kEmergencyStop (set_field eng_ (set_field emergency_stop_ true (eng_ s)) s))).
    set (u := Disengage _ _) in *. assert (emergency_stop_ (eng_ u) = true) as Mu by (unfold u; by rewrite (proj1 (proj2 (proj2 (Disengage_spec _ _))))).
    split; [exact Mu|]. specialize (K1 R). unfold drive_ok in K1. rewrite Mu in K1. intros E. by apply (safe_off _ _ _ K1) in E as [? _].
  - intros M es t H%run_drives_step. pose proof (step_stop _ _ H R M) as Mt. split; [exact Mt|].
    pose proof (step_ok _ _ H R) as T. unfold drive_ok in T. rewrite Mt in T. intros E. by apply (safe_off _ _ _ T) in E as [? _].
Qed.

(** ** The checks of a spin *)
Lemma check_engagement_engaged now holds s : IsEngaged (check_engagement now holds s) = true ->
  check_engagement now holds s = s /\ stage_state s = PowerStage.kEnabled /\ Tripped (isr s) = false.
Proof.
  unfold check_engagement. destruct (IsEngaged s) eqn:E; cbn [negb]; [|by rewrite E].
  assert (forall r (u : Drive), IsEngaged (Disengage r u) = true -> False) as D.
  { intros r u. unfold IsEngaged. by rewrite (proj1 (proj2 (Disengage_spec r u))). }
  case_if; [by intros ?%D|]. case_if; [by intros ?%D|]. intros _. split; [done|].
  match goal with H : _ || _ = false |- _ => apply orb_false_iff in H as [A B] end. apply negb_false_iff, bool_decide_eq_true in A. done.
Qed.
(** A latched trip or a lost power stage while engaged asks for a re-arm. *)
Lemma check_engagement_fault now holds s : IsEngaged s = true ->
  (command_timeout_us_ (times_ s) <? u64 (now - last_readiness_us_ (eng_ s))) && negb holds = false ->
  stage_state s <> PowerStage.kEnabled \/ Tripped (isr s) = true ->
  IsEngaged (check_engagement now holds s) = false /\ rearm_required_ (eng_ (check_engagement now holds s)) = true.
Proof.
  intros E T F. unfold check_engagement. rewrite E, T. cbn [negb].
  assert (negb (state_eqb (stage_state s) PowerStage.kEnabled) || Tripped (isr s) = true) as ->.
  { apply orb_true_iff. destruct F as [F|F]; [left|by right]. by apply negb_true_iff, bool_decide_eq_false. }
  unfold IsEngaged. match goal with |- context [Disengage ?r ?u] => destruct (Disengage_spec r u) as (_ & A & _ & B) end.
  by rewrite A, B.
Qed.
(** With the readiness timeout at the same time the re-arm is skipped: the
    checks are an else-if. *)
Lemma timeout_hides_fault now s : IsEngaged s = true ->
  (command_timeout_us_ (times_ s) <? u64 (now - last_readiness_us_ (eng_ s))) = true -> rearm_required_ (eng_ s) = false ->
  IsEngaged (check_engagement now false s) = false /\ rearm_required_ (eng_ (check_engagement now false s)) = false.
Proof.
  intros E T R. unfold check_engagement. rewrite E, T. cbn [negb andb]. unfold IsEngaged.
  match goal with |- context [Disengage ?r ?u] => destruct (Disengage_spec r u) as (_ & A & _ & B) end. by rewrite A, B, R.
Qed.
(** A request survives a later readiness of the same spin. *)
Lemma standby_keeps_request engaged_bytes standby_bytes now s :
  Readiness_deserialize engaged_bytes = Some ENGAGED -> Readiness_deserialize standby_bytes = Some STANDBY ->
  ebike_ s = None -> IsEngaged s = false -> rearm_required_ (eng_ s) = false ->
  engage_requested_ (eng_ (OnReadiness standby_bytes now (OnReadiness engaged_bytes now s))) = true.
Proof.
  intros D1 D2 Eb En Re. unfold IsEngaged in En. set (u := OnReadiness engaged_bytes now s).
  assert (ebike_ u = None /\ engaged_ (eng_ u) = false /\ engage_requested_ (eng_ u) = true) as (U1 & U2 & U3).
  { unfold u, OnReadiness. rewrite D1. cbv zeta. change (ebike_ (on_eng (set_field last_readiness_us_ now) s)) with (ebike_ s). rewrite Eb.
    unfold IsEngaged. cbn. rewrite En, Re. done. }
  clearbody u. unfold OnReadiness. rewrite D2. cbv zeta.
  change (ebike_ (on_eng (set_field rearm_required_ false) (on_eng (set_field last_readiness_us_ now) u))) with (ebike_ u). rewrite U1.
  unfold IsEngaged. cbn. by rewrite U2.
Qed.

Lemma TuneLive_trips s t : TuneLive s = Some t ->
  overcurrent_tripped (isr t) = overcurrent_tripped (isr s) /\ overvoltage_tripped (isr t) = overvoltage_tripped (isr s).
Proof.
  unfold TuneLive. cbv zeta. case_if; [by intros <-%(inj Some)|].
  intros (v & L & <-%(inj Some))%bind_Some. apply LoadParameters_keeps in L as ([K _ _] & _). unfold isr. cbn. by rewrite K.
Qed.
Lemma SpinSettings_engaged s t : SpinSettings s = Some t -> IsEngaged s = true -> tune_part s = Some t.
Proof.
  intros (u & R & H)%bind_Some En. rewrite R. assert (IsEngaged u = true) as Eu.
  { revert R. unfold tune_part. case_if; [|by intros <-%(inj Some)]. intros R%TuneLive_applies. unfold IsEngaged. by rewrite (ap_eng _ _ R). }
  assert (note_pending u = u) as N by (unfold note_pending; by rewrite Eu). rewrite N in H. unfold apply_part in H. by rewrite Eu in H.
Qed.
Lemma SpinSettings_trips s t : SpinSettings s = Some t -> IsEngaged s = true ->
  overcurrent_tripped (isr t) = overcurrent_tripped (isr s) /\ overvoltage_tripped (isr t) = overvoltage_tripped (isr s).
Proof.
  intros R En. apply SpinSettings_engaged in R; [|done]. revert R. unfold tune_part. case_if; [apply TuneLive_trips|].
  by intros <-%(inj Some).
Qed.
(** The drive after the checks of a spin, [u] before them. *)
Lemma engagement_part_cases now io s : exists u holds, still (check_engagement now holds u) (engagement_part now io s) /\
  sys_ u = sys_ (PublishCommissioning now io (SpinStartup s)) /\ eng_ u = eng_ (PublishCommissioning now io (SpinStartup s)) /\
  times_ u = times_ (PublishCommissioning now io (SpinStartup s)).
Proof.
  unfold engagement_part. destruct (SpinEngagement_cases now (PublishCommissioning now io (SpinStartup s)))
    as (u & h & [[U1 _ _] _ _ _ _ _] & [U2 U3] & K). by exists u, h.
Qed.
(** What a spin leaves behind. *)
Lemma Spin_end now io s t : Spin now io s = Some t ->
  (IsEngaged t = true -> stage_state t = PowerStage.kEnabled /\ Tripped (isr t) = false) /\
  exists setpoint box, OuterLoop.setpoint_ (outer_ t) = Mailbox_Write setpoint box /\ OuterLoop.active setpoint = IsEngaged t.
Proof.
  intros (s1 & s2 & s3 & _ & _ & S & H)%Spin_cases. destruct (engagement_part_cases now io s2) as (v & h & K & _).
  revert S K. generalize (engagement_part now io s2). intros u S K.
  apply SpinPublish_still in H as [[Y1 Y2 Y3] _ _ _ _ R5]. pose proof (SpinSettings_applies _ _ S) as [_ A2 A3 _ _ A6].
  destruct (hand_over_same u) as [O1 O2]. rewrite O1 in A2. rewrite O2 in A3.
  assert (IsEngaged t = IsEngaged u) as E by (unfold IsEngaged; by rewrite Y2, A3). split.
  - rewrite E. intros Eu. destruct (SpinSettings_trips _ _ S Eu) as [B1 B2]. unfold isr in B1, B2. rewrite O1 in B1, B2.
    destruct K as [[K1 K2 K3] _ _ _ _ _]. unfold IsEngaged in Eu. rewrite K2 in Eu.
    destruct (check_engagement_engaged _ _ _ Eu) as (C1 & C2 & C3). rewrite C1 in K1.
    unfold stage_state, Tripped, isr in *. rewrite Y1, A2, B1, B2, K1. done.
  - rewrite R5, A6, E. apply hand_over_setpoint.
Qed.

(** ** The re-arm *)

(** Operations that neither engage nor touch the re-arm, the request, the local
    control or a known readiness port. *)
Record rests s t : Prop := mkRests {
  rs_engaged : engaged_ (eng_ s) = false -> engaged_ (eng_ t) = false;
  rs_rearm : rearm_required_ (eng_ t) = rearm_required_ (eng_ s);
  rs_requested : engage_requested_ (eng_ t) = engage_requested_ (eng_ s);
  rs_ebike : ebike_ s = None -> ebike_ t = None;
  rs_port : readiness_port_ (ports_ s) <> SettingsData.kUnsetPortId -> readiness_port_ (ports_ t) = readiness_port_ (ports_ s) }.
#[local] Instance rests_preorder : PreOrder rests.
Proof. split; [by split|]. intros s t u [Q1 Q2 Q3 Q4 Q5] [R1 R2 R3 R4 R5]. split; [auto|congruence|congruence|auto|].
  intros N. rewrite R5; [by apply Q5|by rewrite Q5]. Qed.
Lemma still_rests s t : still s t -> rests s t.
Proof. intros [[K1 K2 K3] A B C D E]. split; rewrite ?K2, ?C, ?D; done. Qed.
Lemma applies_rests s t : applies s t -> rests s t.
Proof. intros [A B C D E F]. split; rewrite ?C, ?D; done. Qed.
Lemma Disengage_rests reason s : rests s (Disengage reason s).
Proof.
  unfold Disengage. cbv zeta. set (u := on_outer _ _). assert (rests s u) as K by (by split). clearbody u. etrans; [exact K|].
  set (w := if IsEngaged u || _ then _ else u). assert (rests u w) as K2 by (unfold w; case_if; by split). clearbody w.
  etrans; [exact K2|]. unfold IsEngaged. case_if; [|reflexivity]. by split.
Qed.
Lemma save_to_flash_rests s : rests s (save_to_flash s).2.
Proof. unfold save_to_flash. destruct (SettingsStore.SaveToFlash _). by split. Qed.
Lemma OnCommand_rests command parameter s : rests s (OnCommand command parameter s).2.
Proof.
  assert (forall reason, rests s (RequestAbort reason s)) as R by (by split).
  unfold OnCommand. case_if; [destruct (Commissioning.OnCommand _ _ _ _ _); by split|].
  case_if; [cbv zeta; cbn [snd]; etrans; [apply (R HwStartup.fault_kAborted)|]; etrans; [apply (Disengage_rests "restart")|]; generalize (Disengage "restart" (RequestAbort HwStartup.fault_kAborted s)); by split|].
  case_if; [etrans; [|apply Disengage_rests]; by split|]. case_if; [by split|]. case_if; [apply still_rests, StartHoming_still|].
  case_if; [pose proof (save_to_flash_rests s) as K; by destruct (save_to_flash s)|].
  case_if; [|reflexivity]. case_if; [reflexivity|]. destruct (SettingsStore.ResetToFactoryDefaults _) as [k store]. cbv zeta.
  case_if; [by split|]. set (u := on_app _ _). pose proof (save_to_flash_rests u) as K. assert (rests s u) as K1 by (by split).
  clearbody u. destruct (save_to_flash u). by etrans.
Qed.
Lemma OnNodeIdAllocated_rests node subscribed s : rests s (OnNodeIdAllocated node subscribed s).
Proof.
  unfold OnNodeIdAllocated. cbv zeta. set (s1 := if readiness_port_ (ports_ s) =? _ then _ else s). assert (rests s s1) as K1.
  { unfold s1. destruct (Z.eqb_spec (readiness_port_ (ports_ s)) SettingsData.kUnsetPortId); [case_if; by split|reflexivity]. }
  clearbody s1. etrans; [exact K1|]. destruct (SettingsStore.SetNodeId _ _) as [k store]. set (s2 := set_field sys_ _ s1).
  assert (rests s1 s2) as K2 by (by split). clearbody s2. etrans; [exact K2|]. case_if; [|by split].
  pose proof (save_to_flash_rests s2) as K. destruct (save_to_flash s2). etrans; [exact K|]. case_if; by split.
Qed.

(** A drive that waits for a readiness other than ENGAGED. *)
Definition waiting (port : Z) s : Prop :=
  IsEngaged s = false /\ rearm_required_ (eng_ s) = true /\ engage_requested_ (eng_ s) = false /\ ebike_ s = None /\
  readiness_port_ (ports_ s) = port.
(** No message re-arms: what arrives on the port is ENGAGED or undecodable. *)
Definition no_rearm (port : Z) (d : dispatch) : Prop :=
  match d with
  | got_Message p bytes => p = port -> Readiness_deserialize bytes = None \/ Readiness_deserialize bytes = Some ENGAGED
  | _ => True
  end.
Definition event_no_rearm (port : Z) (e : drive_event) : Prop :=
  match e with ev_Spin _ io => Forall (no_rearm port) (dispatched io) | _ => True end.
Section Waiting.
Variable port : Z.
Hypothesis Hport : port <> SettingsData.kUnsetPortId.
Lemma rests_waiting s t : rests s t -> waiting port s -> waiting port t.
Proof.
  intros [] (A & B & C & D & E). unfold waiting, IsEngaged in *. split_and!; [auto|congruence|congruence|auto|].
  rewrite rs_port0, E; congruence.
Qed.
Lemma run_dispatch_waiting now s d : no_rearm port d -> waiting port s -> waiting port (run_dispatch now s d).
Proof.
  intros Q W. destruct d as [p bytes|command parameter|index v|node subscribed]; cbn [run_dispatch].
  - destruct (OnMessage_cases p bytes now s) as [[-> ->]|K]; [|by apply (rests_waiting s), W; apply still_rests].
    pose proof W as (A & B & C & D & E). specialize (Q E). unfold OnReadiness.
    destruct Q as [-> | ->]; [done|]. set (u := on_eng _ s). assert (waiting port u) as U by done.
    change (ebike_ u) with (ebike_ s). rewrite D. destruct U as (U1 & U2 & _). rewrite U1, U2. done.
  - pose proof (OnCommand_rests command parameter s) as K. destruct (OnCommand _ _ _) as [answer t].
    assert (waiting port t) by (by apply (rests_waiting s t)). done.
  - unfold WriteRegister. destruct (Registers.Write _ _ _). exact W.
  - by apply (rests_waiting s), W; apply OnNodeIdAllocated_rests.
Qed.
Lemma received_waiting now io s : Forall (no_rearm port) (dispatched io) -> waiting port s -> waiting port (received now io s).
Proof.
  intros Q W. unfold received. eapply rests_waiting; [apply still_rests, WatchBus_still|].
  assert (waiting port (on_times (set_field now_us_ now) s)) as U by exact W. revert U. generalize (on_times (set_field now_us_ now) s).
  induction Q as [|d l Hd _ IH]; intros u U; [done|]. cbn. apply IH. by apply run_dispatch_waiting.
Qed.
Lemma SpinStartup_rests s : rests s (SpinStartup s).
Proof. unfold SpinStartup. repeat case_if; by split. Qed.
Lemma engagement_part_waiting now io s : waiting port s -> waiting port (engagement_part now io s).
Proof.
  intros W. unfold engagement_part. apply (rests_waiting _ _ (SpinStartup_rests s)) in W.
  apply (rests_waiting _ _ (still_rests _ _ (PublishCommissioning_still now io _))) in W.
  revert W. generalize (PublishCommissioning now io (SpinStartup s)). clear s. intros w W.
  destruct (SpinEngagement_cases now w) as (v & h & K1 & _ & K2).
  apply (rests_waiting _ _ (still_rests _ _ K1)) in W. apply (rests_waiting _ _ (still_rests _ _ K2)).
  unfold check_engagement. destruct W as (Ew & Rest). by rewrite Ew.
Qed.
Lemma hand_over_waiting s : waiting port s -> waiting port (hand_over s).
Proof. done. Qed.
Lemma SpinLocalControl_waiting now io s t : waiting port s -> SpinLocalControl now io s = Some t -> waiting port t.
Proof.
  intros W (u & _ & _ & E & C)%SpinLocalControl_cases. pose proof W as (_ & _ & _ & D & _). rewrite (E D) in C.
  destruct C as [->|[-> _]]; [done|]. by apply (rests_waiting _ _ (Disengage_rests "e-bike" s)).
Qed.
Lemma take_request_waiting s t : waiting port s -> take_request s = Some t -> t = s.
Proof. intros (_ & _ & D & _). unfold DriveNode.take_request. rewrite D. by intros <-%(inj Some). Qed.
Lemma Spin_waiting now io s t : Forall (no_rearm port) (dispatched io) -> waiting port s -> Spin now io s = Some t -> waiting port t.
Proof.
  intros Q W (s1 & s2 & s3 & L & T & S & H)%Spin_cases. apply (received_waiting now io) in W; [|done].
  apply (SpinLocalControl_waiting now io _ _ W) in L. apply (take_request_waiting _ _ L) in T. rewrite T in S.
  apply (engagement_part_waiting now io), hand_over_waiting in L.
  apply (rests_waiting _ _ (applies_rests _ _ (SpinSettings_applies _ _ S))) in L.
  exact (rests_waiting _ _ (still_rests _ _ (SpinPublish_still _ _ _ _ H)) L).
Qed.
Lemma run_drive_waiting e s t : event_no_rearm port e -> waiting port s -> run_drive e s = Some t -> waiting port t.
Proof.
  intros Q W H. destruct e as [now io|samples|events| |]; cbn [DriveNode.run_drive] in H.
  - by eapply Spin_waiting.
  - apply (inj Some) in H as <-. unfold ControlCycleHandler. exact W.
  - apply bind_Some in H as ([b u] & H & E). apply (inj Some) in E as <-. unfold ObserverHandler in H.
    apply bind_Some in H as ([[[ran w] i] slow] & _ & H). destruct (OuterLoop.OnObserverCycle _ _). apply (inj Some), (f_equal snd) in H.
    cbn [snd] in H. rewrite <- H. exact W.
  - apply bind_Some in H as ([i o] & _ & H). apply (inj Some) in H as <-. exact W.
  - apply (inj Some) in H as <-. exact W.
Qed.
Lemma run_drives_waiting es : forall s t, Forall (event_no_rearm port) es -> waiting port s -> run_drives es s = Some t -> waiting port t.
Proof.
  induction es as [|e es IH]; cbn [run_drives]; intros s t Q W; [by intros <-%(inj Some)|].
  apply Forall_cons_1 in Q as [Q1 Q2]. intros (u & H & H')%bind_Some. eapply IH; [done| |exact H']. by eapply run_drive_waiting.
Qed.
End Waiting.

(** A spin without messages looks at the drive as it is. *)
Record looks_same s t : Prop := mkLooksSame {
  ls_eng : eng_ t = eng_ s;
  ls_timeout : command_timeout_us_ (times_ t) = command_timeout_us_ (times_ s);
  ls_stage : stage_state t = stage_state s;
  ls_tripped : Tripped (isr t) = Tripped (isr s);
  ls_active : IsActive (fsm (sys_ t)) = IsActive (fsm (sys_ s));
  ls_ebike : ebike_ t = ebike_ s }.
#[local] Instance looks_same_preorder : PreOrder looks_same.
Proof. split; [by split|]. intros s t u [] []. split; congruence. Qed.
Lemma WatchBus_looks b s : looks_same s (WatchBus b s).
Proof. unfold WatchBus. cbv zeta. repeat case_if; first [reflexivity | by split]. Qed.
Lemma send_looks node p bytes s : looks_same s (send_serialized node p bytes s).1.
Proof. unfold send_serialized. destruct bytes; [|reflexivity]. destruct (Publish _ _ _) as [[] ]; by split. Qed.
Lemma PublishCommissioning_looks now io s : looks_same s (PublishCommissioning now io s).
Proof.
  unfold PublishCommissioning. destruct (Commissioning.Due _ _ _) as [[st|] c]; [|by split].
  match goal with |- context [send_serialized ?n ?p ?b ?u] => pose proof (send_looks n p b u) as K; destruct (send_serialized n p b u) end.
  etrans; [etrans; [|exact K]|]; by split.
Qed.
Lemma SpinStartup_looks s : IsActive (fsm (sys_ s)) = false -> looks_same s (SpinStartup s).
Proof. intros A. unfold SpinStartup. rewrite A. case_if; [|reflexivity]. by split. Qed.
Lemma received_looks now io s : dispatched io = [] -> looks_same s (received now io s).
Proof. intros D. unfold received. rewrite D. etrans; [|apply WatchBus_looks]. by split. Qed.
Lemma quiet_spin_fault now io s t : drive_ok s -> Spin now io s = Some t -> dispatched io = [] -> ebike_ s = None ->
  engage_requested_ (eng_ s) = false -> IsEngaged s = true ->
  (command_timeout_us_ (times_ s) <? u64 (now - last_readiness_us_ (eng_ s))) = false ->
  stage_state s <> PowerStage.kEnabled \/ Tripped (isr s) = true ->
  IsEngaged t = false /\ rearm_required_ (eng_ t) = true.
Proof.
  intros R (s1 & s2 & s3 & L & T & S & H)%Spin_cases D Eb Rq En Ti F. pose proof (received_looks now io s D) as W.
  set (r := received now io s) in *. clearbody r. destruct (SpinLocalControl_cases _ _ _ _ L) as (u & _ & _ & E & C).
  rewrite (E (eq_trans (ls_ebike _ _ W) Eb)) in C.
  assert (s1 = r) as ->.
  { unfold DriveNode.SpinLocalControl in L. rewrite (ls_ebike _ _ W), Eb in L. by apply (inj Some) in L. }
  assert (s2 = r) as ->. { unfold DriveNode.take_request in T. rewrite (ls_eng _ _ W), Rq in T. by apply (inj Some) in T. }
  assert (IsActive (fsm (sys_ s)) = false) as A by (exact (safe_engaged _ _ _ R En)).
  assert (looks_same s (PublishCommissioning now io (SpinStartup r))) as W2.
  { etrans; [exact W|]. etrans; [apply SpinStartup_looks; by rewrite (ls_active _ _ W)|]. apply PublishCommissioning_looks. }
  destruct (engagement_part_cases now io r) as (u' & h & [[_ K _] K2 _ _ _ _] & U1 & U2 & U3).
  revert S K K2 U1 U2 U3 W2. generalize (engagement_part now io r) (PublishCommissioning now io (SpinStartup r)).
  intros x w S K K2 U1 U2 U3 [W1 W2 W3 W4 _ _]. clear W L T E C.
  pose proof (SpinPublish_still _ _ _ _ H) as [[_ Y _] Y2 _ _ _ _]. pose proof (SpinSettings_applies _ _ S) as [_ _ Z _ _ _].
  rewrite (proj2 (hand_over_same x)) in Z. destruct (check_engagement_fault now h u') as [G1 G2].
  - unfold IsEngaged. by rewrite U2, W1.
  - by rewrite U2, U3, W1, W2, Ti.
  - unfold stage_state, Tripped, isr in *. by rewrite U1, W3, W4.
  - unfold IsEngaged in *. rewrite Y, Y2, Z. by rewrite K, K2.
Qed.

End Spin.
End Safety.

(** ** The demo drive: an ID is allocated, it engages, a trip comes *)
Definition demo_named : Demo := after (ev_Spin 1000 (demo_io [got_NodeId 42 true])) started_node.
Definition demo_engaged : Demo := after (ev_Spin 2000 (demo_io [readiness 3 demo_named])) demo_named.
Definition demo_tripped : Demo := after ev_Trip demo_engaged.
Definition demo_off : Demo := after (ev_Spin 3000 (demo_io [])) demo_tripped.
Abbreviation demo_reachable := (reachable demo_exp demo_clock demo_timer demo_Initialize true true).
Lemma after_reachable e (s : Demo) : demo_reachable s -> is_Some (demo_run e s) -> demo_reachable (after e s).
Proof. intros R [t E]. apply (reach_step _ _ _ _ _ _ e s); [done|]. unfold after, demo_run in *. by rewrite E. Qed.
Lemma demo_started : demo_reachable started_node.
Proof.
  apply (reach_start _ _ _ _ _ _ quiet_node 0 (SettingsPersistence.sim_store false) off_stage None booted_node true); [vm_compute; discriminate| |];
    vm_compute; reflexivity.
Qed.
Lemma demo_engaged_reachable : demo_reachable demo_engaged.
Proof. apply after_reachable; [apply after_reachable; [apply demo_started|]|]; apply (bool_decide_unpack _); vm_compute; reflexivity. Qed.
Lemma demo_tripped_reachable : demo_reachable demo_tripped.
Proof. apply after_reachable; [apply demo_engaged_reachable|]. by eexists. Qed.

Lemma outputs_accounted_witness : stage_state demo_engaged = PowerStage.kEnabled /\
  (IsEngaged demo_engaged = true /\ IsActive (fsm (sys_ demo_engaged)) = false \/
   IsEngaged demo_engaged = false /\ IsActive (fsm (sys_ demo_engaged)) = true).
Proof.
  split; [vm_compute; reflexivity|].
  apply (outputs_accounted demo_exp demo_clock demo_timer demo_Initialize true true demo_engaged demo_engaged_reachable).
  vm_compute. reflexivity.
Defined.
End DriveSafety.
