(* ===== verification/DriveSettings.v ===== *)
(** * The drive node: how written settings reach the controller

    While the drive is engaged only the settings described as immediate are
    handed to the running loops; everything else waits until the outputs are
    off ([TuneLive], [ApplySettings] of src/drive/drive_node.cpp). *)
From Stdlib Require Import ZArith Lia Bool SpecFloat String.
From stdpp Require Import base decidable list option.
From S2P Require Import Prelude Float32 PowerStage CurrentControl SettingsData SettingsCodec SettingsTypes Isr SettingsStore.
From S2P Require Import RamStorage SettingsPersistence Registers OuterLoop HwStartup DriveMessages DriveNode DriveDemo DriveSafety.
Import CurrentControl Isr DriveMessages DriveNode DriveDemo DriveSafety.
Import SettingsData(NvmSettings, NvmSettings_init, Field, telemetry_rate, speed_kp, fl, set_fl, reg_num, RegisterEntry, entry_name, entry_field, registers).
Import SettingsCodec(SameEncoding, encode_reg, copy_reg).
Import PowerStage(PowerStageOps, PowerStageInterface, state_eqb).
Import SettingsStore(StorageOps).

#[local] Open Scope Z_scope.
#[local] Open Scope unimoc_scope.
#[local] Existing Instance RamStorage.ram_storage.
#[local] Existing Instance SettingsCodec.RegField_eq_dec.
#[local] Existing Instance SettingsStore.eta_SettingsStore.

Module DriveSettings.

(** ** The tunable registers *)
Lemma SameEncoding_eq r a b : SameEncoding r a b = true <-> encode_reg a r = encode_reg b r.
Proof. apply bool_decide_eq_true. Qed.
Lemma CopyTunable_other source target e : e ∈ registers -> is_immediate e = false ->
  encode_reg (CopyTunable source target) (entry_field e) = encode_reg target (entry_field e).
Proof.
  intros He Hi. unfold CopyTunable.
  apply (foldl_invariant (fun t => encode_reg t (entry_field e) = encode_reg target (entry_field e))); [done|].
  intros t e' He' IH. destruct (is_immediate e') eqn:I; [|done]. rewrite SettingsCodec.encode_copy_reg.
  destruct (decide (entry_field e = entry_field e')) as [E|]; [|done].
  rewrite (SettingsStore.registers_inj e e') in Hi; auto. congruence.
Qed.
Lemma register_names_nonempty e : e ∈ registers -> entry_name e <> EmptyString.
Proof.
  assert (forallb (fun e => negb (String.eqb (entry_name e) EmptyString)) registers = true) as H by (vm_compute; reflexivity).
  intros He%list_elem_of_In E. rewrite forallb_forall in H. specialize (H e He). by rewrite E in H.
Qed.
(** The table is not unfolded from here on. *)
#[local] Strategy opaque [registers].
Lemma first_change_none applied untuned l : (forall e, e ∈ l -> entry_name e <> EmptyString) -> forall changed,
  foldl (first_change applied untuned) changed l = EmptyString ->
  changed = EmptyString /\ forall e, e ∈ l -> SameEncoding (entry_field e) applied untuned = true.
Proof.
  induction l as [|e' l IH]; intros Hn changed; cbn [foldl]; [intros E; split; [exact E|by intros e'' ?%not_elem_of_nil]|].
  intros H. destruct (IH (fun e He => Hn e (list_elem_of_further _ _ _ He)) _ H) as [H0 K]. clear H. rename H0 into H. unfold first_change in H.
  destruct (String.eqb changed EmptyString) eqn:C; cbn [andb] in H; [|by rewrite H in C]. apply String.eqb_eq in C. split; [done|].
  intros e'' [->|]%elem_of_cons; [|by apply K]. destruct (SameEncoding _ _ _); [done|]. cbn in H. by apply Hn in H; [|left].
Qed.
(** No register is named: none differs outside the tunable ones. *)
Lemma FirstUntunableChange_none applied live e : FirstUntunableChange applied live = EmptyString -> e ∈ registers ->
  is_immediate e = false -> encode_reg applied (entry_field e) = encode_reg live (entry_field e).
Proof.
  intros H He Hi. rewrite <- (CopyTunable_other applied live e He Hi). apply SameEncoding_eq. unfold FirstUntunableChange in H.
  exact (proj2 (first_change_none applied _ registers register_names_nonempty EmptyString H) e He).
Qed.

Section Settings.
Context {P St : Type} `{!PowerStageOps P} `{!StorageOps St} {dsdl : Dsdl}.
Abbreviation Drive := (DriveNode P St).
Implicit Types (s t : Drive).
Variable kTimestampFrequency timer_clock_hz : Z.
Variable Initialize : float -> Z -> bool.
Variable has_applied_hook : bool.
Abbreviation ApplySettings := (DriveNode.ApplySettings kTimestampFrequency timer_clock_hz Initialize has_applied_hook).
Abbreviation SpinSettings := (DriveNode.SpinSettings kTimestampFrequency timer_clock_hz Initialize has_applied_hook).

(** ** Live tuning *)
(** The running controller got other gains at most. *)
Definition tuned s t : Prop := isr t = isr s \/ exists gains, isr t = SetCurrentGains gains (isr s).
Lemma LoadParameters_same settings s t : LoadParameters settings s = Some t ->
  sys_ t = sys_ s /\ app_ t = app_ s /\ slow_ t = slow_ s.
Proof.
  intros H. pose proof (LoadParameters_keeps _ _ _ H) as (K & A & _). split; [by destruct K|]. split; [done|].
  revert H. unfold LoadParameters. do 3 (match goal with |- context [mbind _ ?x] => destruct x; cbn [mbind option_bind]; [|intros D; discriminate D] end).
  intros <-%(inj Some). match goal with |- context [match ?e with Some _ => _ | None => _ end] => destruct e end; [case_if|]; done.
Qed.
Lemma TuneLive_cases s t : TuneLive s = Some t ->
  checked_writes_ (app_ t) = write_count_ (app_ s) /\ write_count_ (app_ t) = write_count_ (app_ s) /\ slow_ t = slow_ s /\ tuned s t /\
  (settings_pending_ (app_ t) = true /\ applied_settings_ (app_ t) = applied_settings_ (app_ s) \/
   FirstUntunableChange (applied_settings_ (app_ s)) (live s) = EmptyString /\ applied_settings_ (app_ t) = live s /\
     applied_writes_ (app_ t) = write_count_ (app_ s)).
Proof.
  unfold TuneLive. cbv zeta. change (live (on_app _ s)) with (live s). change (applied_settings_ (app_ (on_app _ s))) with (applied_settings_ (app_ s)).
  destruct (String.eqb (FirstUntunableChange (applied_settings_ (app_ s)) (live s)) EmptyString) eqn:E; cbn [negb].
  - apply String.eqb_eq in E. intros (u & L & <-%(inj Some))%bind_Some. apply LoadParameters_same in L as (L1 & L2 & L3).
    cbn. rewrite L2, L3. cbn. do 3 (split; [done|]). split; [|by right]. right. unfold isr. cbn. rewrite L1. by eexists.
  - intros <-%(inj Some). do 3 (split; [reflexivity|]). split; by left.
Qed.

(** ** A restart of the controller *)
Lemma ApplySettings_cases s b t : ApplySettings s = Some (b, t) ->
  if state_eqb (stage_state s) PowerStage.kEnabled
  then b = false /\ settings_pending_ (app_ t) = true /\ isr t = isr s /\ slow_ t = slow_ s /\
       applied_settings_ (app_ t) = applied_settings_ (app_ s)
  else settings_pending_ (app_ t) = false /\ applied_settings_ (app_ t) = live s /\
       applied_writes_ (app_ t) = write_count_ (app_ s) /\ write_count_ (app_ t) = write_count_ (app_ s).
Proof.
  unfold DriveNode.ApplySettings. case_if; [intros [= <- <-]; done|].
  intros (u & L & H)%bind_Some. apply LoadParameters_same in L as (_ & L2 & _).
  apply bind_Some in H as ([[[started i] slow] outer] & _ & H). revert H. cbv zeta. cbn in L2.
  repeat case_if; intros H; apply (inj Some), (f_equal snd) in H; cbn [snd] in H; rewrite <- H; cbn; rewrite L2; done.
Qed.

(** ** Property *)

End Settings.

(** ** Concrete runs *)
Definition register_of (f : Field) : nat := default 0%nat (fst <$> list_find (fun e => entry_field e = reg_num f) registers).
(** The engaged drive of the examples gets a new gain of the speed control. *)
Definition demo_written : Demo := (WriteRegister (register_of speed_kp) (Registers.SetReal32 (f_of_Z 2)) demo_engaged).2.
Definition demo_settings (s : Demo) : option Demo := SpinSettings demo_clock demo_timer demo_Initialize true s.
Lemma demo_written_due : IsEngaged demo_written && negb (write_count_ (app_ demo_written) =? checked_writes_ (app_ demo_written)) &&
  match demo_settings demo_written with Some _ => true | None => false end = true.
Proof. vm_compute. reflexivity. Qed.

(** The gain is one of the immediate registers, but it waits all the same:
    [OnNodeIdAllocated] counts its own write as applied without telling
    [applied_settings_], so every later change also carries the node-ID. *)
Lemma allocation_blocks_tuning :
  (is_immediate <$> registers !! register_of speed_kp) = Some true /\
  (option_map (fun t => settings_pending_ (app_ t)) (demo_settings demo_written)) = Some true /\
  FirstUntunableChange (applied_settings_ (app_ demo_written)) (live demo_written) = "uavcan.node.id"%string.
Proof. vm_compute. split_and!; reflexivity. Qed.

(** A telemetry rate of 1e-20 Hz is valid; its period is not a uint64_t. *)
Definition tiny_rate : NvmSettings := set_fl telemetry_rate (f_dec 1 (10 ^ 20)) (NvmSettings_init 0 1).
Lemma tiny_rate_undefined : SettingsStore.Validate tiny_rate SettingsStore.HardwareCapabilities_init = SettingsTypes.kSuccess /\
  PeriodMicroseconds (fl telemetry_rate tiny_rate) = None.
Proof. vm_compute. split; reflexivity. Qed.

(** With a timer that refuses the PWM frequency the written settings are
    rejected once; the next request engages on the half-loaded settings. *)
Definition refusing_run : drive_event -> Demo -> option Demo :=
  run_drive demo_exp demo_clock demo_timer (fun _ _ => false) true true.
Definition demo_rejected : option Demo :=
  refusing_run (ev_Spin 2000 (demo_io [got_Write (register_of speed_kp) (Registers.SetReal32 (f_of_Z 2))])) demo_named.
Lemma rejected_settings_engage :
  option_map IsEngaged demo_rejected = Some false /\
  option_map IsEngaged (s ← demo_rejected; refusing_run (ev_Spin 3000 (demo_io [readiness 3 s])) s) = Some true.
Proof. vm_compute. split; reflexivity. Qed.
End DriveSettings.
