(* ===== verification/CanMedia.v ===== *)
(** * CAN interfaces

    lib/cyphal/can_media.hpp: a CAN frame and the boundary between the
    Cyphal/CAN transport and a CAN interface, as the class [CanMedia].  The
    bytes of a frame after its size have no meaning: [valid_bytes]. *)
From Stdlib Require Import ZArith Lia Bool.
From stdpp Require Import base decidable list option.
From S2P Require Import Prelude DriveMessages.
Import DriveMessages(CanBusStatus, mkCanBusStatus, bus_kErrorActive).

#[local] Open Scope Z_scope.
#[local] Open Scope unimoc_scope.

Module CanMedia.

Definition kCanClassicMtu : nat := 8.
Definition kCanFdMtu : nat := 64.
Record CanFrame := mkFrame { extended_can_id : Z; size : nat; data : list Z }.
Definition CanFrame_init : CanFrame := mkFrame 0 0 (replicate kCanFdMtu 0).
(** What a frame says. *)
Definition valid_bytes (f : CanFrame) : Z * list Z := (extended_can_id f, take (size f) (data f)).

(** One CAN interface.  Pop() writes to the frame it is given. *)
Class CanMedia (M : Type) := {
  Mtu : M -> nat;
  Push : CanFrame -> M -> bool * M;
  Pop : CanFrame -> M -> bool * CanFrame * M;
  BusStatus : M -> CanBusStatus }.
(** BusStatus() of an interface without fault confinement. *)
Definition BusStatus_default : CanBusStatus := mkCanBusStatus bus_kErrorActive 0.

(** A frame of the C++ type: 64 bytes, of which the first [size] count. *)
Record frame_ok (f : CanFrame) : Prop := mkFrameOk {
  fo_id : in_u 29 (extended_can_id f);
  fo_size : (size f <= kCanFdMtu)%nat;
  fo_length : length (data f) = kCanFdMtu;
  fo_data : Forall (in_u 8) (data f) }.

End CanMedia.
