(* ===== verification/Slcan.v ===== *)
(** * CAN over a serial line

    hardware/zephyr_sim/slcan_media.{hpp,cpp}: the Lawicel protocol on the
    pseudo terminals of the simulated drive, an instance of [CanMedia].  The
    serial driver of Zephyr is the class [UartOps].  Characters are bytes; the
    arrays [line] and [pending] of a port are the lists of their used part, with
    the capacity [kMaxLine]. *)
From Stdlib Require Import ZArith Lia Bool.
From stdpp Require Import base decidable list option.
From S2P Require Import Prelude DriveMessages CanMedia.
Import CanMedia.

#[local] Open Scope Z_scope.
#[local] Open Scope unimoc_scope.

Module Slcan.

(** ** Lines *)
Definition kMaxPorts : nat := 4.
Definition kRxQueueLength : nat := 16.
Definition kMaxLine : nat := 140.
Definition kMaxCharsPerPop : nat := 1024.
Definition kOk : list Z := [13].
Definition kError : list Z := [7].
Definition kHex : list Z := [48; 49; 50; 51; 52; 53; 54; 55; 56; 57; 65; 66; 67; 68; 69; 70].
Definition kDlcToLength : list nat := [0; 1; 2; 3; 4; 5; 6; 7; 8; 12; 16; 20; 24; 32; 48; 64]%nat.
Definition kMaxFrameText : nat := 1 + 8 + 1 + 2 * kCanClassicMtu + 1.

Definition hex_nibble (c : Z) : option Z :=
  if (48 <=? c) && (c <=? 57) then Some (c - 48)
  else if (65 <=? c) && (c <=? 70) then Some (c - 65 + 10)
  else if (97 <=? c) && (c <=? 102) then Some (c - 97 + 10)
  else None.
Fixpoint parse_hex (digits : list Z) (value : Z) : option Z :=
  match digits with
  | [] => Some value
  | kDigit :: digits =>
      match hex_nibble kDigit with
      | None => None
      | Some nibble => parse_hex digits (Z.lor (u32 (Z.shiftl value 4)) nibble)
      end
  end.
Definition ParseHex (digits : list Z) : option Z := parse_hex digits 0.

Record LineResult := mkLineResult { reply : list Z; frame : option CanFrame; open_state : option bool }.
Definition substr (pos count : nat) (line : list Z) : list Z := take count (drop pos line).
(** The loop over the data bytes, from byte [i]. *)
Fixpoint parse_data (n i : nat) (line bytes : list Z) : option (list Z) :=
  match n with
  | O => Some bytes
  | S n =>
      match ParseHex (substr (10 + 2 * i) 2 line) with
      | None => None
      | Some kByte => parse_data n (S i) line (<[i := u8 kByte]> bytes)
      end
  end.
(** The lines of 'T', 'D' and 'B'. *)
Definition parse_frame (classic : bool) (line : list Z) : option CanFrame :=
  if (length line <? 10)%nat then None
  else
    match ParseHex (substr 1 8 line), ParseHex (substr 9 1 line) with
    | Some kId, Some kDlc =>
        if classic && (8 <? kDlc) then None
        else
          let size := default 0%nat (kDlcToLength !! Z.to_nat kDlc) in
          if (length line <? 10 + 2 * size)%nat then None
          else bytes ← parse_data size 0 line (data CanFrame_init); Some (mkFrame (Z.land kId 0x1FFFFFFF) size bytes)
    | _, _ => None
    end.
Definition ParseLine (line : list Z) : LineResult :=
  match line with
  | [] => mkLineResult kOk None None
  | c :: _ =>
      if (c =? 79) || (c =? 76) then mkLineResult kOk None (Some true)
      else if c =? 67 then mkLineResult kOk None (Some false)
      else if (c =? 84) || (c =? 68) || (c =? 66) then
        match parse_frame (c =? 84) line with
        | None => mkLineResult kError None None
        | Some f => mkLineResult [] (Some f) None
        end
      else if (c =? 116) || (c =? 114) || (c =? 82) then mkLineResult [] None None
      else mkLineResult kOk None None
  end.

Definition hex_digit (n : Z) : Z := default 0 (kHex !! Z.to_nat n).
Definition kShifts : list Z := [32; 28; 24; 20; 16; 12; 8; 4].
Definition format_id (id : Z) : list Z := map (fun shift => hex_digit (Z.land (Z.shiftr id (shift - 4)) 0xF)) kShifts.
Definition format_byte (kByte : Z) : list Z := [hex_digit (Z.shiftr kByte 4); hex_digit (Z.land kByte 0xF)].
(** The text, empty when it may not fit. *)
Definition FormatFrame (frame : CanFrame) (capacity : nat) : list Z :=
  if (capacity <? kMaxFrameText)%nat then []
  else
    let kSize := if (kCanClassicMtu <? size frame)%nat then kCanClassicMtu else size frame in
    [84] ++ format_id (extended_can_id frame) ++ [hex_digit (Z.of_nat kSize)] ++
    concat (map format_byte (take kSize (data frame))) ++ [13].

(** ** The serial driver *)
Class UartOps (W : Type) := {
  device_is_ready : nat -> W -> bool;
  uart_fifo_fill : nat -> list Z -> W -> Z * W;
  uart_poll_in : nat -> W -> option Z * W }.
(** The driver takes a part of what it is offered from the front, and tells how
    much; [taken] is all it ever took on a device, [waiting] what the other end
    has typed and nobody read. *)
Class UartLaws (W : Type) `{!UartOps W} := {
  taken : nat -> W -> list Z;
  waiting : nat -> W -> list Z;
  fill_le d l w : ((uart_fifo_fill d l w).1 <= Z.of_nat (length l));
  fill_taken d d' l w : taken d' (uart_fifo_fill d l w).2 =
    if decide (d' = d) then taken d w ++ take (Z.to_nat (uart_fifo_fill d l w).1) l else taken d' w;
  fill_waiting d d' l w : waiting d' (uart_fifo_fill d l w).2 = waiting d' w;
  poll_in_taken d d' w : taken d' (uart_poll_in d w).2 = taken d' w;
  poll_in_head d w : (uart_poll_in d w).1 = head (waiting d w);
  poll_in_waiting d d' w : waiting d' (uart_poll_in d w).2 = if decide (d' = d) then tail (waiting d w) else waiting d' w }.

(** ** The ports *)
Record Port := mkPort {
  uart : option nat; open : bool; line : list Z; line_overflow : bool; pending : list Z }.
#[export] Instance eta_Port : Eta Port := fun s => mkPort (uart s) (open s) (line s) (line_overflow s) (pending s).
Definition Port_init : Port := mkPort None false [] false [].
Record SlcanMedia (W : Type) := mkSlcan {
  ports_ : list Port; port_count_ : nat; rx_ : list CanFrame; rx_head_ : nat; rx_count_ : nat; world_ : W }.
Arguments mkSlcan {W}.
Arguments ports_ {W}.
Arguments port_count_ {W}.
Arguments rx_ {W}.
Arguments rx_head_ {W}.
Arguments rx_count_ {W}.
Arguments world_ {W}.
#[export] Instance eta_Slcan W : Eta (SlcanMedia W) := fun s =>
  mkSlcan (ports_ s) (port_count_ s) (rx_ s) (rx_head_ s) (rx_count_ s) (world_ s).
Definition Slcan_init {W} (w : W) : SlcanMedia W :=
  mkSlcan (replicate kMaxPorts Port_init) 0 (replicate kRxQueueLength CanFrame_init) 0 0 w.

Section Operations.
Context {W : Type} `{!UartOps W}.
Implicit Types (s : SlcanMedia W) (p : Port) (w : W).

Definition port (index : nat) s : Port := default Port_init (ports_ s !! index).
Definition on_port (index : nat) (f : Port -> Port) s : SlcanMedia W := s.{ports_ := alter f index (ports_ s)}.

Definition init_step s (kUart : option nat) : SlcanMedia W :=
  match kUart with
  | Some d =>
      if device_is_ready d (world_ s) && (port_count_ s <? kMaxPorts)%nat
      then (on_port (port_count_ s) (fun p => p.{uart := Some d}) s).{port_count_ := S (port_count_ s)}
      else s
  | None => s
  end.
Definition Init (uarts : list (option nat)) s : nat * SlcanMedia W :=
  let s := foldl init_step (s.{port_count_ := 0%nat}) uarts in (port_count_ s, s).

(** uart_fifo_fill() on the port's device: the number of characters it took. *)
Definition fill p (text : list Z) w : nat * W :=
  match uart p with
  | Some d => let '(kWritten, w) := uart_fifo_fill d text w in (Z.to_nat kWritten, w)
  | None => (0%nat, w)
  end.
Definition Flush p w : bool * Port * W :=
  if (length (pending p) =? 0)%nat then (true, p, w)
  else
    let '(kDone, w) := fill p (pending p) w in
    let p := p.{pending := drop kDone (pending p)} in
    ((length (pending p) =? 0)%nat, p, w).
Definition Write p (text : list Z) w : Port * W :=
  if (length text =? 0)%nat then (p, w)
  else
    let '(flushed, p, w) := Flush p w in
    if negb flushed then (p, w)
    else
      let '(kDone, w) := fill p text w in
      if (kDone =? 0)%nat then (p, w)
      else (p.{pending := pending p ++ take (kMaxLine - length (pending p)) (drop kDone text)}, w).
Definition write_port (index : nat) (text : list Z) s : SlcanMedia W :=
  let '(p, w) := Write (port index s) text (world_ s) in (on_port index (fun _ => p) s).{world_ := w}.
Definition Send (index : nat) (frame : CanFrame) s : SlcanMedia W :=
  if negb (open (port index s)) then s else write_port index (FormatFrame frame kMaxFrameText) s.
Definition enqueue (frame : CanFrame) s : SlcanMedia W :=
  s.{rx_ := <[((rx_head_ s + rx_count_ s) mod kRxQueueLength)%nat := frame]> (rx_ s)}.{rx_count_ := S (rx_count_ s)}.
Definition send_others (index : nat) (frame : CanFrame) s : SlcanMedia W :=
  foldl (fun s other => if (other =? index)%nat then s else Send other frame s) s (seq 0 (port_count_ s)).
Definition Complete (index : nat) s : SlcanMedia W :=
  let kResult := ParseLine (line (port index s)) in
  let s := match open_state kResult with Some o => on_port index (fun p => p.{open := o}) s | None => s end in
  let s := write_port index (reply kResult) s in
  match frame kResult with
  | None => s
  | Some f => send_others index f (enqueue f s)
  end.
Definition is_end (kChar : Z) : bool := (kChar =? 13) || (kChar =? 10).
Definition collect (kChar : Z) p : Port :=
  if (length (line p) <? kMaxLine)%nat then p.{line := line p ++ [kChar] } else p.{line_overflow := true}.
Definition receive_char (index : nat) (kChar : Z) s : SlcanMedia W :=
  if negb (is_end kChar) then on_port index (collect kChar) s
  else
    let p := port index s in
    let s := if negb (line_overflow p) && (0 <? length (line p))%nat then Complete index s else s in
    on_port index (fun p => p.{line := [] }.{line_overflow := false}) s.
Fixpoint poll_loop (n index : nat) s : SlcanMedia W :=
  match n with
  | O => s
  | S n =>
      if (rx_count_ s <? kRxQueueLength)%nat then
        match uart (port index s) with
        | None => s
        | Some d =>
            let '(received, w) := uart_poll_in d (world_ s) in
            match received with
            | None => s.{world_ := w}
            | Some kChar => poll_loop n index (receive_char index kChar (s.{world_ := w}))
            end
        end
      else s
  end.
Definition flush_port (index : nat) s : SlcanMedia W :=
  let '(_, p, w) := Flush (port index s) (world_ s) in (on_port index (fun _ => p) s).{world_ := w}.
Definition Poll (index : nat) s : SlcanMedia W := poll_loop kMaxCharsPerPop index (flush_port index s).
Definition poll_all s : SlcanMedia W := foldl (fun s i => Poll i s) s (seq 0 (port_count_ s)).
Definition dequeue (frame : CanFrame) s : bool * CanFrame * SlcanMedia W :=
  if (rx_count_ s =? 0)%nat then (false, frame, s)
  else
    (true, default CanFrame_init (rx_ s !! rx_head_ s),
     s.{rx_head_ := ((rx_head_ s + 1) mod kRxQueueLength)%nat}.{rx_count_ := (rx_count_ s - 1)%nat}).
Definition slcan_Pop (frame : CanFrame) s : bool * CanFrame * SlcanMedia W := dequeue frame (poll_all s).
Definition slcan_Push (frame : CanFrame) s : bool * SlcanMedia W :=
  (true, foldl (fun s i => Send i frame s) s (seq 0 (port_count_ s))).
End Operations.

#[export] Instance slcan_media {W} `{!UartOps W} : CanMedia (SlcanMedia W) := {|
  Mtu _ := kCanClassicMtu; Push := slcan_Push; Pop := slcan_Pop; BusStatus _ := BusStatus_default |}.

End Slcan.
