(* ===== verification/SlcanProofs.v ===== *)
(** * CAN over a serial line: the lines

    What [Slcan] writes and reads: the text of a frame is parsed back to the
    frame, and a terminal only ever gets whole lines. *)
From Stdlib Require Import ZArith Lia Bool.
From stdpp Require Import base decidable list option.
From S2P Require Import Prelude DriveMessages CanMedia Slcan.
Import CanMedia Slcan.

#[local] Open Scope Z_scope.
#[local] Open Scope unimoc_scope.
#[local] Existing Instance Slcan.eta_Port.
#[local] Existing Instance Slcan.eta_Slcan.

Module SlcanProofs.

(** ** Hexadecimal text *)
Lemma hex_digit_nibble n : 0 <= n < 16 -> hex_nibble (hex_digit n) = Some n.
Proof.
  intros Hn. apply (forall_seqZ (fun n => bool_decide (hex_nibble (hex_digit n) = Some n)) 0 16) in Hn; [|by vm_compute].
  by apply bool_decide_eq_true in Hn.
Qed.
Lemma hex_digit_char n : 0 <= n < 16 -> 48 <= hex_digit n <= 70.
Proof.
  intros Hn. apply (forall_seqZ (fun n => (48 <=? hex_digit n) && (hex_digit n <=? 70)) 0 16) in Hn; [|by vm_compute].
  bool_prop. lia.
Qed.
Lemma hex_nibble_range c n : hex_nibble c = Some n -> 0 <= n < 16.
Proof. unfold hex_nibble. repeat case_if; intros [= <-]; bool_prop; lia. Qed.

Lemma lor_nibble v n : 0 <= v < 2 ^ 28 -> 0 <= n < 16 -> Z.lor (u32 (Z.shiftl v 4)) n = v * 16 + n.
Proof.
  intros Hv Hn. rewrite Z.shiftl_mul_pow2 by lia. unfold wrap. rewrite Z.mod_small by lia.
  rewrite <- Z.lxor_lor, <- Z.add_nocarry_lxor; [done| |].
  all: apply Z.bits_inj'; intros i Hi; rewrite Z.land_spec, Z.bits_0, <- Z.shiftl_mul_pow2, Z.shiftl_spec by lia;
    destruct (Z.lt_ge_cases i 4) as [?|?]; [by rewrite Z.testbit_neg_r by lia|];
    replace n with (n mod 2 ^ 4) by (apply Z.mod_small; lia); rewrite Z.mod_pow2_bits_high by lia; apply andb_false_r.
Qed.
Lemma parse_hex_digit n l v : 0 <= n < 16 -> 0 <= v < 2 ^ 28 -> parse_hex (hex_digit n :: l) v = parse_hex l (v * 16 + n).
Proof. intros Hn Hv. cbn [parse_hex]. by rewrite hex_digit_nibble, lor_nibble. Qed.
Lemma nibble_range x : 0 <= Z.land x 15 < 16.
Proof. change 15 with (Z.ones 4). rewrite Z.land_ones by lia. apply Z.mod_pos_bound; lia. Qed.
(** One digit of a number: what is above it and the digit give the number down to it. *)
Lemma digit_step x k : 0 <= x -> 0 <= k -> Z.shiftr x (k + 4) * 16 + Z.land (Z.shiftr x k) 15 = Z.shiftr x k.
Proof.
  intros Hx Hk. rewrite <- Z.shiftr_shiftr by lia. set (y := Z.shiftr x k). change 15 with (Z.ones 4).
  rewrite Z.land_ones, Z.shiftr_div_pow2 by lia. pose proof (Z.div_mod y (2 ^ 4)). lia.
Qed.

Lemma ParseHex_id id : in_u 32 id -> ParseHex (format_id id) = Some id.
Proof.
  intros Hid. unfold ParseHex, format_id, kShifts. cbn [map].
  assert (forall k, 4 <= k -> 0 <= Z.shiftr id k < 2 ^ 28) as Hs.
  { intros k Hk. rewrite Z.shiftr_div_pow2 by lia. unfold in_u in Hid. split; [apply Z.div_pos; lia|].
    apply Z.div_lt_upper_bound; [lia|]. rewrite <- Z.pow_add_r by lia.
    enough (2 ^ 32 <= 2 ^ (k + 28)) by lia. apply Z.pow_le_mono_r; lia. }
  assert (forall k v l, 0 <= k -> v = Z.shiftr id (k + 4) ->
    parse_hex (hex_digit (Z.land (Z.shiftr id k) 15) :: l) v = parse_hex l (Z.shiftr id k)) as Hd.
  { intros k v l Hk ->. rewrite parse_hex_digit by (apply nibble_range || apply Hs; lia). by rewrite digit_step by (unfold in_u in Hid; lia). }
  rewrite Hd; [| lia |symmetry; rewrite Z.shiftr_div_pow2 by lia; apply Z.div_small; exact Hid].
  rewrite !Hd by done. cbn. by rewrite Z.shiftr_0_r.
Qed.
Lemma ParseHex_byte b : in_u 8 b -> ParseHex (format_byte b) = Some b.
Proof.
  intros Hb. unfold in_u in Hb. unfold ParseHex, format_byte.
  assert (0 <= Z.shiftr b 4 < 16) by (rewrite Z.shiftr_div_pow2 by lia; split; [apply Z.div_pos; lia|apply Z.div_lt_upper_bound; lia]).
  rewrite parse_hex_digit by lia. rewrite parse_hex_digit by (apply nibble_range || lia). cbn [parse_hex].
  pose proof (digit_step b 0 ltac:(lia) ltac:(lia)) as E. rewrite Z.shiftr_0_r in E. f_equal. exact E.
Qed.

(** ** The text of a frame *)
Definition hex_char (c : Z) : Prop := 48 <= c <= 70.
Lemma format_byte_chars b : in_u 8 b -> Forall hex_char (format_byte b).
Proof.
  intros Hb. unfold in_u in Hb. unfold format_byte.
  constructor; [apply hex_digit_char|constructor; [apply hex_digit_char, nibble_range|constructor]].
  rewrite Z.shiftr_div_pow2 by lia. split; [apply Z.div_pos; lia|apply Z.div_lt_upper_bound; lia].
Qed.
Lemma format_id_chars id : Forall hex_char (format_id id).
Proof. apply Forall_fmap, list.Forall_forall. intros k _. apply hex_digit_char, nibble_range. Qed.
Definition clamp_size (f : CanFrame) : nat := Nat.min (size f) kCanClassicMtu.
(** The line without its end. *)
Definition frame_line (f : CanFrame) : list Z :=
  [84] ++ format_id (extended_can_id f) ++ [hex_digit (Z.of_nat (clamp_size f))] ++ concat (map format_byte (take (clamp_size f) (data f))).
Lemma FormatFrame_line f : FormatFrame f kMaxFrameText = frame_line f ++ [13].
Proof.
  unfold FormatFrame, frame_line, clamp_size. rewrite Nat.ltb_irrefl, <- !app_assoc.
  replace (if (kCanClassicMtu <? size f)%nat then kCanClassicMtu else size f) with (Nat.min (size f) kCanClassicMtu); [done|].
  case_if; [apply Nat.ltb_lt in Hif|apply Nat.ltb_ge in Hif]; lia.
Qed.
Lemma length_bytes l : length (concat (map format_byte l)) = (2 * length l)%nat.
Proof. induction l as [|b l IH]; [done|]. cbn. rewrite IH. lia. Qed.
Lemma length_frame_line f : (length (frame_line f) <= 26)%nat.
Proof.
  unfold frame_line. rewrite !length_app, length_bytes, length_take. unfold clamp_size, kCanClassicMtu. cbn [length format_id map kShifts]. lia.
Qed.
Lemma length_FormatFrame f : (0 < length (FormatFrame f kMaxFrameText) <= kMaxFrameText)%nat.
Proof. rewrite FormatFrame_line, length_app. pose proof (length_frame_line f). change kMaxFrameText with 27%nat. cbn [length]. lia. Qed.

(** The loop over the data reads back what was formatted. *)
Lemma parse_data_bytes pre l post i bytes :
  Forall (in_u 8) l -> length pre = (10 + 2 * i)%nat -> (i + length l <= length bytes)%nat ->
  parse_data (length l) i (pre ++ concat (map format_byte l) ++ post) bytes = Some (take i bytes ++ l ++ drop (i + length l) bytes).
Proof.
  revert pre i bytes. induction l as [|b l IH]; intros pre i bytes Hl Hp Hi; cbn [length parse_data].
  - cbn [app]. by rewrite Nat.add_0_r, take_drop.
  - apply Forall_cons_1 in Hl as [Hb Hl]. cbn [length] in Hi.
    replace (substr _ 2 _) with (format_byte b).
    + rewrite ParseHex_byte by done. unfold wrap. rewrite Z.mod_small by exact Hb.
      replace (pre ++ concat (map format_byte (b :: l)) ++ post)
        with ((pre ++ format_byte b) ++ concat (map format_byte l) ++ post) by (cbn; by rewrite <- app_assoc).
      rewrite IH; [|done|rewrite length_app, Hp; cbn; lia|rewrite length_insert; lia]. f_equal.
      rewrite (take_S_r _ i b) by (apply list_lookup_insert_eq; lia). rewrite take_insert_ge, drop_insert_lt by lia.
      rewrite <- app_assoc. cbn. by replace (i + S (length l))%nat with (S (i + length l)) by lia.
    + unfold substr. rewrite drop_app_ge by lia. rewrite Hp, Nat.sub_diag. done.
Qed.

(** What the line of a frame says: at most eight bytes of it. *)
Definition received (f : CanFrame) : CanFrame :=
  mkFrame (extended_can_id f) (clamp_size f) (take (clamp_size f) (data f) ++ replicate (kCanFdMtu - clamp_size f) 0).
Lemma substr_app pre l post : substr (length pre) (length l) (pre ++ l ++ post) = l.
Proof. unfold substr. by rewrite drop_app_length, take_app_length. Qed.
Lemma clamp_le f : (clamp_size f <= 8)%nat.
Proof. unfold clamp_size, kCanClassicMtu. lia. Qed.
Lemma dlc_classic n : (n <= 8)%nat -> kDlcToLength !! n = Some n.
Proof. intros Hn. by do 9 (destruct n as [|n]; [done|]); lia. Qed.
Lemma parse_frame_line f : frame_ok f -> parse_frame true (frame_line f) = Some (received f).
Proof.
  intros [Hid Hs Hl Hd]. unfold frame_line. set (n := clamp_size f). pose proof (clamp_le f : (n <= 8)%nat) as Hn.
  set (bytes := take n (data f)). assert (length bytes = n) as Hb by (apply length_take_le; unfold kCanFdMtu in Hl; lia).
  assert (length (format_id (extended_can_id f)) = 8%nat) as L by done.
  unfold parse_frame. rewrite !length_app, length_bytes, L, Hb. cbn [length].
  destruct (Nat.ltb_spec (1 + (8 + (1 + 2 * n))) 10); [lia|].
  replace (substr 1 8 _) with (format_id (extended_can_id f)) by (symmetry; apply (substr_app [84] (format_id (extended_can_id f)))).
  rewrite ParseHex_id by (unfold in_u in *; lia).
  replace (substr 9 1 _) with [hex_digit (Z.of_nat n)]
    by (rewrite app_assoc; symmetry; apply (substr_app ([84] ++ format_id (extended_can_id f)) [hex_digit (Z.of_nat n)])).
  unfold ParseHex at 1. rewrite parse_hex_digit by lia. cbn [parse_hex]. rewrite Z.mul_0_l, Z.add_0_l.
  destruct (Z.ltb_spec 8 (Z.of_nat n)); [lia|]. cbn [andb]. rewrite Nat2Z.id, dlc_classic by done. change (default 0%nat (Some n)) with n.
  destruct (Nat.ltb_spec (1 + (8 + (1 + 2 * n))) (10 + 2 * n)); [lia|].
  pose proof (parse_data_bytes ([84] ++ format_id (extended_can_id f) ++ [hex_digit (Z.of_nat n)]) bytes [] 0 (data CanFrame_init)) as P.
  rewrite Hb, !app_nil_r, <- !app_assoc in P. unfold id. rewrite P; [| |by rewrite !length_app, L|cbn; unfold kCanFdMtu; lia].
  - cbn [option_bind mbind]. unfold received. fold n bytes. change 0x1FFFFFFF with (Z.ones 29). rewrite Z.land_ones by lia.
    rewrite Z.mod_small by exact Hid. change (data CanFrame_init) with (replicate kCanFdMtu 0).
    by rewrite drop_replicate.
  - apply Forall_take, Hd.
Qed.
Lemma ParseLine_frame f : frame_ok f -> ParseLine (frame_line f) = mkLineResult [] (Some (received f)) None.
Proof. intros Hf. pose proof (parse_frame_line f Hf) as P. unfold ParseLine. change (frame_line f) with (84 :: drop 1 (frame_line f)) in *. cbn [Z.eqb Pos.eqb orb]. by rewrite P. Qed.

Lemma hex_char_end c : hex_char c -> is_end c = false.
Proof. unfold hex_char, is_end. intros H. apply orb_false_iff. split; apply Z.eqb_neq; lia. Qed.
Lemma frame_line_chars f : frame_ok f -> Forall (fun c => is_end c = false) (frame_line f).
Proof.
  intros [_ _ _ Hd]. constructor; [done|]. eapply List.Forall_impl; [exact hex_char_end|].
  pose proof (clamp_le f). repeat (apply Forall_app; split).
  - apply format_id_chars.
  - constructor; [|constructor]. apply hex_digit_char. lia.
  - assert (Forall (in_u 8) (take (clamp_size f) (data f))) as F by (apply Forall_take, Hd). induction F as [|b l Hb _ IH]; [constructor|]. cbn [map concat].
    apply Forall_app. split; [by apply format_byte_chars|exact IH].
Qed.
(** A classic frame comes through whole. *)
Lemma received_valid f : (size f <= kCanClassicMtu)%nat -> length (data f) = kCanFdMtu -> valid_bytes (received f) = valid_bytes f.
Proof.
  intros Hs Hl. unfold valid_bytes, received. cbn [extended_can_id size data]. f_equal. unfold clamp_size. rewrite Nat.min_l by done.
  rewrite take_app_le, take_take, Nat.min_id by (rewrite length_take; unfold kCanClassicMtu, kCanFdMtu in *; lia). done.
Qed.

End SlcanProofs.
