(* ===== verification/SlcanBus.v ===== *)
(** * CAN over a serial line: the bus

    The ports as one bus: what is sent on a terminal is whole lines, a line that
    comes in gets to the receive queue of the drive, which is a queue of bounded
    length. *)
From Stdlib Require Import ZArith Lia Bool.
From stdpp Require Import base decidable list option.
From S2P Require Import Prelude DriveMessages CanMedia Slcan SlcanProofs.
Import CanMedia Slcan SlcanProofs.

#[local] Open Scope Z_scope.
#[local] Open Scope unimoc_scope.
#[local] Existing Instance Slcan.eta_Port.
#[local] Existing Instance Slcan.eta_Slcan.

Module SlcanBus.

(** A line the drive writes. *)
Definition is_line (l : list Z) : Prop := l = kOk \/ l = kError \/ exists f, l = FormatFrame f kMaxFrameText.
Definition whole (l : list Z) : Prop := exists lines, Forall is_line lines /\ l = concat lines.
Lemma whole_app l x : whole l -> is_line x -> whole (l ++ x).
Proof.
  intros (lines & F & ->) Hx. exists (lines ++ [x]). rewrite concat_app. cbn. rewrite app_nil_r. split; [|done].
  apply Forall_app. split; [done|]. by apply Forall_singleton.
Qed.
Lemma whole_nil : whole [].
Proof. by exists []. Qed.
Lemma is_line_length x : is_line x -> (0 < length x <= kMaxFrameText)%nat.
Proof. intros [->|[->|[f ->]]]; [cbn; unfold kMaxFrameText, kCanClassicMtu; lia..|apply length_FormatFrame]. Qed.
(** The answers to a line are lines. *)
Lemma reply_line l : reply (ParseLine l) = [] \/ is_line (reply (ParseLine l)).
Proof.
  unfold ParseLine, is_line. destruct l as [|c l]; [by right; left|].
  repeat case_if; cbn; auto. destruct (parse_frame _ _); cbn; auto.
Qed.

#[local] Arguments kMaxLine : simpl never.
Section Bus.
Context {W : Type} `{!UartOps W} {laws : UartLaws W}.
Implicit Types (s : SlcanMedia W) (p : Port) (w : W).

(** ** One port *)
(** What has gone out or is about to. *)
Definition out p w : list Z := match uart p with Some d => taken d w | None => [] end ++ pending p.
(** Everything of a port except what is pending. *)
Definition same_but_pending p p' : Prop :=
  uart p' = uart p /\ open p' = open p /\ line p' = line p /\ line_overflow p' = line_overflow p.
Definition others_same p w w' : Prop :=
  (forall d, uart p <> Some d -> taken d w' = taken d w) /\ (forall d, waiting d w' = waiting d w).

Lemma same_refl p : same_but_pending p p.
Proof. by unfold same_but_pending. Qed.
Lemma others_refl p w : others_same p w w.
Proof. done. Qed.

Lemma fill_spec p l w n w' : fill p l w = (n, w') ->
  (n <= length l)%nat /\ others_same p w w' /\
  (forall d, uart p = Some d -> taken d w' = taken d w ++ take n l) /\ (uart p = None -> n = 0%nat).
Proof.
  unfold fill, others_same. destruct (uart p) as [d|]; [|by intros [= <- <-]; split_and!; auto with lia].
  pose proof (fill_le d l w) as L. pose proof (fun d' => fill_taken d d' l w) as T.
  pose proof (fun d' => fill_waiting d d' l w) as V.
  destruct (uart_fifo_fill d l w) as [k w1]. cbn in L, T, V. intros [= <- <-]. split_and!; [lia| |exact V| |done].
  - intros d' Hd. rewrite T. by case_decide; subst.
  - intros d' [= ->]. rewrite T. by case_decide.
Qed.

Lemma Flush_spec p w b p' w' : Flush p w = (b, p', w') ->
  same_but_pending p p' /\ others_same p w w' /\ out p' w' = out p w /\
  (length (pending p') <= length (pending p))%nat /\ (b = true -> pending p' = []).
Proof.
  unfold Flush, same_but_pending, out. destruct (Nat.eqb_spec (length (pending p)) 0) as [E%nil_length_inv|E].
  - intros [= <- <- <-]. by split_and!.
  - destruct (fill p (pending p) w) as [n w1] eqn:F. apply fill_spec in F as (Hn & Ho & Ht & Hu). intros [= <- <- <-]. cbn.
    split_and!; try done.
    + destruct (uart p) as [d|]; [by rewrite Ht, <- app_assoc, take_drop|by rewrite Hu].
    + rewrite length_drop. lia.
    + intros Hl. apply Nat.eqb_eq in Hl. by apply nil_length_inv.
Qed.

Lemma port_Write_spec p text w p' w' : Write p text w = (p', w') ->
  (length (pending p) <= kMaxLine)%nat -> (length text <= kMaxLine)%nat ->
  same_but_pending p p' /\ others_same p w w' /\ (length (pending p') <= kMaxLine)%nat /\
  (out p' w' = out p w \/ out p' w' = out p w ++ text).
Proof.
  unfold Write. intros HW Hp Hx. destruct (Nat.eqb_spec (length text) 0) as [E|E]; [injection HW as <- <-; split_and!; auto using same_refl, others_refl|].
  destruct (Flush p w) as [[b q] w1] eqn:F. apply Flush_spec in F as (S1 & O1 & E1 & L1 & P1).
  destruct b; cbn [negb] in HW; [|simplify_eq; split_and!; auto; lia].
  destruct (fill q text w1) as [n w2] eqn:F. apply fill_spec in F as (Hn & O2 & Ht & Hu).
  assert (uart q = uart p) as Uq by apply S1. assert (others_same p w w2) as O3.
  { destruct O1 as [O1 V1], O2 as [O2 V2]. split; [|intros d; by rewrite V2]. intros d Hd. rewrite O2 by (by rewrite Uq). by apply O1. }
  destruct (Nat.eqb_spec n 0) as [->|Hn0].
  - injection HW as <- <-. split_and!; [exact S1|exact O3|lia|]. left. rewrite <- E1. unfold out. destruct (uart q) as [d|]; [|done].
    rewrite (Ht d) by done. by rewrite app_nil_r.
  - injection HW as <- <-. rewrite P1 by done. cbn [length app]. rewrite Nat.sub_0_r. split_and!; [|done| |].
    + destruct S1 as (? & ? & ? & ?). by split_and!.
    + change (length (take kMaxLine (drop n text)) <= kMaxLine)%nat. rewrite length_take. apply Nat.le_min_l.
    + right. rewrite <- E1. unfold out. cbn. rewrite P1 by done. rewrite app_nil_r.
      rewrite take_ge by (rewrite length_drop; lia). destruct (uart q) as [d|]; [|by specialize (Hu eq_refl)].
      by rewrite (Ht d), <- app_assoc, take_drop.
Qed.

(** ** The ports *)
Record bus_ok s : Prop := mkBusOk {
  bo_ports : length (ports_ s) = kMaxPorts;
  bo_count : (port_count_ s <= kMaxPorts)%nat;
  bo_uart i : (i < port_count_ s)%nat -> uart (port i s) <> None;
  bo_distinct i j : (i < port_count_ s)%nat -> (j < port_count_ s)%nat -> uart (port i s) = uart (port j s) -> i = j;
  bo_pending i : (i < port_count_ s)%nat -> (length (pending (port i s)) <= kMaxLine)%nat;
  bo_line i : (i < port_count_ s)%nat -> (length (line (port i s)) <= kMaxLine)%nat;
  bo_whole i : (i < port_count_ s)%nat -> whole (out (port i s) (world_ s));
  bo_rx : length (rx_ s) = kRxQueueLength;
  bo_head : (rx_head_ s < kRxQueueLength)%nat;
  bo_rx_count : (rx_count_ s <= kRxQueueLength)%nat;
  bo_frames : Forall frame_ok (rx_ s) }.
(** The receive side: what writing to a terminal leaves alone. *)
Definition rx_same s s' : Prop :=
  port_count_ s' = port_count_ s /\ rx_ s' = rx_ s /\ rx_head_ s' = rx_head_ s /\ rx_count_ s' = rx_count_ s /\
  (forall d, waiting d (world_ s') = waiting d (world_ s)) /\
  (forall i, uart (port i s') = uart (port i s)).
Lemma rx_same_refl s : rx_same s s.
Proof. done. Qed.
Lemma rx_same_trans s s' s'' : rx_same s s' -> rx_same s' s'' -> rx_same s s''.
Proof.
  intros (E1 & E2 & E3 & E4 & E5 & E6) (F1 & F2 & F3 & F4 & F5 & F6).
  split_and!; [congruence..|intros d; by rewrite F5|intros i; by rewrite F6].
Qed.

Lemma port_on_port i j f s : (i < length (ports_ s))%nat ->
  port j (on_port i f s) = if decide (i = j) then f (port i s) else port j s.
Proof.
  intros Hi. unfold port, on_port. cbn. case_decide as E; [subst j|by rewrite list_lookup_alter_ne].
  rewrite list_lookup_alter_eq. by destruct (lookup_lt_is_Some_2 _ _ Hi) as [p ->].
Qed.
Lemma set_port_ok i p' w' s : bus_ok s -> (i < port_count_ s)%nat -> uart p' = uart (port i s) ->
  (length (pending p') <= kMaxLine)%nat -> (length (line p') <= kMaxLine)%nat ->
  others_same (port i s) (world_ s) w' -> whole (out p' w') ->
  bus_ok ((on_port i (fun _ => p') s).{world_ := w'}).
Proof.
  intros B Hi Hu Hp Hl Ho Hw. assert (i < length (ports_ s))%nat as Hi' by (destruct B; lia).
  assert (forall j, port j ((on_port i (fun _ => p') s).{world_ := w'}) = if decide (i = j) then p' else port j s) as P
    by (intros j; exact (port_on_port i j (fun _ => p') s Hi')).
  destruct B. split; cbn [port_count_ rx_ rx_head_ rx_count_ world_ set_field on_port]; try done.
  - cbn. by rewrite length_alter.
  - intros j Hj. rewrite P. case_decide; [subst; rewrite Hu|]; by apply bo_uart0.
  - intros j k Hj Hk. rewrite !P. intros E. apply bo_distinct0; try done.
    do 2 case_decide; subst; rewrite ?Hu in *; congruence.
  - intros j Hj. rewrite P. case_decide; auto.
  - intros j Hj. rewrite P. case_decide; auto.
  - intros j Hj. rewrite P. case_decide as E; [done|]. specialize (bo_whole0 j Hj). unfold out in *.
    destruct (uart (port j s)) as [d|] eqn:Ud; [|done]. change (whole (taken d w' ++ pending (port j s))).
    rewrite (proj1 Ho); [done|]. intros Ui. apply E, bo_distinct0; [done..|congruence].
Qed.
Lemma set_port_rx i p' w' s : bus_ok s -> (i < port_count_ s)%nat -> uart p' = uart (port i s) ->
  (forall d, waiting d w' = waiting d (world_ s)) -> rx_same s ((on_port i (fun _ => p') s).{world_ := w'}).
Proof.
  intros B Hi Hu Hw. split_and!; try done. intros j. change (uart (port j (on_port i (fun _ => p') s)) = uart (port j s)).
  rewrite port_on_port by (destruct B; lia). by case_decide; subst.
Qed.
Lemma on_port_const i f s : on_port i f s = (on_port i (fun _ => f (port i s)) s).{world_ := world_ s}.
Proof.
  unfold on_port, port. destruct s as [ps n rx h c w]. cbn. f_equal. apply list_eq. intros j.
  destruct (decide (i = j)) as [->|]; [|by rewrite !list_lookup_alter_ne]. rewrite !list_lookup_alter_eq. by destruct (ps !! j).
Qed.
Lemma on_port_rx i f s : bus_ok s -> (i < port_count_ s)%nat -> uart (f (port i s)) = uart (port i s) -> rx_same s (on_port i f s).
Proof. intros B Hi Hu. rewrite on_port_const. by apply set_port_rx. Qed.
(** A port changes without sending. *)
Lemma on_port_ok i f s : bus_ok s -> (i < port_count_ s)%nat -> uart (f (port i s)) = uart (port i s) ->
  pending (f (port i s)) = pending (port i s) -> (length (line (f (port i s))) <= kMaxLine)%nat -> bus_ok (on_port i f s).
Proof.
  intros B Hi Hu Hp Hl. rewrite on_port_const. apply set_port_ok; auto using others_refl.
  - rewrite Hp. by apply (bo_pending s B).
  - unfold out. rewrite Hu, Hp. by apply (bo_whole s B).
Qed.
Lemma world_ok s w' : bus_ok s -> (forall d, taken d w' = taken d (world_ s)) -> bus_ok (s.{world_ := w'}).
Proof.
  intros B Hw. destruct B. split; try done. intros i Hi. specialize (bo_whole0 i Hi). unfold out in *.
  change (port i (s.{world_ := w'})) with (port i s). destruct (uart (port i s)); [|done]. cbn [world_ set_field]. by rewrite Hw.
Qed.

(** ** Sending *)
Lemma write_port_ok i text s : bus_ok s -> (i < port_count_ s)%nat -> text = [] \/ is_line text ->
  bus_ok (write_port i text s) /\ rx_same s (write_port i text s).
Proof.
  intros B Hi Ht. unfold write_port. destruct (Write (port i s) text (world_ s)) as [p' w'] eqn:E.
  assert (length text <= kMaxLine)%nat as Hl.
  { destruct Ht as [->|Ht]; [cbn; unfold kMaxLine; lia|]. apply is_line_length in Ht. unfold kMaxFrameText, kCanClassicMtu, kMaxLine in *. lia. }
  apply port_Write_spec in E as ((Eu & _ & El & _) & O & L & Q); [|by apply (bo_pending s B)|done].
  split; [|apply set_port_rx; try done; apply O]. apply set_port_ok; try done; [rewrite El; by apply (bo_line s B)|].
  pose proof (bo_whole s B i Hi) as Hw. destruct Q as [Q|Q]; rewrite Q; [done|].
  destruct Ht as [->|Ht]; [by rewrite app_nil_r|by apply whole_app].
Qed.
Lemma flush_port_ok i s : bus_ok s -> (i < port_count_ s)%nat -> bus_ok (flush_port i s) /\ rx_same s (flush_port i s).
Proof.
  intros B Hi. unfold flush_port. destruct (Flush (port i s) (world_ s)) as [[b p'] w'] eqn:E.
  apply Flush_spec in E as ((Eu & _ & El & _) & O & Q & L & _). split; [|apply set_port_rx; try done; apply O]. pose proof (bo_pending s B i Hi).
  apply set_port_ok; try done; [lia|rewrite El; by apply (bo_line s B)|]. rewrite Q. by apply (bo_whole s B).
Qed.
Lemma port_Send_ok i f s : bus_ok s -> (i < port_count_ s)%nat -> bus_ok (Send i f s) /\ rx_same s (Send i f s).
Proof.
  intros B Hi. unfold Send. case_if; [by split|]. apply write_port_ok; try done. right. unfold is_line. eauto.
Qed.
(** A loop over ports of which every step is fine. *)
Lemma fold_ports_ok (step : SlcanMedia W -> nat -> SlcanMedia W) l s :
  (forall s i, bus_ok s -> (i < port_count_ s)%nat -> bus_ok (step s i) /\ rx_same s (step s i)) ->
  bus_ok s -> Forall (fun i => (i < port_count_ s)%nat) l -> bus_ok (foldl step s l) /\ rx_same s (foldl step s l).
Proof.
  intros Hstep. revert s. induction l as [|i l IH]; intros s B F; [by split|]. apply Forall_cons_1 in F as [Hi F]. cbn.
  destruct (Hstep s i B Hi) as [B1 R1]. destruct (IH (step s i)) as [B2 R2]; [done|by rewrite (proj1 R1)|].
  split; [done|]. by eapply rx_same_trans.
Qed.
Lemma seq_ports n : Forall (fun i => (i < n)%nat) (seq 0 n).
Proof. apply list.Forall_forall. intros i Hi%elem_of_seq. lia. Qed.
Lemma Push_ok f s : bus_ok s -> bus_ok (slcan_Push f s).2 /\ rx_same s (slcan_Push f s).2.
Proof. intros B. apply fold_ports_ok; [|done|apply seq_ports]. intros; by apply port_Send_ok. Qed.
Lemma send_others_ok i f s : bus_ok s -> bus_ok (send_others i f s) /\ rx_same s (send_others i f s).
Proof. intros B. apply fold_ports_ok; [|done|apply seq_ports]. intros s' j B' Hj. case_if; [by split|by apply port_Send_ok]. Qed.

(** ** Receiving *)
(** The frames waiting for Pop(), oldest first. *)
Definition queued s : list CanFrame :=
  map (fun k => default CanFrame_init (rx_ s !! ((rx_head_ s + k) mod kRxQueueLength)%nat)) (seq 0 (rx_count_ s)).

Lemma enqueue_ok f s : bus_ok s -> frame_ok f -> (rx_count_ s < kRxQueueLength)%nat -> bus_ok (enqueue f s).
Proof.
  intros B Hf Hc. destruct B. split; cbn [ports_ port_count_ rx_ rx_head_ rx_count_ world_ set_field enqueue]; try done; try exact bo_uart0.
  - cbn. by rewrite length_insert.
  - by apply Forall_insert.
Qed.
Lemma queued_enqueue f s : bus_ok s -> (rx_count_ s < kRxQueueLength)%nat -> queued (enqueue f s) = queued s ++ [f].
Proof.
  intros B Hc. unfold queued. cbn [rx_ rx_head_ rx_count_ set_field enqueue]. cbn [eta eta_Slcan rx_ rx_head_ rx_count_].
  rewrite seq_S, map_app. cbn [map]. pose proof (bo_rx s B) as Hr. pose proof (bo_head s B) as Hh. unfold kRxQueueLength in *.
  rewrite list_lookup_insert_eq by (rewrite Hr; apply Nat.mod_upper_bound; lia). f_equal. apply map_ext_in. intros k Hk%in_seq.
  rewrite list_lookup_insert_ne; [done|]. intros E. assert (k = rx_count_ s); [|lia].
  apply (f_equal (fun x => (x + (16 - rx_head_ s)) mod 16)%nat) in E. rewrite !Nat.Div0.add_mod_idemp_l in E.
  replace (rx_head_ s + rx_count_ s + (16 - rx_head_ s))%nat with (rx_count_ s + 1 * 16)%nat in E by lia.
  replace (rx_head_ s + k + (16 - rx_head_ s))%nat with (k + 1 * 16)%nat in E by lia.
  rewrite !Nat.Div0.mod_add in E. rewrite !Nat.mod_small in E by lia. lia.
Qed.

Lemma parse_data_ok n i l bytes r : parse_data n i l bytes = Some r ->
  length bytes = kCanFdMtu -> Forall (in_u 8) bytes -> length r = kCanFdMtu /\ Forall (in_u 8) r.
Proof.
  revert i bytes. induction n as [|n IH]; intros i bytes E Hl Hb; cbn [parse_data] in E; [by simplify_eq|].
  destruct (ParseHex _) as [b|]; [|done]. apply IH in E; [done|by rewrite length_insert|]. apply Forall_insert; [done|]. auto with word.
Qed.
Lemma parse_frame_ok classic l f : parse_frame classic l = Some f -> frame_ok f.
Proof.
  unfold parse_frame. case_if; [done|]. destruct (ParseHex (substr 1 8 l)) as [id|]; [|done].
  destruct (ParseHex (substr 9 1 l)) as [dlc|]; [|done]. case_if; [done|]. cbv zeta. case_if; [done|].
  intros (bytes & E & [= <-])%bind_Some. apply parse_data_ok in E as [E1 E2]; [|done|by apply Forall_replicate].
  split; cbn [extended_can_id size data]; try done.
  - change 0x1FFFFFFF with (Z.ones 29). rewrite Z.land_ones by lia. unfold in_u. apply Z.mod_pos_bound. lia.
  - destruct (kDlcToLength !! Z.to_nat dlc) as [n|] eqn:D; [|cbn; lia]. apply list_elem_of_lookup_2 in D. cbn.
    unfold kDlcToLength in D. unfold kCanFdMtu. repeat (apply elem_of_cons in D as [->|D]; [lia|]). by apply not_elem_of_nil in D.
Qed.
Lemma ParseLine_frame_ok l f : frame (ParseLine l) = Some f -> frame_ok f.
Proof.
  unfold ParseLine. destruct l as [|c l]; [done|]. repeat (case_if; [done || idtac|]); try done.
  destruct (parse_frame _ _) eqn:P; [|done]. intros [= ->]. by eapply parse_frame_ok.
Qed.

(** Handling a line: the state of the port, the reply, the frame. *)
Definition opened (kResult : LineResult) (index : nat) s : SlcanMedia W :=
  match open_state kResult with Some o => on_port index (fun p => p.{open := o}) s | None => s end.
Definition answered (index : nat) s : SlcanMedia W :=
  let kResult := ParseLine (line (port index s)) in write_port index (reply kResult) (opened kResult index s).
Lemma Complete_eq i s : Complete i s =
  match frame (ParseLine (line (port i s))) with None => answered i s | Some f => send_others i f (enqueue f (answered i s)) end.
Proof. done. Qed.
Lemma answered_ok i s : bus_ok s -> (i < port_count_ s)%nat -> bus_ok (answered i s) /\ rx_same s (answered i s).
Proof.
  intros B Hi. unfold answered. set (r := ParseLine (line (port i s))).
  assert (bus_ok (opened r i s) /\ rx_same s (opened r i s)) as [B1 R1].
  { unfold opened. destruct (open_state r); [|by split]. split; [|by apply on_port_rx]. apply on_port_ok; try done. by apply (bo_line s B). }
  destruct (write_port_ok i (reply r) (opened r i s) B1) as [B2 R2]; [by rewrite (proj1 R1)|apply reply_line|].
  split; [done|by eapply rx_same_trans].
Qed.
(** The queue gets the frame of the line, if it has one. *)
Lemma Complete_ok i s : bus_ok s -> (i < port_count_ s)%nat -> (rx_count_ s < kRxQueueLength)%nat ->
  bus_ok (Complete i s) /\ port_count_ (Complete i s) = port_count_ s /\
  (forall d, waiting d (world_ (Complete i s)) = waiting d (world_ s)) /\ (forall j, uart (port j (Complete i s)) = uart (port j s)) /\
  queued (Complete i s) = queued s ++ option_list (frame (ParseLine (line (port i s)))).
Proof.
  intros B Hi Hc. rewrite Complete_eq. destruct (answered_ok i s B Hi) as [B1 (E1 & E2 & E3 & E4 & E5 & E6)].
  assert (queued (answered i s) = queued s) as Q by (unfold queued; by rewrite E2, E3, E4).
  destruct (frame _) as [f|] eqn:F; [|cbn; rewrite app_nil_r; by split_and!].
  apply ParseLine_frame_ok in F. assert (bus_ok (enqueue f (answered i s))) as B2 by (apply enqueue_ok; [done..|by rewrite E4]).
  destruct (send_others_ok i f _ B2) as [B3 (F1 & F2 & F3 & F4 & F5 & F6)]. split; [done|].
  split; [rewrite F1; exact E1|]. split; [intros d; rewrite F5; exact (E5 d)|]. split; [intros j; rewrite F6; exact (E6 j)|].
  change (option_list (Some f)) with [f]. rewrite <- Q, <- queued_enqueue by (try done; by rewrite E4). unfold queued. by rewrite F2, F3, F4.
Qed.
Lemma reset_ok i s : bus_ok s -> (i < port_count_ s)%nat ->
  bus_ok (on_port i (fun p => p.{line := [] }.{line_overflow := false}) s).
Proof. intros B Hi. apply on_port_ok; try done. cbn. lia. Qed.
Lemma receive_char_ok i c s : bus_ok s -> (i < port_count_ s)%nat -> (rx_count_ s < kRxQueueLength)%nat ->
  bus_ok (receive_char i c s) /\ port_count_ (receive_char i c s) = port_count_ s.
Proof.
  intros B Hi Hc. unfold receive_char. case_if.
  - split; [|done]. pose proof (bo_line s B i Hi). apply on_port_ok; try done; unfold collect; case_if; try done.
    apply Nat.ltb_lt in Hif0. cbn. rewrite length_app. cbn. lia.
  - cbv zeta. case_if; [|split; [by apply reset_ok|done]]. destruct (Complete_ok i s B Hi Hc) as (B1 & E & _).
    split; [apply reset_ok; [done|by rewrite E]|done].
Qed.
Lemma poll_loop_ok n i s : bus_ok s -> (i < port_count_ s)%nat ->
  bus_ok (poll_loop n i s) /\ port_count_ (poll_loop n i s) = port_count_ s.
Proof.
  revert s. induction n as [|n IH]; intros s B Hi; [done|]. cbn [poll_loop]. case_if; [|done]. apply Nat.ltb_lt in Hif.
  destruct (uart (port i s)) as [d|]; [|done]. pose proof (fun d' => poll_in_taken d d' (world_ s)) as T.
  destruct (uart_poll_in d (world_ s)) as [c w]. cbn [snd] in T. pose proof (world_ok s w B T) as B1.
  destruct c as [c|]; [|by split]. destruct (receive_char_ok i c _ B1 Hi Hif) as [B2 E].
  destruct (IH _ B2) as [B3 E3]; [by rewrite E|]. split; [done|]. by rewrite E3, E.
Qed.
Lemma Poll_ok i s : bus_ok s -> (i < port_count_ s)%nat -> bus_ok (Poll i s) /\ port_count_ (Poll i s) = port_count_ s.
Proof.
  intros B Hi. unfold Poll. destruct (flush_port_ok i s B Hi) as [B1 R]. destruct (poll_loop_ok kMaxCharsPerPop i _ B1) as [B2 E].
  - by rewrite (proj1 R).
  - split; [done|]. by rewrite E, (proj1 R).
Qed.
Lemma poll_fold_ok l s : bus_ok s -> Forall (fun i => (i < port_count_ s)%nat) l ->
  bus_ok (foldl (fun s i => Poll i s) s l) /\ port_count_ (foldl (fun s i => Poll i s) s l) = port_count_ s.
Proof.
  revert s. induction l as [|i l IH]; intros s B F; [done|]. apply Forall_cons_1 in F as [Hi F]. cbn [foldl].
  destruct (Poll_ok i s B Hi) as [B1 E1]. destruct (IH _ B1) as [B2 E2]; [by rewrite E1|]. split; [done|]. by rewrite E2.
Qed.
Lemma poll_all_ok s : bus_ok s -> bus_ok (poll_all s) /\ port_count_ (poll_all s) = port_count_ s.
Proof. intros B. apply poll_fold_ok; [done|apply seq_ports]. Qed.
Lemma dequeue_ok f s : bus_ok s -> bus_ok (dequeue f s).2 /\ port_count_ (dequeue f s).2 = port_count_ s.
Proof.
  intros B. unfold dequeue. case_if; [done|]. split; [|done]. destruct B. split; try done.
  - change ((rx_head_ s + 1) mod kRxQueueLength < kRxQueueLength)%nat. apply Nat.mod_upper_bound. by unfold kRxQueueLength.
  - change (rx_count_ s - 1 <= kRxQueueLength)%nat. lia.
Qed.
Lemma dequeue_queued g s : bus_ok s ->
  match queued s with
  | [] => dequeue g s = (false, g, s)
  | f :: l => (dequeue g s).1 = (true, f) /\ queued (dequeue g s).2 = l
  end.
Proof.
  intros B. pose proof (bo_head s B) as Hh. unfold dequeue, queued at 1. destruct (rx_count_ s) as [|n] eqn:C; [done|].
  cbn [Nat.eqb seq map]. rewrite Nat.add_0_r, (Nat.mod_small (rx_head_ s)) by exact Hh. split; [done|].
  unfold queued. cbn [snd rx_ rx_head_ rx_count_ set_field eta eta_Slcan]. replace (S n - 1)%nat with n by lia.
  rewrite <- (seq_shift n 0), map_map. apply map_ext. intros k. do 2 f_equal.
  rewrite Nat.Div0.add_mod_idemp_l. f_equal. lia.
Qed.
Lemma Pop_ok f s : bus_ok s -> bus_ok (slcan_Pop f s).2 /\ port_count_ (slcan_Pop f s).2 = port_count_ s.
Proof.
  intros B. destruct (poll_all_ok s B) as [B1 E]. unfold slcan_Pop. destruct (dequeue_ok f _ B1) as [B2 E2].
  split; [done|]. by rewrite E2.
Qed.

(** Init() takes devices that nobody else has. *)
Lemma init_step_ok s d : bus_ok s -> (port_count_ s < kMaxPorts)%nat -> port (port_count_ s) s = Port_init ->
  (forall i, (i < port_count_ s)%nat -> uart (port i s) <> Some d) -> taken d (world_ s) = [] ->
  bus_ok ((on_port (port_count_ s) (fun p => p.{uart := Some d}) s).{port_count_ := S (port_count_ s)}).
Proof.
  intros B Hc Hp Hd Ht. set (n := port_count_ s) in *. set (s' := _.{port_count_ := _}).
  assert (forall i, port i s' = if decide (n = i) then Port_init.{uart := Some d} else port i s) as P.
  { intros i. rewrite <- Hp. apply (port_on_port n i). rewrite (bo_ports s B). exact Hc. }
  assert (forall i, (i < S n)%nat -> n <> i -> (i < n)%nat) as Hlt by lia.
  destruct B. split; try done.
  - cbn. by rewrite length_alter.
  - intros i Hi. rewrite P. case_decide; [done|]. by apply bo_uart0, Hlt.
  - intros i j Hi Hj. change (port_count_ s') with (S n) in *. rewrite !P. do 2 case_decide; subst; try done.
    + intros E. destruct (Hd j); [by apply Hlt|by rewrite <- E].
    + intros E. destruct (Hd i); [by apply Hlt|by rewrite E].
    + apply bo_distinct0; by apply Hlt.
  - intros i Hi. rewrite P. case_decide; [cbn; lia|]. by apply bo_pending0, Hlt.
  - intros i Hi. rewrite P. case_decide; [cbn; lia|]. by apply bo_line0, Hlt.
  - intros i Hi. rewrite P. case_decide; [|by apply bo_whole0, Hlt]. unfold out. cbn. rewrite Ht. exact whole_nil.
Qed.
Lemma Init_fold_ok l s : bus_ok s -> (forall i, (port_count_ s <= i)%nat -> port i s = Port_init) -> NoDup (omap id l) ->
  (forall d, Some d ∈ l -> taken d (world_ s) = [] /\ forall i, (i < port_count_ s)%nat -> uart (port i s) <> Some d) ->
  bus_ok (foldl init_step s l).
Proof.
  revert s. induction l as [|[d|] l IH]; intros s B Hp N H; [done| |apply IH; try done; intros d Hd; apply H; by right].
  cbn in N. apply list.NoDup_cons in N as [N1 N2]. cbn [foldl]. destruct (H d) as [Hd Hu]; [left|].
  assert (forall d', Some d' ∈ l -> d <> d') as Ne.
  { intros d' Hd' <-. apply N1, list_elem_of_omap. by exists (Some d). }
  unfold init_step at 2. case_if; [|apply IH; try done; intros d' Hd'; apply H; by right]. bool_prop.
  match goal with H : (_ <? _)%nat = true |- _ => apply Nat.ltb_lt in H as Hc end.
  assert (port_count_ s < length (ports_ s))%nat as Hl by (by rewrite (bo_ports s B)).
  apply IH; [apply init_step_ok; auto| |done|].
  - intros i Hi. change (port i (on_port (port_count_ s) (fun p => p.{uart := Some d}) s) = Port_init).
    rewrite port_on_port by done. cbn in Hi. rewrite decide_False by lia. apply Hp. lia.
  - intros d' Hd'. destruct (H d') as [Ht' Hu']; [by right|]. split; [done|]. intros i Hi.
    change (uart (port i (on_port (port_count_ s) (fun p => p.{uart := Some d}) s)) <> Some d').
    rewrite port_on_port by done. case_decide; [cbn; intros [= E]; by eapply Ne|]. apply Hu'. cbn in Hi. lia.
Qed.
Lemma Slcan_init_ok w : bus_ok (Slcan_init w).
Proof.
  assert (frame_ok CanFrame_init) as F.
  { split; [done|cbn; lia|done|by apply (Forall_replicate (in_u 8) kCanFdMtu)]. }
  split; try done; try (intros i; cbn; lia); cbn; [lia|unfold kRxQueueLength; lia|lia|].
  by apply (Forall_replicate frame_ok kRxQueueLength).
Qed.

(** ** Runs

    Init() with devices that are new and differ, then frames from above, polls,
    and whatever the other ends of the lines do. *)
Inductive reachable : SlcanMedia W -> Prop :=
| reach_init uarts w : NoDup (omap id uarts) -> (forall d, Some d ∈ uarts -> taken d w = []) ->
    reachable (Init uarts (Slcan_init w)).2
| reach_push f s : reachable s -> reachable (slcan_Push f s).2
| reach_pop f s : reachable s -> reachable (slcan_Pop f s).2
| reach_world w s : (forall d, taken d w = taken d (world_ s)) -> reachable s -> reachable (s.{world_ := w}).
Lemma slcan_reachable_ok s : reachable s -> bus_ok s.
Proof.
  induction 1 as [uarts w N H|f s _ IH|f s _ IH|w s Hw _ IH].
  - apply (Init_fold_ok uarts (Slcan_init w)); [apply Slcan_init_ok| |done|].
    + intros i _. change (default Port_init (replicate kMaxPorts Port_init !! i) = Port_init). destruct (replicate kMaxPorts Port_init !! i) eqn:E; [|done]. by apply lookup_replicate in E as [-> _].
    + intros d Hd. split; [by apply H|]. cbn. lia.
  - by apply Push_ok.
  - by apply Pop_ok.
  - by apply world_ok.
Qed.

(** ** A line that comes in *)
(** Port [i] is between two lines. *)
Definition idle i s : Prop := line (port i s) = [] /\ line_overflow (port i s) = false.
Lemma poll_chars i d rest l n s : bus_ok s -> (i < port_count_ s)%nat -> (rx_count_ s < kRxQueueLength)%nat ->
  uart (port i s) = Some d -> line_overflow (port i s) = false -> (length (line (port i s)) + length l <= kMaxLine)%nat ->
  Forall (fun c => is_end c = false) l -> waiting d (world_ s) = l ++ rest ->
  exists s', poll_loop (length l + n) i s = poll_loop n i s' /\ bus_ok s' /\ port_count_ s' = port_count_ s /\
    rx_ s' = rx_ s /\ rx_head_ s' = rx_head_ s /\ rx_count_ s' = rx_count_ s /\ uart (port i s') = Some d /\
    line_overflow (port i s') = false /\ line (port i s') = line (port i s) ++ l /\ waiting d (world_ s') = rest.
Proof.
  revert s. induction l as [|c l IH]; intros s B Hi Hc Hu Ho Hl F Hw.
  - exists s. rewrite app_nil_r. by split_and!.
  - apply Forall_cons_1 in F as [Hend F]. cbn [length] in Hl. change (length (c :: l) + n)%nat with (S (length l + n)). cbn [poll_loop].
    destruct (Nat.ltb_spec (rx_count_ s) kRxQueueLength); [|lia]. rewrite Hu.
    pose proof (poll_in_head d (world_ s)) as Ph. pose proof (poll_in_waiting d d (world_ s)) as Pw.
    pose proof (fun d' => poll_in_taken d d' (world_ s)) as Pt.
    destruct (uart_poll_in d (world_ s)) as [r w]. cbn [fst snd] in Ph, Pw, Pt. rewrite Hw in Ph, Pw. cbn in Ph. subst r.
    rewrite decide_True in Pw by done. cbn [tail app] in Pw. unfold receive_char. rewrite Hend. cbn [negb].
    pose proof (world_ok s w B Pt) as B1. assert (i < length (ports_ (s.{world_ := w})))%nat as Hi' by (destruct B; cbn; lia).
    set (s1 := on_port i (collect c) (s.{world_ := w})).
    assert (port i s1 = (port i s).{line := line (port i s) ++ [c] }) as P.
    { unfold s1. rewrite port_on_port by done. rewrite decide_True by done. change (port i (s.{world_ := w})) with (port i s).
      unfold collect. destruct (Nat.ltb_spec (length (line (port i s))) kMaxLine); [done|lia]. }
    destruct (IH s1) as (s' & E & B' & E1 & E2 & E3 & E4 & E5 & E6 & E7 & E8); try done.
    + apply on_port_ok; [done..|by unfold collect; case_if|by unfold collect; case_if|].
      replace (collect c _) with (port i s1) by (unfold s1; by rewrite port_on_port, decide_True).
      rewrite P. change (length (line (port i s) ++ [c]) <= kMaxLine)%nat. rewrite length_app. cbn. lia.
    + rewrite P. exact Hu.
    + rewrite P. exact Ho.
    + rewrite P. change (length (line (port i s) ++ [c]) + length l <= kMaxLine)%nat. rewrite length_app. cbn. lia.
    + exists s'. split_and!; try done. rewrite E7, P. change ((line (port i s) ++ [c]) ++ l = line (port i s) ++ c :: l). by rewrite <- app_assoc.
Qed.
(** A whole line is handled when its end comes; then the port is idle again. *)
Lemma poll_line i d l n s : bus_ok s -> (i < port_count_ s)%nat -> (rx_count_ s < kRxQueueLength)%nat ->
  uart (port i s) = Some d -> idle i s -> (0 < length l <= kMaxLine)%nat -> Forall (fun c => is_end c = false) l ->
  waiting d (world_ s) = l ++ [13] ->
  let s' := poll_loop (length l + S (S n)) i s in
  bus_ok s' /\ idle i s' /\ queued s' = queued s ++ option_list (frame (ParseLine l)) /\ waiting d (world_ s') = [].
Proof.
  intros B Hi Hc Hu [Hl0 Ho] Hl F Hw. cbv zeta.
  destruct (poll_chars i d [13] l (S (S n)) s) as (s1 & -> & B1 & E1 & E2 & E3 & E4 & E5 & E6 & E7 & E8);
    try done; [rewrite Hl0; cbn; lia|]. rewrite Hl0 in E7. cbn in E7.
  assert (queued s1 = queued s) as Q by (unfold queued; by rewrite E2, E3, E4).
  change (poll_loop (S (S n)) i s1) with
    (if (rx_count_ s1 <? kRxQueueLength)%nat then
       match uart (port i s1) with
       | None => s1
       | Some d => let '(received, w) := uart_poll_in d (world_ s1) in
                   match received with None => s1.{world_ := w} | Some c => poll_loop (S n) i (receive_char i c (s1.{world_ := w})) end
       end else s1).
  destruct (Nat.ltb_spec (rx_count_ s1) kRxQueueLength); [|lia]. rewrite E5.
  pose proof (poll_in_head d (world_ s1)) as Ph. pose proof (poll_in_waiting d d (world_ s1)) as Pw.
  pose proof (fun d' => poll_in_taken d d' (world_ s1)) as Pt.
  destruct (uart_poll_in d (world_ s1)) as [r w]. cbn [fst snd] in Ph, Pw, Pt. rewrite E8 in Ph, Pw. cbn in Ph. subst r.
  rewrite decide_True in Pw by done. cbn [tail] in Pw. pose proof (world_ok s1 w B1 Pt) as B2. set (s2 := s1.{world_ := w}) in *.
  assert (receive_char i 13 s2 = on_port i (fun p => p.{line := [] }.{line_overflow := false}) (Complete i s2)) as ->.
  { unfold receive_char. change (port i s2) with (port i s1). rewrite E6, E7. cbn [is_end Z.eqb Pos.eqb negb orb andb].
    destruct (Nat.ltb_spec 0 (length l)); [done|lia]. }
  destruct (Complete_ok i s2 B2) as (B3 & C1 & C2 & C3 & C4); [by rewrite <- E1 in Hi|done|].
  assert (i < port_count_ (Complete i s2))%nat as Hi3 by (rewrite C1; change (i < port_count_ s1)%nat; lia).
  assert (i < length (ports_ (Complete i s2)))%nat as Hi4 by (destruct B3; lia).
  set (s3 := on_port i _ (Complete i s2)). assert (bus_ok s3) as B4 by (by apply reset_ok).
  assert (idle i s3) as I3 by (unfold idle, s3; rewrite port_on_port, decide_True by done; done).
  assert (queued s3 = queued s ++ option_list (frame (ParseLine l))) as Q3.
  { change (queued (Complete i s2) = queued s ++ option_list (frame (ParseLine l))). rewrite C4. change (port i s2) with (port i s1).
    rewrite E7. by f_equal. }
  assert (waiting d (world_ s3) = []) as W3 by (change (waiting d (world_ (Complete i s2)) = []); rewrite C2; exact Pw).
  assert (uart (port i s3) = Some d) as U3.
  { unfold s3. rewrite port_on_port, decide_True by done. change (uart (port i (Complete i s2)) = Some d). rewrite C3. exact E5. }
  clearbody s3. cbn [poll_loop]. case_if; [|done]. rewrite U3.
  pose proof (poll_in_head d (world_ s3)) as Qh. pose proof (poll_in_waiting d d (world_ s3)) as Qw.
  pose proof (fun d' => poll_in_taken d d' (world_ s3)) as Qt.
  destruct (uart_poll_in d (world_ s3)) as [r w3]. cbn [fst snd] in Qh, Qw, Qt. rewrite W3 in Qh, Qw. cbn in Qh. subst r.
  rewrite decide_True in Qw by done. split_and!; try done. by apply world_ok.
Qed.

Lemma Poll_frame i d f s : bus_ok s -> (i < port_count_ s)%nat -> (rx_count_ s < kRxQueueLength)%nat ->
  uart (port i s) = Some d -> idle i s -> frame_ok f -> waiting d (world_ s) = FormatFrame f kMaxFrameText ->
  bus_ok (Poll i s) /\ idle i (Poll i s) /\ queued (Poll i s) = queued s ++ [received f] /\ waiting d (world_ (Poll i s)) = [].
Proof.
  intros B Hi Hc Hu Hid Hf Hw. rewrite FormatFrame_line in Hw. destruct (flush_port_ok i s B Hi) as [B1 (E1 & E2 & E3 & E4 & E5 & E6)].
  assert (idle i (flush_port i s)) as I1.
  { unfold idle, flush_port in *. destruct (Flush (port i s) (world_ s)) as [[b p'] w'] eqn:E. apply Flush_spec in E as ((_ & _ & El & Eo) & _).
    change (line (port i (on_port i (fun _ => p') s)) = [] /\ line_overflow (port i (on_port i (fun _ => p') s)) = false).
    rewrite port_on_port, decide_True by (done || (destruct B; lia)). by rewrite El, Eo. }
  pose proof (length_frame_line f) as L.
  assert (0 < length (frame_line f))%nat as L0 by (unfold frame_line; cbn; lia).
  pose proof (poll_line i d (frame_line f) (kMaxCharsPerPop - length (frame_line f) - 2) (flush_port i s) B1) as P.
  replace (length (frame_line f) + S (S (kMaxCharsPerPop - length (frame_line f) - 2)))%nat with kMaxCharsPerPop in P
    by (unfold kMaxCharsPerPop; lia).
  destruct P as (P1 & P2 & P3 & P4); [lia|lia|by rewrite E6|done| |by apply frame_line_chars|by rewrite E5|].
  { unfold kMaxLine. lia. }
  unfold Poll. split_and!; try done. rewrite P3, ParseLine_frame by done. unfold queued at 1. by rewrite E2, E3, E4.
Qed.
Lemma foldl_single {A} (f : A -> nat -> A) a : foldl f a (seq 0 1) = f a 0%nat.
Proof. done. Qed.
Lemma poll_all_single s : port_count_ s = 1%nat -> poll_all s = Poll 0 s.
Proof. intros H1. unfold poll_all. rewrite H1. exact (foldl_single (fun s i => Poll i s) s). Qed.
Lemma Pop_single g f s : bus_ok s -> port_count_ s = 1%nat -> queued (Poll 0 s) = [f] -> (slcan_Pop g s).1 = (true, f).
Proof.
  intros B H1 Hq. destruct (poll_all_ok s B) as [B1 _]. pose proof (dequeue_queued g _ B1) as Q. unfold slcan_Pop.
  rewrite poll_all_single in * by done. rewrite Hq in Q. exact (proj1 Q).
Qed.
Lemma queued_ok s : bus_ok s -> Forall frame_ok (queued s) /\ (length (queued s) <= kRxQueueLength)%nat.
Proof.
  intros B. unfold queued. rewrite length_map, length_seq. split; [|apply (bo_rx_count s B)]. apply Forall_fmap, list.Forall_forall.
  intros k _. cbn. pose proof (bo_frames s B) as F. rewrite list.Forall_forall in F. destruct (rx_ s !! _) as [x|] eqn:E.
  - by eapply F, list_elem_of_lookup_2.
  - apply lookup_ge_None in E. rewrite (bo_rx s B) in E.
    pose proof (Nat.mod_upper_bound (rx_head_ s + k) kRxQueueLength). unfold kRxQueueLength in *. lia.
Qed.
(** Sending on one port leaves the others alone. *)
Lemma Send_other i j f s : bus_ok s -> (i < port_count_ s)%nat -> (j < port_count_ s)%nat -> (i = j -> open (port j s) = false) ->
  port j (Send i f s) = port j s /\ forall d, uart (port j s) = Some d -> taken d (world_ (Send i f s)) = taken d (world_ s).
Proof.
  intros B Hi Hj Ho. unfold Send. case_if; [done|]. apply negb_false_iff in Hif.
  assert (i <> j) as Hne by (intros ->; rewrite Ho in Hif by done; done).
  unfold write_port. destruct (Write (port i s) (FormatFrame f kMaxFrameText) (world_ s)) as [p' w'] eqn:E.
  apply port_Write_spec in E as (_ & O & _); [|by apply (bo_pending s B)|pose proof (length_FormatFrame f); unfold kMaxFrameText, kCanClassicMtu, kMaxLine in *; lia].
  split.
  - change (port j (on_port i (fun _ => p') s) = port j s). rewrite port_on_port by (destruct B; lia). by rewrite decide_False.
  - intros d Hd. cbn. apply O. intros Hu. apply Hne, (bo_distinct s B); [done..|by rewrite Hu].
Qed.
Lemma Push_closed f j s : bus_ok s -> (j < port_count_ s)%nat -> open (port j s) = false ->
  port j (slcan_Push f s).2 = port j s /\
  forall d, uart (port j s) = Some d -> taken d (world_ (slcan_Push f s).2) = taken d (world_ s).
Proof.
  unfold slcan_Push. cbn [snd]. generalize (seq_ports (port_count_ s)). generalize (seq 0 (port_count_ s)) as l. intros l. revert s.
  induction l as [|i l IH]; intros s F B Hj Ho; [done|]. apply Forall_cons_1 in F as [Hi F]. cbn [foldl].
  destruct (port_Send_ok i f s B Hi) as [B1 R]. destruct (Send_other i j f s B Hi Hj) as [E1 E2]; [done|].
  destruct (IH (Send i f s)) as [E3 E4]; [by rewrite (proj1 R)|done|by rewrite (proj1 R)|by rewrite E1|].
  split; [by rewrite E3|]. intros d Hd. rewrite E4 by (by rewrite E1). by apply E2.
Qed.

(** A terminal of the simulated CAN adapter only ever gets whole lines:
    however little the driver takes at a time, what has gone out and what is
    still pending is a sequence of complete replies and frames; a frame is not
    sent to a closed port at all; and what Pop() hands up is a well-formed
    frame from a queue of at most sixteen. *)
Theorem slcan_whole_lines s : reachable s ->
  (forall i d, (i < port_count_ s)%nat -> uart (port i s) = Some d ->
     exists lines, Forall is_line lines /\ taken d (world_ s) ++ pending (port i s) = concat lines) /\
  (forall f j d, (j < port_count_ s)%nat -> open (port j s) = false -> uart (port j s) = Some d ->
     let s' := (slcan_Push f s).2 in pending (port j s') = pending (port j s) /\ taken d (world_ s') = taken d (world_ s)) /\
  (forall g, let '(some, f, s') := slcan_Pop g s in
     (length (queued s') < kRxQueueLength)%nat /\ if some then frame_ok f else f = g /\ queued s' = []).
Proof.
  intros B%slcan_reachable_ok. split; [|split].
  - intros i d Hi Hu. pose proof (bo_whole s B i Hi) as Hw. unfold out in Hw. rewrite Hu in Hw. exact Hw.
  - intros f j d Hj Ho Hu. destruct (Push_closed f j s B Hj Ho) as [E1 E2]. cbv zeta. rewrite E1. split; [done|by apply E2].
  - intros g. destruct (poll_all_ok s B) as [B1 _]. pose proof (dequeue_queued g _ B1) as Q.
    destruct (queued_ok _ B1) as [Qf Ql]. unfold slcan_Pop. destruct (queued (poll_all s)) as [|f l] eqn:E.
    + rewrite Q, E. split; [cbn; unfold kRxQueueLength; lia|done].
    + destruct Q as [Q1 Q2]. destruct (dequeue g (poll_all s)) as [[b f'] s']. cbn [fst snd] in *. simplify_eq.
      apply Forall_cons_1 in Qf as [Qf _]. cbn [length] in Ql. split; [lia|done].
Qed.

(** C34. The text of a frame is read back: a port that finds the text FormatFrame()
    makes of a frame puts that frame (its first eight bytes, all of a classic
    frame) at the end of the receive queue, whatever was received before, is
    ready for the next line, and Pop() of a single open port returns it. *)
Theorem slcan_frame_received i d f s : reachable s -> (i < port_count_ s)%nat -> (rx_count_ s < kRxQueueLength)%nat ->
  uart (port i s) = Some d -> idle i s -> frame_ok f -> waiting d (world_ s) = FormatFrame f kMaxFrameText ->
  ParseLine (removelast (FormatFrame f kMaxFrameText)) = mkLineResult [] (Some (received f)) None /\
  queued (Poll i s) = queued s ++ [received f] /\ idle i (Poll i s) /\ waiting d (world_ (Poll i s)) = [] /\
  ((size f <= kCanClassicMtu)%nat -> valid_bytes (received f) = valid_bytes f) /\
  (forall g, port_count_ s = 1%nat -> queued s = [] -> (slcan_Pop g s).1 = (true, received f)).
Proof.
  intros B%slcan_reachable_ok Hi Hc Hu Hid Hf Hw. destruct (Poll_frame i d f s B Hi Hc Hu Hid Hf Hw) as (_ & P1 & P2 & P3).
  rewrite FormatFrame_line, removelast_last, ParseLine_frame by done. split_and!; try done.
  - intros Hs. apply received_valid; [done|by destruct Hf].
  - intros g H1 H0. apply Pop_single; [done..|]. assert (i = 0%nat) as -> by lia. by rewrite P2, H0.
Qed.

End Bus.

(** ** A concrete driver: what was taken and what is waiting, at most eight
    characters taken at a time *)
Definition DemoUart : Type := nat -> list Z * list Z.
Definition set_uart (d : nat) (x : list Z * list Z) (w : DemoUart) : DemoUart := fun d' => if decide (d' = d) then x else w d'.
#[export] Instance demo_uart : UartOps DemoUart := {|
  device_is_ready d w := true;
  uart_fifo_fill d l w := (Z.of_nat (Nat.min 8 (length l)), set_uart d ((w d).1 ++ take 8 l, (w d).2) w);
  uart_poll_in d w := (head (w d).2, set_uart d ((w d).1, tail (w d).2) w) |}.
#[export, refine] Instance demo_uart_laws : UartLaws DemoUart := {| taken d w := (w d).1; waiting d w := (w d).2 |}.
Proof.
  all: intros; cbn [fst snd uart_fifo_fill uart_poll_in demo_uart]; unfold set_uart; try case_decide; subst; try done; try lia.
  f_equal. rewrite Nat2Z.id. destruct (decide (8 <= length l)%nat); [by rewrite Nat.min_l by lia|].
  rewrite Nat.min_r by lia. by rewrite !take_ge by lia.
Defined.

Definition demo_can_frame : CanFrame := mkFrame 0x107D5501 3 ([1; 0xAB; 255] ++ replicate 61 0).
Definition demo_idle : DemoUart := fun d => ([], []).
(** One terminal, on which a tool typed a frame. *)
Definition demo_slcan : SlcanMedia DemoUart :=
  (Init [Some 5%nat] (Slcan_init demo_idle)).2.{world_ := set_uart 5 ([], FormatFrame demo_can_frame kMaxFrameText) demo_idle}.
Lemma demo_slcan_reachable : reachable demo_slcan.
Proof.
  apply reach_world; [intros d; cbn; unfold set_uart; by case_decide|]. apply reach_init; [by apply NoDup_singleton|done].
Qed.
Lemma demo_can_frame_ok : frame_ok demo_can_frame.
Proof. split; [by vm_compute|cbn; unfold kCanFdMtu; lia|done|words_ok]. Qed.

Lemma demo_slcan_port : (0 < port_count_ demo_slcan)%nat /\ (rx_count_ demo_slcan < kRxQueueLength)%nat /\ port_count_ demo_slcan = 1%nat /\
  uart (port 0 demo_slcan) = Some 5%nat /\ idle 0 demo_slcan /\ queued demo_slcan = [].
Proof. vm_compute. split_and!; (reflexivity || lia). Qed.
Lemma demo_slcan_waiting : waiting 5 (world_ demo_slcan) = FormatFrame demo_can_frame kMaxFrameText.
Proof. reflexivity. Qed.

Lemma slcan_whole_lines_witness :
  exists lines, Forall is_line lines /\ taken 5 (world_ demo_slcan) ++ pending (port 0 demo_slcan) = concat lines.
Proof.
  destruct demo_slcan_port as (Hi & _ & _ & Hu & _). exact (proj1 (slcan_whole_lines demo_slcan demo_slcan_reachable) 0%nat 5%nat Hi Hu).
Defined.
Lemma slcan_frame_received_witness : (slcan_Pop CanFrame_init demo_slcan).1 = (true, received demo_can_frame).
Proof.
  destruct demo_slcan_port as (Hi & Hc & H1 & Hu & Hid & Hq).
  pose proof (slcan_frame_received 0 5 demo_can_frame demo_slcan demo_slcan_reachable Hi Hc Hu Hid demo_can_frame_ok demo_slcan_waiting)
    as (_ & _ & _ & _ & _ & P).
  exact (P CanFrame_init H1 Hq).
Defined.

End SlcanBus.
