(* ===== verification/CanardTransport.v ===== *)
(** * The Cyphal/CAN transport

    lib/cyphal/canard_transport.{hpp,cpp}: the transport of the drive over one or
    two CAN interfaces, an implementation of the transport interface of
    [CyphalNode].  The library libcanard and the allocator O1Heap are the classes
    [Canard] and [O1Heap], with what their documentation promises as
    [CanardLaws]; a CAN interface is a [CanMedia].  The arrays interfaces_ and
    tx_queues_ are one list of [Interface]s; interfaces are different objects. *)
From Stdlib Require Import ZArith Lia Bool.
From stdpp Require Import base decidable list option.
From S2P Require Import Prelude DriveMessages CyphalNode CanMedia.
Import DriveMessages(CanBusState, bus_kErrorActive, bus_kErrorWarning, bus_kErrorPassive, bus_kBusOff, CanBusStatus, mkCanBusStatus,
  bus_state, bus_off_events, Priority, kNodeIdUnset).
Import CyphalNode(kNodeIdMax, TransferKind, kMessage, kServiceRequest, kServiceResponse, ReceiveResult, kNoTransfer, kReceived, kError,
  Transfer, mkTransfer, Transfer_init, transfer_port, source_node_id, destination_node_id, transfer_id, kind, transfer_priority, payload,
  TransportOps, TransportLaws).
Import CanMedia(CanMedia, CanFrame, mkFrame, CanFrame_init, extended_can_id, size, data, kCanFdMtu, Mtu, Push, Pop).

#[local] Open Scope Z_scope.
#[local] Open Scope unimoc_scope.

Module CanardTransport.

(** ** The libraries *)
Inductive CanardTransferKind := CanardTransferKindMessage | CanardTransferKindResponse | CanardTransferKindRequest.
#[export] Instance CanardTransferKind_eq_dec : EqDecision CanardTransferKind.
Proof. solve_decision. Defined.
Record CanardTransferMetadata := mkMetadata {
  metadata_priority : Priority; transfer_kind : CanardTransferKind; metadata_port_id : Z; remote_node_id : Z; metadata_transfer_id : Z }.
(** A frame in a queue: its deadline, identifier and payload. *)
Record CanardTxQueueItem := mkItem { tx_deadline_usec : Z; item_can_id : Z; item_payload : list Z }.
(** A received transfer and its memory. *)
Record CanardRxTransfer := mkRx { rx_metadata : CanardTransferMetadata; rx_payload : list Z; rx_memory : option nat }.
(** The callbacks of a memory resource. *)
Record Memory (M : Type) := mkMemory { allocate : Z -> M -> option nat * M; deallocate : option nat -> M -> M }.
Arguments mkMemory {M}.
Arguments allocate {M}.
Arguments deallocate {M}.

Class O1Heap (Arena H : Type) := {
  o1heapInit : Arena -> option H;
  o1heapAllocate : Z -> H -> option nat * H;
  o1heapFree : option nat -> H -> H }.
(** [C]: an instance with its subscriptions; [Q]: a queue.  A subscription is
    known by the number of the object it was given. *)
Class Canard (C Q : Type) := {
  CANARD_NODE_ID_UNSET : Z;
  CANARD_ERROR_OUT_OF_MEMORY : Z;
  canardInit : C;
  node_id : C -> Z;
  set_node_id : Z -> C -> C;
  canardTxInit : nat -> nat -> Q;
  canardTxPush {M} : Memory M -> Q -> C -> Z -> CanardTransferMetadata -> list Z -> Z -> M -> Z * Z * Q * M;
  canardTxPeek : Q -> option CanardTxQueueItem;
  canardTxPop : Q -> CanardTxQueueItem -> Q;
  canardTxFree {M} : Memory M -> CanardTxQueueItem -> M -> M;
  canardRxAccept {M} : Memory M -> C -> Z -> Z * list Z -> nat -> M -> Z * CanardRxTransfer * C * M;
  canardRxGetSubscription : C -> CanardTransferKind -> Z -> option (nat * Z);
  canardRxSubscribe {M} : Memory M -> C -> CanardTransferKind -> Z -> Z -> Z -> nat -> M -> Z * C * M }.

(** ** The transport *)
Definition kMaxInterfaces : nat := 2.
Definition kMaxSubscriptions : nat := 24.
Definition kTxQueueCapacity : nat := 64.
Definition kDefaultTxTimeoutUs : Z := 100000.
Definition kTransferIdTimeoutUs : Z := 2000000.
Definition kMaxFramesPerReceive : nat := 64.
Definition ToCanard (k : TransferKind) : CanardTransferKind :=
  match k with
  | kMessage => CanardTransferKindMessage
  | kServiceRequest => CanardTransferKindRequest
  | kServiceResponse => CanardTransferKindResponse
  end.
Definition FromCanard (k : CanardTransferKind) : TransferKind :=
  match k with
  | CanardTransferKindMessage => kMessage
  | CanardTransferKindRequest => kServiceRequest
  | CanardTransferKindResponse => kServiceResponse
  end.

Record Interface (Md Q : Type) := mkInterface { media : Md; tx_queue : Q }.
Arguments mkInterface {Md Q}.
Arguments media {Md Q}.
Arguments tx_queue {Md Q}.
(** The heap and the allocations it refused. *)
Record Arena_ (H : Type) := mkArena { heap_ : option H; out_of_memory_ : Z }.
Arguments mkArena {H}.
Arguments heap_ {H}.
Arguments out_of_memory_ {H}.
#[export] Instance eta_Arena H : Eta (Arena_ H) := fun s => mkArena (heap_ s) (out_of_memory_ s).
Record CanardTransport (H C Md Q : Type) := mkTransport {
  memory_ : Arena_ H; canard_ : C; interfaces_ : list (Interface Md Q); subscription_count_ : nat;
  next_rx_interface_ : nat; now_us_ : Z; tx_dropped_ : Z }.
Arguments mkTransport {H C Md Q}.
Arguments memory_ {H C Md Q}.
Arguments canard_ {H C Md Q}.
Arguments interfaces_ {H C Md Q}.
Arguments subscription_count_ {H C Md Q}.
Arguments next_rx_interface_ {H C Md Q}.
Arguments now_us_ {H C Md Q}.
Arguments tx_dropped_ {H C Md Q}.
#[export] Instance eta_Transport H C Md Q : Eta (CanardTransport H C Md Q) := fun s =>
  mkTransport (memory_ s) (canard_ s) (interfaces_ s) (subscription_count_ s) (next_rx_interface_ s) (now_us_ s) (tx_dropped_ s).

Section Transport.
Context {Arena H C Md Q : Type} `{!O1Heap Arena H} `{!Canard C Q} `{!CanMedia Md}.
Abbreviation Transport := (CanardTransport H C Md Q).
Implicit Types (s : CanardTransport H C Md Q) (a : Arena_ H).

(** Without a heap nothing is ever queued or received, so these are not called. *)
Definition Allocate (bytes : Z) a : option nat * Arena_ H :=
  match heap_ a with
  | None => (None, a)
  | Some h =>
      let '(kPointer, h) := o1heapAllocate bytes h in
      let a := a.{heap_ := Some h} in
      (kPointer, match kPointer with None => a.{out_of_memory_ := u64 (out_of_memory_ a + 1)} | Some _ => a end)
  end.
Definition Deallocate (pointer : option nat) a : Arena_ H :=
  match heap_ a with None => a | Some h => a.{heap_ := Some (o1heapFree pointer h)} end.
Definition kMemory : Memory (Arena_ H) := mkMemory Allocate Deallocate.

(** The constructor. *)
Definition add_interface (l : list (Interface Md Q)) (m : option Md) : list (Interface Md Q) :=
  match m with
  | Some m => if (kMaxInterfaces <=? length l)%nat then l else l ++ [mkInterface m (canardTxInit kTxQueueCapacity (Mtu m))]
  | None => l
  end.
Definition CanardTransport_init (arena : Arena) (interfaces : list (option Md)) : Transport :=
  mkTransport (mkArena (o1heapInit arena) 0) (set_node_id CANARD_NODE_ID_UNSET canardInit) (foldl add_interface [] interfaces) 0 0 0 0.
Definition interface_count s : nat := length (interfaces_ s).
Definition IsValid s : bool :=
  match heap_ (memory_ s) with None => false | Some _ => (0 <? interface_count s)%nat end.

Definition LocalNodeId s : Z := if node_id (canard_ s) <=? kNodeIdMax then node_id (canard_ s) else kNodeIdUnset.
Definition SetLocalNodeId (id : Z) s : Transport :=
  s.{canard_ := set_node_id (if id <=? kNodeIdMax then id else CANARD_NODE_ID_UNSET) (canard_ s)}.

(** *** Sending *)
Definition kMetadata (x : Transfer) : CanardTransferMetadata :=
  mkMetadata (transfer_priority x) (ToCanard (kind x)) (transfer_port x)
    (u8 (match kind x with kMessage => CANARD_NODE_ID_UNSET | _ => destination_node_id x end)) (transfer_id x).
(** The loop over the interfaces. *)
Fixpoint push_all (x : Transfer) (l : list (Interface Md Q)) (accepted : bool) s : bool * list (Interface Md Q) * Transport :=
  match l with
  | [] => (accepted, [], s)
  | i :: l =>
      let '(kResult, expired, q, mem) :=
        canardTxPush kMemory (tx_queue i) (canard_ s) (u64 (now_us_ s + kDefaultTxTimeoutUs)) (kMetadata x) (payload x) (now_us_ s) (memory_ s) in
      let s := s.{memory_ := mem}.{tx_dropped_ := u64 (tx_dropped_ s + expired)} in
      let s := if 0 <? kResult then s
               else if kResult =? - CANARD_ERROR_OUT_OF_MEMORY then s.{tx_dropped_ := u64 (tx_dropped_ s + 1)} else s in
      let '(accepted, l, s) := push_all x l (accepted || (0 <? kResult)) s in
      (accepted, mkInterface (media i) q :: l, s)
  end.
Definition Send (x : Transfer) s : bool * Transport :=
  if negb (IsValid s) then (false, s)
  else let '(accepted, l, s) := push_all x (interfaces_ s) false s in (accepted, s.{interfaces_ := l}).

(** *** Receiving *)
Definition received_transfer (received : CanardRxTransfer) (buffer_size : Z) s : Transfer :=
  let k := FromCanard (transfer_kind (rx_metadata received)) in
  mkTransfer (metadata_port_id (rx_metadata received)) (remote_node_id (rx_metadata received))
    (match k with kMessage => kNodeIdUnset | _ => LocalNodeId s end)
    (metadata_transfer_id (rx_metadata received)) k (metadata_priority (rx_metadata received))
    (take (Z.to_nat buffer_size) (rx_payload received)).
Definition set_media (i : nat) (m : Md) s : Transport := s.{interfaces_ := alter (fun x => mkInterface m (tx_queue x)) i (interfaces_ s)}.
Fixpoint receive_loop (n idle_interfaces : nat) (frame : CanFrame) (buffer_size : Z) s : ReceiveResult * Transfer * Transport :=
  match n with
  | O => (kNoTransfer, Transfer_init, s)
  | S n =>
      if (idle_interfaces <? interface_count s)%nat then
        let kIface := next_rx_interface_ s in
        let s := s.{next_rx_interface_ := ((kIface + 1) mod interface_count s)%nat} in
        match interfaces_ s !! kIface with
        | None => (kNoTransfer, Transfer_init, s)
        | Some i =>
            let '(some, frame, m) := Pop frame (media i) in
            let s := set_media kIface m s in
            if negb some then receive_loop n (S idle_interfaces) frame buffer_size s
            else
              let '(kResult, received, c, mem) :=
                canardRxAccept kMemory (canard_ s) (now_us_ s) (extended_can_id frame, take (size frame) (data frame)) kIface (memory_ s) in
              let s := s.{canard_ := c}.{memory_ := mem} in
              if kResult =? - CANARD_ERROR_OUT_OF_MEMORY
              then receive_loop n 0 frame buffer_size (s.{memory_ := mem.{out_of_memory_ := u64 (out_of_memory_ mem + 1)} })
              else if negb (kResult =? 1) then receive_loop n 0 frame buffer_size s
              else
                let s := s.{memory_ := Deallocate (rx_memory received) (memory_ s)} in
                (kReceived, received_transfer received buffer_size s, s)
        end
      else (kNoTransfer, Transfer_init, s)
  end.
Definition Receive (buffer_size : Z) s : ReceiveResult * Transfer * Transport :=
  if negb (IsValid s) then (kError, Transfer_init, s)
  else receive_loop kMaxFramesPerReceive 0 CanFrame_init buffer_size s.

(** *** Subscribing *)
Definition Subscribe (k : TransferKind) (port_id extent : Z) s : bool * Transport :=
  let subscribe slot := canardRxSubscribe kMemory (canard_ s) (ToCanard k) port_id extent kTransferIdTimeoutUs slot (memory_ s) in
  match canardRxGetSubscription (canard_ s) (ToCanard k) port_id with
  | Some (existing, existing_extent) =>
      if extent <=? existing_extent then (true, s)
      else let '(kResult, c, mem) := subscribe existing in (0 <=? kResult, s.{canard_ := c}.{memory_ := mem})
  | None =>
      if (kMaxSubscriptions <=? subscription_count_ s)%nat then (false, s)
      else
        let '(kResult, c, mem) := subscribe (subscription_count_ s) in
        let s := s.{canard_ := c}.{memory_ := mem} in
        if kResult <? 0 then (false, s) else (true, s.{subscription_count_ := S (subscription_count_ s)})
  end.

(** *** The bus *)
Definition bus_rank (b : CanBusState) : nat :=
  match b with bus_kErrorActive => 0 | bus_kErrorWarning => 1 | bus_kErrorPassive => 2 | bus_kBusOff => 3 end.
Definition bus_min (a b : CanBusState) : CanBusState := if (bus_rank b <? bus_rank a)%nat then b else a.
Definition BusStatus s : CanBusStatus :=
  let status := foldl (fun status i =>
    let kInterface := CanMedia.BusStatus (media i) in
    mkCanBusStatus (bus_min (bus_state status) (bus_state kInterface)) (u32 (bus_off_events status + bus_off_events kInterface)))
    (mkCanBusStatus bus_kBusOff 0) (interfaces_ s) in
  if (interface_count s =? 0)%nat then mkCanBusStatus bus_kErrorActive (bus_off_events status) else status.

(** The frame of a queued item. *)
Definition item_frame (item : CanardTxQueueItem) : CanFrame :=
  let n := Nat.min (length (item_payload item)) kCanFdMtu in
  mkFrame (item_can_id item) n (take n (item_payload item) ++ replicate (kCanFdMtu - n) 0).
(** The loop over the queue of one interface; it ends with the queue (at most
    kTxQueueCapacity frames) or when the interface takes no more. *)
Fixpoint drain (n : nat) (now_us : Z) (i : Interface Md Q) (dropped : Z) (mem : Arena_ H) : Interface Md Q * Z * Arena_ H :=
  match n with
  | O => (i, dropped, mem)
  | S n =>
      match canardTxPeek (tx_queue i) with
      | None => (i, dropped, mem)
      | Some item =>
          let free m dropped := drain n now_us (mkInterface m (canardTxPop (tx_queue i) item)) dropped (canardTxFree kMemory item mem) in
          if tx_deadline_usec item <? now_us then free (media i) (u64 (dropped + 1))
          else
            let '(taken, m) := Push (item_frame item) (media i) in
            if negb taken then (mkInterface m (tx_queue i), dropped, mem) else free m dropped
      end
  end.
Fixpoint drain_all (now_us : Z) (l : list (Interface Md Q)) (dropped : Z) (mem : Arena_ H) : list (Interface Md Q) * Z * Arena_ H :=
  match l with
  | [] => ([], dropped, mem)
  | i :: l =>
      let '(i, dropped, mem) := drain (S kTxQueueCapacity) now_us i dropped mem in
      let '(l, dropped, mem) := drain_all now_us l dropped mem in (i :: l, dropped, mem)
  end.
Definition Process (now_us : Z) s : Transport :=
  let '(l, dropped, mem) := drain_all now_us (interfaces_ s) (tx_dropped_ s) (memory_ s) in
  s.{now_us_ := now_us}.{interfaces_ := l}.{tx_dropped_ := dropped}.{memory_ := mem}.

#[export] Instance canard_transport : TransportOps Transport := {|
  CyphalNode.Send := Send; CyphalNode.Receive := Receive; CyphalNode.Subscribe := Subscribe; CyphalNode.SetLocalNodeId := SetLocalNodeId;
  CyphalNode.LocalNodeId := LocalNodeId; CyphalNode.Process := Process; CyphalNode.BusStatus := BusStatus |}.
End Transport.

End CanardTransport.
