(* ===== verification/CanardLaws.v ===== *)
(** * The Cyphal/CAN transport: queues and subscriptions

    The promises of libcanard as [CanardLaws], the invariant of the transport,
    and what its operations do: it meets the laws of the transport interface,
    gives every port a subscription object of its own, and empties the queues in
    their order. *)
From Stdlib Require Import ZArith Lia Bool.
From stdpp Require Import base decidable list option.
From S2P Require Import Prelude DriveMessages CyphalNode CanMedia CanardTransport.
Import DriveMessages(kNodeIdUnset, CanBusStatus).
Import CyphalNode(kNodeIdMax, TransferKind, kMessage, kServiceRequest, kServiceResponse, Transfer, TransportOps, TransportLaws).
Import CanMedia(CanMedia, CanFrame, Push, Pop, Mtu).
Import CanardTransport.

#[local] Open Scope Z_scope.
#[local] Open Scope unimoc_scope.
#[local] Existing Instance CanardTransport.eta_Transport.
#[local] Existing Instance CanardTransport.eta_Arena.
#[local] Existing Instance CanardTransport.canard_transport.

Module CanardLaws.

(** A queue is a sequence of items of bounded length.  A subscription object
    must not be linked twice: then subscribing changes just its port. *)
Class CanardLaws (C Q : Type) `{!Canard C Q} := {
  tx_items : Q -> list CanardTxQueueItem;
  tx_capacity : Q -> nat;
  items_init n mtu : tx_items (canardTxInit n mtu) = [] /\ tx_capacity (canardTxInit n mtu) = n;
  items_push {M} (mem : Memory M) q c deadline md bytes now st :
    let q' := (canardTxPush mem q c deadline md bytes now st).1.2 in
    tx_capacity q' = tx_capacity q /\ (length (tx_items q) <= tx_capacity q -> length (tx_items q') <= tx_capacity q)%nat;
  peek_items q : canardTxPeek q = head (tx_items q);
  pop_items q item l : tx_items q = item :: l -> tx_items (canardTxPop q item) = l /\ tx_capacity (canardTxPop q item) = tx_capacity q;
  node_id_unset : kNodeIdMax < CANARD_NODE_ID_UNSET;
  node_id_set id c : node_id (set_node_id id c) = id;
  node_id_accept {M} (mem : Memory M) c now frame i st : node_id (canardRxAccept mem c now frame i st).1.2 = node_id c;
  node_id_subscribe {M} (mem : Memory M) c k p e t slot st : node_id (canardRxSubscribe mem c k p e t slot st).1.2 = node_id c;
  get_init k p : canardRxGetSubscription canardInit k p = None;
  get_set_node_id id c k p : canardRxGetSubscription (set_node_id id c) k p = canardRxGetSubscription c k p;
  get_accept {M} (mem : Memory M) c now frame i st k p :
    canardRxGetSubscription (canardRxAccept mem c now frame i st).1.2 k p = canardRxGetSubscription c k p;
  get_subscribe {M} (mem : Memory M) c k p e t slot st :
    (forall k' p' e', canardRxGetSubscription c k' p' = Some (slot, e') -> k' = k /\ p' = p) ->
    let '(r, c', _) := canardRxSubscribe mem c k p e t slot st in
    forall k' p', canardRxGetSubscription c' k' p' =
      if decide (0 <= r /\ k' = k /\ p' = p) then Some (slot, e) else canardRxGetSubscription c k' p' }.

(** What an interface took, in order. *)
Class MediaLaws (Md : Type) `{!CanMedia Md} := {
  pushed : Md -> list CanFrame;
  pushed_Push f m : pushed (Push f m).2 = pushed m ++ (if (Push f m).1 then [f] else []) }.

Section Proofs.
Context {Arena H C Md Q : Type} `{!O1Heap Arena H} `{!Canard C Q} `{!CanMedia Md} {laws : CanardLaws C Q} {media_laws : MediaLaws Md}.
Abbreviation Transport := (CanardTransport H C Md Q).
Implicit Types (s : CanardTransport H C Md Q) (i : Interface Md Q) (mem : Arena_ H).

(** ** The node-ID *)
Lemma push_all_canard x l b s : canard_ (push_all x l b s).2 = canard_ s.
Proof.
  revert b s. induction l as [|i l IH]; intros b s; [done|]. cbn [push_all].
  destruct (canardTxPush _ _ _ _ _ _ _ _) as [[[r e] q] mem].
  match goal with |- context [push_all x l ?b' ?s'] => specialize (IH b' s'); destruct (push_all x l b' s') as [[b2 l2] s2] end.
  cbn [snd] in *. rewrite IH. by repeat case_if.
Qed.
Lemma receive_loop_node_id n idle f size s : node_id (canard_ (receive_loop n idle f size s).2) = node_id (canard_ s).
Proof.
  revert idle f s. induction n as [|n IH]; intros idle f s; [done|]. cbn [receive_loop]. case_if; [|done].
  cbv zeta. destruct (interfaces_ _ !! _) as [i|]; [|done]. destruct (Pop f (media i)) as [[some f'] m].
  case_if; [by rewrite IH|]. set (s1 := set_media _ m _).
  pose proof (node_id_accept kMemory (canard_ s1) (now_us_ s1) (CanMedia.extended_can_id f', take (CanMedia.size f') (CanMedia.data f'))
    (next_rx_interface_ s) (memory_ s1)) as E.
  destruct (canardRxAccept _ _ _ _ _ _) as [[[r rx] c] mem]. cbn [fst snd] in E. change (canard_ s1) with (canard_ s) in E.
  repeat case_if; rewrite ?IH; exact E.
Qed.
Lemma subscribe_node_id k p e s : node_id (canard_ (Subscribe k p e s).2) = node_id (canard_ s).
Proof.
  unfold Subscribe. cbv zeta.
  pose proof (fun slot => node_id_subscribe kMemory (canard_ s) (ToCanard k) p e kTransferIdTimeoutUs slot (memory_ s)) as E.
  destruct (canardRxGetSubscription _ _ _) as [[slot e']|]; case_if; try done.
  - specialize (E slot). by destruct (canardRxSubscribe _ _ _ _ _ _ _ _) as [[r c] mem].
  - specialize (E (subscription_count_ s)). destruct (canardRxSubscribe _ _ _ _ _ _ _ _) as [[r c] mem]. by case_if.
Qed.
Lemma LocalNodeId_eq s s' : node_id (canard_ s') = node_id (canard_ s) -> LocalNodeId s' = LocalNodeId s.
Proof. unfold LocalNodeId. by intros ->. Qed.
(** It is a transport for [CyphalNode]. *)
#[export] Instance canard_transport_laws : TransportLaws Transport.
Proof.
  split; intros.
  - cbn. unfold LocalNodeId, SetLocalNodeId. cbn. rewrite node_id_set. pose proof node_id_unset.
    destruct (Z.leb_spec node kNodeIdMax); [by destruct (Z.leb_spec node kNodeIdMax); [|lia]|].
    by destruct (Z.leb_spec CANARD_NODE_ID_UNSET kNodeIdMax); [lia|].
  - cbn. unfold Send. case_if; [done|]. pose proof (push_all_canard x (interfaces_ t) false t) as E.
    destruct (push_all _ _ _ _) as [[b l] s']. apply LocalNodeId_eq. cbn in *. by rewrite E.
  - cbn. unfold Receive. case_if; [done|]. apply LocalNodeId_eq, receive_loop_node_id.
  - cbn. apply LocalNodeId_eq, subscribe_node_id.
  - cbn. unfold Process. by destruct (drain_all _ _ _ _) as [[l d] mem].
Qed.

(** ** Invariant *)
(** Every linked subscription has an object of its own among the first [n]. *)
Record slots_ok (c : C) (n : nat) : Prop := mkSlotsOk {
  so_count : (n <= kMaxSubscriptions)%nat;
  so_slot k p slot e : canardRxGetSubscription c k p = Some (slot, e) -> (slot < n)%nat;
  so_distinct k p k' p' slot e e' : canardRxGetSubscription c k p = Some (slot, e) ->
    canardRxGetSubscription c k' p' = Some (slot, e') -> k' = k /\ p' = p }.
Lemma slots_same c c' n : slots_ok c n ->
  (forall k p, canardRxGetSubscription c' k p = canardRxGetSubscription c k p) -> slots_ok c' n.
Proof. intros [] E. split; [done|intros *; rewrite E; eauto|intros *; rewrite !E; eauto]. Qed.
Definition queue_ok i : Prop := tx_capacity (tx_queue i) = kTxQueueCapacity /\ (length (tx_items (tx_queue i)) <= kTxQueueCapacity)%nat.
Record canard_ok s : Prop := mkCanardOk {
  co_slots : slots_ok (canard_ s) (subscription_count_ s);
  co_count : (interface_count s <= kMaxInterfaces)%nat;
  co_queues : Forall queue_ok (interfaces_ s);
  co_dropped : in_u 64 (tx_dropped_ s) }.

Lemma init_ok arena l : canard_ok (CanardTransport_init arena l).
Proof.
  split; cbn.
  - split; [cbn; unfold kMaxSubscriptions; lia|intros *|intros *]; by rewrite get_set_node_id, get_init.
  - unfold interface_count. cbn. apply foldl_invariant; [cbn; unfold kMaxInterfaces; lia|]. intros a [m|] _ Ha; [|done].
    unfold add_interface. destruct (Nat.leb_spec kMaxInterfaces (length a)); [done|]. rewrite length_app. cbn [length]. lia.
  - apply foldl_invariant; [constructor|]. intros a [m|] _ Ha; [|done]. unfold add_interface. case_if; [done|].
    apply Forall_app. split; [done|].
    constructor; [|constructor]. unfold queue_ok. cbn [tx_queue]. destruct (items_init kTxQueueCapacity (Mtu m)) as [-> ->]. split; [done|cbn; lia].
  - unfold in_u. lia.
Qed.
Lemma push_all_ok x l b s : Forall queue_ok l -> in_u 64 (tx_dropped_ s) ->
  let '(_, l', s') := push_all x l b s in
  Forall queue_ok l' /\ length l' = length l /\ in_u 64 (tx_dropped_ s') /\ subscription_count_ s' = subscription_count_ s.
Proof.
  revert b s. induction l as [|i l IH]; intros b s F Hd; [done|]. apply Forall_cons_1 in F as [[Fc Fl] F]. cbn [push_all].
  pose proof (items_push kMemory (tx_queue i) (canard_ s) (u64 (now_us_ s + kDefaultTxTimeoutUs)) (kMetadata x) (CyphalNode.payload x) (now_us_ s) (memory_ s)) as P.
  destruct (canardTxPush _ _ _ _ _ _ _ _) as [[[r e] q] mem]. cbn [fst snd] in P. destruct P as [P1 P2].
  match goal with |- context [push_all x l ?b' ?s'] => specialize (IH b' s' F); destruct (push_all x l b' s') as [[b2 l2] s2] end.
  destruct IH as (F2 & L2 & D2 & S2); [repeat case_if; cbn; auto with word|]. split_and!; try done.
  - constructor; [|done]. split; cbn [tx_queue]; [by rewrite P1|]. rewrite <- Fc. apply P2. by rewrite Fc.
  - cbn [length]. by rewrite L2.
  - rewrite S2. by repeat case_if.
Qed.
Lemma canard_Send_ok x s : canard_ok s -> canard_ok (Send x s).2.
Proof.
  intros []. unfold Send. case_if; [done|]. pose proof (push_all_ok x (interfaces_ s) false s co_queues0 co_dropped0) as P.
  pose proof (push_all_canard x (interfaces_ s) false s) as E. destruct (push_all _ _ _ _) as [[b l] s']. destruct P as (P1 & P2 & P3 & P4).
  cbn [snd] in *. split; try done.
  - change (slots_ok (canard_ s') (subscription_count_ s')). by rewrite E, P4.
  - unfold interface_count in *. cbn. by rewrite P2.
Qed.
Lemma set_media_ok k m s : canard_ok s -> canard_ok (set_media k m s).
Proof.
  intros []. split; try done; unfold interface_count in *; cbn; [by rewrite length_alter|].
  apply list.Forall_lookup. intros j i Hi. rewrite list.Forall_lookup in co_queues0.
  destruct (decide (k = j)) as [->|]; [|rewrite list_lookup_alter_ne in Hi by done; by eapply co_queues0].
  rewrite list_lookup_alter_eq in Hi. destruct (interfaces_ s !! j) as [i0|] eqn:E; [|done]. injection Hi as <-. exact (co_queues0 j i0 E).
Qed.
Lemma canard_step_ok c mem s : canard_ok s -> (forall k p, canardRxGetSubscription c k p = canardRxGetSubscription (canard_ s) k p) ->
  canard_ok (s.{canard_ := c}.{memory_ := mem}).
Proof. intros [] E. split; try done. by eapply slots_same. Qed.
Lemma memory_ok mem s : canard_ok s -> canard_ok (s.{memory_ := mem}).
Proof. intros []. by split. Qed.
Lemma receive_loop_ok n idle f size s : canard_ok s -> canard_ok (receive_loop n idle f size s).2.
Proof.
  revert idle f s. induction n as [|n IH]; intros idle f s B; [done|]. cbn [receive_loop]. case_if; [|done].
  cbv zeta. set (s0 := s.{next_rx_interface_ := _}). assert (canard_ok s0) as B0 by (destruct B; by split).
  destruct (interfaces_ s0 !! _) as [i|]; [|done]. destruct (Pop f (media i)) as [[some f'] m].
  pose proof (set_media_ok (next_rx_interface_ s) m s0 B0) as B1. case_if; [by apply IH|]. set (s1 := set_media _ m _) in *.
  pose proof (get_accept kMemory (canard_ s1) (now_us_ s1) (CanMedia.extended_can_id f', take (CanMedia.size f') (CanMedia.data f'))
    (next_rx_interface_ s) (memory_ s1)) as E.
  destruct (canardRxAccept _ _ _ _ _ _) as [[[r rx] c] mem]. cbn [fst snd] in E.
  pose proof (canard_step_ok c mem s1 B1 E) as B2. case_if; [by apply IH, memory_ok|]. case_if; [by apply IH|]. by apply memory_ok.
Qed.

(** ** Subscriptions *)
Abbreviation sub := canardRxGetSubscription.
(** What one call does to the subscriptions. *)
Record subscribed (k : CanardTransferKind) (port extent : Z) (ok : bool) (c c' : C) : Prop := mkSubscribed {
  su_found : ok = true -> exists slot e, sub c' k port = Some (slot, e) /\ extent <= e /\ (slot < kMaxSubscriptions)%nat;
  su_others k' p' : ~ (k' = k /\ p' = port) -> sub c' k' p' = sub c k' p';
  su_kept slot e : sub c k port = Some (slot, e) -> exists e', sub c' k port = Some (slot, e') /\ e <= e';
  su_refused : ok = false -> forall k' p', sub c' k' p' = sub c k' p' }.
Lemma slots_update c c' n n' k port slot extent : slots_ok c n -> (n <= n' <= kMaxSubscriptions)%nat -> (slot < n')%nat ->
  (forall k' p' e', sub c k' p' = Some (slot, e') -> k' = k /\ p' = port) ->
  sub c' k port = Some (slot, extent) -> (forall k' p', ~ (k' = k /\ p' = port) -> sub c' k' p' = sub c k' p') -> slots_ok c' n'.
Proof.
  intros [S1 S2 S3] Hn Hs U E O. split; [lia| |].
  - intros k' p' slot' e'. destruct (decide (k' = k /\ p' = port)) as [[-> ->]|N]; [rewrite E; by intros [= <- _]|].
    rewrite O by done. intros E'%S2. lia.
  - intros k1 p1 k2 p2 slot' e1 e2.
    destruct (decide (k1 = k /\ p1 = port)) as [[-> ->]|N1], (decide (k2 = k /\ p2 = port)) as [[-> ->]|N2]; rewrite ?E, ?O by done.
    + done.
    + intros [= <- _] E2. by destruct (U _ _ _ E2).
    + intros E1 [= <- _]. destruct (U _ _ _ E1). done.
    + apply S3.
Qed.
(** The call to the library, with an object that no other port has. *)
Lemma link_ok c k port extent slot mem n : slots_ok c n -> (forall k' p' e', sub c k' p' = Some (slot, e') -> k' = k /\ p' = port) ->
  let '(r, c', _) := canardRxSubscribe kMemory c k port extent kTransferIdTimeoutUs slot mem in
  (forall k' p', ~ (k' = k /\ p' = port) -> sub c' k' p' = sub c k' p') /\
  if 0 <=? r then sub c' k port = Some (slot, extent) else forall k' p', sub c' k' p' = sub c k' p'.
Proof.
  intros S U. pose proof (get_subscribe kMemory c k port extent kTransferIdTimeoutUs slot mem U) as G.
  destruct (canardRxSubscribe _ _ _ _ _ _ _ _) as [[r c'] mem']. split.
  - intros k' p' N. rewrite G, decide_False; [done|]. intros (_ & ? & ?). by apply N.
  - destruct (Z.leb_spec 0 r); [by rewrite G, decide_True|]. intros k' p'. rewrite G, decide_False; [done|]. intros (? & _). lia.
Qed.
Lemma Subscribe_ok k port extent s : canard_ok s ->
  let '(ok, s') := Subscribe k port extent s in canard_ok s' /\ subscribed (ToCanard k) port extent ok (canard_ s) (canard_ s').
Proof.
  intros B. pose proof (co_slots s B) as S0. pose proof (so_count _ _ S0) as Hc. unfold Subscribe. cbv zeta.
  destruct (sub (canard_ s) (ToCanard k) port) as [[slot e]|] eqn:E.
  - assert (forall k' p' e', sub (canard_ s) k' p' = Some (slot, e') -> k' = ToCanard k /\ p' = port) as U.
    { intros k' p' e' E'. by eapply (so_distinct _ _ S0). }
    pose proof (so_slot _ _ S0 _ _ _ _ E) as Hs. destruct (Z.leb_spec extent e) as [L|L].
    + split; [done|]. split; try done; [intros _; exists slot, e; split_and!; [done|lia|lia]|].
      intros slot' e'. rewrite E. intros [= <- <-]. exists e. split; [done|lia].
    + pose proof (link_ok (canard_ s) (ToCanard k) port extent slot (memory_ s) _ S0 U) as G.
      destruct (canardRxSubscribe _ _ _ _ _ _ _ _) as [[r c] mem]. destruct G as [O G]. destruct (0 <=? r).
      * split; [destruct B; split; try done; cbn; eapply (slots_update (canard_ s)); eauto; lia|]. cbn. split; try done.
        -- intros _. exists slot, extent. split_and!; [done|lia|lia].
        -- intros slot' e'. rewrite E. intros [= <- <-]. exists extent. split; [done|lia].
      * split; [by apply canard_step_ok|]. split; try done. cbn. intros slot' e' E'. exists e'. rewrite G. split; [done|lia].
  - destruct (Nat.leb_spec kMaxSubscriptions (subscription_count_ s)) as [L|L]; [split; [done|]; split; try done; by rewrite E|].
    assert (forall k' p' e', sub (canard_ s) k' p' = Some (subscription_count_ s, e') -> k' = ToCanard k /\ p' = port) as U.
    { intros k' p' e' E'. pose proof (so_slot _ _ S0 _ _ _ _ E'). lia. }
    pose proof (link_ok (canard_ s) (ToCanard k) port extent (subscription_count_ s) (memory_ s) _ S0 U) as G.
    destruct (canardRxSubscribe _ _ _ _ _ _ _ _) as [[r c] mem]. destruct G as [O G].
    rewrite Z.ltb_antisym. destruct (0 <=? r); cbn [negb].
    + split; [destruct B; split; try done; cbn; eapply (slots_update (canard_ s)); eauto; lia|]. cbn. split; try done.
      * intros _. exists (subscription_count_ s), extent. split_and!; [done|lia|lia].
      * intros slot' e'. by rewrite E.
    + split; [by apply canard_step_ok|]. split; try done. cbn. intros slot' e' E'. by rewrite E in E'.
Qed.

(** ** The queues *)
Definition expired (now_us : Z) (item : CanardTxQueueItem) : Prop := tx_deadline_usec item < now_us.
#[local] Instance expired_dec now_us item : Decision (expired now_us item).
Proof. unfold expired. apply _. Defined.
(** An interface has handled the items [sent] of its queue: those in time went to
    the CAN interface, in order; it stopped at the end or at a frame that the
    interface refused. *)
Record drained (now_us : Z) i (sent : list CanardTxQueueItem) i' : Prop := mkDrained {
  dr_items : tx_items (tx_queue i) = sent ++ tx_items (tx_queue i');
  dr_pushed : pushed (media i') = pushed (media i) ++ map item_frame (filter (fun item => ~ expired now_us item) sent);
  dr_end : tx_items (tx_queue i') = [] \/
    exists item rest m, tx_items (tx_queue i') = item :: rest /\ ~ expired now_us item /\ (Push (item_frame item) m).1 = false }.
Definition expired_count (now_us : Z) (sent : list CanardTxQueueItem) : Z := Z.of_nat (length (filter (expired now_us) sent)).

Lemma drain_spec n now_us i dropped mem : (length (tx_items (tx_queue i)) < n)%nat -> in_u 64 dropped ->
  let '(i', dropped', _) := drain n now_us i dropped mem in
  tx_capacity (tx_queue i') = tx_capacity (tx_queue i) /\
  exists sent, drained now_us i sent i' /\ dropped' = u64 (dropped + expired_count now_us sent).
Proof.
  revert i dropped mem. induction n as [|n IH]; intros i dropped mem Hl Hd; [lia|]. cbn [drain]. rewrite peek_items.
  destruct (tx_items (tx_queue i)) as [|item l] eqn:E; cbn [head].
  - split; [done|]. exists []. split; [split; cbn; [by rewrite E|by rewrite app_nil_r|by left]|].
    unfold expired_count. cbn. rewrite Z.add_0_r, wrap_id; done.
  - destruct (pop_items _ _ _ E) as [E1 E2]. cbn [length] in Hl. destruct (Z.ltb_spec (tx_deadline_usec item) now_us) as [X|X].
    + specialize (IH (mkInterface (media i) (canardTxPop (tx_queue i) item)) (u64 (dropped + 1)) (canardTxFree kMemory item mem)).
      destruct (drain _ _ _ _ _) as [[i' dropped'] mem']. destruct IH as (C1 & sent & [D1 D2 D3] & D4).
      { cbn. rewrite E1. lia. } { auto with word. }
      cbn [media tx_queue] in *. split; [by rewrite C1|]. exists (item :: sent).
      assert (expired now_us item) as X' by exact X. split; [split; [by rewrite E, <- E1, D1| |exact D3]|].
      * rewrite D2, filter_cons_False; [done|]. by intros [].
      * rewrite D4. unfold expired_count. rewrite filter_cons_True by done. cbn [length]. unfold wrap.
        rewrite Zplus_mod_idemp_l. f_equal. lia.
    + assert (~ expired now_us item) as X' by (unfold expired; lia). pose proof (pushed_Push (item_frame item) (media i)) as P.
      destruct (Push (item_frame item) (media i)) as [[] m] eqn:Pu; cbn [fst snd negb] in *.
      * specialize (IH (mkInterface m (canardTxPop (tx_queue i) item)) dropped (canardTxFree kMemory item mem)).
        destruct (drain _ _ _ _ _) as [[i' dropped'] mem']. destruct IH as (C1 & sent & [D1 D2 D3] & D4); [|done|].
        { cbn. rewrite E1. lia. }
        cbn [media tx_queue] in *. split; [by rewrite C1|]. exists (item :: sent).
        split; [split; [by rewrite E, <- E1, D1| |exact D3]|].
        -- rewrite D2, P, filter_cons_True, <- app_assoc by done. done.
        -- rewrite D4. unfold expired_count. by rewrite filter_cons_False.
      * cbn. split; [done|]. exists []. split; [split; cbn; [by rewrite E|by rewrite P|]|].
        -- right. exists item, l, (media i). split; [done|]. split; [done|]. by rewrite Pu.
        -- unfold expired_count. cbn. rewrite Z.add_0_r, wrap_id; done.
Qed.
Lemma drain_all_spec now_us l dropped mem : Forall queue_ok l -> in_u 64 dropped ->
  let '(l', dropped', _) := drain_all now_us l dropped mem in
  Forall queue_ok l' /\ in_u 64 dropped' /\
  exists sents, Forall3 (drained now_us) l sents l' /\ dropped' = u64 (dropped + foldr Z.add 0 (map (expired_count now_us) sents)).
Proof.
  revert dropped mem. induction l as [|i l IH]; intros dropped mem F Hd; cbn [drain_all].
  - split; [done|]. split; [done|]. exists []. split; [constructor|]. cbn. by rewrite Z.add_0_r, wrap_id.
  - apply Forall_cons_1 in F as [[Fc Fl] F]. pose proof (drain_spec (S kTxQueueCapacity) now_us i dropped mem) as D.
    destruct (drain (S kTxQueueCapacity) now_us i dropped mem) as [[i' d1] mem1]. destruct D as (D1 & sent & D2 & D3); [lia|done|].
    assert (in_u 64 d1) as Hd1 by (rewrite D3; auto with word). specialize (IH d1 mem1 F Hd1).
    destruct (drain_all now_us l d1 mem1) as [[l' d2] mem2]. destruct IH as (I1 & I2 & sents & I3 & I4). split_and!; try done.
    + constructor; [|done]. split; [by rewrite D1|]. pose proof (dr_items _ _ _ _ D2) as E. apply (f_equal length) in E.
      rewrite length_app in E. lia.
    + exists (sent :: sents). split; [by constructor|]. rewrite I4, D3. cbn [map foldr]. unfold wrap. rewrite Zplus_mod_idemp_l. f_equal. lia.
Qed.
Lemma Process_spec now_us s : canard_ok s -> canard_ok (Process now_us s) /\
  exists sents, Forall3 (drained now_us) (interfaces_ s) sents (interfaces_ (Process now_us s)) /\
    tx_dropped_ (Process now_us s) = u64 (tx_dropped_ s + foldr Z.add 0 (map (expired_count now_us) sents)).
Proof.
  intros []. unfold Process. pose proof (drain_all_spec now_us (interfaces_ s) (tx_dropped_ s) (memory_ s) co_queues0 co_dropped0) as D.
  destruct (drain_all _ _ _ _) as [[l d] mem]. destruct D as (D1 & D2 & sents & D3 & D4). split; [|by exists sents].
  split; try done. unfold interface_count in *. cbn. apply Forall3_length_lr in D3. lia.
Qed.

(** ** Runs

    The operations in any order; frames arrive and go out on the interfaces by
    themselves. *)
Inductive reachable : Transport -> Prop :=
| reach_init arena l : reachable (CanardTransport_init arena l)
| reach_send x s : reachable s -> reachable (Send x s).2
| reach_receive n s : reachable s -> reachable (Receive n s).2
| reach_subscribe k p e s : reachable s -> reachable (Subscribe k p e s).2
| reach_node_id id s : reachable s -> reachable (SetLocalNodeId id s)
| reach_process now_us s : reachable s -> reachable (Process now_us s)
| reach_media k m s : reachable s -> reachable (set_media k m s).
Lemma canard_reachable_ok s : reachable s -> canard_ok s.
Proof.
  induction 1 as [arena l|x s _ IH|n s _ IH|k p e s _ IH|id s _ IH|now_us s _ IH|k m s _ IH].
  - apply init_ok.
  - by apply canard_Send_ok.
  - unfold Receive. case_if; [done|]. by apply receive_loop_ok.
  - pose proof (Subscribe_ok k p e s IH) as S. destruct (Subscribe k p e s) as [ok s']. apply S.
  - destruct IH. split; try done. eapply slots_same; [done|]. intros *. apply get_set_node_id.
  - by apply Process_spec.
  - by apply set_media_ok.
Qed.

(** C32. Process() empties the transmit queue of every interface in its order: the
    frames whose deadline has not passed go to the CAN interface exactly once and
    in order, the others are dropped and counted, and it ends with the queue or at
    a frame that the interface does not take now, which stays first in the queue. *)
Theorem canard_process now_us s : reachable s ->
  exists sents, Forall3 (drained now_us) (interfaces_ s) sents (interfaces_ (Process now_us s)) /\
    tx_dropped_ (Process now_us s) = u64 (tx_dropped_ s + foldr Z.add 0 (map (expired_count now_us) sents)) /\
    LocalNodeId (Process now_us s) = LocalNodeId s.
Proof.
  intros B%canard_reachable_ok. destruct (Process_spec now_us s B) as (_ & sents & P1 & P2). exists sents. split; [done|]. split; [done|].
  unfold Process. by destruct (drain_all _ _ _ _) as [[l d] mem].
Qed.

(** Whatever is subscribed, every port has a subscription object of its own
    (none is linked twice), at most twenty-four; a subscription that is granted
    exists with at least the extent asked for, those of other ports stay, one
    that exists keeps its object and never shrinks, and a refusal changes none. *)
Theorem canard_subscriptions k port extent s : reachable s ->
  (forall k1 p1 slot1 e1 k2 p2 slot2 e2, sub (canard_ s) k1 p1 = Some (slot1, e1) -> sub (canard_ s) k2 p2 = Some (slot2, e2) ->
     slot1 = slot2 -> k2 = k1 /\ p2 = p1) /\
  (subscription_count_ s <= kMaxSubscriptions)%nat /\
  subscribed (ToCanard k) port extent (Subscribe k port extent s).1 (canard_ s) (canard_ (Subscribe k port extent s).2).
Proof.
  intros B%canard_reachable_ok. pose proof (co_slots s B) as S0. split; [|split].
  - intros * E1 E2 ->. by eapply (so_distinct _ _ S0).
  - apply (so_count _ _ S0).
  - pose proof (Subscribe_ok k port extent s B) as S. destruct (Subscribe k port extent s) as [ok s']. apply S.
Qed.

End Proofs.
End CanardLaws.
