(* ===== verification/CanardDemo.v ===== *)
(** * The transport on a concrete library

    An instance of the interfaces of [CanardTransport]: single-frame transfers, a
    queue that is a list, an allocator that never fails, and CAN interfaces that
    take a number of frames. *)
From Stdlib Require Import ZArith Lia Bool.
From stdpp Require Import base decidable list option.
From S2P Require Import Prelude DriveMessages CyphalNode CanMedia CanardTransport CanardLaws.
Import DriveMessages(prio_kNominal).
Import CyphalNode(Transfer, mkTransfer, kMessage, kServiceRequest).
Import CanMedia(CanMedia, CanFrame, CanFrame_init, kCanClassicMtu, BusStatus_default).
Import CanardTransport CanardLaws.

#[local] Open Scope Z_scope.

Module CanardDemo.

Record DemoMedia := mkDemoMedia { out : list CanFrame; room : nat; inbox : list CanFrame }.
#[export] Instance demo_media : CanMedia DemoMedia := {|
  CanMedia.Mtu m := kCanClassicMtu;
  CanMedia.Push f m := if (length (out m) <? room m)%nat then (true, mkDemoMedia (out m ++ [f]) (room m) (inbox m)) else (false, m);
  CanMedia.Pop f m := match inbox m with [] => (false, f, m) | x :: l => (true, x, mkDemoMedia (out m) (room m) l) end;
  CanMedia.BusStatus m := BusStatus_default |}.
#[export, refine] Instance demo_media_laws : MediaLaws DemoMedia := {| pushed := out |}.
Proof. intros f m. cbn [CanMedia.Push demo_media]. case_if; [done|]. by rewrite app_nil_r. Defined.

#[export] Instance demo_heap : O1Heap unit unit := {|
  o1heapInit a := Some tt; o1heapAllocate n h := (Some 0%nat, h); o1heapFree p h := h |}.

Record DemoQueue := mkQueue { capacity : nat; items : list CanardTxQueueItem }.
Record DemoCanard := mkCanard { id : Z; subscriptions : CanardTransferKind -> Z -> option (nat * Z) }.
#[export] Instance demo_canard : Canard DemoCanard DemoQueue := {|
  CANARD_NODE_ID_UNSET := 255;
  CANARD_ERROR_OUT_OF_MEMORY := 3;
  canardInit := mkCanard 255 (fun _ _ => None);
  node_id := id;
  set_node_id n c := mkCanard n (subscriptions c);
  canardTxInit n mtu := mkQueue n [];
  canardTxPush M mem q c deadline md bytes now st :=
    if (length (items q) <? capacity q)%nat
    then (1, 0, mkQueue (capacity q) (items q ++ [mkItem deadline (metadata_port_id md) bytes]), st)
    else (-3, 0, q, st);
  canardTxPeek q := head (items q);
  canardTxPop q item := mkQueue (capacity q) (tail (items q));
  canardTxFree M mem item st := st;
  canardRxAccept M mem c now frame i st := (1, mkRx (mkMetadata prio_kNominal CanardTransferKindMessage frame.1 7 0) frame.2 None, c, st);
  canardRxGetSubscription c := subscriptions c;
  canardRxSubscribe M mem c k p e t slot st :=
    (0, mkCanard (id c) (fun k' p' => if decide (k' = k /\ p' = p) then Some (slot, e) else subscriptions c k' p'), st) |}.
#[export, refine] Instance demo_canard_laws : CanardLaws DemoCanard DemoQueue := {| tx_items := items; tx_capacity := capacity |}.
Proof.
  all: try done.
  - intros M mem q c deadline md bytes now st. cbn [canardTxPush demo_canard].
    destruct (Nat.ltb_spec (length (items q)) (capacity q)); cbn [fst snd items capacity]; [|by split].
    split; [done|]. intros _. rewrite length_app. cbn [length]. lia.
  - intros q item l E. cbn. by rewrite E.
  - intros M mem c k p e t slot st _. cbn [canardRxSubscribe canardRxGetSubscription demo_canard subscriptions]. intros k' p'. destruct (decide (k' = k /\ p' = p)); [by rewrite decide_True|].
    rewrite decide_False; [done|]. by intros [_ ?].
Defined.

(** Two interfaces, of which the second takes nothing. *)
Definition demo_transport : CanardTransport unit DemoCanard DemoMedia DemoQueue :=
  SetLocalNodeId 42 (CanardTransport_init tt [Some (mkDemoMedia [] 8 []); None; Some (mkDemoMedia [] 0 [])]).
Definition demo_message (port : Z) : Transfer := mkTransfer port 42 255 0 kMessage prio_kNominal [1; 2; 3].
(** Two messages, of which the first is too old when Process() is called. *)
Definition demo_queued : CanardTransport unit DemoCanard DemoMedia DemoQueue :=
  (Send (demo_message 101) (Process 50000 (Send (demo_message 100) demo_transport).2)).2.
Lemma demo_queued_reachable : reachable demo_queued.
Proof. apply reach_send, reach_process, reach_send, reach_node_id, reach_init. Qed.
(** The first interface sends both, the second drops the old one. *)
Example demo_canard_sent :
  map (fun i => (map CanMedia.extended_can_id (out (media i)), map item_can_id (items (tx_queue i)))) (interfaces_ (Process 120000 demo_queued)) =
  [([100; 101], []); ([], [101])] /\ tx_dropped_ (Process 120000 demo_queued) = 1.
Proof. vm_compute. by split. Qed.

Lemma canard_process_witness :
  exists sents, Forall3 (drained 120000) (interfaces_ demo_queued) sents (interfaces_ (Process 120000 demo_queued)).
Proof. destruct (canard_process 120000 demo_queued demo_queued_reachable) as (sents & P & _). exists sents. exact P. Defined.
Lemma canard_subscriptions_witness :
  subscribed CanardTransferKindMessage 100 16 (Subscribe kMessage 100 16 demo_queued).1 (canard_ demo_queued)
    (canard_ (Subscribe kMessage 100 16 demo_queued).2).
Proof. exact (proj2 (proj2 (canard_subscriptions kMessage 100 16 demo_queued demo_queued_reachable))). Defined.

End CanardDemo.
