(* ===== verification/ZephyrStorage.v ===== *)
(** * Settings storage on Zephyr

    hardware/zephyr_common/zephyr_settings_storage.{hpp,cpp}: the settings storage
    of the firmware.  The settings subsystem of Zephyr is the class
    [ZephyrSettings], with what its documentation promises as
    [ZephyrSettingsLaws].  The storage discharges [StorageLaws], so the theorems
    of the settings store hold on the target.  The lock (one mutex of the kernel)
    has no state of its own here. *)
From Stdlib Require Import ZArith Lia Bool Ascii String.
From stdpp Require Import base decidable list strings gmap.
From S2P Require Import Prelude Float32 Units SettingsData SettingsCodec PowerStage SettingsTypes SettingsStore SettingsPersistence.
Import SettingsData SettingsCodec SettingsTypes SettingsStore SettingsPersistence.

#[local] Open Scope Z_scope.
#[local] Open Scope unimoc_scope.

Module ZephyrStorage.

(** ** The settings subsystem *)
(** An entry callback: the key, the length of the value, a read function and the
    context; it returns an error number. *)
Definition LoadCallback (A : Type) : Type := string -> nat -> (nat -> Z + list Z) -> A -> Z * A.
Class ZephyrSettings (F : Type) := {
  settings_subsys_init : F -> Z * F;
  settings_load_subtree_direct {A} : string -> LoadCallback A -> A -> F -> Z * A;
  settings_save_one : string -> list Z -> F -> Z * F;
  settings_delete : string -> F -> Z * F }.

(** The entry of a key in the subtree of the firmware. *)
Definition kSubtree : string := "unimoc".
Definition kNameBufferSize : nat := 64.
Definition path (key : string) : string := String.append kSubtree (String.append "/" key).
(** A callback for an entry that can be read. *)
Definition call_entry {A} (cb : LoadCallback A) (a : A) (e : string * list Z) : A :=
  (cb e.1 (length e.2) (fun n => inr (take n e.2)) a).2.
(** [subtree f] are the entries below the name of the firmware.  A load calls back
    for each of them once, in some order (one that fails, for some of them); a save
    or a deletion that succeeds changes its entry; initialising keeps them. *)
Class ZephyrSettingsLaws (F : Type) `{!ZephyrSettings F} := {
  subtree : F -> gmap string (list Z);
  subtree_bytes f k v : subtree f !! k = Some v -> Forall (in_u 8) v;
  init_subtree f : subtree (settings_subsys_init f).2 = subtree f;
  load_subtree {A} (cb : LoadCallback A) a f : exists entries : list (string * list Z),
    (settings_load_subtree_direct kSubtree cb a f).2 = foldl (call_entry cb) a entries /\
    (forall e, e ∈ entries -> subtree f !! e.1 = Some e.2) /\
    ((settings_load_subtree_direct kSubtree cb a f).1 = 0 -> entries ≡ₚ map_to_list (subtree f));
  save_subtree k v f : Forall (in_u 8) v -> (settings_save_one (path k) v f).1 = 0 ->
    subtree (settings_save_one (path k) v f).2 = <[k := v]> (subtree f);
  delete_subtree k f : (settings_delete (path k) f).1 = 0 ->
    subtree (settings_delete (path k) f).2 = delete k (subtree f) }.

(** ** The storage *)
(** The flash and g_initialized. *)
Record ZephyrSettingsStorage (F : Type) := mkZephyr { flash : F; g_initialized : bool }.
Arguments mkZephyr {F}.
Arguments flash {F}.
Arguments g_initialized {F}.

Section Storage.
Context {F : Type} `{!ZephyrSettings F}.
Implicit Types s : ZephyrSettingsStorage F.

Definition EnsureInitialized s : bool * ZephyrSettingsStorage F :=
  if g_initialized s then (true, s)
  else let '(r, f) := settings_subsys_init (flash s) in (r =? 0, mkZephyr f (r =? 0)).
Definition MakeName (key : string) : option string :=
  if (kNameBufferSize <? String.length kSubtree + 1 + String.length key + 1)%nat then None else Some (path key).
(** The entries that were passed on, in order. *)
Definition Entries : Type := list (string * list Z).
Definition OnEntry : LoadCallback Entries := fun key length read_cb entries =>
  let kWanted := Nat.min length (Z.to_nat (kMaxRegisterValueSize + 1)) in
  match read_cb kWanted with
  | inl kRead => (kRead, entries)
  | inr bytes => (0, entries ++ [(key, bytes)])
  end.
Definition zephyr_LoadAll s : SettingsStorageStatus * Entries * ZephyrSettingsStorage F :=
  let '(initialized, s) := EnsureInitialized s in
  if negb initialized then (storage_kIoError, [], s)
  else
    let '(result, entries) := settings_load_subtree_direct kSubtree OnEntry [] (flash s) in
    ((if result =? 0 then storage_kSuccess else storage_kIoError), entries, s).
Definition zephyr_Write (key : string) (value : list Z) s : SettingsStorageStatus * ZephyrSettingsStorage F :=
  match value, MakeName key with
  | [], _ | _, None => (storage_kIoError, s)
  | _, Some name =>
      let '(initialized, s) := EnsureInitialized s in
      if negb initialized then (storage_kIoError, s)
      else let '(result, f) := settings_save_one name value (flash s) in
           ((if result =? 0 then storage_kSuccess else storage_kIoError), mkZephyr f (g_initialized s))
  end.
Definition zephyr_Erase (key : string) s : SettingsStorageStatus * ZephyrSettingsStorage F :=
  match MakeName key with
  | None => (storage_kIoError, s)
  | Some name =>
      let '(initialized, s) := EnsureInitialized s in
      if negb initialized then (storage_kIoError, s)
      else let '(result, f) := settings_delete name (flash s) in
           ((if result =? 0 then storage_kSuccess else storage_kIoError), mkZephyr f (g_initialized s))
  end.
(** Adapter().  LoadAll() leaves the storage initialised, as every operation does. *)
#[export] Instance zephyr_storage : StorageOps (ZephyrSettingsStorage F) := {|
  LoadAll s := (zephyr_LoadAll s).1; Write := zephyr_Write; Erase := zephyr_Erase |}.
End Storage.

Section Laws.
Context {F : Type} `{!ZephyrSettings F} {laws : ZephyrSettingsLaws F}.
Implicit Types s : ZephyrSettingsStorage F.

(** What a load gives for a stored value: one byte more than a register has tells
    that it is too long. *)
Definition loaded (v : list Z) : list Z := take (Z.to_nat (kMaxRegisterValueSize + 1)) v.
Definition stored s : gmap string (list Z) := subtree (flash s).

Lemma EnsureInitialized_spec s b s' : EnsureInitialized s = (b, s') ->
  stored s' = stored s /\ g_initialized s' = b /\ (b = true -> EnsureInitialized s' = (true, s')).
Proof.
  unfold EnsureInitialized, stored. destruct (g_initialized s) eqn:G; [intros [= <- <-]; by rewrite G|].
  pose proof (init_subtree (flash s)) as I. destruct (settings_subsys_init (flash s)) as [r f]. intros [= <- <-]. cbn in *.
  split; [done|]. split; [done|]. by intros ->.
Qed.
Lemma foldl_OnEntry l entries : foldl (call_entry OnEntry) entries l = entries ++ map (fun e => (e.1, loaded e.2)) l.
Proof.
  revert entries. induction l as [|[k v] l IH]; intros entries; [by rewrite app_nil_r|]. cbn [foldl]. rewrite IH.
  unfold call_entry, OnEntry. cbn [fst snd map]. rewrite <- app_assoc. cbn [app]. unfold loaded.
  rewrite Nat.min_comm, <- take_take. by rewrite (take_ge v (length v)).
Qed.
Lemma load_spec s status entries s' : zephyr_LoadAll s = (status, entries, s') ->
  exists l, entries = map (fun e => (e.1, loaded e.2)) l /\ (forall e, e ∈ l -> stored s !! e.1 = Some e.2) /\
    (storage_ok status = true -> l ≡ₚ map_to_list (stored s)).
Proof.
  unfold zephyr_LoadAll. destruct (EnsureInitialized s) as [b s1] eqn:E. destruct (EnsureInitialized_spec _ _ _ E) as [<- _].
  destruct b; cbn [negb]; [|intros [= <- <- <-]; exists []; split; [done|]; split; [by intros e ?%not_elem_of_nil|done]].
  destruct (load_subtree OnEntry [] (flash s1)) as (l & L & I & P).
  destruct (settings_load_subtree_direct _ _ _ _) as [r es]. cbn [fst snd] in *. intros [= <- <- <-]. exists l.
  split; [by rewrite L, foldl_OnEntry|]. split; [exact I|]. destruct (Z.eqb_spec r 0); [by intros _; apply P|done].
Qed.
Lemma Write_stored k v s : Forall (in_u 8) v -> storage_ok (zephyr_Write k v s).1 = true ->
  stored (zephyr_Write k v s).2 = <[k := v]> (stored s) /\ v <> [] /\ (String.length k <= 56)%nat.
Proof.
  intros Hv. unfold zephyr_Write. destruct v as [|b v]; [done|]. unfold MakeName. case_if; [done|]. apply Nat.ltb_ge in Hif.
  destruct (EnsureInitialized s) as [i s1] eqn:E. destruct (EnsureInitialized_spec _ _ _ E) as [<- _]. destruct i; [|done].
  pose proof (save_subtree k (b :: v) (flash s1) Hv) as P. cbn [negb].
  destruct (settings_save_one _ _ _) as [r f]. cbn [fst snd] in *. destruct (Z.eqb_spec r 0); [|done]. intros _.
  split; [by apply P|]. split; [done|]. unfold kNameBufferSize, kSubtree in Hif. cbn in Hif. lia.
Qed.
Lemma Erase_stored k s : storage_ok (zephyr_Erase k s).1 = true -> stored (zephyr_Erase k s).2 = delete k (stored s).
Proof.
  unfold zephyr_Erase. destruct (MakeName k) as [n|] eqn:N; [|done]. unfold MakeName in N. case_match; [done|]. injection N as <-.
  destruct (EnsureInitialized s) as [i s1] eqn:E. destruct (EnsureInitialized_spec _ _ _ E) as [<- _]. destruct i; [|done].
  pose proof (delete_subtree k (flash s1)) as P. cbn [negb].
  destruct (settings_delete _ _) as [r f]. cbn [fst snd] in *. destruct (Z.eqb_spec r 0); [|done]. intros _. by apply P.
Qed.

#[export, refine] Instance zephyr_laws : StorageLaws (ZephyrSettingsStorage F) := {| contents s := loaded <$> stored s |}.
Proof.
  - intros s. cbn. destruct (zephyr_LoadAll s) as [[st entries] s'] eqn:E. cbn. intros Hok.
    apply load_spec in E as (l & -> & _ & P). specialize (P Hok). split.
    + rewrite <- list_fmap_compose. change ((fun x : string * list Z => x.1) <$> l) with l.*1. rewrite P. apply NoDup_fst_map_to_list.
    + intros k v. rewrite lookup_fmap, fmap_Some, list_elem_of_fmap. split.
      * intros ([k' v'] & [= -> ->] & Hin). rewrite P in Hin. apply elem_of_map_to_list in Hin. by exists v'.
      * intros (v' & Hs & ->). exists (k, v'). split; [done|]. rewrite P. by apply elem_of_map_to_list.
  - intros s k v. cbn. destruct (zephyr_LoadAll s) as [[st entries] s'] eqn:E. cbn.
    apply load_spec in E as (l & -> & I & _). intros ([k' v'] & [= -> ->] & Hin)%list_elem_of_fmap.
    apply Forall_take. eapply subtree_bytes. exact (I _ Hin).
  - intros k v s Hv Hl Hok. cbn in *. destruct (Write_stored k v s Hv Hok) as (-> & _). rewrite fmap_insert. f_equal.
    unfold loaded. apply take_ge. lia.
  - intros k s Hok. cbn in *. by rewrite (Erase_stored k s Hok), fmap_delete.
Defined.
(** While the subsystem does not come up, every operation is an I/O error and
    what is stored stays. *)
Lemma uninitialised_refuses s k v : (EnsureInitialized s).1 = false ->
  (zephyr_LoadAll s).1 = (storage_kIoError, []) /\ stored (zephyr_LoadAll s).2 = stored s /\
  (zephyr_Write k v s).1 = storage_kIoError /\ stored (zephyr_Write k v s).2 = stored s /\
  (zephyr_Erase k s).1 = storage_kIoError /\ stored (zephyr_Erase k s).2 = stored s.
Proof.
  unfold zephyr_LoadAll, zephyr_Write, zephyr_Erase. destruct (EnsureInitialized s) as [b s1] eqn:E. cbn [fst]. intros ->.
  destruct (EnsureInitialized_spec _ _ _ E) as [Es _]. destruct v, (MakeName k); by split_and!.
Qed.

(** ** Power cycles *)
(** After a restart the flash is what it was, the subsystem is not initialised. *)
Definition restarted s : ZephyrSettingsStorage F := mkZephyr (flash s) false.

End Laws.

(** ** A concrete flash *)
Record DemoFlash := mkFlash { cells : gmap string (list Z); cells_ok : map_Forall (fun _ v => Forall (in_u 8) v) cells }.
Definition DemoFlash_init : DemoFlash := mkFlash ∅ (map_Forall_empty _).
Fixpoint drop_string (n : nat) (s : string) : string :=
  match n, s with S n, String _ s => drop_string n s | _, _ => s end.
Definition put_cell (name : string) (v : list Z) (f : DemoFlash) : Z * DemoFlash :=
  match decide (Forall (in_u 8) v) with
  | left H => (0, mkFlash (<[drop_string 7 name := v]> (cells f)) (map_Forall_insert_2 _ _ _ _ H (cells_ok f)))
  | right _ => (-22, f)
  end.
#[export] Instance demo_flash : ZephyrSettings DemoFlash := {|
  settings_subsys_init f := (0, f);
  settings_load_subtree_direct A tree cb a f := (0, foldl (call_entry cb) a (map_to_list (cells f)));
  settings_save_one := put_cell;
  settings_delete name f := (0, mkFlash (delete (drop_string 7 name) (cells f)) (map_Forall_delete _ _ _ (cells_ok f))) |}.
#[export, refine] Instance demo_flash_laws : ZephyrSettingsLaws DemoFlash := {| subtree := cells |}.
Proof.
  - intros f k v. apply (cells_ok f).
  - done.
  - intros A cb a f. exists (map_to_list (cells f)). split; [done|]. split; [|done]. intros [k v]. apply elem_of_map_to_list.
  - intros k v f Hv. cbn [settings_save_one demo_flash]. unfold put_cell. destruct (decide (Forall (in_u 8) v)); done.
  - done.
Defined.

#[local] Existing Instance PowerStage.sim_ops.
(** A fresh drive, loaded and tuned. *)
Definition flash_store : SettingsStore (ZephyrSettingsStorage DemoFlash) (PowerStage.PowerStageInterface PowerStage.SimPowerStage) :=
  SettingsStore_init (mkSettingsProfile (NvmSettings_init 0 1) HardwareCapabilities_init) (mkZephyr DemoFlash_init false)
    (PowerStage.mkPowerStage false (PowerStage.mkSim true false false)).
Definition flash_tuned := (Update tuned (Load flash_store).2).2.
Lemma flash_tuned_reachable : reachable_store flash_tuned.
Proof.
  apply (reach_update (Load flash_store).2 tuned); [|exact tuned_ok].
  apply (reach_load flash_store); [vm_compute; reflexivity|exact (NvmSettings_init_ok 0 1)|reflexivity].
Qed.
Lemma flash_saved : SaveToFlash flash_tuned = (kSuccess, (SaveToFlash flash_tuned).2).
Proof.
  apply injective_projections; [vm_compute; reflexivity|reflexivity].
Qed.
Lemma flash_valid : Validate (settings_ flash_tuned) (capabilities (profile_ flash_tuned)) = kSuccess /\
  IsValidProfile (profile_ flash_tuned) = true.
Proof. split; vm_compute; reflexivity. Qed.
Lemma flash_reload_ok : storage_ok (LoadAll (restarted (storage_ (SaveToFlash flash_tuned).2))).1 = true.
Proof. vm_compute. reflexivity. Qed.

End ZephyrStorage.
