(* ===== verification/DeadTime.v ===== *)
(** * Dead time of the advanced timer

    hardware/zephyr_bcc/dead_time.hpp: the time in ticks of the dead-time
    clock and its 8-bit encoding in the DTG field. *)
From Stdlib Require Import ZArith Lia Bool.
From stdpp Require Import base list.
From S2P Require Import Prelude.

#[local] Open Scope Z_scope.

Module DeadTime.

Definition kMaxDeadTimeTicks : Z := 63 * 16.

Definition EncodeDeadTime (ticks : Z) : option Z :=
  if ticks <=? 127 then Some (u8 ticks)
  else if ticks <=? 254 then Some (u8 (Z.lor 0x80 (u32 (u32 (ticks + 1) / 2 - 64))))
  else if ticks <=? 504 then Some (u8 (Z.lor 0xC0 (u32 (u32 (ticks + 7) / 8 - 32))))
  else if ticks <=? 1008 then Some (u8 (Z.lor 0xE0 (u32 (u32 (ticks + 15) / 16 - 32))))
  else None.

Definition DecodeDeadTime (dtg : Z) : Z :=
  if Z.land dtg 0x80 =? 0 then dtg
  else if Z.land dtg 0x40 =? 0 then u32 (u32 (64 + Z.land dtg 0x3F) * 2)
  else if Z.land dtg 0x20 =? 0 then u32 (u32 (32 + Z.land dtg 0x1F) * 8)
  else u32 (u32 (32 + Z.land dtg 0x1F) * 16).

Definition DeadTimeTicks (nanoseconds clock_hz : Z) : Z :=
  u32 (u64 (u64 (nanoseconds * clock_hz) + 999999999) / 1000000000).

(** The assertions of the source. *)
Example static_asserts :
  EncodeDeadTime 0 = Some 0 /\ EncodeDeadTime 68 = Some 68 /\
  map (fun t => DecodeDeadTime <$> EncodeDeadTime t) [127; 128; 129; 254; 255; 504; 505; 1008] =
    map Some [127; 128; 130; 254; 256; 504; 512; 1008] /\
  EncodeDeadTime 1009 = None /\ DeadTimeTicks 400 170000000 = 68.
Proof. vm_compute. auto. Qed.

(** ** Lemmas *)
Lemma DeadTimeTicks_spec ns clock : 0 <= ns < 2 ^ 32 -> 0 <= clock <= 10 ^ 9 ->
  DeadTimeTicks ns clock = (ns * clock + 999999999) / 10 ^ 9 /\ DeadTimeTicks ns clock <= ns.
Proof.
  intros Hn Hc. assert (0 <= ns * clock <= ns * 10 ^ 9) by nia.
  unfold DeadTimeTicks. rewrite (wrap_id 64 (ns * clock)) by (unfold in_u; lia).
  rewrite (wrap_id 64) by (unfold in_u; lia).
  assert ((ns * clock + 999999999) / 10 ^ 9 <= ns).
  { apply Z.lt_succ_r, Z.div_lt_upper_bound; lia. }
  assert (0 <= (ns * clock + 999999999) / 10 ^ 9) by (apply Z.div_pos; lia).
  change 1000000000 with (10 ^ 9). rewrite (wrap_id 32); [done|unfold in_u; lia].
Qed.

(** Every value of the field against every encodable time. *)
Definition least_step (ticks : Z) : bool :=
  match EncodeDeadTime ticks with
  | Some d => let t := DecodeDeadTime d in in_ub 8 d && (ticks <=? t) &&
      forallb (fun d' => let t' := DecodeDeadTime d' in negb (ticks <=? t') || (t <=? t')) (seqZ 0 256)
  | None => false
  end.
Lemma least_step_all : forallb least_step (seqZ 0 1009) = true.
Proof. vm_cast_no_check (eq_refl true). Qed.
Lemma longest_step : forallb (fun d => DecodeDeadTime d <=? 1008) (seqZ 0 256) = true.
Proof. vm_compute. reflexivity. Qed.

(** ** Properties *)

(** C26. The dead time the bridge gets: the field written for a requested time
    never gives a shorter one (in exact nanoseconds, for every clock up to
    1 GHz), and of all 256 values of the field none gives a shorter dead time
    that is still long enough; a time the field cannot hold is refused, never
    truncated. *)
Theorem dead_time_never_undercut (ns clock : Z) :
  0 <= ns < 2 ^ 32 -> 0 < clock <= 10 ^ 9 ->
  match EncodeDeadTime (DeadTimeTicks ns clock) with
  | Some dtg =>
      in_u 8 dtg /\ ns * clock <= DecodeDeadTime dtg * 10 ^ 9 /\
      forall d, in_u 8 d -> ns * clock <= DecodeDeadTime d * 10 ^ 9 -> DecodeDeadTime dtg <= DecodeDeadTime d
  | None => forall d, in_u 8 d -> DecodeDeadTime d * 10 ^ 9 < ns * clock
  end.
Proof.
  intros Hn Hc. destruct (DeadTimeTicks_spec ns clock) as [E _]; [lia|lia|].
  set (t := DeadTimeTicks ns clock) in *.
  assert (forall x, ns * clock <= x * 10 ^ 9 <-> t <= x) as Ceil.
  { intros x. rewrite E. split; intros Hx.
    - apply Z.lt_succ_r, Z.div_lt_upper_bound; lia.
    - pose proof (Z.mul_succ_div_gt (ns * clock + 999999999) (10 ^ 9)). nia. }
  assert (0 <= t) as Ht by (rewrite E; apply Z.div_pos; nia).
  destruct (Z.le_gt_cases t 1008) as [L|L].
  - pose proof (forall_seqZ _ _ _ least_step_all t ltac:(lia)) as S. unfold least_step in S.
    destruct (EncodeDeadTime t) as [d|]; [|done].
    apply andb_true_iff in S as [S M]. apply andb_true_iff in S as [S1 S2]. apply in_ub_spec in S1.
    split; [done|]. split; [apply Ceil; lia|]. intros d' Hd' Hx. apply Ceil in Hx.
    pose proof (forall_seqZ _ _ _ M d' ltac:(unfold in_u in *; lia)) as M'. cbn beta in M'. lia.
  - replace (EncodeDeadTime t) with (@None Z).
    + intros d Hd. pose proof (forall_seqZ _ _ _ longest_step d ltac:(unfold in_u in *; lia)) as M. cbn beta in M.
      apply Z.nle_gt. rewrite Ceil. lia.
    + unfold EncodeDeadTime. repeat case_if; lia || done.
Qed.

Lemma dead_time_never_undercut_witness :
  EncodeDeadTime (DeadTimeTicks 1600 170000000) = Some 0xC2 /\ 1600 * 170000000 <= DecodeDeadTime 0xC2 * 10 ^ 9 /\
  DecodeDeadTime 0xC2 = 272.
Proof.
  pose proof (dead_time_never_undercut 1600 170000000 ltac:(lia) ltac:(lia)) as [_ [P _]].
  split; [reflexivity|]. split; [exact P|reflexivity].
Defined.

End DeadTime.
