(* ===== verification/FocStage.v ===== *)
(** * Power stage of the STM32G4 on the break unit of its timer

    hardware/zephyr_bcc/foc_stm32g4.cpp: PowerStageEnable() and the other
    callbacks of the power stage.  The timer is not part of the program: the
    bits of its break unit and what the code relies on are the classes
    [BreakUnit] and [BreakUnitLaws]. *)
From Stdlib Require Import ZArith Lia Bool.
From stdpp Require Import base list relations.
From S2P Require Import Prelude PowerStage.
Import PowerStage.

#[local] Open Scope Z_scope.
#[local] Open Scope unimoc_scope.

Module FocStage.

(** The main output enable (BDTR.MOE), the break flag (SR.BIF), the level of
    the break pin, and the register accesses that change them. *)
Class BreakUnit (H : Type) := {
  MOE : H -> bool;
  BIF : H -> bool;
  break_pin : H -> bool;
  set_MOE : H -> H;
  clear_MOE : H -> H;
  generate_break : H -> H;
  clear_BIF : H -> H;
  move_pin : bool -> H -> H }.

(** The reference manual on the break function: a break (from software or while
    the pin is low) clears MOE and sets BIF; MOE cannot be set while the pin is
    low, but it can be set with BIF latched; BIF can be cleared only while the
    pin is high. *)
Class BreakUnitLaws (H : Type) `{!BreakUnit H} := {
  set_MOE_spec h : MOE (set_MOE h) = MOE h || break_pin h /\ BIF (set_MOE h) = BIF h /\ break_pin (set_MOE h) = break_pin h;
  clear_MOE_spec h : MOE (clear_MOE h) = false /\ BIF (clear_MOE h) = BIF h /\ break_pin (clear_MOE h) = break_pin h;
  generate_break_spec h :
    MOE (generate_break h) = false /\ BIF (generate_break h) = true /\ break_pin (generate_break h) = break_pin h;
  clear_BIF_spec h :
    MOE (clear_BIF h) = MOE h /\ BIF (clear_BIF h) = BIF h && negb (break_pin h) /\ break_pin (clear_BIF h) = break_pin h;
  move_pin_spec level h :
    MOE (move_pin level h) = MOE h && level /\ BIF (move_pin level h) = BIF h || negb level /\
    break_pin (move_pin level h) = level }.

Section Callbacks.
Context {H : Type} `{!BreakUnit H}.

Definition ExternalEnablePresent (h : H) : bool := break_pin h.

Definition stm_Enable (h : H) : bool * H :=
  if MOE h then (true, h)
  else if negb (ExternalEnablePresent h) then (false, h)
  else if BIF h then (false, h)
  else
    let h := set_MOE h in
    if BIF h then (false, clear_MOE h) else (MOE h, h).
Definition stm_Disable (h : H) : H := clear_MOE h.
Definition stm_Trip (h : H) : H := generate_break h.
Definition stm_ClearFault (h : H) : H := clear_BIF h.
Definition stm_GetState (h : H) : PowerStageState :=
  if MOE h then kEnabled
  else if negb (ExternalEnablePresent h) then kBlocked
  else if BIF h then kFault else kDisabled.

#[export] Instance stm_ops : PowerStageOps H := {|
  enable_ := stm_Enable;
  disable_ := stm_Disable;
  trip_ := stm_Trip;
  clear_fault_ := stm_ClearFault;
  get_state_ := stm_GetState |}.

(** PowerStageEnable() between its register accesses, where the zero-latency
    interrupt trips and the pin moves; other threads disable and clear. *)
Inductive stm_pc := at_call | off_seen | pin_seen | no_fault_seen | written | fault_checked | returned (result : bool).

Inductive stm_line : stm_pc * H -> stm_pc * H -> Prop :=
| line_on h : MOE h = true -> stm_line (at_call, h) (returned true, h)
| line_off h : MOE h = false -> stm_line (at_call, h) (off_seen, h)
| line_blocked h : ExternalEnablePresent h = false -> stm_line (off_seen, h) (returned false, h)
| line_pin h : ExternalEnablePresent h = true -> stm_line (off_seen, h) (pin_seen, h)
| line_fault h : BIF h = true -> stm_line (pin_seen, h) (returned false, h)
| line_no_fault h : BIF h = false -> stm_line (pin_seen, h) (no_fault_seen, h)
| line_write h : stm_line (no_fault_seen, h) (written, set_MOE h)
| line_undo h : BIF h = true -> stm_line (written, h) (returned false, clear_MOE h)
| line_keep h : BIF h = false -> stm_line (written, h) (fault_checked, h)
| line_result h : stm_line (fault_checked, h) (returned (MOE h), h).

Inductive stm_event : H -> H -> Prop :=
| ev_trip h : stm_event h (stm_Trip h)
| ev_pin level h : stm_event h (move_pin level h)
| ev_disable h : stm_event h (stm_Disable h).

(** A step of the calling thread or of its surroundings; [cleared] says whether
    it is PowerStageClearFault(). *)
Inductive stm_step : bool -> stm_pc * H -> stm_pc * H -> Prop :=
| step_line c c' : stm_line c c' -> stm_step false c c'
| step_event pc h h' : stm_event h h' -> stm_step false (pc, h) (pc, h')
| step_clear_fault pc h : stm_step true (pc, h) (pc, stm_ClearFault h)
| step_call result h : stm_step false (returned result, h) (at_call, h).

Inductive stm_reachable : stm_pc * H -> Prop :=
| stm_start h : MOE h = false -> stm_reachable (at_call, h)
| stm_next b c c' : stm_reachable c -> stm_step b c c' -> stm_reachable c'.

(** Steps none of which clears the fault. *)
Inductive stm_uncleared : stm_pc * H -> stm_pc * H -> Prop :=
| uncleared_refl c : stm_uncleared c c
| uncleared_next c c' c'' : stm_uncleared c c' -> stm_step false c' c'' -> stm_uncleared c c''.

(** ** Lemmas *)
Context `{!BreakUnitLaws H}.

#[export] Instance stm_laws : PowerStageLaws H.
Proof.
  split; intros p; cbn.
  - unfold stm_Enable, stm_GetState, ExternalEnablePresent. destruct (MOE p) eqn:M; [by intros; cbn; rewrite M|].
    destruct (break_pin p), (BIF p), (BIF (set_MOE p)); cbn; try done. by intros ->.
  - unfold stm_Enable, stm_GetState, ExternalEnablePresent. destruct (MOE p) eqn:M; [done|].
    destruct (break_pin p) eqn:B; cbn; [|by rewrite M, B].
    destruct (BIF p) eqn:F; [by cbn; rewrite M, B, F|].
    destruct (set_MOE_spec p) as (S1 & S2 & S3). rewrite S2, F. cbn. by rewrite S1, B, orb_true_r.
  - unfold stm_GetState, stm_Disable. destruct (clear_MOE_spec p) as (-> & _ & _). by case_all.
  - unfold stm_GetState, stm_Trip. destruct (generate_break_spec p) as (-> & _ & _). by case_all.
  - unfold stm_GetState, stm_ClearFault. destruct (clear_BIF_spec p) as (-> & _ & _). destruct (MOE p); [done|]. intros _. by case_all.
Qed.

#[local] Ltac regs := unfold stm_Trip, stm_Disable, stm_ClearFault in *.

(** Outputs on means no latched fault and a released pin, except between the
    write of MOE and the second look at the fault, where the fault may be set. *)
Definition stm_ok (c : stm_pc * H) : Prop :=
  let '(pc, h) := c in
  match pc with
  | off_seen | pin_seen | no_fault_seen => MOE h = false
  | written => MOE h = true -> break_pin h = true
  | _ => MOE h = true -> BIF h = false /\ break_pin h = true
  end.

Lemma stm_event_ok h h' : stm_event h h' -> MOE h' = true ->
  MOE h = true /\ BIF h' = BIF h /\ break_pin h' = true /\ (break_pin h = true \/ break_pin h' = true).
Proof.
  intros [g|level g|g]; regs.
  - destruct (generate_break_spec g) as (-> & _ & _). done.
  - destruct (move_pin_spec level g) as (-> & -> & ->). intros [-> ->]%andb_true_iff. cbn. rewrite orb_false_r. auto.
  - destruct (clear_MOE_spec g) as (-> & _ & _). done.
Qed.

Lemma stm_invariant c : stm_reachable c -> stm_ok c.
Proof.
  induction 1 as [h Hh|b c c' Hr IH Hs]; [cbn; congruence|].
  destruct Hs as [c c' Hl|pc h h' He|pc h|r h].
  - destruct Hl as [h M|h M|h|h|h|h|h|h F|h F|h]; cbn in *; try done; try congruence.
    + destruct (set_MOE_spec h) as (-> & _ & ->). rewrite IH. cbn. done.
    + destruct (clear_MOE_spec h) as (-> & _ & _). done.
    + intros M. by split; [|apply IH].
  - pose proof (stm_event_ok h h' He) as E.
    assert (MOE h = false -> MOE h' = false) as Off.
    { intros M. destruct (MOE h') eqn:M'; [|done]. destruct E as [E _]; [done|]. congruence. }
    destruct pc; cbn in *; auto; intros M'; destruct (E M') as (M & F & B & _); rewrite ?F; split_and?; try done;
      by destruct (IH M).
  - destruct (clear_BIF_spec h) as (E1 & E2 & E3).
    destruct pc; cbn in *; regs; rewrite ?E1, ?E2, ?E3; auto; intros M; destruct (IH M) as [-> ->]; auto.
  - exact IH.
Qed.

Lemma stm_uncleared_fault c c' : stm_uncleared c c' -> BIF c.2 = true -> BIF c'.2 = true.
Proof.
  induction 1 as [|c c' c'' _ IH Hs]; [done|]. intros F. specialize (IH F). clear F.
  inversion Hs as [d d' Hl E1 E2|pc h h' He E1 E2| |r h E1 E2]; subst; cbn in *; [| |done].
  - destruct Hl as [h|h|h|h|h|h|h|h|h|h]; cbn in *; try done.
    + destruct (set_MOE_spec h) as (_ & -> & _). done.
    + destruct (clear_MOE_spec h) as (_ & -> & _). done.
  - destruct He as [h|level h|h]; regs.
    + by destruct (generate_break_spec h) as (_ & -> & _).
    + destruct (move_pin_spec level h) as (_ & -> & _). by rewrite IH.
    + by destruct (clear_MOE_spec h) as (_ & -> & _).
Qed.

Lemma stm_uncleared_reachable c c' : stm_uncleared c c' -> stm_reachable c -> stm_reachable c'.
Proof. intros Hu Hr. induction Hu as [|c c1 c2 _ IH Hs]; [done|]. eapply stm_next; [by apply IH|exact Hs]. Qed.

(** ** Properties *)

(** C5. The release of the outputs against the overcurrent interrupt, at the
    level of the timer registers: however trips, moves of the enable pin,
    disables and fault clears fall between the register accesses of
    PowerStageEnable(), outside of the call (and at its return) enabled outputs
    mean that no fault is latched and the external enable is present; and once a
    trip has happened anywhere, as long as nobody clears the fault, the call that
    is running and every later one returns with the outputs off. *)
Theorem enable_race_safe (c : stm_pc * H) :
  stm_reachable c ->
  (forall h, (c = (at_call, h) \/ exists r, c = (returned r, h)) -> MOE h = true -> BIF h = false /\ break_pin h = true) /\
  (forall r h, stm_uncleared (c.1, stm_Trip c.2) (returned r, h) -> stm_GetState h <> kEnabled /\ BIF h = true).
Proof.
  intros Hr. split.
  - intros h Hc. pose proof (stm_invariant c Hr) as I. destruct Hc as [->|[r ->]]; exact I.
  - intros r h Hu.
    assert (BIF h = true) as F.
    { apply (stm_uncleared_fault _ _ Hu). cbn. regs. by destruct (generate_break_spec c.2) as (_ & -> & _). }
    split; [|done]. assert (stm_reachable (returned r, h)) as R.
    { apply (stm_uncleared_reachable _ _ Hu). destruct c as [pc g]. eapply stm_next; [exact Hr|].
      apply step_event. apply ev_trip. }
    pose proof (stm_invariant _ R) as I. cbn in I. unfold stm_GetState. destruct (MOE h); [|by case_all].
    destruct I as [I _]; [done|]. congruence.
Qed.
End Callbacks.

(** ** A break unit of three bits *)
Record Bits := mkBits { moe : bool; bif : bool; pin : bool }.
#[export] Instance bits_unit : BreakUnit Bits := {|
  MOE := moe; BIF := bif; break_pin := pin;
  set_MOE h := mkBits (moe h || pin h) (bif h) (pin h);
  clear_MOE h := mkBits false (bif h) (pin h);
  generate_break h := mkBits false true (pin h);
  clear_BIF h := mkBits (moe h) (bif h && negb (pin h)) (pin h);
  move_pin level h := mkBits (moe h && level) (bif h || negb level) level |}.
#[export] Instance bits_laws : BreakUnitLaws Bits.
Proof. split; by intros. Defined.

(** A trip between the first look at the fault and the write of MOE. *)
Lemma enable_race_safe_witness :
  let h := stm_Trip (mkBits false false true) in
  MOE (set_MOE h) = true /\ stm_GetState (clear_MOE (set_MOE h)) <> kEnabled /\ BIF (clear_MOE (set_MOE h)) = true.
Proof.
  intros h. split; [reflexivity|].
  pose proof (enable_race_safe (no_fault_seen, mkBits false false true)) as P. destruct P as [_ P].
  - eapply stm_next; [|apply step_line, line_no_fault; reflexivity].
    eapply stm_next; [|apply step_line, line_pin; reflexivity].
    eapply stm_next; [|apply step_line, line_off; reflexivity].
    by apply stm_start.
  - apply (P false). eapply uncleared_next; [|apply step_line, line_undo; reflexivity].
    eapply uncleared_next; [apply uncleared_refl|apply step_line, line_write].
Defined.

End FocStage.
