(* ===== verification/FocStm32.v ===== *)
(** * Sample interrupt and duty plan of the STM32G4

    hardware/zephyr_bcc/foc_stm32g4.{hpp,cpp}: the timer and trigger
    arithmetic, the sample interrupt with its overcurrent window, and the duty
    plan between the control cycle, the DMA slots and the compare registers.

    The update event of the timer and its DMA burst are one step here,
    [UpdateEvent], as the header of the driver states them; the interrupt and
    the update events interleave in any order the triggers allow. *)
From Stdlib Require Import ZArith Lia Bool.
From stdpp Require Import base decidable list.
From S2P Require Import Prelude PowerStage FocStage DeadTime.
Import PowerStage FocStage DeadTime.

#[local] Open Scope Z_scope.
#[local] Open Scope unimoc_scope.

Module FocStm32.

(** ** Data *)
Definition kHalfPeriodsPerCycle : Z := 4.
Definition kBurstLength : Z := 3.
Definition kDmaTransfers : Z := kBurstLength * kHalfPeriodsPerCycle.

(** The compare values of CCR1..3, and of the half periods of a cycle. *)
Definition PhaseTicks : Type := list Z.
Definition TickPlan : Type := list PhaseTicks.
Definition zero_ticks : PhaseTicks := [0; 0; 0].

Record RawCurrents := mkRaw { raw_a : Z; raw_b : Z; raw_c : Z }.
Record CycleRaw := mkCycleRaw { currents : list RawCurrents; vdc : Z; overcurrent : bool; timestamp : Z }.
#[export] Instance eta_CycleRaw : Eta CycleRaw := fun s => mkCycleRaw (currents s) (vdc s) (overcurrent s) (timestamp s).
Definition CycleRaw_init : CycleRaw := mkCycleRaw (replicate 4 (mkRaw 0 0 0)) 0 false 0.

Definition PackWindow (low high : Z) : Z :=
  Z.lor (Z.land low 0xFFFF) (u32 (Z.shiftl (Z.land high 0xFFFF) 16)).
Definition OutsideWindow (raw window : Z) : bool := (raw <? Z.land window 0xFFFF) || (Z.shiftr window 16 <? raw).

(** The bits of an ADC the driver looks at: the injected sequence armed, the
    ADC enabled, its interrupt enabled. *)
Record Adc := mkAdc { JADSTART : bool; ADEN : bool; JEOSIE : bool }.
#[export] Instance eta_Adc : Eta Adc := fun s => mkAdc (JADSTART s) (ADEN s) (JEOSIE s).

(** How an ADC answers: its clock comes on; and whether the bit the driver waits
    for changes within kCalibrationTimeoutLoops polls: the end of the
    calibration, ready, the stop of the sequence, disabled. *)
Record AdcAnswer := mkAnswer { clock_on : bool; calibrates : bool; gets_ready : bool; stops : bool; disables : bool }.

(** The driver's variables, with the registers it shares with the timer: the
    compare preload and the compare values in force, the direction of the
    counter (true: counting down) and the transfers left in the DMA channel. *)
Record Foc (H : Type) := mkFoc {
  stage : H;
  CCR : PhaseTicks;
  CCR_active : PhaseTicks;
  CCR4 : Z;
  CCR6 : Z;
  DTG : Z;
  CNT : Z;
  DIR : bool;
  CEN : bool;
  UDE : bool;
  dma_enabled : bool;
  adcs : list Adc;
  CNDTR : Z;
  g_timer_clock_hz : Z;
  g_auto_reload : Z;
  g_trigger_lead : Z;
  g_dma_slots : list PhaseTicks;
  g_cycle : CycleRaw;
  g_sample_index : Z;
  g_overcurrent_window : Z;
  g_applied : TickPlan;
  g_last_entry : PhaseTicks;
  g_control_at_peak : bool;
  g_started : bool;
  g_duty_overruns : Z;
  irqs_enabled : bool;
  observer_pended : bool }.
Arguments mkFoc {H}.
Arguments stage {H}. Arguments CCR {H}. Arguments CCR_active {H}. Arguments CCR4 {H}. Arguments CCR6 {H}.
Arguments DTG {H}. Arguments CNT {H}. Arguments DIR {H}. Arguments CEN {H}. Arguments UDE {H}. Arguments dma_enabled {H}. Arguments adcs {H}. Arguments CNDTR {H}.
Arguments g_timer_clock_hz {H}. Arguments g_auto_reload {H}. Arguments g_trigger_lead {H}. Arguments g_dma_slots {H}.
Arguments g_cycle {H}. Arguments g_sample_index {H}. Arguments g_overcurrent_window {H}. Arguments g_applied {H}.
Arguments g_last_entry {H}. Arguments g_control_at_peak {H}. Arguments g_started {H}. Arguments g_duty_overruns {H}.
Arguments irqs_enabled {H}. Arguments observer_pended {H}.
#[export] Instance eta_Foc H : Eta (Foc H) := fun s =>
  mkFoc (stage s) (CCR s) (CCR_active s) (CCR4 s) (CCR6 s) (DTG s) (CNT s) (DIR s) (CEN s) (UDE s) (dma_enabled s) (adcs s) (CNDTR s)
    (g_timer_clock_hz s) (g_auto_reload s) (g_trigger_lead s) (g_dma_slots s) (g_cycle s) (g_sample_index s)
    (g_overcurrent_window s) (g_applied s) (g_last_entry s) (g_control_at_peak s) (g_started s) (g_duty_overruns s)
    (irqs_enabled s) (observer_pended s).

(** The state at power-on. *)
Definition Foc_init {H} (h : H) : Foc H :=
  mkFoc h zero_ticks zero_ticks 0 0 0 0 false false false false (replicate 5 (mkAdc false false false)) 0 0 0 0 (replicate 4 zero_ticks) CycleRaw_init 0 (PackWindow 0 0xFFF)
    (replicate 4 zero_ticks) zero_ticks true false 0 false false.

Section Driver.
Context {H : Type} `{!BreakUnit H}.
Implicit Type s : Foc H.

(** ** Initialization *)
Definition ApplyTriggerLead (ticks : Z) s : Foc H :=
  let kLead := if ticks <? 1 then 1 else if g_auto_reload s / 2 <? ticks then g_auto_reload s / 2 else ticks in
  s.{g_trigger_lead := kLead}.{CCR4 := u32 (g_auto_reload s - kLead)}.{CCR6 := kLead}.

Definition InitDma s : Foc H :=
  let kNeutral := g_auto_reload s / 2 in
  let neutral := [kNeutral; kNeutral; kNeutral] in
  s.{g_dma_slots := replicate 4 neutral}.{g_last_entry := neutral}.{g_applied := replicate 4 neutral}
   .{CNDTR := kDmaTransfers}.{dma_enabled := true}.

(** [clock] is what the clock driver answers: the rate of the timer clock, or
    [None] when it cannot switch the clock on or read its rate. *)
Definition InitTimer (clock : option Z) (kDeadTimeNs pwm_hz trigger_offset : Z) s : bool * Foc H :=
  match clock with
  | None => (false, s)
  | Some hz =>
      let s := s.{g_timer_clock_hz := hz} in
      let kHalfPeriods := hz / pwm_hz in
      if (kHalfPeriods <? 4) || (0xFFFF <? kHalfPeriods / 2 - 1) then (false, s)
      else
        let s := s.{g_auto_reload := kHalfPeriods / 2 - 1}.{CEN := false} in
        let kNeutral := g_auto_reload s / 2 in
        let s := ApplyTriggerLead trigger_offset (s.{CCR := [kNeutral; kNeutral; kNeutral] }) in
        match EncodeDeadTime (DeadTimeTicks kDeadTimeNs hz) with
        | None => (false, s)
        | Some kDtg => (true, s.{stage := clear_MOE (stage s)}.{DTG := kDtg}.{CCR_active := CCR s}
                               .{CNT := g_auto_reload s / 2})
        end
  end.

Definition InitAdc (x : AdcAnswer) (fast_interrupt : bool) (a : Adc) : bool * Adc :=
  if negb (clock_on x) then (false, a)
  else if negb (calibrates x) then (false, a)
  else
    let a := a.{ADEN := true} in
    if negb (gets_ready x) then (false, a)
    else (true, a.{JEOSIE := fast_interrupt}.{JADSTART := true}).

Definition StopAdc (x : AdcAnswer) (a : Adc) : bool * Adc :=
  let disable a :=
    let a := a.{JEOSIE := false} in
    if negb (ADEN a) then (true, a) else if negb (disables x) then (false, a) else (true, a.{ADEN := false}) in
  if negb (JADSTART a) then disable a
  else if negb (stops x) then (false, a) else disable (a.{JADSTART := false}).

(** The ADCs one after the other, until one fails; only the first interrupts. *)
Fixpoint InitAdcs (first : bool) (xs : list AdcAnswer) (l : list Adc) : bool * list Adc :=
  match xs, l with
  | x :: xs, a :: l =>
      let '(ok, a) := InitAdc x first a in
      if negb ok then (false, a :: l) else let '(ok, l) := InitAdcs false xs l in (ok, a :: l)
  | _, _ => (true, l)
  end.

Definition Stop (xs : list AdcAnswer) s : Foc H :=
  if negb (g_started s) then s
  else s.{g_started := false}.{irqs_enabled := false}.{stage := clear_MOE (stage s)}.{UDE := false}.{CEN := false}
        .{dma_enabled := false}.{adcs := zip_with (fun x a => (StopAdc x a).2) xs (adcs s)}.{observer_pended := false}.

(** [pins]: whether the pin control succeeds; [xs]: the answers of the ADCs. *)
Definition Initialize (pins : bool) (clock : option Z) (xs : list AdcAnswer) (kDeadTimeNs pwm_hz trigger_offset : Z) s :
    bool * Foc H :=
  if pwm_hz =? 0 then (false, s)
  else
    let s := Stop xs s in
    if negb pins then (false, s)
    else
      let '(timer, s) := InitTimer clock kDeadTimeNs pwm_hz trigger_offset (s.{g_started := true}) in
      if negb timer then (false, s)
      else
        let '(ok, l) := InitAdcs true xs (adcs s) in
        let s := s.{adcs := l} in
        if negb ok then (false, s)
        else
          let s := InitDma s in
          (true, s.{g_sample_index := kHalfPeriodsPerCycle - 1}.{g_cycle := CycleRaw_init}.{irqs_enabled := true}
                  .{UDE := true}.{CEN := true}).

Definition SetTriggerLead (ticks : Z) s : Foc H := ApplyTriggerLead ticks s.
Definition SetOvercurrentWindow (low high : Z) s : Foc H := s.{g_overcurrent_window := PackWindow low high}.

(** ** The timer *)

(** A boundary: the preload takes effect, the burst of three words loads the
    next slot into the preload (circular), and the counter turns. *)
Definition UpdateEvent s : Foc H :=
  let slot := (kDmaTransfers - CNDTR s) / kBurstLength in
  s.{CCR_active := CCR s}.{CCR := array_get zero_ticks (g_dma_slots s) slot}
   .{CNDTR := if CNDTR s =? kBurstLength then kDmaTransfers else CNDTR s - kBurstLength}.{DIR := negb (DIR s)}.
Definition UpdateEvents (n : nat) s : Foc H := Nat.iter n UpdateEvent s.

(** ** The duty plan

    [n1] and [n2] update events come while the plan is written: before and
    after the write of the preload. *)
Definition SetDutyTicks_late (n1 n2 : nat) (ticks : TickPlan) s : Foc H :=
  let entry k := array_get zero_ticks ticks k in
  let kRemaining := CNDTR s in
  let kCountingDown := DIR s in
  let s := foldl (fun s k => s.{g_dma_slots := array_set k (entry k) (g_dma_slots s)}) s [1; 2; 3] in
  let s := UpdateEvents n1 s in
  let s :=
    if kRemaining =? kDmaTransfers - kBurstLength then
      let s := s.{CCR := entry 0}.{g_dma_slots := array_set 0 (entry (kHalfPeriodsPerCycle - 1)) (g_dma_slots s)} in
      let s := UpdateEvents n2 s in
      let s := if negb (CNDTR s =? kRemaining) then s.{g_duty_overruns := u32 (g_duty_overruns s + 1)} else s in
      s.{g_control_at_peak := kCountingDown}
    else if kRemaining =? kDmaTransfers then
      s.{g_dma_slots := array_set 0 (entry 0) (g_dma_slots s)}.{g_control_at_peak := negb kCountingDown}
    else s.{g_duty_overruns := u32 (g_duty_overruns s + 1)} in
  let s := s.{g_applied := g_last_entry s :: map entry [0; 1; 2] } in
  s.{g_last_entry := entry (kHalfPeriodsPerCycle - 1)}.
Definition SetDutyTicks (ticks : TickPlan) s : Foc H := SetDutyTicks_late 0 0 ticks s.

Definition AppliedTicks (sample : Z) s : PhaseTicks := array_get zero_ticks (g_applied s) sample.
Definition SampleAtPeak (sample : Z) s : bool :=
  let kSameAsControl := (kHalfPeriodsPerCycle - 1 - sample) mod 2 =? 0 in
  Bool.eqb kSameAsControl (g_control_at_peak s).

(** ** The sample interrupt *)

(** What the ADCs and the cycle counter hold when the interrupt reads them. *)
Record Conversion := mkConversion { jdr_a : Z; jdr_b : Z; jdr_c : Z; jdr_vdc : Z; cyccnt : Z }.
Definition raw_of (x : Conversion) : RawCurrents := mkRaw (u16 (jdr_a x)) (u16 (jdr_b x)) (u16 (jdr_c x)).
Definition outside (window : Z) (x : Conversion) : bool :=
  OutsideWindow (jdr_a x) window || OutsideWindow (jdr_b x) window || OutsideWindow (jdr_c x) window.

(** SampleIsr() up to the control cycle. *)
Definition TakeSample (x : Conversion) s : Foc H :=
  let kIndex := g_sample_index s in
  let s := s.{g_cycle := (g_cycle s).{currents := array_set kIndex (raw_of x) (currents (g_cycle s))}} in
  let s := if outside (g_overcurrent_window s) x
           then s.{stage := generate_break (stage s)}.{g_cycle := (g_cycle s).{overcurrent := true}} else s in
  if kIndex + 1 <? kHalfPeriodsPerCycle then s.{g_sample_index := kIndex + 1}
  else s.{g_sample_index := 0}.{g_cycle := (g_cycle s).{vdc := jdr_vdc x}.{timestamp := cyccnt x}}.

(** The control cycle is the client's: its state, whether it trips the power
    stage and the plan it sets, if it sets one. *)
Context {C : Type} (control : C -> Foc H -> C * bool * option TickPlan).

Definition ControlCycleHandler (c : C) s : C * Foc H :=
  let '(c, trip, plan) := control c s in
  let s := if trip : bool then s.{stage := stm_Trip (stage s)} else s in
  (c, match plan with Some ticks => SetDutyTicks ticks s | None => s end).

Definition SampleIsr (x : Conversion) (cs : C * Foc H) : C * Foc H :=
  let '(c, s) := cs in
  let kIndex := g_sample_index s in
  let s := TakeSample x s in
  if kIndex + 1 <? kHalfPeriodsPerCycle then (c, s)
  else
    let '(c, s) := ControlCycleHandler c s in
    (c, s.{g_cycle := (g_cycle s).{overcurrent := false}}.{observer_pended := true}).

(** ** Boundaries and cycles

    Each boundary of the counter has one sample, triggered before it; its
    interrupt runs before or after the update event. *)
Record Boundary := mkBoundary { sample : Conversion; isr_first : bool }.
Definition boundary (b : Boundary) (cs : C * Foc H) : C * Foc H :=
  if isr_first b then let '(c, s) := SampleIsr (sample b) cs in (c, UpdateEvent s)
  else SampleIsr (sample b) (cs.1, UpdateEvent cs.2).

(** A cycle: the control boundary and the three after it. *)
Record Cycle := mkCycle { b0 : Boundary; b1 : Boundary; b2 : Boundary; b3 : Boundary }.

(** What happens in a cycle: the samples and the plan of its control cycle;
    the compare values in force in the four half periods after the control
    boundary and whether each ends at a peak; and what the driver says of them
    in the next control cycle. *)
Record CycleLog := mkLog {
  log_samples : list RawCurrents; log_plan : option TickPlan;
  log_active : list PhaseTicks; log_peak : list bool;
  log_applied : list PhaseTicks; log_at_peak : list bool }.

Definition run_cycle (y : Cycle) (cs : C * Foc H) : CycleLog * (C * Foc H) :=
  let s_call := TakeSample (sample (b0 y)) (if isr_first (b0 y) then cs.2 else UpdateEvent cs.2) in
  let cs0 := boundary (b0 y) cs in
  let cs1 := boundary (b1 y) cs0 in
  let cs2 := boundary (b2 y) cs1 in
  let cs3 := boundary (b3 y) cs2 in
  let halves := [cs0.2; cs1.2; cs2.2; cs3.2] in
  (mkLog (currents (g_cycle s_call)) (control cs.1 s_call).2
     (map CCR_active halves) (map (fun s => negb (DIR s)) halves)
     (map (fun k => AppliedTicks k cs3.2) [0; 1; 2; 3]) (map (fun k => SampleAtPeak k cs3.2) [0; 1; 2; 3]), cs3).

Fixpoint run_cycles (ys : list Cycle) (cs : C * Foc H) : list CycleLog * (C * Foc H) :=
  match ys with
  | [] => ([], cs)
  | y :: ys => let '(l, cs) := run_cycle y cs in let '(ls, cs) := run_cycles ys cs in (l :: ls, cs)
  end.
End Driver.

End FocStm32.
