(* ===== verification/FocPipeline.v ===== *)
(** * The duty plan on the pins, and the sample interrupt

    Properties of FocStm32.v: every compare value of every plan is in force in
    its half period, the driver's account of it is right, the control cycle gets
    the samples in order, and a sample outside of the window trips at once. *)
From Stdlib Require Import ZArith Lia Bool.
From stdpp Require Import base decidable list.
From S2P Require Import Prelude PowerStage FocStage DeadTime FocStm32.
Import PowerStage FocStage DeadTime FocStm32.

#[local] Open Scope Z_scope.
#[local] Open Scope unimoc_scope.

Module FocPipeline.

(** ** The part of the state the duties go through *)
Record Duty := mkDuty {
  d_ccr : PhaseTicks; d_active : PhaseTicks; d_dir : bool; d_cndtr : Z; d_slots : list PhaseTicks;
  d_applied : list PhaseTicks; d_last : PhaseTicks; d_peak : bool; d_overruns : Z }.

Section View.
Context {H : Type} `{!BreakUnit H}.
Implicit Type s : Foc H.

Definition duty s : Duty :=
  mkDuty (CCR s) (CCR_active s) (DIR s) (CNDTR s) (g_dma_slots s) (g_applied s) (g_last_entry s) (g_control_at_peak s)
    (g_duty_overruns s).

Definition duty_update (d : Duty) : Duty :=
  mkDuty (array_get zero_ticks (d_slots d) ((kDmaTransfers - d_cndtr d) / kBurstLength)) (d_ccr d) (negb (d_dir d))
    (if d_cndtr d =? kBurstLength then kDmaTransfers else d_cndtr d - kBurstLength)
    (d_slots d) (d_applied d) (d_last d) (d_peak d) (d_overruns d).

Definition duty_set (P : TickPlan) (d : Duty) : Duty :=
  let entry k := array_get zero_ticks P k in
  let slots := array_set 3 (entry 3) (array_set 2 (entry 2) (array_set 1 (entry 1) (d_slots d))) in
  let applied := d_last d :: map entry [0; 1; 2] in
  if d_cndtr d =? 9 then
    mkDuty (entry 0) (d_active d) (d_dir d) (d_cndtr d) (array_set 0 (entry 3) slots) applied (entry 3) (d_dir d) (d_overruns d)
  else if d_cndtr d =? 12 then
    mkDuty (d_ccr d) (d_active d) (d_dir d) (d_cndtr d) (array_set 0 (entry 0) slots) applied (entry 3) (negb (d_dir d))
      (d_overruns d)
  else mkDuty (d_ccr d) (d_active d) (d_dir d) (d_cndtr d) slots applied (entry 3) (d_peak d) (u32 (d_overruns d + 1)).

Lemma duty_UpdateEvent s : duty (UpdateEvent s) = duty_update (duty s).
Proof. reflexivity. Qed.

Lemma duty_SetDutyTicks P s : duty (SetDutyTicks P s) = duty_set P (duty s).
Proof.
  unfold SetDutyTicks, SetDutyTicks_late, duty_set. change (d_cndtr (duty s)) with (CNDTR s).
  cbn [foldl UpdateEvents Nat.iter nat_rect].
  destruct (CNDTR s =? 9) eqn:E9.
  - change (CNDTR s =? kDmaTransfers - kBurstLength) with (CNDTR s =? 9). rewrite E9. cbn. by rewrite Z.eqb_refl.
  - change (CNDTR s =? kDmaTransfers - kBurstLength) with (CNDTR s =? 9). rewrite E9.
    change (CNDTR s =? kDmaTransfers) with (CNDTR s =? 12). destruct (CNDTR s =? 12); reflexivity.
Qed.

Lemma UpdateEvents_CNDTR n s : CNDTR s = 9 -> (n <= 3)%nat -> CNDTR (UpdateEvents n s) = if (n =? 3)%nat then 12 else 9 - 3 * Z.of_nat n.
Proof.
  intros E L. assert (forall t : Foc H, CNDTR (UpdateEvent t) = if CNDTR t =? 3 then 12 else CNDTR t - 3) as U by done.
  destruct n as [|[|[|[|n]]]]; [done| | | |lia]; cbn [UpdateEvents Nat.iter nat_rect]; rewrite ?U, E; reflexivity.
Qed.

Lemma UpdateEvents_frame n s :
  g_duty_overruns (UpdateEvents n s) = g_duty_overruns s /\ g_dma_slots (UpdateEvents n s) = g_dma_slots s.
Proof. induction n as [|n IH]; done. Qed.

(** A plan written after the control boundary is counted late exactly when an
    update event came before its last check. *)
Lemma late_plan_counted n1 n2 P s : CNDTR s = 9 -> (n1 + n2 <= 3)%nat ->
  g_duty_overruns (SetDutyTicks_late n1 n2 P s) =
  if (n1 + n2 =? 0)%nat then g_duty_overruns s else u32 (g_duty_overruns s + 1).
Proof.
  intros E L. unfold SetDutyTicks_late. cbn [foldl]. rewrite E. change (9 =? kDmaTransfers - kBurstLength) with true. cbv iota.
  set (a := (((s.{g_dma_slots := _}).{g_dma_slots := _}).{g_dma_slots := _})).
  assert (CNDTR a = 9 /\ g_duty_overruns a = g_duty_overruns s) as [Ea Eo] by (by subst a). clearbody a.
  set (b := (UpdateEvents n1 a).{CCR := _}.{g_dma_slots := _}).
  assert (CNDTR (UpdateEvents n2 b) = CNDTR (UpdateEvents (n2 + n1) a)) as Eb.
  { unfold UpdateEvents at 2. rewrite Nat.iter_add. change (Nat.iter n1 UpdateEvent a) with (UpdateEvents n1 a).
    assert (CNDTR b = CNDTR (UpdateEvents n1 a)) as X by (by subst b). revert X. generalize b (UpdateEvents n1 a). clear.
    intros b a X. induction n2 as [|n IH]; [done|].
    change (CNDTR (UpdateEvent (UpdateEvents n b)) = CNDTR (UpdateEvent (UpdateEvents n a))). unfold UpdateEvent. cbn. by rewrite IH. }
  rewrite (UpdateEvents_CNDTR (n2 + n1) a) in Eb by (done || lia).
  assert (g_duty_overruns (UpdateEvents n2 b) = g_duty_overruns s) as Ob.
  { rewrite (proj1 (UpdateEvents_frame n2 b)). subst b. cbn. rewrite (proj1 (UpdateEvents_frame n1 a)). done. }
  destruct (CNDTR (UpdateEvents n2 b) =? 9) eqn:Q; cbn [negb].
  - destruct (n1 + n2 =? 0)%nat eqn:N; [exact Ob|]. rewrite Eb in Q. exfalso. apply Nat.eqb_neq in N. revert Q. destruct (n2 + n1 =? 3)%nat; [done|]. intros Q%Z.eqb_eq. lia.
  - destruct (n1 + n2 =? 0)%nat eqn:N; [rewrite Eb in Q; apply Nat.eqb_eq in N; by replace (n2 + n1)%nat with 0%nat in Q by lia|]. change (u32 (g_duty_overruns (UpdateEvents n2 b) + 1) = u32 (g_duty_overruns s + 1)). by rewrite Ob.
Qed.

Lemma TakeSample_spec x s :
  let i := g_sample_index s in
  let t := TakeSample x s in
  duty t = duty s /\ currents (g_cycle t) = array_set i (raw_of x) (currents (g_cycle s)) /\
  g_sample_index t = (if i + 1 <? 4 then i + 1 else 0) /\
  overcurrent (g_cycle t) = overcurrent (g_cycle s) || outside (g_overcurrent_window s) x /\
  stage t = (if outside (g_overcurrent_window s) x then generate_break (stage s) else stage s) /\
  g_overcurrent_window t = g_overcurrent_window s /\ g_auto_reload t = g_auto_reload s.
Proof.
  destruct s as [st ccr act ccr4 ccr6 dtg cnt dir cen ude dmaen adl ndtr hz arr lead slots [cur vd oc ts] idx win ap la pk go ov en ob].
  cbv zeta. unfold TakeSample. change kHalfPeriodsPerCycle with 4.
  cbn. destruct (outside win x); cbn; destruct (idx + 1 <? 4); cbn; rewrite ?orb_true_r, ?orb_false_r; by repeat split.
Qed.
Lemma TakeSample_last x s : g_sample_index s = 3 ->
  vdc (g_cycle (TakeSample x s)) = jdr_vdc x /\ timestamp (g_cycle (TakeSample x s)) = cyccnt x.
Proof. intros I. unfold TakeSample. rewrite I. by case_if. Qed.

Lemma PackWindow_low low high : in_u 16 low -> Z.land (PackWindow low high) 0xFFFF = low.
Proof.
  intros L. unfold PackWindow. change 0xFFFF with (Z.ones 16). rewrite Z.land_lor_distr_l, <-Z.land_assoc, Z.land_diag.
  rewrite !Z.land_ones by lia. rewrite Z.shiftl_mul_pow2 by lia. unfold wrap.
  pose proof (Z.mod_pos_bound high (2 ^ 16) ltac:(lia)).
  rewrite (Z.mod_small (high mod 2 ^ 16 * 2 ^ 16)) by lia. rewrite Z.mod_mul, Z.lor_0_r by lia. by apply Z.mod_small.
Qed.

Lemma PackWindow_high low high : in_u 16 high -> Z.shiftr (PackWindow low high) 16 = high.
Proof.
  intros L. unfold PackWindow. change 0xFFFF with (Z.ones 16). rewrite !Z.land_ones by lia.
  rewrite (Z.mod_small high) by done. rewrite Z.shiftr_lor, wrap_id.
  - rewrite Z.shiftr_shiftl_l by lia. rewrite Z.shiftl_0_r.
    rewrite Z.shiftr_div_pow2, Z.div_small by (try apply Z.mod_pos_bound; lia). done.
  - rewrite Z.shiftl_mul_pow2 by lia. unfold in_u in *. lia.
Qed.

Lemma outside_window low high x : in_u 16 low -> in_u 16 high ->
  outside (PackWindow low high) x = existsb (fun raw => (raw <? low) || (high <? raw)) [jdr_a x; jdr_b x; jdr_c x].
Proof.
  intros L Hh. unfold outside, OutsideWindow. rewrite PackWindow_low, PackWindow_high by done. cbn.
  by rewrite orb_false_r, !orb_assoc.
Qed.
End View.

Section Start.
Context {H : Type} `{!BreakUnit H} `{!BreakUnitLaws H}.
Implicit Type s : Foc H.

(** The trigger lead: both triggers stay inside their own half period. *)
Lemma ApplyTriggerLead_spec ticks s : 2 <= g_auto_reload s <= 0xFFFF ->
  let t := ApplyTriggerLead ticks s in
  1 <= g_trigger_lead t <= g_auto_reload s / 2 /\ CCR4 t = g_auto_reload s - g_trigger_lead t /\
  CCR6 t = g_trigger_lead t /\ (1 <= ticks <= g_auto_reload s / 2 -> g_trigger_lead t = ticks).
Proof.
  intros A. cbv zeta. unfold ApplyTriggerLead. cbn. assert (1 <= g_auto_reload s / 2 <= 0xFFFF / 2) as B.
  { split; [change 1 with (2 / 2)|]; apply Z.div_le_mono; lia. }
  change (0xFFFF / 2) with 32767 in B.
  assert (g_auto_reload s / 2 <= g_auto_reload s) by (apply Z.div_le_upper_bound; lia).
  case_if; [rewrite wrap_id by (unfold in_u; lia); lia|].
  case_if; [rewrite wrap_id by (unfold in_u; lia); lia|]. rewrite wrap_id by (unfold in_u; lia). lia.
Qed.

Definition neutral_ticks s : PhaseTicks := let n := g_auto_reload s / 2 in [n; n; n].

Lemma InitTimer_spec clock ns pwm off s t : InitTimer clock ns pwm off s = (true, t) ->
  exists hz dtg, clock = Some hz /\ g_timer_clock_hz t = hz /\ 4 <= hz / pwm /\ g_auto_reload t = hz / pwm / 2 - 1 /\
  1 <= g_auto_reload t <= 0xFFFF /\ CCR t = neutral_ticks t /\ CCR_active t = neutral_ticks t /\
  MOE (stage t) = false /\ EncodeDeadTime (DeadTimeTicks ns hz) = Some dtg /\ DTG t = dtg /\
  g_duty_overruns t = g_duty_overruns s /\ CNT t = g_auto_reload t / 2.
Proof.
  unfold InitTimer. destruct clock as [hz|]; [|done]. destruct (_ || _) eqn:G; [done|].
  apply orb_false_iff in G as [G1 G2]. destruct (EncodeDeadTime (DeadTimeTicks ns hz)) as [dtg|] eqn:E; [|done].
  intros [= <-]. exists hz, dtg. cbn. assert (4 / 2 <= hz / pwm / 2) by (apply Z.div_le_mono; lia); change (4 / 2) with 2 in *.
  split_and!; try done; try lia. by destruct (clear_MOE_spec (stage s)) as (-> & _).
Qed.

Lemma InitTimer_adcs clock ns pwm off s t : InitTimer clock ns pwm off s = (true, t) -> adcs t = adcs s.
Proof.
  unfold InitTimer. destruct clock as [hz|]; [|done]. destruct (_ || _); [done|].
  destruct (EncodeDeadTime _) as [dtg|]; [|done]. by intros [= <-].
Qed.

Lemma Stop_overruns xs s : g_duty_overruns (Stop xs s) = g_duty_overruns s.
Proof. unfold Stop. by case_if. Qed.

(** The ADCs: armed and enabled, the first with its interrupt. *)
Definition armed (first : bool) (a : Adc) : Prop := JADSTART a = true /\ ADEN a = true /\ JEOSIE a = first.

Lemma InitAdcs_armed first xs l l' : InitAdcs first xs l = (true, l') -> length xs = length l ->
  match l' with [] => True | a :: l' => armed first a /\ Forall (armed false) l' end.
Proof.
  revert first l l'. induction xs as [|x xs IH]; intros first [|a l] l'; try done; cbn.
  - by intros [= <-] _.
  - unfold InitAdc. destruct (clock_on x); [|done]. destruct (calibrates x); [|done]. destruct (gets_ready x); [|done]. cbn.
    destruct (InitAdcs false xs l) as [ok m] eqn:E. intros [= -> <-] [= L]. split; [done|].
    specialize (IH false l m E L). destruct m as [|b m]; [done|]. destruct IH. by constructor.
Qed.

(** An ADC that answers is off after Stop(), so that the next Initialize() may
    calibrate it. *)
Lemma StopAdc_off x a : stops x = true -> disables x = true -> StopAdc x a = (true, mkAdc false false false).
Proof. intros S D. unfold StopAdc. rewrite S, D. by destruct a as [[] [] []]. Qed.

(** What a successful Initialize() leaves: the outputs off, the timer programmed
    and the driver at a cycle boundary with every slot neutral. *)
Lemma Initialize_spec pins clock xs ns pwm off s t : length (adcs s) = length xs ->
  Initialize pins clock xs ns pwm off s = (true, t) ->
  MOE (stage t) = false /\ irqs_enabled t = true /\ CEN t = true /\ UDE t = true /\ dma_enabled t = true /\ pwm <> 0 /\
  match adcs t with [] => True | a :: l => armed true a /\ Forall (armed false) l end /\
  (exists hz, clock = Some hz /\ 4 <= hz / pwm /\ g_auto_reload t = hz / pwm / 2 - 1 /\ 1 <= g_auto_reload t <= 0xFFFF /\
    EncodeDeadTime (DeadTimeTicks ns hz) = Some (DTG t)) /\
  duty t = mkDuty (neutral_ticks t) (neutral_ticks t) (DIR t) 12 (replicate 4 (neutral_ticks t))
             (replicate 4 (neutral_ticks t)) (neutral_ticks t) (g_control_at_peak t) (g_duty_overruns s) /\
  g_sample_index t = 3 /\ g_cycle t = CycleRaw_init.
Proof.
  intros La. unfold Initialize. case_if; [done|]. case_if; [done|].
  destruct (InitTimer clock ns pwm off _) as [[] u] eqn:E; [|done]. cbn [negb].
  destruct (InitAdcs true xs (adcs u)) as [ok l] eqn:A. destruct ok; [|done]. intros [= <-].
  assert (length xs = length (adcs u)) as Lu.
  { apply InitTimer_adcs in E. rewrite E. unfold Stop. case_if; cbn; [done|]. rewrite length_zip_with. lia. }
  apply InitTimer_spec in E as (hz & dtg & C1 & C2 & C3 & C4 & C5 & C6 & C7 & C8 & C9 & C10 & C11 & C12).
  assert (g_duty_overruns u = g_duty_overruns s) as C11' by (rewrite C11; apply Stop_overruns). clear C11. rename C11' into C11.
  cbn. split; [exact C8|]. do 4 (split; [done|]). split; [lia|]. split; [exact (InitAdcs_armed _ _ _ _ A Lu)|].
  split; [exists hz; rewrite C10; auto|]. split; [|done]. unfold duty, neutral_ticks in *. cbn in *. by rewrite C6, C7, C11.
Qed.
End Start.

Section Client.
Context {H : Type} `{!BreakUnit H} {C : Type} (control : C -> Foc H -> C * bool * option TickPlan).
Implicit Type s : Foc H.

Lemma SetDutyTicks_frame P s :
  let u := SetDutyTicks P s in
  g_cycle u = g_cycle s /\ g_sample_index u = g_sample_index s /\ g_overcurrent_window u = g_overcurrent_window s /\
  stage u = stage s.
Proof.
  cbv zeta. unfold SetDutyTicks, SetDutyTicks_late. cbn [foldl UpdateEvents Nat.iter nat_rect].
  case_if; [case_if|case_if]; by repeat split.
Qed.

Lemma handler_frame c s :
  let cs := ControlCycleHandler control c s in
  cs.1 = (control c s).1.1 /\ g_cycle cs.2 = g_cycle s /\ g_sample_index cs.2 = g_sample_index s /\
  g_overcurrent_window cs.2 = g_overcurrent_window s /\
  stage cs.2 = (if (control c s).1.2 then generate_break (stage s) else stage s).
Proof.
  cbv zeta. unfold ControlCycleHandler. destruct (control c s) as [[c' trip] plan]. cbn [fst snd].
  split; [done|]. set (t := if trip then s.{stage := stm_Trip (stage s)} else s).
  assert (g_cycle t = g_cycle s /\ g_sample_index t = g_sample_index s /\ g_overcurrent_window t = g_overcurrent_window s /\
    stage t = if trip then generate_break (stage s) else stage s) as (E1 & E2 & E3 & E4) by (subst t; by destruct trip).
  clearbody t. destruct plan as [P|]; [|done].
  destruct (SetDutyTicks_frame P t) as (-> & -> & -> & ->). done.
Qed.

Lemma handler_duty c s P : (control c s).2 = Some P ->
  duty (ControlCycleHandler control c s).2 = duty_set P (duty s).
Proof.
  unfold ControlCycleHandler. destruct (control c s) as [[c' trip] plan]. cbn [fst snd]. intros ->.
  rewrite duty_SetDutyTicks. by destruct trip.
Qed.

(** A sample that does not end a cycle, and one that does. *)
Lemma SampleIsr_within x c s : g_sample_index s + 1 < 4 -> SampleIsr control x (c, s) = (c, TakeSample x s).
Proof. intros L. unfold SampleIsr. change kHalfPeriodsPerCycle with 4. case_if; [done|lia]. Qed.

Lemma SampleIsr_last x c s : g_sample_index s = 3 ->
  let t := TakeSample x s in
  let cs := SampleIsr control x (c, s) in
  cs.1 = (control c t).1.1 /\ g_sample_index cs.2 = 0 /\
  currents (g_cycle cs.2) = array_set 3 (raw_of x) (currents (g_cycle s)) /\ overcurrent (g_cycle cs.2) = false /\
  stage cs.2 = (if (control c t).1.2 then generate_break (stage t) else stage t) /\
  (forall P, (control c t).2 = Some P -> duty cs.2 = duty_set P (duty s)).
Proof.
  intros I. pose proof (TakeSample_spec x s) as (T1 & T2 & T3 & _). rewrite I in T2, T3.
  pose proof (handler_frame c (TakeSample x s)) as (A1 & A3 & A4 & _ & A6).
  pose proof (handler_duty c (TakeSample x s)) as A2. cbv zeta. unfold SampleIsr.
  rewrite I. change (3 + 1 <? kHalfPeriodsPerCycle) with false. cbv iota.
  destruct (ControlCycleHandler control c (TakeSample x s)) as [c' t]. cbn [fst snd] in *. split; [exact A1|].
  split; [by cbn; rewrite A4, T3|]. split; [by cbn; rewrite A3, T2|]. split; [done|]. split; [exact A6|].
  intros P HP. rewrite <-T1, <-A2; done.
Qed.

Lemma SampleIsr_outside `{!BreakUnitLaws H} x c s : outside (g_overcurrent_window s) x = true -> 0 <= g_sample_index s <= 3 ->
  let h := stage (SampleIsr control x (c, s)).2 in MOE h = false /\ BIF h = true.
Proof.
  intros O I. cbv zeta. pose proof (TakeSample_spec x s) as (_ & _ & _ & _ & T & _). rewrite O in T.
  destruct (decide (g_sample_index s = 3)) as [E|E].
  - pose proof (SampleIsr_last x c s E) as (_ & _ & _ & _ & -> & _). rewrite T.
    destruct (control c (TakeSample x s)) as [[? []] ?]; cbn.
    + destruct (generate_break_spec (generate_break (stage s))) as (-> & -> & _). done.
    + destruct (generate_break_spec (stage s)) as (-> & -> & _). done.
  - rewrite SampleIsr_within by lia. cbn [snd]. rewrite T.
    destruct (generate_break_spec (stage s)) as (-> & -> & _). done.
Qed.

Lemma SampleIsr_window x c s : g_overcurrent_window (SampleIsr control x (c, s)).2 = g_overcurrent_window s.
Proof.
  pose proof (TakeSample_spec x s) as (_ & _ & _ & _ & _ & T & _). unfold SampleIsr. case_if; [exact T|].
  pose proof (handler_frame c (TakeSample x s)) as (_ & _ & _ & A & _).
  destruct (ControlCycleHandler control c (TakeSample x s)) as [c' t]. cbn in *. by rewrite A.
Qed.

Lemma SampleIsr_reload x c s : g_auto_reload (SampleIsr control x (c, s)).2 = g_auto_reload s.
Proof.
  pose proof (TakeSample_spec x s) as (_ & _ & _ & _ & _ & _ & T). unfold SampleIsr. case_if; [exact T|].
  assert (forall P (t : Foc H), g_auto_reload (SetDutyTicks P t) = g_auto_reload t) as F.
  { intros P t. unfold SetDutyTicks, SetDutyTicks_late. cbn [foldl UpdateEvents Nat.iter nat_rect].
    case_if; [by case_if|by case_if]. }
  unfold ControlCycleHandler. destruct (control c (TakeSample x s)) as [[c' trip] plan]. cbn.
  destruct plan; rewrite ?F; by destruct trip.
Qed.

(** ** A cycle *)

(** The driver between two cycles: all slots are sent, the preload holds the
    last entry of the plan, and the next sample is the last of a cycle. *)
Definition between_cycles (last : PhaseTicks) (pending : list RawCurrents) s : Prop :=
  (exists a d x0 x1 x2 x3 ap pk, duty s = mkDuty last a d 12 [x0; x1; x2; x3] ap last pk (g_duty_overruns s)) /\
  g_sample_index s = 3 /\ length pending = 3%nat /\ exists r, currents (g_cycle s) = pending ++ [r].

Lemma boundary_within b c s i : g_sample_index s = i -> i + 1 < 4 -> 0 <= i ->
  let cs := boundary control b (c, s) in
  cs.1 = c /\ duty cs.2 = duty_update (duty s) /\ g_sample_index cs.2 = i + 1 /\
  currents (g_cycle cs.2) = array_set i (raw_of (sample b)) (currents (g_cycle s)).
Proof.
  intros I L G. cbv zeta. unfold boundary. cbn [fst snd].
  pose proof (TakeSample_spec (sample b) s) as (T1 & T2 & T3 & _).
  pose proof (TakeSample_spec (sample b) (UpdateEvent s)) as (U1 & U2 & U3 & _).
  change (g_sample_index (UpdateEvent s)) with (g_sample_index s) in *. rewrite I in *.
  assert ((i + 1 <? 4) = true) as E by lia. rewrite E in *.
  destruct (isr_first b).
  - rewrite SampleIsr_within by lia. cbn [fst snd]. rewrite duty_UpdateEvent, T1. done.
  - rewrite SampleIsr_within by (change (g_sample_index (UpdateEvent s)) with (g_sample_index s); lia).
    cbn [fst snd]. rewrite U1, U2, U3, duty_UpdateEvent. done.
Qed.

Lemma boundary_control b c s P last pending : between_cycles last pending s ->
  let s_call := TakeSample (sample b) (if isr_first b then s else UpdateEvent s) in
  (control c s_call).2 = Some P -> length P = 4%nat ->
  let cs := boundary control b (c, s) in
  cs.1 = (control c s_call).1.1 /\ currents (g_cycle s_call) = pending ++ [raw_of (sample b)] /\
  g_sample_index cs.2 = 0 /\ currents (g_cycle cs.2) = pending ++ [raw_of (sample b)] /\
  exists x0 p0 p1 p2 p3, P = [p0; p1; p2; p3] /\
    duty cs.2 = mkDuty p0 last (negb (DIR s)) 9 [x0; p1; p2; p3] [last; p0; p1; p2] p3 (negb (DIR s)) (g_duty_overruns s).
Proof.
  intros ((a & d & x0 & x1 & x2 & x3 & ap & pk & D) & I & L & r & Cu). cbv zeta. intros HP LP.
  destruct P as [|p0 [|p1 [|p2 [|p3 [|? ?]]]]]; try done. clear LP.
  destruct pending as [|r0 [|r1 [|r2 [|? ?]]]]; try done. clear L.
  assert (d = DIR s) as -> by (by apply (f_equal d_dir) in D).
  assert (forall t, g_sample_index t = g_sample_index s -> currents (g_cycle t) = currents (g_cycle s) ->
    currents (g_cycle (TakeSample (sample b) t)) = [r0; r1; r2; raw_of (sample b)]) as Cc.
  { intros t E1 E2. pose proof (TakeSample_spec (sample b) t) as (_ & -> & _). by rewrite E1, E2, I, Cu. }
  unfold boundary. destruct (isr_first b); cbn [fst snd].
  - pose proof (SampleIsr_last (sample b) c s I) as (S1 & S3 & S4 & _ & _ & S2). specialize (S2 _ HP).
    destruct (SampleIsr control (sample b) (c, s)) as [c' t]. cbn [fst snd] in *.
    split; [exact S1|]. split; [by apply Cc|]. split; [exact S3|]. split; [change (currents (g_cycle (UpdateEvent t))) with (currents (g_cycle t)); by rewrite S4, Cu|].
    rewrite duty_UpdateEvent, S2, D. exists p0, p0, p1, p2, p3. done.
  - pose proof (SampleIsr_last (sample b) c (UpdateEvent s) I) as (S1 & S3 & S4 & _ & _ & S2). specialize (S2 _ HP).
    change (g_cycle (UpdateEvent s)) with (g_cycle s) in S4.
    split; [exact S1|]. split; [by apply Cc|]. split; [exact S3|]. split; [by rewrite S4, Cu|].
    rewrite S2, duty_UpdateEvent, D. exists p3, p0, p1, p2, p3. done.
Qed.

Lemma run_cycle_spec y c s P last pending : between_cycles last pending s ->
  let s_call := TakeSample (sample (b0 y)) (if isr_first (b0 y) then s else UpdateEvent s) in
  (control c s_call).2 = Some P -> length P = 4%nat ->
  let '(l, (c', t)) := run_cycle control y (c, s) in
  exists p0 p1 p2 p3, P = [p0; p1; p2; p3] /\ c' = (control c s_call).1.1 /\
  between_cycles p3 (map (fun b => raw_of (sample b)) [b1 y; b2 y; b3 y]) t /\ g_duty_overruns t = g_duty_overruns s /\
  log_samples l = pending ++ [raw_of (sample (b0 y))] /\ log_plan l = Some P /\ log_active l = [last; p0; p1; p2] /\
  log_applied l = log_active l /\ log_at_peak l = log_peak l.
Proof.
  intros B. cbv zeta. intros HP LP.
  pose proof (boundary_control (b0 y) c s P last pending B HP LP) as (E0 & Cu & I0 & C0 & x0 & p0 & p1 & p2 & p3 & EP & D0).
  assert (exists r0 r1 r2, pending = [r0; r1; r2]) as (r0 & r1 & r2 & ->).
  { destruct B as (_ & _ & L & _). destruct pending as [|? [|? [|? [|? ?]]]]; try done. eauto. }
  unfold run_cycle. set (s_call := TakeSample _ _) in *. cbv zeta. cbn [fst snd].
  destruct (boundary control (b0 y) (c, s)) as [c0 s0]. cbn [fst snd] in *.
  pose proof (boundary_within (b1 y) c0 s0 0 I0 ltac:(lia) ltac:(lia)) as (E1 & D1 & I1 & C1).
  destruct (boundary control (b1 y) (c0, s0)) as [c1 s1]. cbn [fst snd] in *.
  pose proof (boundary_within (b2 y) c1 s1 _ I1 ltac:(lia) ltac:(lia)) as (E2 & D2 & I2 & C2).
  destruct (boundary control (b2 y) (c1, s1)) as [c2 s2]. cbn [fst snd] in *.
  pose proof (boundary_within (b3 y) c2 s2 _ I2 ltac:(lia) ltac:(lia)) as (E3 & D3 & I3 & C3).
  destruct (boundary control (b3 y) (c2, s2)) as [c3 s3]. cbn [fst snd] in *.
  rewrite D0 in D1. rewrite D1 in D2. rewrite D2 in D3. rewrite C0 in C1. rewrite C1 in C2. rewrite C2 in C3. unfold duty_update in D1, D2, D3. cbn in D1, D2, D3, C3.
  exists p0, p1, p2, p3. split; [done|]. split; [congruence|].
  assert (forall t : Foc H, g_duty_overruns t = d_overruns (duty t)) as Ov by done.
  assert (forall t : Foc H, CCR_active t = d_active (duty t)) as Ac by done.
  assert (forall t : Foc H, DIR t = d_dir (duty t)) as Di by done.
  assert (forall k (t : Foc H), AppliedTicks k t = array_get zero_ticks (d_applied (duty t)) k) as Ap by done.
  assert (forall k (t : Foc H), SampleAtPeak k t = Bool.eqb ((3 - k) mod 2 =? 0) (d_peak (duty t))) as Pk by done.
  split; [|cbn; rewrite !Ov, !Ac, !Di, !Ap, !Pk, D0, D1, D2, D3; cbn; rewrite !negb_involutive; split_and!; try done; by destruct (DIR s)].
  split; [|split; [exact I3|split; [done|eexists; exact C3]]]. rewrite Ov, D3. cbn. repeat eexists.
Qed.

(** The clients whose control cycles always set a plan of four entries. *)
Context (Inv : C -> Prop)
  (control_sets_plan : forall c s, Inv c ->
     Inv (control c s).1.1 /\ exists P, (control c s).2 = Some P /\ length P = 4%nat).

(** The plan a control cycle set. *)
Definition log_ticks (l : CycleLog) : list PhaseTicks := default [] (log_plan l).
Definition cycle_samples (y : Cycle) : list RawCurrents := map (fun b => raw_of (sample b)) [b0 y; b1 y; b2 y; b3 y].

Lemma run_cycles_spec ys c s last pending : between_cycles last pending s -> Inv c ->
  let '(logs, (c', t)) := run_cycles control ys (c, s) in
  let played := List.concat (map log_ticks logs) in
  Inv c' /\ length logs = length ys /\ length played = (4 * length ys)%nat /\ g_duty_overruns t = g_duty_overruns s /\
  List.concat (map log_active logs) = take (4 * length ys) (last :: played) /\
  List.concat (map log_samples logs) = take (4 * length ys) (pending ++ List.concat (map cycle_samples ys)) /\
  Forall (fun l => log_applied l = log_active l /\ log_at_peak l = log_peak l) logs.
Proof.
  revert c s last pending. induction ys as [|y ys IH]; intros c s last pending B I.
  { cbn. split_and!; done. }
  cbn [run_cycles]. set (s_call := TakeSample (sample (b0 y)) (if isr_first (b0 y) then s else UpdateEvent s)).
  destruct (control_sets_plan c s_call I) as (I' & P & HP & LP).
  pose proof (run_cycle_spec y c s P last pending B HP LP) as R. destruct (run_cycle control y (c, s)) as [l [c1 s1]].
  destruct R as (p0 & p1 & p2 & p3 & -> & -> & B1 & Ov & L1 & L2 & L3 & L4 & L5).
  specialize (IH _ s1 _ _ B1 I'). destruct (run_cycles control ys (_, s1)) as [ls [c2 s2]].
  destruct IH as (H1 & H2 & H3 & H4 & H5 & H6 & H7). cbv zeta in *.
  assert (exists r0 r1 r2, pending = [r0; r1; r2]) as (r0 & r1 & r2 & ->).
  { destruct B as (_ & _ & L & _). destruct pending as [|? [|? [|? [|? ?]]]]; try done. eauto. }
  replace (4 * length (y :: ys))%nat with (4 + 4 * length ys)%nat by (cbn; lia).
  assert (log_ticks l = [p0; p1; p2; p3]) as Lt by (unfold log_ticks; by rewrite L2).
  cbn [map]. rewrite !List.concat_cons, Lt, L1, L3, H5, H6. split_and!; [done|cbn; lia|rewrite length_app, H3; done|congruence|done|done|].
  apply Forall_cons. split; [split; done|done].
Qed.

(** ** Properties *)

(** C6. The duty plans reach the pins: after Initialize(), for any samples and
    whether each sample interrupt runs before or after the update event of its
    boundary, the compare values in force in the half periods, from the first
    control boundary on, are the entries of the plans one after the other,
    delayed by one half period, with a neutral one first.  What the driver
    tells the next control cycle about each sample (the compare values it was
    taken under, peak or valley) is what was in force.  Every control cycle is
    given the last four samples, oldest first.  No duty is ever late. *)
Theorem duty_plan_played `{!BreakUnitLaws H} pins clock xs ns pwm off s0 s (c : C) (ys : list Cycle) :
  length (adcs s0) = length xs -> Initialize pins clock xs ns pwm off s0 = (true, s) -> Inv c ->
  let '(logs, (_, t)) := run_cycles control ys (c, s) in
  let n := (4 * length ys)%nat in
  List.concat (map log_active logs) = take n (neutral_ticks s :: List.concat (map log_ticks logs)) /\
  Forall (fun l => log_applied l = log_active l /\ log_at_peak l = log_peak l) logs /\
  List.concat (map log_samples logs) = take n (replicate 3 (mkRaw 0 0 0) ++ List.concat (map cycle_samples ys)) /\
  length (List.concat (map log_ticks logs)) = n /\ g_duty_overruns t = g_duty_overruns s0.
Proof.
  intros Ls E I. apply Initialize_spec in E as (_ & _ & _ & _ & _ & _ & _ & _ & D & Ix & Cy); [|done].
  assert (g_duty_overruns s = g_duty_overruns s0) as Ov by (by apply (f_equal d_overruns) in D).
  assert (between_cycles (neutral_ticks s) (replicate 3 (mkRaw 0 0 0)) s) as B.
  { split; [rewrite D, Ov; repeat eexists|]. split; [done|]. split; [done|]. exists (mkRaw 0 0 0). by rewrite Cy. }
  pose proof (run_cycles_spec ys c s _ _ B I) as R. destruct (run_cycles control ys (c, s)) as [logs [c' t]].
  destruct R as (_ & _ & R3 & R4 & R5 & R6 & R7). split_and!; try done. congruence.
Qed.

(** The sample interrupt: with a window set by SetOvercurrentWindow(), the
    interrupt that reads a phase conversion below the low or above the high limit
    leaves the outputs off and the fault latched when it returns, even when it
    runs the control cycle; the interrupt of a sample inside the window touches
    the power stage only if the control cycle trips.  Of four interrupts from the
    start of a cycle the fourth and no other calls the control cycle, with the
    four samples in order, the DC-link conversion and the time of the last, and
    the overcurrent flag exactly when one of them was outside; the flag does not
    survive into the next cycle. *)
Theorem sample_interrupt `{!BreakUnitLaws H} (c : C) s (low high : Z) (x0 x1 x2 x3 : Conversion) :
  in_u 16 low -> in_u 16 high -> length (currents (g_cycle s)) = 4%nat ->
  g_sample_index s = 0 -> overcurrent (g_cycle s) = false ->
  let beyond x := existsb (fun raw => (raw <? low) || (high <? raw)) [jdr_a x; jdr_b x; jdr_c x] in
  let isr x cs := SampleIsr control x cs in
  let armed := SetOvercurrentWindow low high s in
  let s3 := TakeSample x2 (TakeSample x1 (TakeSample x0 armed)) in
  let s_call := TakeSample x3 s3 in
  let '(c', t) := isr x3 (isr x2 (isr x1 (isr x0 (c, armed)))) in
  isr x2 (isr x1 (isr x0 (c, armed))) = (c, s3) /\
  c' = (control c s_call).1.1 /\ currents (g_cycle s_call) = map raw_of [x0; x1; x2; x3] /\
  vdc (g_cycle s_call) = jdr_vdc x3 /\ timestamp (g_cycle s_call) = cyccnt x3 /\
  overcurrent (g_cycle s_call) = existsb beyond [x0; x1; x2; x3] /\
  g_sample_index t = 0 /\ overcurrent (g_cycle t) = false /\
  (forall x u, beyond x = true -> g_overcurrent_window u = PackWindow low high -> 0 <= g_sample_index u <= 3 ->
     MOE (stage (isr x (c, u)).2) = false /\ BIF (stage (isr x (c, u)).2) = true) /\
  (existsb beyond [x0; x1; x2; x3] = false -> (control c s_call).1.2 = false -> stage t = stage s).
Proof.
  intros Hl Hh L I O beyond isr armed s3 s_call.
  assert (forall x, outside (PackWindow low high) x = beyond x) as Out by (intros x; by apply outside_window).
  destruct (currents (g_cycle s)) as [|r0 [|r1 [|r2 [|r3 [|? ?]]]]] eqn:Cu; try done.
  pose proof (TakeSample_spec x0 armed) as (_ & A2 & A3 & A4 & A5 & A6 & _).
  change (g_sample_index armed) with (g_sample_index s) in *. change (g_cycle armed) with (g_cycle s) in *.
  change (g_overcurrent_window armed) with (PackWindow low high) in *. change (stage armed) with (stage s) in *.
  rewrite I in A2, A3. rewrite Cu in A2. rewrite O in A4. rewrite Out in A4, A5.
  pose proof (TakeSample_spec x1 (TakeSample x0 armed)) as (_ & B2 & B3 & B4 & B5 & B6 & _).
  rewrite A3 in B2, B3. rewrite A2 in B2. rewrite A6, Out in B4, B5. rewrite A4 in B4. rewrite A5 in B5. rewrite A6 in B6.
  pose proof (TakeSample_spec x2 (TakeSample x1 (TakeSample x0 armed))) as (_ & D2 & D3 & D4 & D5 & D6 & _).
  rewrite B3 in D2, D3. rewrite B2 in D2. rewrite B6, Out in D4, D5. rewrite B4 in D4. rewrite B5 in D5. rewrite B6 in D6.
  fold s3 in D2, D3, D4, D5, D6.
  pose proof (TakeSample_spec x3 s3) as (_ & E2 & _ & E4 & E5 & _).
  rewrite D3 in E2. rewrite D2 in E2. rewrite D6, Out in E4, E5. rewrite D4 in E4. rewrite D5 in E5. fold s_call in E2, E4, E5.
  assert (isr x2 (isr x1 (isr x0 (c, armed))) = (c, s3)) as Steps.
  { unfold isr. rewrite SampleIsr_within by (change (g_sample_index armed) with (g_sample_index s); lia).
    rewrite SampleIsr_within by (rewrite A3; reflexivity). by rewrite SampleIsr_within by (rewrite B3; reflexivity). }
  pose proof (SampleIsr_last x3 c s3 D3) as (F1 & F2 & _ & F4 & F5 & _). fold s_call in F1, F5.
  rewrite Steps. change (isr x3 (c, s3)) with (SampleIsr control x3 (c, s3)).
  destruct (SampleIsr control x3 (c, s3)) as [c' t]. cbn [fst snd] in *.
  assert (vdc (g_cycle s_call) = jdr_vdc x3 /\ timestamp (g_cycle s_call) = cyccnt x3) as [V T] by (by apply TakeSample_last).
  split_and!; try done.
  - rewrite E4. cbn. by rewrite !orb_false_r, !orb_assoc.
  - intros x u Hx Hw Hu. apply SampleIsr_outside; [by rewrite Hw, Out|done].
  - intros Hb Hc. rewrite Hc in F5. clearbody beyond. cbn in Hb. rewrite !orb_false_iff in Hb. destruct Hb as (X0 & X1 & X2 & X3 & _).
    rewrite F5, E5, X0, X1, X2, X3. done.
Qed.
End Client.

(** ** Witnesses

    A control cycle that numbers its plans, on the break unit of three bits. *)
Definition demo_control (c : Z) (_ : Foc Bits) : Z * bool * option TickPlan :=
  (c + 1, false, Some (map (fun k => replicate 3 (100 * c + k)) [0; 1; 2; 3])).
Definition demo_answers : list AdcAnswer := replicate 5 (mkAnswer true true true true true).
Definition demo_start : bool * Foc Bits :=
  Initialize true (Some 170000000) demo_answers 400 32000 170 (Foc_init (mkBits true false true)).
Definition demo_cycle (n : Z) (first : bool) : Cycle :=
  let b k := mkBoundary (mkConversion (n + k) 2048 2048 1500 (n + k)) first in mkCycle (b 0) (b 1) (b 2) (b 3).
Definition demo_cycles : list Cycle := [demo_cycle 2000 false; demo_cycle 2010 true; demo_cycle 2020 false].

Lemma demo_control_sets_plan c (s : Foc Bits) : True ->
  True /\ exists P, (demo_control c s).2 = Some P /\ length P = 4%nat.
Proof. intros _. split; [done|]. by eexists. Qed.

Lemma demo_starts :
  Initialize true (Some 170000000) demo_answers 400 32000 170 (Foc_init (mkBits true false true)) = (true, demo_start.2).
Proof. vm_compute. reflexivity. Qed.

Lemma demo_pins :
  map (hd 0) (List.concat (map log_active (run_cycles demo_control demo_cycles (1, demo_start.2)).1)) =
  [1327; 100; 101; 102; 103; 200; 201; 202; 203; 300; 301; 302].
Proof. vm_compute. reflexivity. Qed.

Lemma duty_plan_played_witness :
  let '(logs, (_, t)) := run_cycles demo_control demo_cycles (1, demo_start.2) in
  List.concat (map log_active logs) = take 12 (neutral_ticks demo_start.2 :: List.concat (map log_ticks logs)) /\
  map (hd 0) (List.concat (map log_active logs)) = [1327; 100; 101; 102; 103; 200; 201; 202; 203; 300; 301; 302] /\
  g_duty_overruns t = 0.
Proof.
  pose proof (duty_plan_played demo_control (fun _ => True) (fun c s _ => demo_control_sets_plan c s I)
    true (Some 170000000) demo_answers 400 32000 170 (Foc_init (mkBits true false true)) demo_start.2 1
    demo_cycles eq_refl demo_starts I) as P.
  pose proof demo_pins as Q. revert P Q. destruct (run_cycles demo_control demo_cycles (1, demo_start.2)) as [logs [c t]].
  intros (P1 & _ & _ & _ & P5) Q. split; [exact P1|]. split; [exact Q|exact P5].
Defined.

Definition demo_x (a : Z) : Conversion := mkConversion a 2048 2048 1500 7.
Definition demo_isr (a : Z) (cs : Z * Foc Bits) : Z * Foc Bits := SampleIsr demo_control (demo_x a) cs.
Definition demo_running : Foc Bits := demo_start.2.{g_sample_index := 0}.{stage := mkBits true false true}.
Definition demo_armed : Foc Bits := SetOvercurrentWindow 1000 3000 demo_running.

Lemma sample_interrupt_witness :
  let t := (demo_isr 2100 (demo_isr 2100 (demo_isr 3000 (demo_isr 1000 (1, demo_armed))))).2 in
  let u := (demo_isr 3001 (demo_isr 2100 (1, demo_armed))).2 in
  stage t = stage demo_running /\ MOE (stage u) = false /\ BIF (stage u) = true.
Proof.
  intros t u.
  pose proof (sample_interrupt demo_control 1 demo_running 1000 3000 (demo_x 1000) (demo_x 3000) (demo_x 2100) (demo_x 2100)
    ltac:(unfold in_u; lia) ltac:(unfold in_u; lia) eq_refl eq_refl eq_refl) as P. cbv zeta in P.
  fold demo_armed in P. subst t. revert P. unfold demo_isr at 1 2 3 4.
  destruct (SampleIsr demo_control (demo_x 2100) (SampleIsr demo_control (demo_x 2100) (SampleIsr demo_control (demo_x 3000)
    (SampleIsr demo_control (demo_x 1000) (1, demo_armed))))) as [c' t].
  intros P. destruct P as (_ & _ & _ & _ & _ & _ & _ & _ & _ & Q).
  split; [apply Q; vm_compute; reflexivity|]. split; vm_compute; reflexivity.
Defined.

End FocPipeline.
