(* ===== verification/BccBoard.v ===== *)
(** * Board layer of the battery case controller

    hardware/zephyr_bcc/analog_scaling.hpp and hardware_interface.cpp: the
    conversions from raw counts, the reconstruction of the phase that switches
    next to a sample, the duties as compare values, the overcurrent window, the
    Hall inputs, and the current-control interrupt of Isr.v as the control cycle
    of the driver of FocStm32.v. *)
From Stdlib Require Import ZArith Lia Bool SpecFloat.
From stdpp Require Import base decidable list option.
From S2P Require Import Prelude Float32 FloatRound PowerStage CurrentControl SettingsData SettingsTypes Transforms Observers Isr FocStage DeadTime FocStm32 FocPipeline.
Import PowerStage CurrentControl FocStage FocStm32 FocPipeline.
Import Observers(HallEvent, mkHallEvent, HallEvent_init, HallEventQueue, head_, tail_, events_, latest_code_, hall_code, Push, Pop, Clear, HallEventQueue_init).
Import Isr(ControlCycleSamples, mkSamples, DutyPlan, zero_ThreePhase).

#[local] Open Scope Z_scope.
#[local] Open Scope unimoc_scope.

#[local] Existing Instance Observers.eta_HallEventQueue.

Module BccBoard.

(** ** Analog scaling *)
Definition kAdcResolution : float := Eval vm_compute in f_of_Z 4096.
Definition kVoltageReference : float := Eval vm_compute in f_dec 33 10.
Definition kCurrentZeroCounts : Z := 2048.
Definition kShuntResistance : float := Eval vm_compute in f_dec 5 10000.
Definition kCurrentAmplifierGain : float := Eval vm_compute in f_of_Z 50.
Definition kVoltageDividerRatio : float := Eval vm_compute in f_div (f_add (f_of_Z 33) f_one) f_one.
Definition kTorqueDividerRatio : float :=
  Eval vm_compute in f_div (f_dec 33 10) (f_add (f_div (f_dec 33 10) (f_of_Z 2)) (f_dec 33 10)).
Definition kTorqueScale : float := Eval vm_compute in f_of_Z 70.
Definition kTorqueRestVoltage : float := Eval vm_compute in f_lit 3 2.

Definition CountsToVolts (counts : float) : float := f_div (f_mul counts kVoltageReference) kAdcResolution.
Definition CountsToCurrent (raw : Z) : float :=
  let kCentered := f_of_Z (i32 raw - kCurrentZeroCounts) in
  f_div (CountsToVolts kCentered) (f_mul kShuntResistance kCurrentAmplifierGain).
Definition kCurrentPerCount : float := Eval vm_compute in CountsToCurrent (kCurrentZeroCounts + 1).
Definition CountsToVoltage (raw : Z) : float := f_mul (CountsToVolts (f_of_Z raw)) kVoltageDividerRatio.
Definition CountsToTorque (raw : Z) : float :=
  let kSensorVolts := f_div (CountsToVolts (f_of_Z raw)) kTorqueDividerRatio in
  f_mul (f_sub kSensorVolts kTorqueRestVoltage) kTorqueScale.

(** The thermistor table; [log] is the logarithm of the C library. *)
Definition kNtcTableSize : Z := 128.
Definition kNtcAdcStep : float := Eval vm_compute in f_div (f_sub (f_of_Z 4096) f_one) (f_of_Z 127).
Section Ntc.
Context (log : float -> float).
Definition ntc_entry (i : Z) : float :=
  let kVolts := CountsToVolts (f_mul (f_of_Z i) kNtcAdcStep) in
  let kResistance := f_mul (f_of_Z 10000) (f_sub (f_div kVoltageReference kVolts) f_one) in
  let kKelvin := f_div f_one (f_add (f_div f_one (f_dec 29815 100))
    (f_mul (f_div f_one (f_of_Z 3950)) (log (f_div kResistance (f_of_Z 10000))))) in
  f_sub kKelvin (f_dec 27315 100).
Definition kTable : list float := map (fun i => ntc_entry (if i =? 0 then 1 else i)) (seqZ 0 kNtcTableSize).
Definition CountsToTemperature (raw : Z) : float :=
  let kPosition := f_div (f_of_Z raw) kNtcAdcStep in
  let kLower := f_to_Z kPosition in
  let kUpper := if kNtcTableSize <=? kLower + 1 then kNtcTableSize - 1 else kLower + 1 in
  let kLowerClamped := if kNtcTableSize <=? kLower then kNtcTableSize - 1 else kLower in
  let kFraction := f_sub kPosition (f_of_Z kLowerClamped) in
  let at_ i := array_get f_zero kTable i in
  f_add (at_ kLowerClamped) (f_mul kFraction (f_sub (at_ kUpper) (at_ kLowerClamped))).
End Ntc.

Section Board.
Context {H : Type} `{!BreakUnit H}.
Implicit Type s : Foc H.

(** ** The guard around the samples *)
Definition kSwitchingSettleTime : float := Eval vm_compute in f_dec 1 1000000.
Definition UpdateGuard s : Z :=
  let kSettle := f_to_Z (f_mul kSwitchingSettleTime (f_of_Z (g_timer_clock_hz s))) in
  u32 (g_trigger_lead s + kSettle).

(** ** Phase currents *)
Definition zero_sequence (a b c : float) : float := f_div (f_add (f_add a b) c) (f_of_Z 3).
Definition without_zero_sequence (a b c : float) : ThreePhase :=
  let z := zero_sequence a b c in
  let kCorrectedA := f_sub a z in
  let kCorrectedB := f_sub b z in
  mkThreePhase kCorrectedA kCorrectedB (f_sub (f_neg kCorrectedA) kCorrectedB).
Definition PhaseCurrents (ia ib ic : Z) : ThreePhase :=
  without_zero_sequence (CountsToCurrent ia) (CountsToCurrent ib) (CountsToCurrent ic).

(** The phase that switches closest to the sample, and whether it does so
    inside the guard. *)
Definition closest_edge (better : Z -> Z -> bool) (ticks : PhaseTicks) : Z :=
  foldl (fun edge phase => if better (array_get 0 ticks phase) (array_get 0 ticks edge) then phase else edge) 0 [1; 2].
Definition disturbed_edge (at_peak : bool) (kReload g_guard_ticks : Z) (ticks : PhaseTicks) : Z * bool :=
  if at_peak then
    let edge := closest_edge (fun t e => e <? t) ticks in
    (edge, kReload - Z.min (array_get 0 ticks edge) kReload <? g_guard_ticks)
  else
    let edge := closest_edge (fun t e => t <? e) ticks in
    (edge, array_get 0 ticks edge <? g_guard_ticks).

Definition CycleSampleCurrents (g_guard_ticks sample : Z) (raw : RawCurrents) s : ThreePhase :=
  let kPhaseCurrent := [CountsToCurrent (raw_a raw); CountsToCurrent (raw_b raw); CountsToCurrent (raw_c raw)] in
  let i p := array_get f_zero kPhaseCurrent p in
  let '(edge, disturbed) := disturbed_edge (SampleAtPeak sample s) (g_auto_reload s) g_guard_ticks (AppliedTicks sample s) in
  if disturbed : bool then
    let kOther1 := (edge + 1) mod 3 in
    let kOther2 := (edge + 2) mod 3 in
    let out := array_set edge (f_sub (f_neg (i kOther1)) (i kOther2))
                 (array_set kOther2 (i kOther2) (array_set kOther1 (i kOther1) (replicate 3 f_zero))) in
    mkThreePhase (array_get f_zero out 0) (array_get f_zero out 1) (array_get f_zero out 2)
  else without_zero_sequence (i 0) (i 1) (i 2).

Definition GetControlCycleSamples (g_guard_ticks : Z) s : ControlCycleSamples :=
  let raw := g_cycle s in
  mkSamples
    (map (fun k => CycleSampleCurrents g_guard_ticks k (array_get (mkRaw 0 0 0) (currents raw) k) s) [0; 1; 2; 3])
    (CountsToVoltage (vdc raw)) (overcurrent raw) (timestamp raw).

(** ** Duties

    The conversion of a duty that is not a number is undefined; it is 0 here. *)
Definition DutyToTicks (duty reload : float) : Z := f_to_Z (f_mul (std_clamp duty f_zero f_one) reload).
Definition PlanToTicks (plan : DutyPlan) (reload : Z) : TickPlan :=
  let kReload := f_of_Z reload in
  map (fun d => [DutyToTicks (phase_a d) kReload; DutyToTicks (phase_b d) kReload; DutyToTicks (phase_c d) kReload]) plan.
Definition SetDutyPlan (plan : DutyPlan) s : Foc H := SetDutyTicks (PlanToTicks plan (g_auto_reload s)) s.

(** ** The overcurrent window; the conversion of a negative number of counts
    is undefined: [None]. *)
Definition SetOvercurrentLimit (limit : float) s : option (Foc H) :=
  let kCounts := f_div limit kCurrentPerCount in
  if negb (f_ltb kCounts (f_of_Z kCurrentZeroCounts)) then Some (SetOvercurrentWindow 0 0xFFF s)
  else if f_ltb kCounts f_zero then None
  else
    kWindow ← f_trunc kCounts;
    Some (SetOvercurrentWindow (u32 (kCurrentZeroCounts - kWindow)) (u32 (kCurrentZeroCounts + kWindow)) s).

Definition SetAdcTriggerOffset (offset : Z) s : Foc H * Z :=
  let s := SetTriggerLead offset s in (s, UpdateGuard s).

(** [rate]: the clock frequency of the device tree. *)
Definition GetTimerClockFrequency (rate : Z) s : Z := if negb (g_timer_clock_hz s =? 0) then g_timer_clock_hz s else rate.

(** ** Hall inputs *)
Definition ReadHallCode (inputs : list bool) : Z :=
  foldl (fun code sensor => if nth (Z.to_nat sensor) inputs false then u8 (Z.lor code (Z.shiftl 1 sensor)) else code) 0 [0; 1; 2].
Definition OnHallEdge (inputs : list bool) (now : Z) (q : HallEventQueue) : HallEventQueue :=
  (Push 16 (mkHallEvent (ReadHallCode inputs) now) q).2.
(** [gpio]: whether the inputs and their interrupt could be set up. *)
Definition InitHall (gpio : bool) (inputs : list bool) (now : Z) (g : bool * HallEventQueue) : bool * (bool * HallEventQueue) :=
  let '(g_hall_ready, g_hall_events) := g in
  if negb g_hall_ready && negb gpio then (false, g)
  else (true, (true, (Push 16 (mkHallEvent (ReadHallCode inputs) now) (Clear g_hall_events)).2)).

(** The stores of Push() after its thread has read the head: InitHall() pushes
    in thread context, and an edge can come there. *)
Definition Push_resumed (kHead : Z) (event : HallEvent) (q : HallEventQueue) : HallEventQueue :=
  q.{events_ := array_set (Z.land kHead 15) event (events_ q)}.{head_ := u32 (kHead + 1)}.

(** ** The control cycle

    Its calls of TripPowerStage() are recorded. *)
#[export] Instance trip_recorder : PowerStageOps bool := {|
  enable_ tripped := (negb tripped, tripped); disable_ _ := true; trip_ _ := true; clear_fault_ tripped := tripped;
  get_state_ tripped := if tripped then kFault else kEnabled |}.
Definition bcc_control (g_guard_ticks : Z) (c : Isr.CurrentControlIsr) s :
    Isr.CurrentControlIsr * bool * option TickPlan :=
  let '(c', tripped) := Isr.OnControlCycle (GetControlCycleSamples g_guard_ticks s) c false in
  (c', tripped,
   if Isr.hardware_ c then (fun plan => PlanToTicks plan (g_auto_reload s)) <$> Isr.hardware_plan c' else None).
End Board.

(** ** Lemmas *)
#[export] Instance trip_recorder_laws : PowerStageLaws bool.
Proof. by split; intros []. Qed.

Definition phase (t : ThreePhase) (p : Z) : float := if p =? 0 then phase_a t else if p =? 1 then phase_b t else phase_c t.
Definition raw_phase (r : RawCurrents) (p : Z) : Z := if p =? 0 then raw_a r else if p =? 1 then raw_b r else raw_c r.

(** How far from the boundary a phase switches, in ticks. *)
Definition edge_distance (at_peak : bool) (kReload t : Z) : Z := if at_peak then kReload - Z.min t kReload else t.

Lemma phases (P : Z -> Prop) : P 0 -> P 1 -> P 2 -> forall p, 0 <= p < 3 -> P p.
Proof. intros A B C p Hp. assert (p = 0 \/ p = 1 \/ p = 2) as [->|[->| ->]] by lia; done. Qed.

Lemma disturbed_edge_spec at_peak kReload guard ticks :
  let '(edge, disturbed) := disturbed_edge at_peak kReload guard ticks in
  let dist p := edge_distance at_peak kReload (array_get 0 ticks p) in
  0 <= edge < 3 /\ disturbed = (dist edge <? guard) /\ forall p, 0 <= p < 3 -> dist edge <= dist p.
Proof.
  unfold disturbed_edge, edge_distance, closest_edge. cbn [foldl]. cbv beta zeta.
  destruct at_peak;
    [destruct (array_get 0 ticks 0 <? array_get 0 ticks 1) eqn:E|destruct (array_get 0 ticks 1 <? array_get 0 ticks 0) eqn:E];
    (split; [by case_if|]); (split; [done|]); apply phases; case_if; bool_prop; lia.
Qed.

Lemma without_zero_sequence_phases a b c : exists z, z = zero_sequence a b c /\
  without_zero_sequence a b c = mkThreePhase (f_sub a z) (f_sub b z) (f_sub (f_neg (f_sub a z)) (f_sub b z)).
Proof. by eexists. Qed.

Lemma DutyToTicks_range duty reload : f_valid duty = true -> is_nan duty = false -> 0 <= reload <= 0xFFFF ->
  0 <= DutyToTicks duty (f_of_Z reload) <= reload.
Proof.
  intros V N R. unfold DutyToTicks. set (d := std_clamp duty f_zero f_one).
  destruct (std_clamp_range duty f_zero f_one N eq_refl) as [L U]. fold d in L, U.
  destruct (f_of_Z_small reload) as [Fr Vr]; [lia|].
  assert (fin d) as Fd.
  { apply (fin_between d f_zero f_one); try done. subst d. unfold std_clamp. by repeat case_if. }
  assert (f_leb f_zero (f_of_Z reload) = true) as Rr by (apply f_leb_val; rewrite ?fval_zero; try done; lia).
  destruct (f_mul_ratio (f_of_Z reload) d Fr Fd Rr L U) as (Fm & Lm & Um). rewrite f_mul_comm in Fm, Lm, Um.
  destruct (f_trunc_val _ Fm) as (z & Ez & Vz & _). unfold f_to_Z. rewrite Ez. cbn [default].
  apply f_leb_val in Lm, Um; try done. rewrite fval_zero in Lm. rewrite Vr in Um. rewrite Vz.
  rewrite Z.quot_div_nonneg by lia. split; [apply Z.div_pos; lia|]. apply Z.div_le_upper_bound; lia.
Qed.

(** The window of a limit, in counts from zero current. *)
Lemma counts_trunc k : fin k -> f_leb f_zero k = true -> f_ltb k (f_of_Z 2048) = true ->
  exists w, f_trunc k = Some w /\ 0 <= w < 2048 /\
  forall n, 0 <= n <= 2048 -> (w <? n) = negb (f_leb (f_of_Z n) k).
Proof.
  intros F L U. destruct (f_trunc_val k F) as (w & E & V & _). exists w. split; [exact E|].
  destruct (f_of_Z_small 2048) as [F2 V2]; [done|].
  apply f_ltb_val in U; [|done|done]. apply f_leb_val in L; [|done|done]. rewrite fval_zero in L. rewrite V2 in U.
  rewrite Z.quot_div_nonneg in V by lia.
  assert (0 <= w < 2048) as W by (rewrite V; split; [apply Z.div_pos; lia|apply Z.div_lt_upper_bound; lia]).
  split; [exact W|]. intros n Hn. destruct (f_of_Z_small n) as [Fn Vn]; [lia|].
  apply Bool.eq_iff_eq_true. rewrite Z.ltb_lt, negb_true_iff, <-not_true_iff_false, f_leb_val, Vn by done.
  split; intros X.
  - assert (fval k / 2 ^ 149 < n) as Y by (rewrite <-V; lia).
    pose proof (Z.mul_succ_div_gt (fval k) (2 ^ 149) ltac:(lia)). nia.
  - rewrite V. apply Z.div_lt_upper_bound; lia.
Qed.

Lemma Push_resumed_uninterrupted event q : u32 (head_ q - tail_ q) < 16 ->
  (Push 16 event q).2 = Push_resumed (head_ q) event (q.{latest_code_ := hall_code event}).
Proof. intros L. unfold Push. case_if; bool_prop; [cbn in *; lia|done]. Qed.

(** An edge between the read and the stores of the push of InitHall() is lost:
    the queue then holds the code read before it and nothing else. *)
Lemma hall_edge_lost (present edge : HallEvent) (q : HallEventQueue) :
  tail_ q = head_ q -> in_u 32 (head_ q) -> length (events_ q) = 16%nat ->
  let q1 := q.{latest_code_ := hall_code present} in
  let q2 := (Push 16 edge q1).2 in
  let q3 := Push_resumed (head_ q1) present q2 in
  (Pop 16 q3).1 = Some present /\ (Pop 16 (Pop 16 q3).2).1 = None /\ latest_code_ q3 = hall_code edge.
Proof.
  intros T U L. destruct q as [ev hd tl lc ov]. cbn in *. subst tl. unfold Push. cbn.
  rewrite Z.sub_diag. change (16 <=? u32 0) with false. cbn. assert ((hd =? u32 (hd + 1)) = false) as E.
  { apply Z.eqb_neq. unfold in_u, wrap in *. destruct (Z.eq_dec hd (2 ^ 32 - 1)) as [->|]; [done|].
    rewrite Z.mod_small; lia. }
  unfold Pop. cbn. rewrite (Z.eqb_sym _ hd), E. cbn. rewrite Z.eqb_refl. split; [|done].
  f_equal. apply array_get_set_eq. assert (0 <= Z.land hd 15 < 16) as B.
  { change 15 with (Z.ones 4). rewrite Z.land_ones by lia. apply Z.mod_pos_bound. lia. }
  unfold array_set. rewrite length_insert, L. exact B.
Qed.

Lemma counts_nonneg limit : f_valid limit = true -> f_leb f_zero limit = true ->
  f_valid (f_div limit kCurrentPerCount) = true /\ f_leb f_zero (f_div limit kCurrentPerCount) = true.
Proof.
  intros V L. destruct (valid_cases limit V) as [F|F].
  - assert (fin kCurrentPerCount) as Fc by (split; reflexivity).
    split; [by apply f_div_valid|]. apply f_div_nonneg; [done|done| |by vm_compute].
    apply f_leb_val in L; [|done|done]. by rewrite fval_zero in L.
  - destruct limit as [b|[]| |b m e]; try done.
Qed.

Lemma existsb_in_ext {A} (f g : A -> bool) l : (forall x, In x l -> f x = g x) -> existsb f l = existsb g l.
Proof. induction l as [|x l IH]; intros E; [done|]. cbn. rewrite E by (by left). f_equal. apply IH. intros y Hy. apply E. by right. Qed.

Section Properties.
Context {H : Type} `{!BreakUnit H}.
Implicit Type s : Foc H.

(** ** Properties *)

(** C25. The phase currents of a sample: the phase chosen is the one whose edge
    is closest to the sample (the highest compare value at a peak, the lowest
    at a valley).  When that edge falls into the guard, its current is replaced
    by the negative sum of the other two, which are passed on as measured;
    otherwise no phase switches inside the guard, and the common-mode error of
    the three sensors is taken out. *)
Theorem phase_reconstruction (guard sample : Z) (raw : RawCurrents) s :
  let dist p := edge_distance (SampleAtPeak sample s) (g_auto_reload s) (array_get 0 (AppliedTicks sample s) p) in
  let i p := CountsToCurrent (raw_phase raw p) in
  let out := CycleSampleCurrents guard sample raw s in
  exists edge, 0 <= edge < 3 /\ (forall p, 0 <= p < 3 -> dist edge <= dist p) /\
  if dist edge <? guard then
    phase out edge = f_sub (f_neg (i ((edge + 1) mod 3))) (i ((edge + 2) mod 3)) /\
    forall p, 0 <= p < 3 -> p <> edge -> phase out p = i p
  else
    (forall p, 0 <= p < 3 -> guard <= dist p) /\
    exists z, z = zero_sequence (i 0) (i 1) (i 2) /\ phase out 0 = f_sub (i 0) z /\ phase out 1 = f_sub (i 1) z /\
      phase out 2 = f_sub (f_neg (phase out 0)) (phase out 1).
Proof.
  intros dist i out.
  pose proof (disturbed_edge_spec (SampleAtPeak sample s) (g_auto_reload s) guard (AppliedTicks sample s)) as D.
  unfold out, CycleSampleCurrents. destruct (disturbed_edge _ _ _ _) as [edge disturbed].
  destruct D as (D1 & D2 & D3). fold (dist edge) in D2. exists edge. split; [exact D1|]. split; [exact D3|].
  rewrite <-D2. destruct disturbed.
  - clear D2 D3. clearbody dist. assert (edge = 0 \/ edge = 1 \/ edge = 2) as [->|[->| ->]] by lia; (split; [reflexivity|]); intros p Hp N;
      assert (p = 0 \/ p = 1 \/ p = 2) as [->|[->| ->]] by lia; done.
  - split; [intros p Hp; specialize (D3 p Hp); change (dist edge <= dist p) in D3; symmetry in D2; apply Z.ltb_ge in D2; lia|].
    eexists. split; [reflexivity|]. split; [reflexivity|]. split; reflexivity.
Qed.

(** C24. The overcurrent limit in the sample interrupt: for every limit that is
    not negative (also an infinite one) the window that SetOvercurrentLimit()
    sets is violated by exactly those 12-bit conversions that are further from
    the zero-current count than the limit divided by the current of one count. *)
Theorem overcurrent_limit_exact (limit : float) s :
  f_valid limit = true -> f_leb f_zero limit = true ->
  exists t, SetOvercurrentLimit limit s = Some t /\
  forall x, in_u 12 (jdr_a x) -> in_u 12 (jdr_b x) -> in_u 12 (jdr_c x) ->
    outside (g_overcurrent_window t) x =
    existsb (fun raw => negb (f_leb (f_of_Z (Z.abs (raw - 2048))) (f_div limit kCurrentPerCount)))
      [jdr_a x; jdr_b x; jdr_c x].
Proof.
  intros V L. set (k := f_div limit kCurrentPerCount).
  destruct (counts_nonneg limit V L) as [Vk Nk]. fold k in Vk, Nk.
  unfold SetOvercurrentLimit. fold k. change kCurrentZeroCounts with 2048.
  destruct (f_ltb k (f_of_Z 2048)) eqn:U; cbn [negb].
  - assert (fin k) as Fk.
    { apply (fin_between k f_zero (f_of_Z 2048)); try done. by apply f_ltb_leb. }
    assert (f_ltb k f_zero = false) as -> by (apply f_leb_val in Nk; [|done|done]; apply not_true_iff_false; rewrite f_ltb_val by done; lia).
    destruct (counts_trunc k Fk Nk U) as (w & -> & W & Hw). cbn [mbind option_bind]. eexists. split; [reflexivity|].
    intros x A B C. cbn [SetOvercurrentWindow g_overcurrent_window set_field].
    rewrite !wrap_id by (unfold in_u; lia).
    rewrite outside_window by (unfold in_u; lia). apply existsb_in_ext. intros raw Hr.
    assert (in_u 12 raw) as R by (by destruct Hr as [<-|[<-|[<-|[]]]]). unfold in_u in R.
    rewrite <-Hw by lia. apply Bool.eq_iff_eq_true. rewrite orb_true_iff, !Z.ltb_lt. lia.
  - eexists. split; [reflexivity|]. intros x A B C. cbn [SetOvercurrentWindow g_overcurrent_window set_field].
    rewrite outside_window by (unfold in_u; lia). apply existsb_in_ext. intros raw Hr.
    assert (in_u 12 raw) as R by (by destruct Hr as [<-|[<-|[<-|[]]]]). unfold in_u in R.
    assert ((raw <? 0) || (0xFFF <? raw) = false) as -> by (apply orb_false_iff; rewrite !Z.ltb_ge; lia).
    symmetry. apply negb_false_iff. apply (f_leb_trans _ (f_of_Z 2048)).
    + apply f_leb_val; [by apply f_of_Z_small; lia|by apply f_of_Z_small|].
      rewrite (proj2 (f_of_Z_small (Z.abs (raw - 2048)) ltac:(lia))), (proj2 (f_of_Z_small 2048 ltac:(lia))). lia.
    + apply f_ltb_ge; [by destruct k|done|exact U].
Qed.
End Properties.

Definition limit_50A : option (Foc Bits) := SetOvercurrentLimit (f_of_Z 50) demo_running.
Definition conversion_of (raw : Z) : Conversion := mkConversion 2048 raw 2048 1500 0.

Lemma overcurrent_limit_exact_witness : exists t, limit_50A = Some t /\
  map (fun raw => outside (g_overcurrent_window t) (conversion_of raw)) [496; 497; 3599; 3600] = [true; false; false; true].
Proof.
  destruct (overcurrent_limit_exact (f_of_Z 50) demo_running) as (t & E & P); [reflexivity|reflexivity|].
  exists t. split; [exact E|]. cbn [map].
  rewrite !P by (unfold in_u; cbn; lia). vm_compute. reflexivity.
Defined.
End BccBoard.
