(* ===== verification/BccSafety.v ===== *)
(** * From a raw sample to the trip of the current control

    The current-control interrupt (Isr.v) as the control cycle of the driver
    (FocStm32.v) through the board layer (BccBoard.v): one conversion outside of
    the overcurrent window switches the outputs off at once, latches the trip
    of the current control and brings the compare values back to neutral. *)
From Stdlib Require Import ZArith Lia Bool SpecFloat.
From stdpp Require Import base decidable list option.
From S2P Require Import Prelude Float32 PowerStage CurrentControl Transforms Isr FocStage DeadTime FocStm32 FocPipeline BccBoard.
Import PowerStage CurrentControl FocStage FocStm32 FocPipeline BccBoard.
Import Isr(CurrentControlIsr, hardware_, hardware_plan, Tripped, neutral, OnControlCycle, OnControlCycle_spec).

#[local] Open Scope Z_scope.
#[local] Open Scope unimoc_scope.

#[local] Existing Instance Isr.eta_CurrentControlIsr.

Module BccSafety.

(** ** The stage, the flag and the window through a cycle, for any client *)
Section Client.
Context {H : Type} `{!BreakUnit H} `{!BreakUnitLaws H} {C : Type} (control : C -> Foc H -> C * bool * option TickPlan).
Implicit Type s : Foc H.

Lemma SampleIsr_stage x c s : 0 <= g_sample_index s <= 3 ->
  let t := (SampleIsr control x (c, s)).2 in
  g_overcurrent_window t = g_overcurrent_window s /\ 0 <= g_sample_index t <= 3 /\
  (MOE (stage s) = false -> MOE (stage t) = false) /\
  (outside (g_overcurrent_window s) x = true -> MOE (stage t) = false) /\
  (g_sample_index s = 3 -> (control c (TakeSample x s)).1.2 = true -> MOE (stage t) = false).
Proof.
  intros I. cbv zeta. pose proof (TakeSample_spec x s) as (_ & _ & T3 & _ & T5 & T6 & _).
  assert (MOE (stage s) = false -> MOE (stage (TakeSample x s)) = false) as Keep.
  { rewrite T5. destruct (outside _ x); [|done]. intros _. apply generate_break_spec. }
  pose proof (SampleIsr_outside control x c s) as Out. cbv zeta in Out.
  destruct (decide (g_sample_index s = 3)) as [E|E].
  - pose proof (SampleIsr_last control x c s E) as (_ & S2 & _ & _ & S5 & _). rewrite S2.
    split; [by apply SampleIsr_window|]. split; [lia|]. split.
    { intros M. rewrite S5. destruct ((control c _).1.2); [apply generate_break_spec|by apply Keep]. }
    split; [intros O; by apply Out|]. intros _ Tr. rewrite S5, Tr. apply generate_break_spec.
  - rewrite SampleIsr_within by lia. cbn [snd]. rewrite T3, T6. split; [done|].
    split; [destruct (g_sample_index s + 1 <? 4) eqn:?; lia|]. split; [done|]. split; [|lia].
    intros O. rewrite SampleIsr_within in Out by lia. by apply Out.
Qed.

Lemma boundary_stage b c s : 0 <= g_sample_index s <= 3 ->
  let t := (boundary control b (c, s)).2 in
  g_overcurrent_window t = g_overcurrent_window s /\ 0 <= g_sample_index t <= 3 /\
  (MOE (stage s) = false -> MOE (stage t) = false) /\
  (outside (g_overcurrent_window s) (sample b) = true -> MOE (stage t) = false).
Proof.
  intros I. cbv zeta. unfold boundary. cbn [fst snd].
  pose proof (SampleIsr_stage (sample b) c s I) as (A1 & A2 & A3 & A4 & _).
  pose proof (SampleIsr_stage (sample b) c (UpdateEvent s) I) as (B1 & B2 & B3 & B4 & _).
  destruct (isr_first b).
  - revert A1 A2 A3 A4. destruct (SampleIsr control (sample b) (c, s)) as [c' t].
    intros A1 A2 A3 A4. exact (conj A1 (conj A2 (conj A3 A4))).
  - exact (conj B1 (conj B2 (conj B3 B4))).
Qed.

Lemma boundary_reload b c s : g_auto_reload (boundary control b (c, s)).2 = g_auto_reload s.
Proof.
  unfold boundary. cbn [fst snd]. destruct (isr_first b); [|exact (SampleIsr_reload control (sample b) c (UpdateEvent s))].
  pose proof (SampleIsr_reload control (sample b) c s) as E. revert E. by destruct (SampleIsr control (sample b) (c, s)).
Qed.

Lemma run_cycle_reload y c s : g_auto_reload (run_cycle control y (c, s)).2.2 = g_auto_reload s.
Proof.
  unfold run_cycle. cbv zeta. cbn [fst snd].
  pose proof (boundary_reload (b0 y) c s) as R0. destruct (boundary control (b0 y) (c, s)) as [c0 s0].
  pose proof (boundary_reload (b1 y) c0 s0) as R1. destruct (boundary control (b1 y) (c0, s0)) as [c1 s1].
  pose proof (boundary_reload (b2 y) c1 s1) as R2. destruct (boundary control (b2 y) (c1, s1)) as [c2 s2].
  rewrite boundary_reload. cbn [snd] in *. congruence.
Qed.

Lemma boundary_flag b c s : 0 <= g_sample_index s < 3 ->
  overcurrent (g_cycle (boundary control b (c, s)).2) =
  overcurrent (g_cycle s) || outside (g_overcurrent_window s) (sample b).
Proof.
  intros I. unfold boundary. cbn [fst snd].
  pose proof (TakeSample_spec (sample b) s) as (_ & _ & _ & T4 & _).
  pose proof (TakeSample_spec (sample b) (UpdateEvent s)) as (_ & _ & _ & U4 & _).
  destruct (isr_first b).
  - rewrite SampleIsr_within by lia. exact T4.
  - rewrite SampleIsr_within by (change (g_sample_index (UpdateEvent s)) with (g_sample_index s); lia). exact U4.
Qed.

Definition cycle_outside (window : Z) (y : Cycle) : bool := existsb (fun b => outside window (sample b)) [b0 y; b1 y; b2 y; b3 y].

(** A cycle of any client: the flag its control cycle gets, and the stage. *)
Lemma run_cycle_stage y c s last pending P : between_cycles last pending s ->
  let s_call := TakeSample (sample (b0 y)) (if isr_first (b0 y) then s else UpdateEvent s) in
  (control c s_call).2 = Some P -> length P = 4%nat ->
  let t := (run_cycle control y (c, s)).2.2 in
  let w := g_overcurrent_window s in
  overcurrent (g_cycle s_call) = overcurrent (g_cycle s) || outside w (sample (b0 y)) /\
  overcurrent (g_cycle t) = existsb (fun b => outside w (sample b)) [b1 y; b2 y; b3 y] /\
  g_overcurrent_window t = w /\ g_auto_reload s_call = g_auto_reload s /\
  (MOE (stage s) = false -> MOE (stage t) = false) /\
  (cycle_outside w y = true -> MOE (stage t) = false) /\
  ((control c s_call).1.2 = true -> MOE (stage t) = false).
Proof.
  intros B. cbv zeta. intros HP LP.
  assert (g_sample_index s = 3) as I by apply B.
  pose proof (boundary_control control (b0 y) c s P last pending B HP LP) as (_ & _ & I0 & _).
  pose proof (boundary_stage (b0 y) c s ltac:(lia)) as (W0 & _ & M0 & O0).
  assert (let t := (boundary control (b0 y) (c, s)).2 in overcurrent (g_cycle t) = false /\
    ((control c (TakeSample (sample (b0 y)) (if isr_first (b0 y) then s else UpdateEvent s))).1.2 = true -> MOE (stage t) = false))
    as [F0 Tr].
  { pose proof (SampleIsr_last control (sample (b0 y)) c s I) as (_ & _ & _ & X4 & _).
    pose proof (SampleIsr_last control (sample (b0 y)) c (UpdateEvent s) I) as (_ & _ & _ & Y4 & _).
    pose proof (SampleIsr_stage (sample (b0 y)) c s ltac:(lia)) as (_ & _ & _ & _ & X5).
    pose proof (SampleIsr_stage (sample (b0 y)) c (UpdateEvent s) ltac:(change (g_sample_index (UpdateEvent s)) with (g_sample_index s); lia)) as (_ & _ & _ & _ & Y5).
    unfold boundary. cbn [fst snd]. destruct (isr_first (b0 y)).
    - revert X4 X5. destruct (SampleIsr control (sample (b0 y)) (c, s)) as [c' t]. intros X4 X5. split; [exact X4|]. by apply X5.
    - split; [exact Y4|]. by apply Y5. }
  pose proof (TakeSample_spec (sample (b0 y)) s) as (_ & _ & _ & T4 & _ & _ & T7).
  pose proof (TakeSample_spec (sample (b0 y)) (UpdateEvent s)) as (_ & _ & _ & U4 & _ & _ & U7).
  unfold run_cycle. cbv zeta. cbn [fst snd]. destruct (boundary control (b0 y) (c, s)) as [c0 s0]. cbn [snd] in *.
  pose proof (boundary_within control (b1 y) c0 s0 0 I0 ltac:(lia) ltac:(lia)) as (_ & _ & I1 & _).
  pose proof (boundary_stage (b1 y) c0 s0 ltac:(lia)) as (W1 & _ & M1 & O1).
  pose proof (boundary_flag (b1 y) c0 s0 ltac:(lia)) as F1.
  destruct (boundary control (b1 y) (c0, s0)) as [c1 s1]. cbn [snd] in *.
  pose proof (boundary_within control (b2 y) c1 s1 _ I1 ltac:(lia) ltac:(lia)) as (_ & _ & I2 & _).
  pose proof (boundary_stage (b2 y) c1 s1 ltac:(lia)) as (W2 & _ & M2 & O2).
  pose proof (boundary_flag (b2 y) c1 s1 ltac:(lia)) as F2.
  destruct (boundary control (b2 y) (c1, s1)) as [c2 s2]. cbn [snd] in *.
  pose proof (boundary_stage (b3 y) c2 s2 ltac:(lia)) as (W3 & _ & M3 & O3).
  pose proof (boundary_flag (b3 y) c2 s2 ltac:(lia)) as F3.
  destruct (boundary control (b3 y) (c2, s2)) as [c3 s3]. cbn [snd] in *.
  rewrite W0 in *. rewrite W1 in *. rewrite W2 in *.
  split; [by destruct (isr_first (b0 y))|]. split; [cbn; by rewrite F3, F2, F1, F0, orb_false_r, !orb_assoc|].
  split; [congruence|]. split; [by destruct (isr_first (b0 y))|]. split; [auto|]. split; [|auto].
  unfold cycle_outside. cbn [existsb]. rewrite !orb_true_iff. intros [?|[?|[?|[?|?]]]]; auto. done.
Qed.
End Client.

(** ** The current control as the client *)
Definition isr_ok (c : CurrentControlIsr) : Prop :=
  hardware_ c = true /\ Forall (fun b => length (Isr.sc_out b) = 4%nat) (Isr.buf c).

Lemma array_get_Forall {A} (P : A -> Prop) d l i : P d -> Forall P l -> P (array_get d l i).
Proof.
  intros D F. unfold array_get. destruct (l !! Z.to_nat i) eqn:E; [|done]. by apply (Forall_lookup_1 _ _ _ _ F E).
Qed.

Lemma control_currents_plan samples c : Forall (fun b => length (Isr.sc_out b) = 4%nat) (Isr.buf c) ->
  let t := Isr.control_currents samples c in
  (exists plan, hardware_plan t = Some plan /\ length plan = 4%nat) /\
  Forall (fun b => length (Isr.sc_out b) = 4%nat) (Isr.buf t).
Proof.
  intros F. cbv zeta. unfold Isr.control_currents. cbv zeta.
  set (s := if Isr.observer_pending c then _ else c).
  assert (Isr.buf s = Isr.buf c) as E by (subst s; by destruct (Isr.observer_pending c)). clearbody s. rewrite <-E in F.
  destruct (CurrentController_Update _ _ _ _ _ _) as [u cc']. set (b := array_get _ (Isr.buf s) _).
  assert (length (Isr.sc_out b) = 4%nat) as Lb by (by apply (array_get_Forall (fun b => length (Isr.sc_out b) = 4%nat))).
  split.
  - eexists. split; [reflexivity|]. by rewrite length_imap.
  - cbn. unfold array_set. by apply Forall_insert.
Qed.

Lemma check_trips_buf samples c (p : bool) : Isr.buf (Isr.check_trips samples c p).1 = Isr.buf c.
Proof.
  unfold Isr.check_trips. destruct (negb (Isr.overcurrent_tripped c) && _); case_if; reflexivity.
Qed.

Lemma OnControlCycle_plan samples c (p : bool) : isr_ok c ->
  let t := (OnControlCycle samples c p).1 in
  isr_ok t /\ exists plan, hardware_plan t = Some plan /\ length plan = 4%nat.
Proof.
  intros [Hh F]. cbv zeta. pose proof (OnControlCycle_spec samples c p Hh) as O.
  assert (hardware_ (OnControlCycle samples c p).1 = true) as Ht.
  { destruct (OnControlCycle samples c p) as [t q]. by destruct O as (_ & _ & _ & _ & O & _). }
  clear O. unfold isr_ok. rewrite Ht. clear Ht. unfold OnControlCycle. rewrite Hh. cbn [negb].
  assert (Isr.buf (Isr.take_samples samples c) = Isr.buf c) as E1.
  { unfold Isr.take_samples. by case_if. }
  destruct (Isr.check_trips _ _ p) as [u q] eqn:E.
  assert (Isr.buf u = Isr.buf c) as E2.
  { pose proof (check_trips_buf (Isr.Calibrated samples (Isr.calibration c)) (Isr.take_samples samples c) p) as X.
    rewrite E in X. cbn [fst] in X. by rewrite X. }
  clear E E1. rewrite <-E2 in F. cbn [fst].
  case_if; [split; [by split|by eexists]|]. case_if; [split; [by split|by eexists]|].
  destruct (control_currents_plan (Isr.Calibrated samples (Isr.calibration c)) u F) as [P B]. by split.
Qed.

(** The compare values of the neutral duty. *)
Definition neutral_of (reload : Z) : PhaseTicks := replicate 3 (DutyToTicks f_half (f_of_Z reload)).

Section Bcc.
Context {H : Type} `{!BreakUnit H} `{!BreakUnitLaws H} (guard : Z).
Implicit Type s : Foc H.

Lemma bcc_control_spec c s : isr_ok c ->
  let '(c', trip, plan) := bcc_control guard c s in
  isr_ok c' /\ (exists P, plan = Some P /\ length P = 4%nat) /\
  (Tripped c = true \/ overcurrent (g_cycle s) = true -> Tripped c' = true) /\
  (Tripped c' = true -> plan = Some (replicate 4 (neutral_of (g_auto_reload s)))) /\
  (Tripped c = false -> Tripped c' = true -> trip = true).
Proof.
  intros O. unfold bcc_control. set (samples := GetControlCycleSamples guard s).
  pose proof (OnControlCycle_plan samples c false O) as (O' & plan & Pl & L). destruct O as [Hh _].
  pose proof (OnControlCycle_spec samples c false Hh) as S. destruct (OnControlCycle samples c false) as [c' trip].
  cbn [fst snd] in *. rewrite Hh, Pl. destruct S as (S1 & S2 & S3 & S4 & _).
  split; [exact O'|]. split; [eexists; split; [reflexivity|by unfold PlanToTicks; rewrite length_map]|].
  split.
  { unfold Tripped. rewrite S1, S2. intros [T|Fl].
    - apply orb_true_iff in T as [-> | ->]; cbn; rewrite ?orb_true_r; done.
    - unfold Isr.over_current. change (Isr.sample_overcurrent _) with (overcurrent (g_cycle s)). rewrite Fl. cbn.
      by rewrite orb_true_r. }
  split.
  - intros T. specialize (S3 T). rewrite Pl in S3. injection S3 as ->. reflexivity.
  - intros T T'. destruct trip; [done|]. destruct S4 as [_ S4]; [done|]. congruence.
Qed.

Lemma bcc_sets_plan c s : isr_ok c ->
  isr_ok (bcc_control guard c s).1.1 /\ exists P, (bcc_control guard c s).2 = Some P /\ length P = 4%nat.
Proof. intros O. pose proof (bcc_control_spec c s O) as S. destruct (bcc_control guard c s) as [[c' t] p]. by destruct S as (? & ? & _). Qed.

(** One cycle of the current control. *)
Lemma bcc_cycle y c s last pending : between_cycles last pending s -> isr_ok c ->
  let '(l, (c', t)) := run_cycle (bcc_control guard) y (c, s) in
  let w := g_overcurrent_window s in
  isr_ok c' /\ (exists last' pending', between_cycles last' pending' t /\
     (Tripped c' = true -> last' = neutral_of (g_auto_reload s) /\
        log_active l = [last; last'; last'; last'])) /\
  g_overcurrent_window t = w /\ g_auto_reload t = g_auto_reload s /\
  (MOE (stage s) = false -> MOE (stage t) = false) /\ (cycle_outside w y = true -> MOE (stage t) = false) /\
  (Tripped c = true -> Tripped c' = true) /\ (Tripped c = false -> Tripped c' = true -> MOE (stage t) = false) /\
  (overcurrent (g_cycle s) = true \/ outside w (sample (b0 y)) = true -> Tripped c' = true) /\
  overcurrent (g_cycle t) = existsb (fun b => outside w (sample b)) [b1 y; b2 y; b3 y].
Proof.
  intros B O. set (s_call := TakeSample (sample (b0 y)) (if isr_first (b0 y) then s else UpdateEvent s)).
  pose proof (bcc_control_spec c s_call O) as S. destruct (bcc_sets_plan c s_call O) as (_ & P & HP & LP).
  pose proof (run_cycle_spec (bcc_control guard) y c s P last pending B HP LP) as R.
  pose proof (run_cycle_stage (bcc_control guard) y c s last pending P B HP LP) as Q.
  pose proof (run_cycle_reload (bcc_control guard) y c s) as Re.
  destruct (run_cycle (bcc_control guard) y (c, s)) as [l [c' t]].
  destruct R as (p0 & p1 & p2 & p3 & -> & Ec & B' & _ & _ & _ & La & _). destruct Q as (Q1 & Q2 & Q3 & Q4 & Q5 & Q6 & Q7).
  fold s_call in Ec, Q1, Q4, Q7, HP. cbn [fst snd] in *. destruct (bcc_control guard c s_call) as [[c1 trip] plan].
  cbn [fst snd] in *. subst c1 plan. destruct S as (S1 & _ & S3 & S4 & S5).
  split; [exact S1|]. split.
  { eexists _, _. split; [exact B'|]. intros T. specialize (S4 T). rewrite Q4 in S4. injection S4 as -> -> -> ->. done. }
  split; [exact Q3|]. split; [exact Re|]. split; [exact Q5|]. split; [exact Q6|]. split; [auto|]. split; [auto|].
  split; [|exact Q2]. intros Hx. apply S3. right. rewrite Q1. by apply orb_true_iff.
Qed.

(** Cycles after the trip. *)
Lemma bcc_cycles_tripped ys c s last pending r : between_cycles last pending s -> isr_ok c -> Tripped c = true ->
  last = neutral_of r -> g_auto_reload s = r -> MOE (stage s) = false ->
  let '(logs, (c', t)) := run_cycles (bcc_control guard) ys (c, s) in
  Tripped c' = true /\ MOE (stage t) = false /\ Forall (fun l => log_active l = replicate 4 (neutral_of r)) logs.
Proof.
  revert c s last pending. induction ys as [|y ys IH]; intros c s last pending B O T E R M; [done|].
  cbn [run_cycles]. pose proof (bcc_cycle y c s last pending B O) as X.
  destruct (run_cycle (bcc_control guard) y (c, s)) as [l [c1 s1]].
  destruct X as (O1 & (last1 & pending1 & B1 & X1) & _ & R1 & M1 & _ & T1 & _). specialize (T1 T). destruct (X1 T1) as [E1 L1].
  specialize (IH c1 s1 last1 pending1 B1 O1 T1 ltac:(congruence) ltac:(congruence) (M1 M)).
  destruct (run_cycles (bcc_control guard) ys (c1, s1)) as [ls [c2 s2]]. destruct IH as (I1 & I2 & I3).
  split; [done|]. split; [done|]. constructor; [|exact I3]. rewrite L1, E1, E, R. reflexivity.
Qed.

(** ** Properties *)

(** C4. From a raw sample to the trip of the drive: between two control cycles
    of a running drive, one conversion of the next cycle outside of the
    overcurrent window is enough that at the end of that cycle the outputs are
    off, that the current control has latched its trip one cycle later at the
    latest, and that from then on, whatever the samples and the order of the
    interrupts and the update events, the outputs stay off, the trip stays
    latched and every half period has the compare values of the neutral duty. *)
Theorem bcc_sample_trips (c : CurrentControlIsr) s last pending (y1 y2 : Cycle) (rest : list Cycle) :
  between_cycles last pending s -> isr_ok c -> Tripped c = false ->
  cycle_outside (g_overcurrent_window s) y1 = true ->
  let '(_, (c1, s1)) := run_cycle (bcc_control guard) y1 (c, s) in
  let '(_, (c2, s2)) := run_cycle (bcc_control guard) y2 (c1, s1) in
  let '(logs, (c3, s3)) := run_cycles (bcc_control guard) rest (c2, s2) in
  MOE (stage s1) = false /\ MOE (stage s2) = false /\ Tripped c2 = true /\
  Tripped c3 = true /\ MOE (stage s3) = false /\
  Forall (fun l => log_active l = replicate 4 (neutral_of (g_auto_reload s))) logs.
Proof.
  intros B O T Out. pose proof (bcc_cycle y1 c s last pending B O) as X.
  destruct (run_cycle (bcc_control guard) y1 (c, s)) as [l1 [c1 s1]].
  destruct X as (O1 & (last1 & pending1 & B1 & _) & W1 & R1 & _ & M1 & _ & _ & T1 & F1). specialize (M1 Out).
  pose proof (bcc_cycle y2 c1 s1 last1 pending1 B1 O1) as Y.
  destruct (run_cycle (bcc_control guard) y2 (c1, s1)) as [l2 [c2 s2]].
  destruct Y as (O2 & (last2 & pending2 & B2 & X2) & _ & R2 & M2 & _ & K2 & _ & T2 & _). specialize (M2 M1).
  assert (Tripped c2 = true) as Tr.
  { unfold cycle_outside in Out. cbn [existsb] in Out. apply orb_true_iff in Out as [Out|Out]; [by apply K2, T1; right|].
    apply T2. left. by rewrite F1. }
  destruct (X2 Tr) as [E2 _].
  pose proof (bcc_cycles_tripped rest c2 s2 last2 pending2 (g_auto_reload s) B2 O2 Tr ltac:(congruence) ltac:(congruence) M2) as Z.
  destruct (run_cycles (bcc_control guard) rest (c2, s2)) as [logs [c3 s3]]. destruct Z as (Z1 & Z2 & Z3). done.
Qed.
End Bcc.

(** A released drive after Initialize(), with a window of 50 A. *)
Definition demo_released : Foc Bits := default demo_running (SetOvercurrentLimit (f_of_Z 50) (demo_start.2.{stage := mkBits true false true})).
Definition demo_drive : CurrentControlIsr := Isr.CurrentControlIsr_init.{hardware_ := true}.{Isr.overcurrent_limit := f_of_Z 60}.
Definition demo_high : Cycle :=
  let b raw := mkBoundary (mkConversion 2048 raw 2048 1400 0) true in mkCycle (b 2100) (b 2100) (b 3700) (b 2100).

Lemma demo_drive_ok : isr_ok demo_drive.
Proof. split; [done|]. by repeat constructor. Qed.

Lemma demo_released_between : between_cycles (neutral_ticks demo_start.2) (replicate 3 (mkRaw 0 0 0)) demo_released.
Proof. split; [repeat eexists|]. split; [done|]. split; [done|]. by exists (mkRaw 0 0 0). Qed.

Lemma bcc_sample_trips_witness :
  MOE (stage demo_released) = true /\
  let '(_, (c1, s1)) := run_cycle (bcc_control 200) demo_high (demo_drive, demo_released) in
  MOE (stage s1) = false.
Proof.
  split; [reflexivity|].
  pose proof (bcc_sample_trips 200 demo_drive demo_released _ _ demo_high demo_high [demo_high] demo_released_between
    demo_drive_ok eq_refl) as P.
  destruct (run_cycle (bcc_control 200) demo_high (demo_drive, demo_released)) as [l1 [c1 s1]].
  destruct (run_cycle (bcc_control 200) demo_high (c1, s1)) as [l2 [c2 s2]].
  destruct (run_cycles (bcc_control 200) [demo_high] (c2, s2)) as [logs [c3 s3]].
  destruct P as (P & _); [vm_compute; reflexivity|]. exact P.
Defined.

End BccSafety.
