(* ===== verification/BccEbikeIo.v ===== *)
(** * E-bike inputs and display line of the battery case controller

    hardware/zephyr_bcc/ebike_io.cpp: the queue between an edge interrupt and
    the e-bike thread, the cadence pulses as ages, the receive path of the
    display (edges through the decoder of EdgeUart.v) and its transmit path.
    The ring buffer and the UART of Zephyr are classes with laws. *)
From Stdlib Require Import ZArith Lia Bool SpecFloat.
From stdpp Require Import base decidable list option.
From S2P Require Import Prelude Float32 FloatRound EdgeUart BccBoard.

#[local] Open Scope Z_scope.
#[local] Open Scope unimoc_scope.

Module BccEbikeIo.

(** ** EdgeQueue: one producer (interrupt), one consumer (thread) *)
Section Queue.
Context {Entry : Type} (entry0 : Entry) (kSize : Z).

Record EdgeQueue := mkEdgeQueue { entries_ : list Entry; head_ : Z; tail_ : Z; overruns_ : Z }.
#[export] Instance eta_EdgeQueue : Eta EdgeQueue := fun q => mkEdgeQueue (entries_ q) (head_ q) (tail_ q) (overruns_ q).
Definition EdgeQueue_init : EdgeQueue := mkEdgeQueue (replicate (Z.to_nat kSize) entry0) 0 0 0.

Definition Push (entry : Entry) (q : EdgeQueue) : EdgeQueue :=
  let kHead := head_ q in
  let kNext := u32 (kHead + 1) mod kSize in
  if kNext =? tail_ q then q.{overruns_ := u32 (overruns_ q + 1)}
  else q.{entries_ := array_set kHead entry (entries_ q)}.{head_ := kNext}.

Definition Pop (q : EdgeQueue) : option Entry * EdgeQueue :=
  let kTail := tail_ q in
  if kTail =? head_ q then (None, q)
  else (Some (array_get entry0 (entries_ q) kTail), q.{tail_ := u32 (kTail + 1) mod kSize}).

(** [while (queue.Pop(entry)) body(entry)]: at most [fuel] entries. *)
Fixpoint pop_all (fuel : nat) (q : EdgeQueue) : list Entry * EdgeQueue :=
  match fuel with
  | O => ([], q)
  | S n => match Pop q with
           | (None, q) => ([], q)
           | (Some e, q) => let '(l, q) := pop_all n q in (e :: l, q)
           end
  end.

(** *** The queue it is *)
Context (Hsize : 1 < kSize <= 2 ^ 31).
Definition queue_ok (q : EdgeQueue) : Prop :=
  length (entries_ q) = Z.to_nat kSize /\ 0 <= head_ q < kSize /\ 0 <= tail_ q < kSize.
Definition waiting (q : EdgeQueue) : list Entry :=
  map (fun i => array_get entry0 (entries_ q) ((tail_ q + Z.of_nat i) mod kSize))
    (seq 0 (Z.to_nat ((head_ q - tail_ q) mod kSize))).

Lemma queue_init_ok : queue_ok EdgeQueue_init /\ waiting EdgeQueue_init = [].
Proof.
  split; [|done]. split_and!; cbn; try lia. by rewrite length_replicate.
Qed.

Lemma next_index i : 0 <= i < kSize -> u32 (i + 1) mod kSize = (i + 1) mod kSize.
Proof. intros Hi. rewrite wrap_id; [done|]. unfold in_u. lia. Qed.

Lemma mod_next h t : 0 <= h < kSize -> 0 <= t < kSize -> (h + 1) mod kSize <> t ->
  ((h + 1) mod kSize - t) mod kSize = (h - t) mod kSize + 1.
Proof.
  intros Hh Ht N. rewrite Zminus_mod_idemp_l.
  pose proof (Z.mod_pos_bound (h - t) kSize ltac:(lia)) as B.
  assert ((h - t) mod kSize <> kSize - 1) as N'.
  { intros E. apply N. pose proof (Z.div_mod (h - t) kSize ltac:(lia)) as D. rewrite E in D.
    symmetry. apply (Z.mod_unique_pos _ _ ((h - t) / kSize + 1)); [lia|]. lia. }
  replace (h + 1 - t) with ((h - t) + 1) by lia. rewrite <-(Z.add_mod_idemp_l (h - t)) by lia. apply Z.mod_small. lia.
Qed.

(** A push appends, or, when kSize - 1 entries wait, is counted and dropped. *)
Lemma Push_spec e q : queue_ok q ->
  queue_ok (Push e q) /\
  if Z.of_nat (length (waiting q)) =? kSize - 1
  then waiting (Push e q) = waiting q /\ overruns_ (Push e q) = u32 (overruns_ q + 1)
  else waiting (Push e q) = waiting q ++ [e] /\ overruns_ (Push e q) = overruns_ q.
Proof.
  intros (L & Hh & Ht). unfold Push. rewrite next_index by done.
  pose proof (Z.mod_pos_bound (head_ q - tail_ q) kSize ltac:(lia)) as B.
  assert (Z.of_nat (length (waiting q)) = (head_ q - tail_ q) mod kSize) as Lw.
  { unfold waiting. rewrite length_map, length_seq. lia. }
  rewrite Lw. destruct (Z.eqb_spec ((head_ q + 1) mod kSize) (tail_ q)) as [E|E].
  - split; [exact (conj L (conj Hh Ht))|].
    assert ((head_ q - tail_ q) mod kSize = kSize - 1) as ->; [|by rewrite Z.eqb_refl].
    rewrite <-E, Zminus_mod_idemp_r. replace (head_ q - (head_ q + 1)) with (-1) by lia.
    symmetry. apply (Z.mod_unique_pos _ _ (-1)); lia.
  - pose proof (mod_next _ _ Hh Ht E) as Nx.
    assert (((head_ q - tail_ q) mod kSize =? kSize - 1) = false) as ->.
    { apply Z.eqb_neq. pose proof (Z.mod_pos_bound ((head_ q + 1) mod kSize - tail_ q) kSize ltac:(lia)). lia. }
    split; [split_and!; cbn; try (by rewrite length_array_set); try lia; apply Z.mod_pos_bound; lia|].
    split; [|done]. unfold waiting. cbn [entries_ head_ tail_ set_field]. rewrite Nx, Z2Nat.inj_add by lia.
    change (Z.to_nat 1) with 1%nat. rewrite seq_app, map_app. cbn [seq map]. f_equal.
    + apply map_ext_in. intros i Hi%in_seq. apply array_get_set_ne; [lia|apply Z.mod_pos_bound; lia|].
      intros X. assert (Z.of_nat i = (head_ q - tail_ q) mod kSize) as Y; [|lia].
      rewrite X, Zminus_mod_idemp_l. replace (tail_ q + Z.of_nat i - tail_ q) with (Z.of_nat i) by lia.
      symmetry. apply Z.mod_small. lia.
    + f_equal. rewrite Nat.add_0_l, Z2Nat.id, Z.add_mod_idemp_r by lia.
      replace (tail_ q + (head_ q - tail_ q)) with (head_ q) by lia. rewrite (Z.mod_small (head_ q)) by lia.
      apply array_get_set_eq. lia.
Qed.

Lemma Pop_spec q : queue_ok q ->
  match waiting q with
  | [] => Pop q = (None, q)
  | e :: l => (Pop q).1 = Some e /\ waiting (Pop q).2 = l /\ queue_ok (Pop q).2 /\ overruns_ (Pop q).2 = overruns_ q
  end.
Proof.
  intros (L & Hh & Ht). unfold Pop. rewrite next_index by done.
  pose proof (Z.mod_pos_bound (head_ q - tail_ q) kSize ltac:(lia)) as B.
  unfold waiting at 1. destruct (Z.eqb_spec (tail_ q) (head_ q)) as [E|E].
  - rewrite E, Z.sub_diag. done.
  - assert (0 < (head_ q - tail_ q) mod kSize) as P.
    { destruct (Z.eq_dec ((head_ q - tail_ q) mod kSize) 0) as [X|]; [|lia].
      exfalso. apply E. pose proof (Z.div_mod (head_ q - tail_ q) kSize ltac:(lia)) as D. rewrite X in D.
      assert ((head_ q - tail_ q) / kSize = 0) by nia. lia. }
    destruct (Z.to_nat ((head_ q - tail_ q) mod kSize)) as [|n] eqn:En; [lia|]. cbn [seq map fst snd].
    rewrite Z.add_0_r, (Z.mod_small (tail_ q)) by lia. split; [done|].
    assert ((head_ q - (tail_ q + 1) mod kSize) mod kSize = Z.of_nat n) as En'.
    { rewrite Zminus_mod_idemp_r. replace (head_ q - (tail_ q + 1)) with ((head_ q - tail_ q) + -1) by lia.
      rewrite <-Z.add_mod_idemp_l by lia. rewrite Z.mod_small by lia. lia. }
    split; [|split; [exact (conj L (conj Hh (Z.mod_pos_bound (tail_ q + 1) kSize ltac:(lia))))|done]].
    unfold waiting. cbn [entries_ head_ tail_ set_field]. rewrite En', Nat2Z.id, <-seq_shift, map_map.
    apply map_ext. intros i. f_equal. rewrite Z.add_mod_idemp_l by lia. f_equal. lia.
Qed.

(** The loop takes everything that waits, oldest first. *)
Lemma pop_all_spec fuel q : queue_ok q -> (length (waiting q) < fuel)%nat ->
  (pop_all fuel q).1 = waiting q /\ waiting (pop_all fuel q).2 = [] /\ queue_ok (pop_all fuel q).2.
Proof.
  revert q. induction fuel as [|n IH]; intros q Q F; [lia|]. cbn [pop_all].
  pose proof (Pop_spec q Q) as P. destruct (waiting q) as [|e l] eqn:W.
  - rewrite P. done.
  - destruct (Pop q) as [o r]. cbn [fst snd] in P. destruct P as (-> & P1 & P2 & _).
    specialize (IH r P2). rewrite P1 in IH. specialize (IH ltac:(cbn in F; lia)).
    destruct (pop_all n r) as [l' r']. cbn in *. destruct IH as (-> & ? & ?). done.
Qed.
End Queue.
Arguments EdgeQueue : clear implicits.


(** ** Cadence pulses and display receive *)
Definition kTimestampFrequency : Z := 170000000.
Definition kDisplayBaud : Z := 9600.
Definition kCrankQueue : Z := 32.
Definition kDisplayQueue : Z := 128.
Definition edge0 : EdgeUart.UartEdge := EdgeUart.mkUartEdge 0 false.
Definition g_display_decoder_init : EdgeUart.t := EdgeUart.EdgeUartDecoder (kTimestampFrequency / kDisplayBaud).

Definition CrankPulseIsr (now : Z) (q : EdgeQueue Z) : EdgeQueue Z := Push kCrankQueue now q.
Definition DisplayEdgeIsr (now : Z) (level : bool) (q : EdgeQueue EdgeUart.UartEdge) : EdgeQueue EdgeUart.UartEdge :=
  Push kDisplayQueue (EdgeUart.mkUartEdge now level) q.

(** [adc]: the conversion of the crank torque. *)
Definition ReadCrankTorque (adc : Z) : float := BccBoard.CountsToTorque adc.

Definition pulse_age (kNow ticks : Z) : float := f_div (f_of_Z (u32 (kNow - ticks))) (f_of_Z kTimestampFrequency).
Definition ReadCadencePulses (capacity : nat) (kNow : Z) (q : EdgeQueue Z) : list float * EdgeQueue Z :=
  let '(pulses, q) := pop_all 0 kCrankQueue (Z.to_nat kCrankQueue) q in
  (map (pulse_age kNow) (take capacity pulses), q).

Fixpoint read_bytes (capacity : nat) (d : EdgeUart.t) : list Z * EdgeUart.t :=
  match capacity with
  | O => ([], d)
  | S n => match EdgeUart.Pop d with
           | (None, d) => ([], d)
           | (Some b, d) => let '(l, d) := read_bytes n d in (b :: l, d)
           end
  end.
Definition ReadDisplay (capacity : nat) (kNow : Z) (q : EdgeQueue EdgeUart.UartEdge) (d : EdgeUart.t) :
    list Z * (EdgeQueue EdgeUart.UartEdge * EdgeUart.t) :=
  let '(edges, q) := pop_all edge0 kDisplayQueue (Z.to_nat kDisplayQueue) q in
  let d := EdgeUart.Poll kNow (foldl (fun d e => EdgeUart.Push e d) d edges) in
  let '(bytes, d) := read_bytes capacity d in (bytes, (q, d)).

(** The queue is empty afterwards and the ages are those of the oldest pulses;
    pulses beyond the span are dropped. *)
Lemma ReadCadencePulses_spec capacity kNow q : queue_ok kCrankQueue q ->
  (ReadCadencePulses capacity kNow q).1 = map (pulse_age kNow) (take capacity (waiting 0 kCrankQueue q)) /\
  waiting 0 kCrankQueue (ReadCadencePulses capacity kNow q).2 = [] /\ queue_ok kCrankQueue (ReadCadencePulses capacity kNow q).2.
Proof.
  intros Q. assert (1 < kCrankQueue <= 2 ^ 31) as K by done.
  assert (length (waiting 0%Z kCrankQueue q) < Z.to_nat kCrankQueue)%nat as W.
  { unfold waiting. rewrite length_map, length_seq. pose proof (Z.mod_pos_bound (head_ q - tail_ q) kCrankQueue ltac:(done)). lia. }
  destruct (pop_all_spec 0 kCrankQueue K (Z.to_nat kCrankQueue) q Q W) as (P1 & P2 & P3).
  unfold ReadCadencePulses. destruct (pop_all 0 kCrankQueue _ q) as [l r]. cbn [fst snd] in *. by rewrite P1.
Qed.

(** The age is exact to the resolution of a float across the wrap of the counter. *)
Lemma pulse_age_wraps kNow ticks n : 0 <= n < 2 ^ 32 -> kNow = u32 (ticks + n) ->
  pulse_age kNow ticks = f_div (f_of_Z n) (f_of_Z kTimestampFrequency).
Proof.
  intros Hn ->. unfold pulse_age. do 2 f_equal. unfold wrap. rewrite Zminus_mod_idemp_l.
  replace (ticks + n - ticks) with n by lia. by apply Z.mod_small.
Qed.

Lemma read_bytes_spec capacity d : EdgeUart.wf d ->
  (read_bytes capacity d).1 = take capacity (EdgeUart.contents d) /\
  EdgeUart.contents (read_bytes capacity d).2 = drop capacity (EdgeUart.contents d) /\ EdgeUart.wf (read_bytes capacity d).2.
Proof.
  revert d. induction capacity as [|n IH]; intros d W; [by rewrite drop_0|]. cbn [read_bytes].
  pose proof (EdgeUart.contents_Pop d W) as P. destruct (EdgeUart.contents d) as [|b l] eqn:E.
  - rewrite P. cbn. by rewrite E.
  - pose proof (EdgeUart.Pop_wf d W) as W'. destruct (EdgeUart.Pop d) as [o d']. cbn [fst snd] in *. destruct P as [-> P].
    destruct (IH d' W') as (I1 & I2 & I3). destruct (read_bytes n d') as [l' d'']. cbn [fst snd] in *.
    by rewrite I1, I2, P.
Qed.

(** The bytes handed out are the oldest ones the decoder has made of all the
    edges that waited; the others stay for the next call. *)
Lemma ReadDisplay_spec capacity kNow q d : queue_ok kDisplayQueue q -> EdgeUart.wf d ->
  let decoded := EdgeUart.Poll kNow (foldl (fun d e => EdgeUart.Push e d) d (waiting edge0 kDisplayQueue q)) in
  let '(bytes, (q', d')) := ReadDisplay capacity kNow q d in
  bytes = take capacity (EdgeUart.contents decoded) /\ EdgeUart.contents d' = drop capacity (EdgeUart.contents decoded) /\
  EdgeUart.wf d' /\ waiting edge0 kDisplayQueue q' = [] /\ queue_ok kDisplayQueue q'.
Proof.
  intros Q Wd. cbv zeta. assert (1 < kDisplayQueue <= 2 ^ 31) as K by done.
  assert (length (waiting edge0 kDisplayQueue q) < Z.to_nat kDisplayQueue)%nat as W.
  { unfold waiting. rewrite length_map, length_seq. pose proof (Z.mod_pos_bound (head_ q - tail_ q) kDisplayQueue ltac:(done)). lia. }
  destruct (pop_all_spec edge0 kDisplayQueue K (Z.to_nat kDisplayQueue) q Q W) as (P1 & P2 & P3).
  unfold ReadDisplay. destruct (pop_all edge0 kDisplayQueue _ q) as [l r]. cbn [fst snd] in *. rewrite P1.
  set (d1 := EdgeUart.Poll kNow _).
  assert (EdgeUart.wf d1) as W1.
  { apply EdgeUart.sample_loop_wf. apply foldl_invariant; [done|]. intros a e _ Ha. by apply EdgeUart.Push_wf. }
  destruct (read_bytes_spec capacity d1 W1) as (R1 & R2 & R3). destruct (read_bytes capacity d1) as [bytes d2]. done.
Qed.

(** ** Display transmit *)

(** The ring buffer of Zephyr (ring_buf.h): the bytes it holds, and its calls. *)
Class RingBuf (R : Type) := {
  ring_buf_space_get : R -> nat;
  ring_buf_put : list Z -> R -> nat * R;
  ring_buf_get : nat -> R -> list Z * R }.
Class RingBufLaws (R : Type) `{!RingBuf R} := {
  ring_bytes : R -> list Z;
  ring_put_law bytes r : (length bytes <= ring_buf_space_get r)%nat ->
    ring_bytes (ring_buf_put bytes r).2 = ring_bytes r ++ bytes;
  ring_get_law n r : (ring_buf_get n r).1 = take n (ring_bytes r) /\ ring_bytes (ring_buf_get n r).2 = drop n (ring_bytes r) }.

(** The interrupt-driven UART of Zephyr (drivers/uart.h): a fill takes a prefix
    of the bytes and returns how many; those are sent. *)
Class TxUart (U : Type) := {
  uart_irq_tx_enable : U -> U;
  uart_irq_tx_disable : U -> U;
  uart_fifo_fill : list Z -> U -> nat * U }.
Class TxUartLaws (U : Type) `{!TxUart U} := {
  uart_sent : U -> list Z;
  tx_enable_law u : uart_sent (uart_irq_tx_enable u) = uart_sent u;
  tx_disable_law u : uart_sent (uart_irq_tx_disable u) = uart_sent u;
  fifo_fill_law bytes u :
    ((uart_fifo_fill bytes u).1 <= length bytes)%nat /\
    uart_sent (uart_fifo_fill bytes u).2 = uart_sent u ++ take (uart_fifo_fill bytes u).1 bytes }.

Section Transmit.
Context {R U : Type} `{!RingBuf R} `{!TxUart U}.

Definition WriteDisplay (bytes : list Z) (s : R * U) : R * U :=
  let '(ring, uart) := s in
  if (ring_buf_space_get ring <? length bytes)%nat then s
  else ((ring_buf_put bytes ring).2, uart_irq_tx_enable uart).

(** [ready]: the interrupt is the one of the transmitter. *)
Definition DisplayUartIsr (ready : bool) (s : R * U) : R * U :=
  let '(ring, uart) := s in
  if negb ready then s
  else
    let '(chunk, ring) := ring_buf_get 16 ring in
    if (length chunk =? 0)%nat then (ring, uart_irq_tx_disable uart)
    else (ring, (uart_fifo_fill chunk uart).2).

Context `{!RingBufLaws R} `{!TxUartLaws U}.

(** What was sent, followed by what still waits. *)
Definition on_the_line (s : R * U) : list Z := uart_sent s.2 ++ ring_bytes s.1.

Lemma WriteDisplay_whole bytes s :
  on_the_line (WriteDisplay bytes s) =
  if (ring_buf_space_get s.1 <? length bytes)%nat then on_the_line s else on_the_line s ++ bytes.
Proof.
  destruct s as [ring uart]. unfold WriteDisplay, on_the_line. cbn [fst snd].
  destruct (Nat.ltb_spec (ring_buf_space_get ring) (length bytes)); [done|]. cbn [fst snd].
  by rewrite tx_enable_law, ring_put_law, app_assoc by lia.
Qed.

(** An interrupt: the bytes of the chunk the UART does not take are dropped. *)
Lemma DisplayUartIsr_line s :
  let chunk := take 16 (ring_bytes s.1) in
  let n := (uart_fifo_fill chunk s.2).1 in
  on_the_line (DisplayUartIsr true s) = uart_sent s.2 ++ take n chunk ++ drop 16 (ring_bytes s.1).
Proof.
  destruct s as [ring uart]. unfold DisplayUartIsr, on_the_line. cbn [fst snd negb].
  destruct (ring_get_law 16 ring) as [G1 G2]. destruct (ring_buf_get 16 ring) as [chunk ring']. cbn [fst snd] in *. subst chunk.
  destruct (Nat.eqb_spec (length (take 16 (ring_bytes ring))) 0) as [E|E]; cbn [fst snd]; rewrite G2.
  - apply nil_length_inv in E. by rewrite E, tx_disable_law, take_nil.
  - destruct (fifo_fill_law (take 16 (ring_bytes ring)) uart) as [_ ->]. by rewrite app_assoc.
Qed.

(** With a UART that takes a whole chunk every byte written goes out, in order,
    whatever the number of interrupts. *)
Lemma display_tx_in_order (takes_all : forall bytes u, (length bytes <= 16)%nat -> (uart_fifo_fill bytes u).1 = length bytes)
    (interrupts : list bool) s :
  on_the_line (foldl (fun s ready => DisplayUartIsr ready s) s interrupts) = on_the_line s.
Proof.
  revert s. induction interrupts as [|ready l IH]; intros s; [done|]. cbn [foldl]. rewrite IH. destruct ready; [|by destruct s].
  rewrite DisplayUartIsr_line. rewrite takes_all by (rewrite length_take; lia).
  rewrite (take_ge _ (length _)) by lia. by rewrite take_drop.
Qed.
End Transmit.

(** *** A ring of 64 bytes, and a UART that takes [n] bytes at a time *)
#[export] Instance list_ring : RingBuf (list Z) := {|
  ring_buf_space_get r := (64 - length r)%nat;
  ring_buf_put bytes r := (length bytes, r ++ bytes);
  ring_buf_get n r := (take n r, drop n r) |}.
#[export, refine] Instance list_ring_laws : RingBufLaws (list Z) := {| ring_bytes r := r |}.
Proof. all: done. Defined.
Record ByteUart := mkByteUart { takes : nat; sent : list Z; tx_irq : bool }.
#[export] Instance byte_uart : TxUart ByteUart := {|
  uart_irq_tx_enable u := mkByteUart (takes u) (sent u) true;
  uart_irq_tx_disable u := mkByteUart (takes u) (sent u) false;
  uart_fifo_fill bytes u := (Nat.min (takes u) (length bytes), mkByteUart (takes u) (sent u ++ take (takes u) bytes) (tx_irq u)) |}.
#[export, refine] Instance byte_uart_laws : TxUartLaws ByteUart := {| uart_sent := sent |}.
Proof.
  - done.
  - done.
  - intros bytes u. cbn. split; [lia|]. f_equal. destruct (Nat.le_ge_cases (takes u) (length bytes)).
    + by rewrite Nat.min_l.
    + rewrite Nat.min_r by done. by rewrite !take_ge.
Defined.

(** The return value of the fill is not looked at: of a frame of five bytes a
    UART without a FIFO sends the first one, a UART with a FIFO sends all. *)
Lemma fill_result_ignored :
  let frame := [2; 14; 1; 0; 13] in
  let after n := foldl (fun s ready => DisplayUartIsr ready s) (WriteDisplay frame ([], mkByteUart n [] false)) [true; true; true; true; true; true] in
  sent (after 1%nat).2 = [2] /\ (after 1%nat).1 = [] /\ sent (after 16%nat).2 = frame.
Proof. vm_compute. auto. Qed.

End BccEbikeIo.
