(* ===== verification/ZephyrCan.v ===== *)
(** * The CAN controller of the firmware

    hardware/zephyr_common/zephyr_can_media.{hpp,cpp}: the Zephyr CAN driver as
    a CAN interface of the Cyphal transport, an instance of [CanMedia].  The
    driver and the message queue of the kernel are classes; the queue's laws are
    what k_msgq_put() and k_msgq_get() document. *)
From Stdlib Require Import ZArith Lia Bool.
From stdpp Require Import base decidable list option.
From S2P Require Import Prelude DriveMessages CanMedia.
Import DriveMessages(CanBusState, CanBusStatus, mkCanBusStatus, bus_kErrorActive, bus_kErrorWarning, bus_kErrorPassive, bus_kBusOff).
Import CanMedia.

#[local] Open Scope Z_scope.
#[local] Open Scope unimoc_scope.

Module ZephyrCan.

(** The frame and the states of the Zephyr CAN API. *)
Record can_frame := mkCanFrame { id : Z; ide : bool; fdf : bool; brs : bool; rtr : bool; dlc : Z; payload : list Z }.
Inductive can_state := CAN_STATE_ERROR_ACTIVE | CAN_STATE_ERROR_WARNING | CAN_STATE_ERROR_PASSIVE | CAN_STATE_BUS_OFF
  | CAN_STATE_STOPPED.

(** The driver: each call answers its result, 0 or a negative errno. *)
Class CanDriver (D : Type) := {
  device_is_ready : D -> bool;
  supports_fd : D -> bool;
  can_set_mode : bool -> D -> Z * D;
  can_add_rx_filter : D -> Z * D;
  can_start : D -> Z * D;
  can_send : can_frame -> D -> Z * D }.

(** The message queue of the kernel, of kRxQueueLength frames. *)
Class MsgQueue (Q : Type) := {
  k_msgq_init : nat -> Q -> Q;
  k_msgq_put : can_frame -> Q -> Z * Q;
  k_msgq_get : Q -> option can_frame * Q }.
Class MsgQueueLaws (Q : Type) `{!MsgQueue Q} := {
  queued : Q -> list can_frame;
  capacity : Q -> nat;
  msgq_init_law n q : queued (k_msgq_init n q) = [] /\ capacity (k_msgq_init n q) = n;
  msgq_put_law f q :
    capacity (k_msgq_put f q).2 = capacity q /\
    if (length (queued q) <? capacity q)%nat then (k_msgq_put f q).1 = 0 /\ queued (k_msgq_put f q).2 = queued q ++ [f]
    else (k_msgq_put f q).1 <> 0 /\ queued (k_msgq_put f q).2 = queued q;
  msgq_get_law q :
    capacity (k_msgq_get q).2 = capacity q /\
    match queued q with
    | [] => (k_msgq_get q).1 = None /\ queued (k_msgq_get q).2 = []
    | f :: l => (k_msgq_get q).1 = Some f /\ queued (k_msgq_get q).2 = l
    end }.

(** The length codes of a frame (can_bytes_to_dlc(), can_dlc_to_bytes()). *)
Class DlcCodes := {
  can_bytes_to_dlc : nat -> Z;
  can_dlc_to_bytes : Z -> nat;
  dlc_covers n : (n <= kCanFdMtu)%nat -> (n <= can_dlc_to_bytes (can_bytes_to_dlc n) <= kCanFdMtu)%nat;
  dlc_classic n : (n <= kCanClassicMtu)%nat -> can_dlc_to_bytes (can_bytes_to_dlc n) = n }.

Section Media.
Context {D Q : Type} `{!CanDriver D} `{!MsgQueue Q} `{!DlcCodes}.

Record ZephyrCanMedia := mkMedia {
  device_ : option D; wakes : Z; rx_queue_ : Q; mtu_ : nat; brs_ : bool; rx_overruns_ : Z;
  bus_state_ : CanBusState; bus_off_count_ : Z }.
#[export] Instance eta_Media : Eta ZephyrCanMedia := fun s =>
  mkMedia (device_ s) (wakes s) (rx_queue_ s) (mtu_ s) (brs_ s) (rx_overruns_ s) (bus_state_ s) (bus_off_count_ s).
Definition ZephyrCanMedia_init (q : Q) : ZephyrCanMedia := mkMedia None 0 q kCanClassicMtu false 0 bus_kErrorActive 0.
Definition kRxQueueLength : nat := 32.
Definition ENODEV : Z := 19.
Definition EALREADY : Z := 120.

(** [wake_]: the semaphore is given once more. *)
Definition give_wake (s : ZephyrCanMedia) : ZephyrCanMedia := s.{wakes := wakes s + 1}.

Definition Init (device : option D) (use_fd kBrs : bool) (s : ZephyrCanMedia) : Z * ZephyrCanMedia :=
  match device with
  | None => (- ENODEV, s)
  | Some d =>
      if negb (device_is_ready d) then (- ENODEV, s)
      else
        let s := s.{device_ := Some d}.{rx_queue_ := k_msgq_init kRxQueueLength (rx_queue_ s)} in
        let fd := use_fd && supports_fd d in
        let s := if fd then s.{mtu_ := kCanFdMtu}.{brs_ := kBrs} else s in
        let '(result, d) := can_set_mode fd d in
        if negb (result =? 0) then (result, s.{device_ := Some d})
        else
          let '(result, d) := can_add_rx_filter d in
          if result <? 0 then (result, s.{device_ := Some d})
          else
            let '(result, d) := can_start d in
            ((if result =? - EALREADY then 0 else result), s.{device_ := Some d})
  end.

Definition OnFrame (frame : can_frame) (s : ZephyrCanMedia) : ZephyrCanMedia :=
  if rtr frame then s
  else
    let '(result, q) := k_msgq_put frame (rx_queue_ s) in
    let s := s.{rx_queue_ := q} in
    let s := if negb (result =? 0) then s.{rx_overruns_ := u32 (rx_overruns_ s + 1)} else s in
    give_wake s.

Definition OnStateChange (state : can_state) (s : ZephyrCanMedia) : ZephyrCanMedia :=
  let bus_state := match state with
                   | CAN_STATE_ERROR_WARNING => bus_kErrorWarning
                   | CAN_STATE_ERROR_PASSIVE => bus_kErrorPassive
                   | CAN_STATE_BUS_OFF => bus_kBusOff
                   | _ => bus_kErrorActive
                   end in
  let s := match state with
           | CAN_STATE_BUS_OFF => s.{bus_off_count_ := u32 (bus_off_count_ s + 1)}
           | _ => s
           end in
  give_wake (s.{bus_state_ := bus_state}).

Definition zephyr_BusStatus (s : ZephyrCanMedia) : CanBusStatus := mkCanBusStatus (bus_state_ s) (bus_off_count_ s).

(** The frame given to the driver: 64 bytes, those of the frame first. *)
Definition out_frame (frame : CanFrame) (s : ZephyrCanMedia) : can_frame :=
  let fd := (kCanClassicMtu <? mtu_ s)%nat in
  let n := Nat.min (size frame) kCanFdMtu in
  mkCanFrame (Z.land (extended_can_id frame) 0x1FFFFFFF) true fd (fd && brs_ s) false (can_bytes_to_dlc (size frame))
    (take n (data frame) ++ replicate (kCanFdMtu - n) 0).
Definition zephyr_Push (frame : CanFrame) (s : ZephyrCanMedia) : bool * ZephyrCanMedia :=
  match device_ s with
  | None => (false, s)
  | Some d => let '(kResult, d) := can_send (out_frame frame s) d in (kResult =? 0, s.{device_ := Some d})
  end.

Definition zephyr_Pop (frame : CanFrame) (s : ZephyrCanMedia) : bool * CanFrame * ZephyrCanMedia :=
  match device_ s with
  | None => (false, frame, s)
  | Some _ =>
      match k_msgq_get (rx_queue_ s) with
      | (None, q) => (false, frame, s.{rx_queue_ := q})
      | (Some received, q) =>
          let n := can_dlc_to_bytes (dlc received) in
          let k := Nat.min n kCanFdMtu in
          (true, mkFrame (id received) n (take k (payload received) ++ drop k (data frame)), s.{rx_queue_ := q})
      end
  end.

#[export] Instance zephyr_media : CanMedia ZephyrCanMedia := {|
  Mtu := mtu_; Push := zephyr_Push; Pop := zephyr_Pop; BusStatus := zephyr_BusStatus |}.

(** ** Lemmas *)
Context `{!MsgQueueLaws Q}.

Definition data_frames (l : list can_frame) : list can_frame := filter (fun f => rtr f = false) l.

(** The frames of the bus between two runs of the thread: data frames are queued
    in order as long as there is room, the others counted; every data frame
    wakes the thread. *)
Lemma OnFrame_all l s :
  let t := foldl (fun s f => OnFrame f s) s l in
  let n := (capacity (rx_queue_ s) - length (queued (rx_queue_ s)))%nat in
  (length (queued (rx_queue_ s)) <= capacity (rx_queue_ s))%nat ->
  queued (rx_queue_ t) = queued (rx_queue_ s) ++ take n (data_frames l) /\
  capacity (rx_queue_ t) = capacity (rx_queue_ s) /\
  wakes t = wakes s + Z.of_nat (length (data_frames l)) /\ device_ t = device_ s /\
  (length (data_frames l) - n = 0 -> rx_overruns_ t = rx_overruns_ s)%nat.
Proof.
  revert s. induction l as [|f l IH]; intros s; cbn [foldl].
  { cbv zeta. intros _. change (data_frames []) with (@nil can_frame). rewrite take_nil, app_nil_r. split_and!; try done. cbn. lia. }
  cbv zeta. intros Le. unfold data_frames. rewrite filter_cons. destruct (rtr f) eqn:R.
  - rewrite decide_False by done. unfold OnFrame at 2 4 6 8 10. rewrite R. by apply IH.
  - rewrite decide_True by done. fold (data_frames l).
    destruct (msgq_put_law f (rx_queue_ s)) as [C P].
    assert (exists r q, k_msgq_put f (rx_queue_ s) = (r, q) /\
      OnFrame f s = give_wake (let s := s.{rx_queue_ := q} in if negb (r =? 0) then s.{rx_overruns_ := u32 (rx_overruns_ s + 1)} else s))
      as (r & q & E & ->).
    { unfold OnFrame. rewrite R. destruct (k_msgq_put f (rx_queue_ s)) as [r q]. by exists r, q. }
    rewrite E in C, P. cbn [fst snd] in C, P. cbv zeta.
    set (t := if negb (r =? 0) then _ else _).
    assert (rx_queue_ t = q /\ wakes t = wakes s /\ device_ t = device_ s /\ (r = 0 -> rx_overruns_ t = rx_overruns_ s)) as (T1 & T2 & T3 & T4).
    { subst t. destruct (Z.eqb_spec r 0); cbn; done. }
    clearbody t. specialize (IH (give_wake t)). cbv zeta in IH. change (rx_queue_ (give_wake t)) with (rx_queue_ t) in IH.
    change (device_ (give_wake t)) with (device_ t) in IH. change (wakes (give_wake t)) with (wakes t + 1) in IH.
    change (rx_overruns_ (give_wake t)) with (rx_overruns_ t) in IH. rewrite T1, T2, T3, C in IH.
    destruct (Nat.ltb_spec (length (queued (rx_queue_ s))) (capacity (rx_queue_ s))) as [F|F]; destruct P as [Pr Pq]; rewrite Pq in IH.
    + rewrite length_app in IH. cbn [length] in IH. destruct IH as (I1 & I2 & I3 & I4 & I5); [lia|].
      rewrite I1, I2, I3, I4. split.
      { rewrite <-app_assoc. f_equal. cbn [app].
        replace (capacity (rx_queue_ s) - length (queued (rx_queue_ s)))%nat
          with (S (capacity (rx_queue_ s) - (length (queued (rx_queue_ s)) + 1)))%nat by lia. done. }
      split; [done|]. split; [cbn [length]; lia|]. split; [done|]. cbn [length]. intros N. rewrite I5 by lia. by apply T4.
    + destruct IH as (I1 & I2 & I3 & I4 & I5); [lia|]. rewrite I1, I2, I3, I4.
      replace (capacity (rx_queue_ s) - length (queued (rx_queue_ s)))%nat with 0%nat by lia. rewrite !take_0.
      split; [done|]. split; [done|]. split; [cbn [length]; lia|]. split; [done|]. cbn [length]. lia.
Qed.

(** What one controller sends another receives: the identifier, and the bytes
    of the frame padded with zeros to the next length the bus has (none on
    classic CAN). *)
Lemma controller_roundtrip (f given : CanFrame) (s t : ZephyrCanMedia) d q : frame_ok f ->
  device_ t = Some d -> k_msgq_get (rx_queue_ t) = (Some (out_frame f s), q) ->
  let '(ok, g, _) := zephyr_Pop given t in
  let n := can_dlc_to_bytes (can_bytes_to_dlc (size f)) in
  ok = true /\ valid_bytes g = (extended_can_id f, take (size f) (data f) ++ replicate (n - size f) 0) /\
  ((size f <= kCanClassicMtu)%nat -> valid_bytes g = valid_bytes f).
Proof.
  intros [Fi Fs Fl Fd] Hd Hg. unfold zephyr_Pop. rewrite Hd, Hg. cbv zeta.
  pose proof (dlc_covers (size f) Fs) as [C1 C2]. set (n := can_dlc_to_bytes (can_bytes_to_dlc (size f))) in *.
  assert (Z.land (extended_can_id f) 0x1FFFFFFF = extended_can_id f) as Ei.
  { change 0x1FFFFFFF with (Z.ones 29). rewrite Z.land_ones by lia. by apply Z.mod_small. }
  assert (forall rest, take n (take (Nat.min n kCanFdMtu) (payload (out_frame f s)) ++ rest) =
    take (size f) (data f) ++ replicate (n - size f) 0) as P.
  { intros rest. rewrite Nat.min_l by done. unfold out_frame. cbn [payload]. rewrite (Nat.min_l (size f)) by done.
    assert (length (take (size f) (data f)) = size f) as Lt by (rewrite length_take, Fl; lia).
    rewrite take_app_length' by (rewrite length_take, length_app, Lt, length_replicate; lia).
    rewrite take_app, Lt. rewrite (take_ge (take _ _)) by lia. f_equal. rewrite take_replicate. f_equal. lia. }
  split; [done|]. unfold valid_bytes. cbn [extended_can_id size data id dlc out_frame]. fold n. rewrite Ei.
  change (can_dlc_to_bytes (dlc (out_frame f s))) with n. rewrite P. split; [done|].
  intros L. assert (n = size f) as -> by (by apply dlc_classic). by rewrite Nat.sub_diag, app_nil_r.
Qed.

(** The status reported is that of the last change, with the bus-offs counted. *)
Lemma bus_status_tracks x s :
  zephyr_BusStatus (OnStateChange x s) =
  mkCanBusStatus
    match x with
    | CAN_STATE_ERROR_WARNING => bus_kErrorWarning
    | CAN_STATE_ERROR_PASSIVE => bus_kErrorPassive
    | CAN_STATE_BUS_OFF => bus_kBusOff
    | _ => bus_kErrorActive
    end
    (match x with CAN_STATE_BUS_OFF => u32 (bus_off_count_ s + 1) | _ => bus_off_count_ s end).
Proof. by destruct x. Qed.
End Media.

End ZephyrCan.
