(* ===== verification/MachineTypes.v ===== *)
(** * Control laws of the other machine types

    lib/motor_control/src/mtpa.hpp, field_weakening.hpp, excitation_controller.hpp,
    excitation_observer.hpp, asm_flux_controller.hpp and asm_flux_observer.hpp:
    current references of interior-magnet machines, field weakening, the rotor
    excitation of wound-rotor machines and the rotor flux of induction machines.
    The library offers them; the drive does not call them yet. *)
From Stdlib Require Import ZArith Lia Bool SpecFloat.
From stdpp Require Import base decidable list option.
From S2P Require Import Prelude Float32 FloatRound CurrentControl SettingsData Transforms RotorAngle Observers.
Import CurrentControl Transforms Observers.

#[local] Open Scope Z_scope.
#[local] Open Scope unimoc_scope.

Module MachineTypes.

(** ** Maximum torque per ampere *)
Record Mtpa := mkMtpa { flux_pm : float; mtpa_L_d : float; mtpa_L_q : float }.
Definition kXi (m : Mtpa) : float := f_div (flux_pm m) (f_mul (f_of_Z 2) (f_sub (mtpa_L_d m) (mtpa_L_q m))).
Definition Mtpa_Calculate (i_s : float) (m : Mtpa) : float :=
  let kDeltaL := f_sub (mtpa_L_d m) (mtpa_L_q m) in
  if f_ltb (Abs kDeltaL) (f_dec 1 1000000000) then f_zero
  else
    let kIS2 := f_mul i_s f_half in
    let kID := f_sub (kXi m) (Hypot (kXi m) kIS2) in
    Clamp kID (f_neg i_s) f_zero.

(** ** Field weakening *)
Record FieldWeakening := mkFieldWeakening { fw_v_max : float; fw_ki : float; fw_i_d_min : float; i_d_fw : float }.
#[export] Instance eta_FieldWeakening : Eta FieldWeakening := fun s =>
  mkFieldWeakening (fw_v_max s) (fw_ki s) (fw_i_d_min s) (i_d_fw s).
Definition FieldWeakening_init : FieldWeakening := mkFieldWeakening (f_dec 9 10) (f_of_Z 10) (f_of_Z (-10)) f_zero.
Definition headroom_step (v_s : Stator) (dt : float) (s : FieldWeakening) : float :=
  let kVMag := Hypot (alpha v_s) (beta v_s) in
  let kError := f_sub (fw_v_max s) kVMag in
  f_mul (f_mul (fw_ki s) kError) dt.
Definition FieldWeakening_Update (v_s : Stator) (dt : float) (s : FieldWeakening) : float * FieldWeakening :=
  let i := f_add (i_d_fw s) (headroom_step v_s dt s) in
  let s := s.{i_d_fw := Clamp i (fw_i_d_min s) f_zero} in
  (i_d_fw s, s).
Definition FieldWeakening_Reset (s : FieldWeakening) : FieldWeakening := s.{i_d_fw := f_zero}.

(** ** Rotor excitation *)
Inductive ExcitationMode := kCurrentMode | kFluxMode.
Record ExcitationController := mkExcitation {
  mode : ExcitationMode; exc_L_m : float; exc_kp : float; exc_ki : float; i_f_min : float; i_f_max : float;
  current_setpoint : float; flux_setpoint : float; exc_integrator : float; i_f_ref : float }.
#[export] Instance eta_ExcitationController : Eta ExcitationController := fun s =>
  mkExcitation (mode s) (exc_L_m s) (exc_kp s) (exc_ki s) (i_f_min s) (i_f_max s) (current_setpoint s) (flux_setpoint s)
    (exc_integrator s) (i_f_ref s).
Definition ExcitationController_init : ExcitationController :=
  mkExcitation kCurrentMode (f_dec 47 1000) (f_of_Z 5) (f_of_Z 50) f_zero (f_of_Z 10) f_zero f_zero f_zero f_zero.
Definition i_f_setpoint (s : ExcitationController) : float :=
  match mode s with
  | kFluxMode => if f_gtb (exc_L_m s) (f_dec 1 1000000000) then f_div (flux_setpoint s) (exc_L_m s) else current_setpoint s
  | kCurrentMode => current_setpoint s
  end.
Definition ExcitationController_Update (i_f_meas dt : float) (s : ExcitationController) : float * ExcitationController :=
  let kError := f_sub (i_f_setpoint s) i_f_meas in
  let s := s.{exc_integrator := Clamp (f_add (exc_integrator s) (f_mul (f_mul (exc_ki s) kError) dt)) (i_f_min s) (i_f_max s)} in
  let s := s.{i_f_ref := Clamp (f_add (f_mul (exc_kp s) kError) (exc_integrator s)) (i_f_min s) (i_f_max s)} in
  (i_f_ref s, s).
Definition ExcitationController_Reset (s : ExcitationController) : ExcitationController :=
  s.{exc_integrator := f_zero}.{i_f_ref := f_zero}.

Record ExcitationObserver := mkExcitationObserver { obs_L_m : float; obs_tau : float; i_f_hat : float; psi_f_hat : float }.
#[export] Instance eta_ExcitationObserver : Eta ExcitationObserver := fun s =>
  mkExcitationObserver (obs_L_m s) (obs_tau s) (i_f_hat s) (psi_f_hat s).
Definition ExcitationObserver_init : ExcitationObserver := mkExcitationObserver (f_dec 47 1000) (f_dec 2 1000) f_zero f_zero.
Definition ExcitationObserver_Update (i_f_meas dt : float) (s : ExcitationObserver) : ExcitationObserver :=
  let s :=
    if f_gtb (obs_tau s) (f_dec 1 1000000000000) then
      let kAlpha := f_div dt (obs_tau s) in
      s.{i_f_hat := f_add (i_f_hat s) (f_mul kAlpha (f_sub i_f_meas (i_f_hat s)))}
    else s.{i_f_hat := i_f_meas} in
  s.{psi_f_hat := f_mul (obs_L_m s) (i_f_hat s)}.
Definition ExcitationObserver_Reset (i_f_init : float) (s : ExcitationObserver) : ExcitationObserver :=
  let s := s.{i_f_hat := i_f_init} in s.{psi_f_hat := f_mul (obs_L_m s) (i_f_hat s)}.

(** ** Induction machine *)
Record AsmFluxController := mkAsmController {
  ctl_R_r : float; ctl_L_r : float; ctl_L_m : float; asm_kp : float; asm_ki : float; i_d_min : float; i_d_max : float;
  asm_integrator : float; i_d_ref : float; omega_slip : float }.
#[export] Instance eta_AsmFluxController : Eta AsmFluxController := fun s =>
  mkAsmController (ctl_R_r s) (ctl_L_r s) (ctl_L_m s) (asm_kp s) (asm_ki s) (i_d_min s) (i_d_max s) (asm_integrator s)
    (i_d_ref s) (omega_slip s).
Definition AsmFluxController_init : AsmFluxController :=
  mkAsmController (f_dec 3 10) (f_dec 50 1000) (f_dec 47 1000) (f_of_Z 10) (f_of_Z 50) f_zero (f_of_Z 10) f_zero f_zero f_zero.
Definition AsmFluxController_Update (psi_r_ref psi_r_meas i_q dt : float) (s : AsmFluxController) : float * AsmFluxController :=
  let kError := f_sub psi_r_ref psi_r_meas in
  let s := s.{asm_integrator := Clamp (f_add (asm_integrator s) (f_mul (f_mul (asm_ki s) kError) dt)) (i_d_min s) (i_d_max s)} in
  let s := s.{i_d_ref := Clamp (f_add (f_mul (asm_kp s) kError) (asm_integrator s)) (i_d_min s) (i_d_max s)} in
  let s :=
    if f_gtb psi_r_ref (f_dec 1 1000000) then
      let kRotorTimeConstant := f_div (ctl_L_r s) (ctl_R_r s) in
      let kSlipRatio := f_div (f_mul (ctl_L_m s) i_q) psi_r_ref in
      s.{omega_slip := f_div (f_mul kSlipRatio f_one) kRotorTimeConstant}
    else s.{omega_slip := f_zero} in
  (i_d_ref s, s).
Definition AsmFluxController_Reset (s : AsmFluxController) : AsmFluxController :=
  s.{asm_integrator := f_zero}.{i_d_ref := f_zero}.{omega_slip := f_zero}.

Record AsmFluxObserver := mkAsmObserver {
  R_s : float; R_r : float; L_s : float; L_r : float; L_m : float; g_i : float; g_flux : float;
  i_alpha_hat : float; i_beta_hat : float; psi_r_alpha : float; psi_r_beta : float;
  flux_magnitude : float; flux_angle : float; sin_flux : float; cos_flux : float }.
#[export] Instance eta_AsmFluxObserver : Eta AsmFluxObserver := fun s =>
  mkAsmObserver (R_s s) (R_r s) (L_s s) (L_r s) (L_m s) (g_i s) (g_flux s) (i_alpha_hat s) (i_beta_hat s) (psi_r_alpha s)
    (psi_r_beta s) (flux_magnitude s) (flux_angle s) (sin_flux s) (cos_flux s).
Definition AsmFluxObserver_init : AsmFluxObserver :=
  mkAsmObserver (f_half) (f_dec 3 10) (f_dec 50 1000) (f_dec 50 1000) (f_dec 47 1000) (f_of_Z 500) (f_of_Z 5000)
    f_zero f_zero f_zero f_zero f_zero f_zero f_zero f_one.
Definition CalcSigma (s : AsmFluxObserver) : float :=
  f_sub f_one (f_div (f_mul (L_m s) (L_m s)) (f_mul (L_s s) (L_r s))).

Section Asm.
(** The arc tangent of the C library. *)
Context (atan2 : float -> float -> float).

(** The Euler step of the stator current and the rotor flux. *)
Definition asm_integrate (v_ab i_ab : Stator) (dt kOmegaR : float) (s : AsmFluxObserver) : AsmFluxObserver :=
  let kSigma := CalcSigma s in
  let kInvTR := f_div (R_r s) (L_r s) in
  let kInvSLs := f_div f_one (f_mul kSigma (L_s s)) in
  let kAlphaI := f_add (f_mul (R_s s) kInvSLs) (f_div (f_mul (f_sub f_one kSigma) kInvTR) kSigma) in
  let kFlux := f_div (L_m s) (f_mul (f_mul kSigma (L_s s)) (L_r s)) in
  let kErrAlpha := f_sub (alpha i_ab) (i_alpha_hat s) in
  let kErrBeta := f_sub (beta i_ab) (i_beta_hat s) in
  let kDiAlpha := f_add (f_add (f_add (f_mul (f_neg kAlphaI) (i_alpha_hat s))
      (f_mul kFlux (f_add (f_mul kInvTR (psi_r_alpha s)) (f_mul kOmegaR (psi_r_beta s)))))
      (f_mul kInvSLs (alpha v_ab))) (f_mul (g_i s) kErrAlpha) in
  let kDiBeta := f_add (f_add (f_add (f_mul (f_neg kAlphaI) (i_beta_hat s))
      (f_mul kFlux (f_sub (f_mul kInvTR (psi_r_beta s)) (f_mul kOmegaR (psi_r_alpha s)))))
      (f_mul kInvSLs (beta v_ab))) (f_mul (g_i s) kErrBeta) in
  let kDpsiRAlpha := f_add (f_sub (f_sub (f_mul (f_mul (L_m s) kInvTR) (i_alpha_hat s)) (f_mul kInvTR (psi_r_alpha s)))
      (f_mul kOmegaR (psi_r_beta s))) (f_mul (g_flux s) kErrAlpha) in
  let kDpsiRBeta := f_add (f_add (f_sub (f_mul (f_mul (L_m s) kInvTR) (i_beta_hat s)) (f_mul kInvTR (psi_r_beta s)))
      (f_mul kOmegaR (psi_r_alpha s))) (f_mul (g_flux s) kErrBeta) in
  s.{i_alpha_hat := f_add (i_alpha_hat s) (f_mul dt kDiAlpha)}.{i_beta_hat := f_add (i_beta_hat s) (f_mul dt kDiBeta)}
   .{psi_r_alpha := f_add (psi_r_alpha s) (f_mul dt kDpsiRAlpha)}.{psi_r_beta := f_add (psi_r_beta s) (f_mul dt kDpsiRBeta)}.

(** Magnitude, angle and direction of the estimated flux. *)
Definition asm_direction (s : AsmFluxObserver) : AsmFluxObserver :=
  let s := s.{flux_magnitude := Hypot (psi_r_alpha s) (psi_r_beta s)}.{flux_angle := atan2 (psi_r_beta s) (psi_r_alpha s)} in
  if f_gtb (flux_magnitude s) f_zero
  then s.{sin_flux := f_div (psi_r_beta s) (flux_magnitude s)}.{cos_flux := f_div (psi_r_alpha s) (flux_magnitude s)}
  else s.{sin_flux := f_zero}.{cos_flux := f_one}.

(** [None]: the angle error cannot be wrapped (the observer's PLL). *)
Definition AsmFluxObserver_Update (v_ab i_ab : Stator) (dt : float) (mech_obs : MechanicalObserver) (s : AsmFluxObserver) :
    option (AsmFluxObserver * MechanicalObserver) :=
  let s := asm_direction (asm_integrate v_ab i_ab dt (omega mech_obs) s) in
  let kAngleError := f_sub (f_mul (sin_flux s) (cos_theta mech_obs)) (f_mul (cos_flux s) (sin_theta mech_obs)) in
  o ← InjectAngleError (f_mul kAngleError f_one) dt mech_obs;
  Some (s, o).
Definition AsmFluxObserver_Reset (s : AsmFluxObserver) : AsmFluxObserver :=
  s.{i_alpha_hat := f_zero}.{i_beta_hat := f_zero}.{psi_r_alpha := f_zero}.{psi_r_beta := f_zero}.{flux_magnitude := f_zero}
   .{flux_angle := f_zero}.{sin_flux := f_zero}.{cos_flux := f_one}.
End Asm.

(** ** Lemmas *)
Lemma Clamp_low v lo hi : is_nan v = false -> f_leb lo hi = true -> f_leb v lo = true -> is_nan lo = false ->
  f_leb (Clamp v lo hi) lo = true /\ f_leb lo (Clamp v lo hi) = true.
Proof.
  intros N L V Nl. destruct (Clamp_range v lo hi N L) as [C _]. split; [|exact C]. clear C.
  float_facts. unfold Clamp, std_min, std_max. destruct (f_ltb v lo) eqn:E1; case_if; auto with float; float_order.
Qed.

(** A clamp is monotone against a bound. *)
Lemma Clamp_below v lo hi w : f_leb v w = true -> f_leb lo w = true -> f_leb (Clamp v lo hi) w = true.
Proof.
  intros V L. float_facts. unfold Clamp, std_min, std_max.
  destruct (f_ltb v lo) eqn:E1; destruct (f_ltb hi _) eqn:E2; try done; float_order.
Qed.
Lemma Clamp_above v lo hi w : f_leb w v = true -> f_leb w hi = true -> f_leb w (Clamp v lo hi) = true.
Proof.
  intros V L. float_facts. unfold Clamp, std_min, std_max.
  destruct (f_ltb v lo) eqn:E1; destruct (f_ltb hi _) eqn:E2; try done; float_order.
Qed.

(** Field weakening never commands a positive current or one below the limit,
    and goes towards the limit while the voltage is above v_max, towards zero
    while it is below. *)
Lemma field_weakening_range v_s dt s : f_leb (fw_i_d_min s) f_zero = true ->
  is_nan (f_add (i_d_fw s) (headroom_step v_s dt s)) = false ->
  let '(i, t) := FieldWeakening_Update v_s dt s in
  i = i_d_fw t /\ f_leb (fw_i_d_min t) i = true /\ f_leb i f_zero = true /\ fw_i_d_min t = fw_i_d_min s.
Proof.
  intros L N. cbn. destruct (Clamp_range _ (fw_i_d_min s) f_zero N L). done.
Qed.

Lemma field_weakening_direction v_s dt s :
  fin (i_d_fw s) -> fin (headroom_step v_s dt s) -> fin (fw_i_d_min s) ->
  f_leb (fw_i_d_min s) (i_d_fw s) = true -> f_leb (i_d_fw s) f_zero = true ->
  let '(i, _) := FieldWeakening_Update v_s dt s in
  (f_leb (headroom_step v_s dt s) f_zero = true -> f_leb i (i_d_fw s) = true) /\
  (f_leb f_zero (headroom_step v_s dt s) = true -> f_leb (i_d_fw s) i = true).
Proof.
  intros Fi Fh Fm L U. cbn. set (h := headroom_step v_s dt s) in *. set (i := i_d_fw s) in *. split; intros Hh.
  - apply Clamp_below; [|done]. apply f_leb_val in Hh; try done. rewrite fval_zero in Hh. apply f_add_le; try done. lia.
  - apply Clamp_above; [|done]. by apply f_add_above.
Qed.

(** The excitation reference and its integrator stay inside their limits. *)
Lemma excitation_range i_f_meas dt s : f_leb (i_f_min s) (i_f_max s) = true ->
  let kError := f_sub (i_f_setpoint s) i_f_meas in
  is_nan (f_add (exc_integrator s) (f_mul (f_mul (exc_ki s) kError) dt)) = false ->
  let '(r, t) := ExcitationController_Update i_f_meas dt s in
  is_nan (f_add (f_mul (exc_kp s) kError) (exc_integrator t)) = false ->
  r = i_f_ref t /\ f_leb (i_f_min s) r = true /\ f_leb r (i_f_max s) = true /\
  f_leb (i_f_min s) (exc_integrator t) = true /\ f_leb (exc_integrator t) (i_f_max s) = true.
Proof.
  intros L kError N1. cbn. intros N2.
  destruct (Clamp_range _ (i_f_min s) (i_f_max s) N1 L) as [A B]. destruct (Clamp_range _ (i_f_min s) (i_f_max s) N2 L) as [C D]. done.
Qed.

(** The flux controller keeps i_d in its limits, and gives no slip at a flux
    reference of 1 uWb or less, where the quotient would grow without bound. *)
Lemma asm_flux_range psi_ref psi_meas i_q dt s : f_leb (i_d_min s) (i_d_max s) = true ->
  let kError := f_sub psi_ref psi_meas in
  is_nan (f_add (asm_integrator s) (f_mul (f_mul (asm_ki s) kError) dt)) = false ->
  let '(r, t) := AsmFluxController_Update psi_ref psi_meas i_q dt s in
  is_nan (f_add (f_mul (asm_kp s) kError) (asm_integrator t)) = false ->
  r = i_d_ref t /\ f_leb (i_d_min s) r = true /\ f_leb r (i_d_max s) = true /\
  (f_leb psi_ref (f_dec 1 1000000) = true -> omega_slip t = f_zero).
Proof.
  intros L kError N1. unfold AsmFluxController_Update. cbv zeta. fold kError. generalize (f_dec 1 1000000). intros c.
  destruct (f_gtb psi_ref c) eqn:G; cbn; intros N2;
    destruct (Clamp_range _ (i_d_min s) (i_d_max s) N2 L) as [C D]; (split; [done|]); (split; [exact C|]); (split; [exact D|]); [|done].
  intros Z. exfalso. change (f_ltb c psi_ref = true) in G. clear C D N1 N2 L. float_facts. float_order.
Qed.

(** Up to one ampere per ampere: for a machine with L_d < L_q and a positive
    magnet flux the reference puts the whole current on the d axis as long as
    it is below psi / (2 (L_q - L_d)): no torque at all. *)
Lemma mtpa_all_on_d_axis (i_s : float) (m : Mtpa) :
  fin i_s -> f_leb f_zero i_s = true -> fin (kXi m) -> f_leb (kXi m) (f_neg i_s) = true ->
  f_ltb (Abs (f_sub (mtpa_L_d m) (mtpa_L_q m))) (f_dec 1 1000000000) = false ->
  f_leb (Mtpa_Calculate i_s m) (f_neg i_s) = true /\ f_leb (f_neg i_s) (Mtpa_Calculate i_s m) = true.
Proof.
  intros Fi Hi Fx Hx Hd. unfold Mtpa_Calculate. rewrite Hd. set (x := kXi m) in *.
  assert (fin (f_mul i_s f_half)) as Fh.
  { destruct (f_mul_ratio i_s f_half Fi) as (F & _); try done. }
  destruct (Hypot_nonneg x (f_mul i_s f_half) Fx Fh) as [Vh Hh]. set (h := Hypot x (f_mul i_s f_half)) in *.
  assert (f_leb (f_sub x h) x = true) as Sub.
  { destruct (valid_cases h Vh) as [Fh'|Fh']; [by apply f_sub_below|].
    destruct h as [|[]| |]; try done. destruct x as [|[]| |]; try done; by destruct Fx. }
  apply Clamp_low; [|by rewrite f_leb_neg_l|eauto using f_leb_trans|by apply is_finite_not_nan, fin_neg].
  by apply f_leb_not_nan in Sub as [-> _].
Qed.

(** An interior-magnet machine of 10 mWb, 1 mH and 2 mH, at 1 A: i_d = -1 A. *)
Example mtpa_ipmsm :
  Mtpa_Calculate f_one (mkMtpa (f_dec 1 100) (f_dec 1 1000) (f_dec 2 1000)) = f_neg f_one.
Proof. vm_compute. reflexivity. Qed.

End MachineTypes.
