(* ===== verification/SimPlant.v ===== *)
(** * The simulated motor: inverter, windings, shaft and Hall sensors

    lib/sim/src: inverter_model.hpp, pmsm_model.hpp, mechanical_model.hpp,
    hall_sensor.hpp, motor_model.hpp and motor_simulation.hpp.  The plant the
    simulated hardware runs its control cycles against.  [None] stands for an
    undefined conversion or signed overflow of the rotor angle. *)
From Stdlib Require Import ZArith Lia Bool SpecFloat.
From stdpp Require Import base decidable list option.
From S2P Require Import Prelude Float32 FloatRound CurrentControl SettingsData Transforms RotorAngle Observers.
Import CurrentControl SettingsData Transforms.
Import RotorAngle(RotorAngle, RotorAngle_init, raw_, revolutions_, sin_cos_, FromRaw, FromAbsoluteRaw, Advance, FromAngle,
  AngleInRevolution, AbsoluteRaw, position, angle_ok, moved).

#[local] Open Scope Z_scope.
#[local] Open Scope unimoc_scope.

Module SimPlant.

Inductive Status := kOk | kUnsupportedMotorType | kInvalidPolePairs | kInvalidResistance | kInvalidInductance | kInvalidFlux
  | kInvalidInertia | kInvalidFriction | kInvalidDcLinkVoltage | kInvalidTimeStep.
#[export] Instance Status_eq_dec : EqDecision Status.
Proof. solve_decision. Defined.

Definition zero3 : ThreePhase := mkThreePhase f_zero f_zero f_zero.
Definition zero_rotor : Rotor := mkRotor f_zero f_zero.

(** ** Inverter *)
Record InverterModel := mkInverter { duties_ : ThreePhase; bridge_on : bool }.
#[export] Instance eta_InverterModel : Eta InverterModel := fun s => mkInverter (duties_ s) (bridge_on s).
Definition InverterModel_init : InverterModel := mkInverter (mkThreePhase f_half f_half f_half) false.
Definition ClampDuty (duty : float) : float := Clamp duty f_zero f_one.
Definition SetDuties (duties : ThreePhase) (s : InverterModel) : InverterModel :=
  s.{duties_ := mkThreePhase (ClampDuty (phase_a duties)) (ClampDuty (phase_b duties)) (ClampDuty (phase_c duties))}.
Definition SetEnabled (on : bool) (s : InverterModel) : InverterModel := s.{bridge_on := on}.
Definition PhaseVoltages (dc_link_voltage : float) (s : InverterModel) : ThreePhase :=
  if negb (bridge_on s) then zero3
  else
    let kTerminalA := f_mul dc_link_voltage (phase_a (duties_ s)) in
    let kTerminalB := f_mul dc_link_voltage (phase_b (duties_ s)) in
    let kTerminalC := f_mul dc_link_voltage (phase_c (duties_ s)) in
    let kCommonMode := f_div (f_add (f_add kTerminalA kTerminalB) kTerminalC) (f_of_Z 3) in
    mkThreePhase (f_sub kTerminalA kCommonMode) (f_sub kTerminalB kCommonMode) (f_sub kTerminalC kCommonMode).
Definition StatorVoltage (dc_link_voltage : float) (s : InverterModel) : Stator := ToStator (PhaseVoltages dc_link_voltage s).

(** ** Windings of a permanent-magnet machine *)
Record ElectricalInput := mkElectricalInput {
  stator_voltage : Stator; input_angle : RotorAngle; input_speed : float; stator_connected : bool; field_voltage : float }.
Record ElectricalOutput := mkElectricalOutput { out_current : Rotor; torque : float; out_field_current : float }.
Definition ElectricalOutput_init : ElectricalOutput := mkElectricalOutput zero_rotor f_zero f_zero.

Record PmsmParameters := mkPmsmParameters {
  p_pole_pairs : Z; p_resistance : float; p_l_d : float; p_l_q : float; p_flux_pm : float }.
Definition PmsmParameters_init : PmsmParameters := mkPmsmParameters 1 (f_dec 1 10) (f_dec 1 1000) (f_dec 1 1000) f_zero.
Record PmsmModel := mkPmsm { pmsm_parameters : PmsmParameters; current_ : Rotor }.
#[export] Instance eta_PmsmModel : Eta PmsmModel := fun s => mkPmsm (pmsm_parameters s) (current_ s).
Definition PmsmModel_of (parameters : PmsmParameters) : PmsmModel := mkPmsm parameters zero_rotor.
Definition Pmsm_Validate (m : PmsmModel) : Status :=
  let p := pmsm_parameters m in
  if p_pole_pairs p =? 0 then kInvalidPolePairs
  else if f_leb (p_resistance p) f_zero then kInvalidResistance
  else if f_leb (p_l_d p) f_zero || f_leb (p_l_q p) f_zero then kInvalidInductance
  else if f_ltb (p_flux_pm p) f_zero then kInvalidFlux else kOk.
Definition Pmsm_Reset (m : PmsmModel) : PmsmModel := m.{current_ := zero_rotor}.
Definition SetCurrent (current : Rotor) (m : PmsmModel) : PmsmModel := m.{current_ := current}.
Definition Pmsm_Step (input : ElectricalInput) (time_step : float) (m : PmsmModel) : PmsmModel :=
  let p := pmsm_parameters m in
  if negb (stator_connected input) then m.{current_ := zero_rotor}
  else
    let kVoltage := ToRotor (sin_cos_ (input_angle input)) (stator_voltage input) in
    let kRotation := f_mul (input_speed input) time_step in
    let kResistiveDt := f_mul (p_resistance p) time_step in
    let kDiagonalD := f_add (p_l_d p) kResistiveDt in
    let kCouplingQ := f_mul (p_l_q p) kRotation in
    let kCouplingD := f_mul (p_l_d p) kRotation in
    let kDiagonalQ := f_add (p_l_q p) kResistiveDt in
    let kFluxBalanceD := f_add (f_mul (p_l_d p) (axis_d (current_ m))) (f_mul (axis_d kVoltage) time_step) in
    let kFluxBalanceQ := f_add (f_mul (p_l_q p) (axis_q (current_ m)))
      (f_mul (f_sub (axis_q kVoltage) (f_mul (input_speed input) (p_flux_pm p))) time_step) in
    let d := f_div (f_add kFluxBalanceD (f_mul kFluxBalanceQ (f_div kCouplingQ kDiagonalQ)))
                   (f_add kDiagonalD (f_mul kCouplingQ (f_div kCouplingD kDiagonalQ))) in
    let q := f_div (f_sub kFluxBalanceQ (f_mul kCouplingD d)) kDiagonalQ in
    m.{current_ := mkRotor d q}.
Definition ElectromagneticTorque (m : PmsmModel) : float :=
  let p := pmsm_parameters m in
  let kFlux := f_add (p_flux_pm p) (f_mul (f_sub (p_l_d p) (p_l_q p)) (axis_d (current_ m))) in
  f_mul (f_mul kFlux (axis_q (current_ m))) (f_mul (f_lit 3 2) (f_of_Z (p_pole_pairs p))).
Definition Pmsm_Output (m : PmsmModel) : ElectricalOutput := mkElectricalOutput (current_ m) (ElectromagneticTorque m) f_zero.

(** ** Shaft *)
Inductive ShaftMode := kFree | kImposedSpeed.
#[export] Instance ShaftMode_eq_dec : EqDecision ShaftMode.
Proof. solve_decision. Defined.
Record MechanicalParameters := mkMechanicalParameters { inertia : float; viscous_friction : float; coulomb_friction : float }.
Definition MechanicalParameters_init : MechanicalParameters := mkMechanicalParameters (f_dec 1 10000) f_zero f_zero.
Record MechanicalModel := mkMechanical {
  mech_parameters : MechanicalParameters; mode_ : ShaftMode; imposed_speed_ : float; angle_ : RotorAngle; speed_ : float }.
#[export] Instance eta_MechanicalModel : Eta MechanicalModel := fun s =>
  mkMechanical (mech_parameters s) (mode_ s) (imposed_speed_ s) (angle_ s) (speed_ s).
Definition MechanicalModel_of (parameters : MechanicalParameters) : MechanicalModel :=
  mkMechanical parameters kFree f_zero RotorAngle_init f_zero.
Definition Mech_Validate (m : MechanicalModel) : Status :=
  let p := mech_parameters m in
  if f_leb (inertia p) f_zero then kInvalidInertia
  else if f_ltb (viscous_friction p) f_zero || f_ltb (coulomb_friction p) f_zero then kInvalidFriction else kOk.
Definition Mech_Reset (m : MechanicalModel) : MechanicalModel := m.{angle_ := RotorAngle_init}.{speed_ := f_zero}.
Definition Mech_SetShaftMode (mode : ShaftMode) (imposed_speed : float) (m : MechanicalModel) : MechanicalModel :=
  let m := m.{mode_ := mode}.{imposed_speed_ := imposed_speed} in
  match mode with kImposedSpeed => m.{speed_ := imposed_speed} | kFree => m end.
Definition SetState (angle : RotorAngle) (speed : float) (m : MechanicalModel) : MechanicalModel :=
  let m := m.{angle_ := angle} in
  match mode_ m with kFree => m.{speed_ := speed} | kImposedSpeed => m end.
Definition FreeSpeed (drive_torque time_step : float) (m : MechanicalModel) : float :=
  let p := mech_parameters m in
  let kCoulomb := coulomb_friction p in
  let kViscous := f_mul (viscous_friction p) (speed_ m) in
  if f_eqb (speed_ m) f_zero then
    if f_gtb drive_torque kCoulomb then f_mul (f_div (f_sub drive_torque kCoulomb) (inertia p)) time_step
    else if f_ltb drive_torque (f_neg kCoulomb) then f_mul (f_div (f_add drive_torque kCoulomb) (inertia p)) time_step
    else f_zero
  else
    let kFriction := if f_gtb (speed_ m) f_zero then f_add kViscous kCoulomb else f_sub kViscous kCoulomb in
    let kNext := f_add (speed_ m) (f_mul (f_div (f_sub drive_torque kFriction) (inertia p)) time_step) in
    let kReversed := if f_gtb (speed_ m) f_zero then f_ltb kNext f_zero else f_gtb kNext f_zero in
    let kFrictionStops := f_leb drive_torque kCoulomb && f_geb drive_torque (f_neg kCoulomb) in
    if kReversed && kFrictionStops then f_zero else kNext.
Definition Mech_Step (electromagnetic_torque load_torque time_step : float) (m : MechanicalModel) : option MechanicalModel :=
  let kStartSpeed := speed_ m in
  let m := m.{speed_ := match mode_ m with
                        | kImposedSpeed => imposed_speed_ m
                        | kFree => FreeSpeed (f_sub electromagnetic_torque load_torque) time_step m
                        end} in
  angle ← Advance (f_mul (f_mul (f_add kStartSpeed (speed_ m)) time_step) f_half) (angle_ m);
  Some (m.{angle_ := angle}).
Definition ElectricalAngle (pole_pairs : Z) (m : MechanicalModel) : option RotorAngle :=
  absolute ← AbsoluteRaw (angle_ m);
  product ← check_i64 (absolute * pole_pairs);
  FromAbsoluteRaw product.

(** ** Hall sensors *)
Record HallSignals := mkHallSignals { code : Z; edge : bool; edge_age : float }.
#[export] Instance eta_HallSignals : Eta HallSignals := fun s => mkHallSignals (code s) (edge s) (edge_age s).
Definition HallSignals_init : HallSignals := mkHallSignals 0 false f_zero.
Record HallSensor := mkHallSensor { hall_offset_ : float; signals_ : HallSignals }.
#[export] Instance eta_HallSensor : Eta HallSensor := fun s => mkHallSensor (hall_offset_ s) (signals_ s).
Definition HallSensor_of (offset : float) : HallSensor := mkHallSensor offset HallSignals_init.
Definition kHalfRevolution : Z := 0x80000000.
Definition kSixthRevolution : Z := 0x2AAAAAAB.
Definition kRisingEdge : list Z := [0; 2 * kSixthRevolution; 4 * kSixthRevolution].
Definition Position (electrical_angle : RotorAngle) (s : HallSensor) : option Z :=
  kOffset ← FromAngle (hall_offset_ s);
  Some (u32 (u32 (raw_ electrical_angle) - u32 (raw_ kOffset))).
Definition code_at (kPosition : Z) : Z :=
  foldl (fun code sensor =>
    if u32 (kPosition - array_get 0 kRisingEdge sensor) <? kHalfRevolution then u8 (Z.lor code (Z.shiftl 1 sensor)) else code)
    0 [0; 1; 2].
Definition Code (electrical_angle : RotorAngle) (s : HallSensor) : option Z :=
  kPosition ← Position electrical_angle s; Some (code_at kPosition).
Definition Hall_Reset (electrical_angle : RotorAngle) (s : HallSensor) : option HallSensor :=
  c ← Code electrical_angle s; Some (s.{signals_ := mkHallSignals c false f_zero}).
(** EdgeAge() from the position relative to the offset on. *)
Definition age_at (kPosition : Z) (electrical_speed time_step : float) : float :=
  if f_eqb electrical_speed f_zero then f_zero
  else
    let kSinceForwardEdge := kPosition mod kSixthRevolution in
    let kDistance := if f_gtb electrical_speed f_zero then kSinceForwardEdge else u32 (kSixthRevolution - kSinceForwardEdge) in
    let kTravel := AngleInRevolution (FromRaw (i32 kDistance) 0) in
    let kTravelMagnitude := if f_gtb electrical_speed f_zero then kTravel else f_neg kTravel in
    Clamp (f_div kTravelMagnitude electrical_speed) f_zero time_step.
Definition EdgeAge (electrical_angle : RotorAngle) (electrical_speed time_step : float) (s : HallSensor) : option float :=
  kPosition ← Position electrical_angle s; Some (age_at kPosition electrical_speed time_step).
Definition Hall_Update (electrical_angle : RotorAngle) (electrical_speed time_step : float) (s : HallSensor) : option HallSensor :=
  kCode ← Code electrical_angle s;
  if kCode =? code (signals_ s) then Some (s.{signals_ := (signals_ s).{edge := false}})
  else
    age ← EdgeAge electrical_angle electrical_speed time_step s;
    Some (s.{signals_ := mkHallSignals kCode true age}).

(** ** The simulated drive *)
Inductive MotorType := kPmsm | kAsm | kEesm | other_type.
Definition motor_type_of (z : Z) : MotorType :=
  match z with 0 => kPmsm | 1 => kAsm | 2 => kEesm | _ => other_type end.
Record SimulationParameters := mkSimulationParameters {
  sp_motor_type : MotorType; sp_pmsm : PmsmParameters; sp_mechanics : MechanicalParameters; sp_hall_offset : float;
  sp_dc_link : float }.
#[export] Instance eta_SimulationParameters : Eta SimulationParameters := fun s =>
  mkSimulationParameters (sp_motor_type s) (sp_pmsm s) (sp_mechanics s) (sp_hall_offset s) (sp_dc_link s).
Definition SimulationParameters_init : SimulationParameters :=
  mkSimulationParameters kPmsm PmsmParameters_init MechanicalParameters_init f_zero (f_of_Z 48).
Definition ParametersFromSettings (settings : NvmSettings) : SimulationParameters :=
  mkSimulationParameters (motor_type_of (num settings motor_type))
    (mkPmsmParameters (num settings pole_pairs) (fl stator_r settings) (fl l_d settings) (fl l_q settings) (fl flux_pm settings))
    (mkMechanicalParameters (fl motor_j settings) f_zero f_zero) f_zero (f_of_Z 48).
Record SimulationInput := mkSimulationInput { load_torque : float; in_field_voltage : float }.
Record SimulationOutput := mkSimulationOutput {
  phase_currents : ThreePhase; phase_voltages : ThreePhase; dc_link_voltage : float; rotor_current : Rotor; field_current : float;
  electromagnetic_torque : float; mechanical_angle : RotorAngle; mechanical_speed : float; electrical_angle : RotorAngle;
  electrical_speed : float; hall : HallSignals }.
#[export] Instance eta_SimulationOutput : Eta SimulationOutput := fun s =>
  mkSimulationOutput (phase_currents s) (phase_voltages s) (dc_link_voltage s) (rotor_current s) (field_current s)
    (electromagnetic_torque s) (mechanical_angle s) (mechanical_speed s) (electrical_angle s) (electrical_speed s) (hall s).
Definition SimulationOutput_init : SimulationOutput :=
  mkSimulationOutput zero3 zero3 f_zero zero_rotor f_zero f_zero RotorAngle_init f_zero RotorAngle_init f_zero HallSignals_init.
Record MotorSimulation := mkSimulation {
  parameters_ : SimulationParameters; model_ : option PmsmModel; pole_pairs_ : Z; inverter_ : InverterModel;
  mechanics_ : MechanicalModel; hall_ : HallSensor; input_ : SimulationInput; output_ : SimulationOutput }.
#[export] Instance eta_MotorSimulation : Eta MotorSimulation := fun s =>
  mkSimulation (parameters_ s) (model_ s) (pole_pairs_ s) (inverter_ s) (mechanics_ s) (hall_ s) (input_ s) (output_ s).
Definition MotorSimulation_init : MotorSimulation :=
  mkSimulation SimulationParameters_init None 0 InverterModel_init (MechanicalModel_of MechanicalParameters_init)
    (HallSensor_of f_zero) (mkSimulationInput f_zero f_zero) SimulationOutput_init.

Definition IsConfigured (s : MotorSimulation) : bool := bool_decide (is_Some (model_ s)).
Definition model_output (m : option PmsmModel) : ElectricalOutput :=
  match m with None => ElectricalOutput_init | Some m => Pmsm_Output m end.
Definition ElectricalSpeed (s : MotorSimulation) : float := f_mul (speed_ (mechanics_ s)) (f_of_Z (pole_pairs_ s)).
Definition UpdateOutput (s : MotorSimulation) : option MotorSimulation :=
  let kElectrical := model_output (model_ s) in
  angle ← ElectricalAngle (pole_pairs_ s) (mechanics_ s);
  Some (s.{output_ := mkSimulationOutput
    (ToThreePhase (RotorToStator (sin_cos_ angle) (out_current kElectrical)))
    (PhaseVoltages (sp_dc_link (parameters_ s)) (inverter_ s)) (sp_dc_link (parameters_ s)) (out_current kElectrical)
    (out_field_current kElectrical) (torque kElectrical) (angle_ (mechanics_ s)) (speed_ (mechanics_ s)) angle
    (ElectricalSpeed s) (hall (output_ s))}).
Definition take_hall (s : MotorSimulation) : MotorSimulation := s.{output_ := (output_ s).{hall := signals_ (hall_ s)}}.
Definition Reset (s : MotorSimulation) : option MotorSimulation :=
  let s := s.{model_ := Pmsm_Reset <$> model_ s}.{mechanics_ := Mech_Reset (mechanics_ s)}.{inverter_ := InverterModel_init} in
  s ← UpdateOutput s;
  h ← Hall_Reset (electrical_angle (output_ s)) (hall_ s);
  Some (take_hall (s.{hall_ := h})).
Definition Configure (parameters : SimulationParameters) (s : MotorSimulation) : option (Status * MotorSimulation) :=
  if f_leb (sp_dc_link parameters) f_zero then Some (kInvalidDcLinkVoltage, s)
  else
    let kMechanics := MechanicalModel_of (sp_mechanics parameters) in
    if decide (Mech_Validate kMechanics <> kOk) then Some (Mech_Validate kMechanics, s)
    else match sp_motor_type parameters with
    | kPmsm =>
        let model := PmsmModel_of (sp_pmsm parameters) in
        if decide (Pmsm_Validate model <> kOk) then Some (Pmsm_Validate model, s)
        else
          let s := s.{parameters_ := parameters}.{model_ := Some model}.{pole_pairs_ := p_pole_pairs (sp_pmsm parameters)}
                    .{mechanics_ := kMechanics}.{hall_ := HallSensor_of (sp_hall_offset parameters)} in
          s ← Reset s;
          Some (kOk, s)
    | _ => Some (kUnsupportedMotorType, s)
    end.
Definition Configure_settings (settings : NvmSettings) : MotorSimulation -> option (Status * MotorSimulation) :=
  Configure (ParametersFromSettings settings).
Definition SetPhaseDuties (duties : ThreePhase) (s : MotorSimulation) : MotorSimulation := s.{inverter_ := SetDuties duties (inverter_ s)}.
Definition SetBridgeEnabled (enabled : bool) (s : MotorSimulation) : MotorSimulation := s.{inverter_ := SetEnabled enabled (inverter_ s)}.
Definition SetDcLinkVoltage (voltage : float) (s : MotorSimulation) : MotorSimulation :=
  if f_gtb voltage f_zero
  then s.{parameters_ := (parameters_ s).{sp_dc_link := voltage}}.{output_ := (output_ s).{dc_link_voltage := voltage}} else s.
Definition SetInput (input : SimulationInput) (s : MotorSimulation) : MotorSimulation := s.{input_ := input}.
Definition SetShaftMode (mode : ShaftMode) (imposed_speed : float) (s : MotorSimulation) : option MotorSimulation :=
  UpdateOutput (s.{mechanics_ := Mech_SetShaftMode mode imposed_speed (mechanics_ s)}).
Definition SetMechanicalState (angle : RotorAngle) (speed : float) (s : MotorSimulation) : option MotorSimulation :=
  s ← UpdateOutput (s.{mechanics_ := SetState angle speed (mechanics_ s)});
  h ← Hall_Reset (electrical_angle (output_ s)) (hall_ s);
  Some (take_hall (s.{hall_ := h})).
Definition Step (time_step : float) (s : MotorSimulation) : option (Status * MotorSimulation) :=
  match model_ s with
  | None => Some (kUnsupportedMotorType, s)
  | Some model =>
      if f_leb time_step f_zero then Some (kInvalidTimeStep, s)
      else
        let kStartSpeed := ElectricalSpeed s in
        middle ← Advance (f_mul (f_mul kStartSpeed time_step) f_half) (electrical_angle (output_ s));
        let kElectricalInput := mkElectricalInput (StatorVoltage (sp_dc_link (parameters_ s)) (inverter_ s)) middle kStartSpeed
          (bridge_on (inverter_ s)) (in_field_voltage (input_ s)) in
        let model := Pmsm_Step kElectricalInput time_step model in
        mechanics ← Mech_Step (torque (Pmsm_Output model)) (load_torque (input_ s)) time_step (mechanics_ s);
        s ← UpdateOutput (s.{model_ := Some model}.{mechanics_ := mechanics});
        h ← Hall_Update (electrical_angle (output_ s))
              (f_mul (f_add kStartSpeed (electrical_speed (output_ s))) f_half) time_step (hall_ s);
        Some (kOk, take_hall (s.{hall_ := h}))
  end.
End SimPlant.
