(* ===== verification/SimPlantLaws.v ===== *)
(** * Laws of the simulated motor

    What the simulated hardware and the tests rely on: Hall codes the decoder of
    the observer reads as the sector of the angle, friction that holds and stops
    but never drives, exact electrical angles, outputs that always show the
    states, and configurations that are applied as a whole or not at all. *)
From Stdlib Require Import ZArith Lia Bool SpecFloat.
From stdpp Require Import base decidable list option.
From S2P Require Import Prelude Float32 FloatRound CurrentControl SettingsData SettingsTypes SettingsStore Transforms RotorAngle Observers SimPlant.
Import CurrentControl SettingsData Transforms SimPlant.
Import RotorAngle(RotorAngle, RotorAngle_init, raw_, revolutions_, sin_cos_, FromRaw, FromAbsoluteRaw, Advance, FromAngle,
  AngleInRevolution, AbsoluteRaw, position, angle_ok, moved).
Import Observers(Sector, edge_sector, kSectors).

#[local] Open Scope Z_scope.
#[local] Open Scope unimoc_scope.

Module SimPlantLaws.

(** ** Hall codes *)
(** The counts at which the code changes; at most two counts after the exact
    multiples of 60 degrees. *)
Definition edges : list Z := [0; 715827884; 1431655766; 2147483648; 2863311532; 3579139414; 4294967296].
Definition codes : list Z := [5; 1; 3; 2; 6; 4].

Lemma high_for (p c : Z) : 0 <= p < 2 ^ 32 -> 0 <= c < 2 ^ 32 ->
  (u32 (p - c) <? kHalfRevolution) = (if c <=? p then p <? c + 2 ^ 31 else p <? c - 2 ^ 31).
Proof.
  intros Hp Hc. unfold kHalfRevolution, wrap. destruct (Z.leb_spec c p).
  - rewrite Z.mod_small by lia. apply eq_bool_prop_intro. rewrite !Is_true_true, !Z.ltb_lt. lia.
  - rewrite <- (Z.mod_unique_pos (p - c) (2 ^ 32) (-1) (p - c + 2 ^ 32)) by lia.
    apply eq_bool_prop_intro. rewrite !Is_true_true, !Z.ltb_lt. lia.
Qed.

Lemma code_at_sector p k : (k < 6)%nat -> nth k edges 0 <= p < nth (S k) edges 0 ->
  code_at p = nth k codes 0 /\ Sector (code_at p) = Some (Z.of_nat k).
Proof.
  intros Hk Hp. assert (code_at p = nth k codes 0) as E.
  { assert (0 <= p < 2 ^ 32) as R by (do 6 (destruct k as [|k]; [cbn in Hp; lia|]); lia).
    unfold code_at. cbn [foldl kRisingEdge]. change (array_get 0 kRisingEdge 0) with 0.
    change (array_get 0 kRisingEdge 1) with 1431655766. change (array_get 0 kRisingEdge 2) with 2863311532.
    rewrite !high_for by lia.
    do 6 (destruct k as [|k]; [cbn in Hp; repeat case_match; try reflexivity; exfalso; lia|]). lia. }
  split; [done|]. rewrite E. do 6 (destruct k as [|k]; [done|]). lia.
Qed.

Lemma sector_of p : 0 <= p < 2 ^ 32 -> exists k, (k < 6)%nat /\ nth k edges 0 <= p < nth (S k) edges 0.
Proof.
  intros Hp.
  destruct (Z_lt_dec p 715827884); [exists 0%nat; cbn; lia|]. destruct (Z_lt_dec p 1431655766); [exists 1%nat; cbn; lia|].
  destruct (Z_lt_dec p 2147483648); [exists 2%nat; cbn; lia|]. destruct (Z_lt_dec p 2863311532); [exists 3%nat; cbn; lia|].
  destruct (Z_lt_dec p 3579139414); [exists 4%nat; cbn; lia|]. exists 5%nat; cbn; lia.
Qed.

Lemma edges_exact k : (k <= 6)%nat -> 0 <= 6 * nth k edges 0 - Z.of_nat k * 2 ^ 32 <= 8.
Proof. intros. do 7 (destruct k as [|k]; [cbn; lia|]). lia. Qed.

Lemma Position_range a s p : Position a s = Some p -> 0 <= p < 2 ^ 32.
Proof.
  unfold Position. destruct (FromAngle _) as [o|]; [|done]. cbn [mbind option_bind]. intros [= <-].
  apply (wrap_in_u 32). lia.
Qed.

(** A forward turn of less than a sector: the same code or the edge of the next. *)
Lemma forward_decoded p d : 0 <= p < 2 ^ 32 -> 0 <= d <= 715827880 ->
  let p' := u32 (p + d) in
  code_at p' = code_at p \/
  exists k, Sector (code_at p) = Some k /\ Sector (code_at p') = Some ((k + 1) mod 6) /\
    edge_sector (code_at p) (code_at p') = Some ((k + 1) mod 6).
Proof.
  intros Hp Hd p'.
  assert (0 <= p' < 2 ^ 32) as Hp' by (apply (wrap_in_u 32); lia).
  assert (p' = p + d \/ p' = p + d - 2 ^ 32) as Cp.
  { unfold p', wrap. pose proof (Z.div_mod (p + d) (2 ^ 32) ltac:(lia)).
    assert (0 <= (p + d) / 2 ^ 32 <= 1) by (split; [apply Z.div_pos; lia|apply Z.lt_succ_r, Z.div_lt_upper_bound; lia]). lia. }
  clearbody p'. destruct (sector_of p Hp) as (k & Hk & Bk), (sector_of p' Hp') as (j & Hj & Bj).
  destruct (code_at_sector p k Hk Bk) as [E1 S1], (code_at_sector p' j Hj Bj) as [E2 S2].
  assert (j = k \/ Z.of_nat j = (Z.of_nat k + 1) mod 6) as [->|Ej].
  { do 6 (destruct k as [|k]; [do 6 (destruct j as [|j]; [cbn in Bk, Bj; (by left) || (by right) || (exfalso; lia)|]); lia|]). lia. }
  - left. congruence.
  - right. exists (Z.of_nat k). rewrite S1, S2, Ej. split; [done|]. split; [done|].
    unfold edge_sector. rewrite S1, S2, Ej. unfold kSectors. by rewrite Z.eqb_refl.
Qed.

(** The code of any angle is one the decoder of the observer knows, of the
    sector that holds the angle to two counts of 2^32. *)
Lemma hall_code_decoded a s p c : Position a s = Some p -> Code a s = Some c ->
  exists k, 0 <= k < 6 /\ Sector c = Some k /\ k * 2 ^ 32 <= 6 * p <= (k + 1) * 2 ^ 32 + 2.
Proof.
  intros P. unfold Code. rewrite P. cbn [mbind option_bind]. intros [= <-].
  destruct (sector_of p (Position_range a s p P)) as (k & Hk & B). destruct (code_at_sector p k Hk B) as [_ Sc].
  pose proof (edges_exact k ltac:(lia)). pose proof (edges_exact (S k) ltac:(lia)). exists (Z.of_nat k). split; [lia|]. split; [done|]. lia.
Qed.

(** The age of an edge is within the step. *)
Lemma age_at_range p w t : f_leb f_zero t = true -> is_nan (f_div
    (if f_gtb w f_zero then AngleInRevolution (FromRaw (i32 (p mod kSixthRevolution)) 0)
     else f_neg (AngleInRevolution (FromRaw (i32 (u32 (kSixthRevolution - p mod kSixthRevolution))) 0))) w) = false ->
  f_leb f_zero (age_at p w t) = true /\ f_leb (age_at p w t) t = true.
Proof.
  intros T N. unfold age_at. destruct (f_eqb w f_zero); [done|]. destruct (f_gtb w f_zero); by apply Clamp_range.
Qed.
(** The grid of EdgeAge() is a count off the grid of Code() at two of the six
    edges: an edge passed right at the end of the step is dated a whole step back. *)
Lemma edge_age_grid :
  let w := f_of_Z 1000 in let t := f_dec 1 10000 in
  code_at 2147483647 <> code_at 2147483648 /\ age_at 2147483648 w t = t /\ age_at 2147483649 w t = f_zero /\
  code_at 3579139413 <> code_at 3579139414 /\ age_at 3579139414 w t = t /\ age_at 1431655766 w t = f_zero.
Proof. vm_compute. repeat split; discriminate. Qed.

(** ** Inverter and windings *)
Lemma ClampDuty_range x : is_nan x = false -> f_leb f_zero (ClampDuty x) = true /\ f_leb (ClampDuty x) f_one = true.
Proof. intros. by apply Clamp_range. Qed.
Lemma bridge_off_voltages v s : bridge_on s = false -> PhaseVoltages v s = zero3.
Proof. unfold PhaseVoltages. by intros ->. Qed.
Lemma open_stator i t m : stator_connected i = false -> current_ (Pmsm_Step i t m) = zero_rotor.
Proof. unfold Pmsm_Step. by intros ->. Qed.
(** ** Shaft *)
Section Friction.
Context (m : MechanicalModel) (drive dt : float).
Let c := coulomb_friction (mech_parameters m).
Hypothesis (Hc : f_leb drive c = true) (Hd : f_leb (f_neg c) drive = true).

(** Dry friction holds the shaft at rest, and stops it without reversing it. *)
Lemma friction_holds : f_eqb (speed_ m) f_zero = true -> FreeSpeed drive dt m = f_zero.
Proof.
  intros E. unfold FreeSpeed. rewrite E. fold c. assert (f_gtb drive c = false) as ->.
  { change (f_ltb c drive = false). float_order. }
  assert (f_ltb drive (f_neg c) = false) as -> by float_order. done.
Qed.
Lemma friction_stops : f_eqb (speed_ m) f_zero = false ->
  (f_ltb f_zero (speed_ m) = true -> f_ltb (FreeSpeed drive dt m) f_zero = false) /\
  (f_ltb (speed_ m) f_zero = true -> f_ltb f_zero (FreeSpeed drive dt m) = false).
Proof.
  intros E. unfold FreeSpeed. cbv zeta. rewrite E. fold c. change (f_geb drive (f_neg c)) with (f_leb (f_neg c) drive).
  change (f_gtb (speed_ m) f_zero) with (f_ltb f_zero (speed_ m)). rewrite Hc, Hd. cbn [andb]. rewrite andb_true_r. split; intros S.
  - rewrite S. generalize (f_add (speed_ m) (f_mul (f_div (f_sub drive (f_add (f_mul (viscous_friction (mech_parameters m)) (speed_ m)) c))
      (inertia (mech_parameters m))) dt)). intros n. by destruct (f_ltb n f_zero) eqn:N.
  - assert (f_ltb f_zero (speed_ m) = false) as -> by float_order.
    generalize (f_add (speed_ m) (f_mul (f_div (f_sub drive (f_sub (f_mul (viscous_friction (mech_parameters m)) (speed_ m)) c))
      (inertia (mech_parameters m))) dt)). intros n. by destruct (f_ltb f_zero n) eqn:N.
Qed.
End Friction.

(** The electrical angle is the mechanical one times the pole pairs, to the count. *)
Lemma ElectricalAngle_exact pp m e : angle_ok (angle_ m) -> ElectricalAngle pp m = Some e ->
  - 2 ^ 63 <= position (angle_ m) * pp < 2 ^ 63 - 2 ^ 31 -> position e = position (angle_ m) * pp /\ angle_ok e.
Proof.
  intros [Hr Hv _]. unfold ElectricalAngle, AbsoluteRaw. destruct (check_i64 _) as [a|] eqn:A; [|done]. cbn [mbind option_bind].
  apply check_i64_Some in A as [-> _]. unfold kCountsPerRevolution. fold (position (angle_ m)).
  destruct (check_i64 _) as [b|] eqn:B; [|done]. cbn [mbind option_bind]. apply check_i64_Some in B as [-> _].
  generalize (position (angle_ m) * pp). intros z. unfold FromAbsoluteRaw, kCountsPerHalfRevolution, kCountsPerRevolution.
  destruct (check_i64 _) as [k|] eqn:K; [|done]. cbn [mbind option_bind]. apply check_i64_Some in K as [-> Hk].
  intros [= <-] Hz. set (k := z + 2 ^ 31) in *.
  pose proof (Z.quot_rem' k (2 ^ 32)) as Q. pose proof (Z.rem_bound_abs k (2 ^ 32) ltac:(lia)) as R.
  set (rev := if Z.rem k (2 ^ 32) <? 0 then Z.quot k (2 ^ 32) - 1 else Z.quot k (2 ^ 32)).
  assert (- 2 ^ 31 <= z - rev * 2 ^ 32 < 2 ^ 31) as B1.
  { unfold rev. pose proof (Z.rem_sign_mul k (2 ^ 32) ltac:(lia)) as Sg. destruct (Z.ltb_spec (Z.rem k (2 ^ 32)) 0); lia. }
  assert (- 2 ^ 31 <= rev < 2 ^ 31) as B2 by lia.
  unfold position, FromRaw. cbn. rewrite !i32_id by lia. split; [lia|]. split; cbn; [lia..|by left].
Qed.

(** ** The outputs show the states *)
Record shows (s : MotorSimulation) : Prop := mkShows {
  sh_valid : exists m, model_ s = Some m /\ Pmsm_Validate m = kOk /\ pole_pairs_ s = p_pole_pairs (pmsm_parameters m);
  sh_mech_valid : Mech_Validate (mechanics_ s) = kOk;
  sh_dc_valid : f_leb (sp_dc_link (parameters_ s)) f_zero = false;
  sh_angle : ElectricalAngle (pole_pairs_ s) (mechanics_ s) = Some (electrical_angle (output_ s));
  sh_speed : electrical_speed (output_ s) = ElectricalSpeed s;
  sh_mech : mechanical_angle (output_ s) = angle_ (mechanics_ s) /\ mechanical_speed (output_ s) = speed_ (mechanics_ s);
  sh_dc : dc_link_voltage (output_ s) = sp_dc_link (parameters_ s);
  sh_current : rotor_current (output_ s) = out_current (model_output (model_ s));
  sh_phases : phase_currents (output_ s) =
    ToThreePhase (RotorToStator (sin_cos_ (electrical_angle (output_ s))) (out_current (model_output (model_ s))));
  sh_torque : electromagnetic_torque (output_ s) = torque (model_output (model_ s));
  sh_hall : hall (output_ s) = signals_ (hall_ s) }.
(** What an update of the output needs. *)
Definition ready (s : MotorSimulation) : Prop :=
  (exists m, model_ s = Some m /\ Pmsm_Validate m = kOk /\ pole_pairs_ s = p_pole_pairs (pmsm_parameters m)) /\
  Mech_Validate (mechanics_ s) = kOk /\ f_leb (sp_dc_link (parameters_ s)) f_zero = false.
Lemma shows_ready s : shows s -> ready s.
Proof. intros []. done. Qed.

Lemma UpdateOutput_states s t : UpdateOutput s = Some t ->
  t = s.{output_ := output_ t} /\ hall (output_ t) = hall (output_ s).
Proof. unfold UpdateOutput. destruct (ElectricalAngle _ _); [|done]. by intros [= <-]. Qed.
Lemma UpdateOutput_shows s t h : ready s -> UpdateOutput s = Some t -> shows (take_hall (t.{hall_ := h})).
Proof.
  intros (V & Mv & D). unfold UpdateOutput. destruct (ElectricalAngle _ _) as [a|] eqn:A; [|done].
  intros [= <-]. split; try done.
Qed.
Lemma UpdateOutput_shows_kept s t : ready s -> hall (output_ s) = signals_ (hall_ s) -> UpdateOutput s = Some t -> shows t.
Proof.
  intros R H E. destruct (UpdateOutput_states s t E) as [Et Hh].
  replace t with (take_hall (t.{hall_ := hall_ s})); [by eapply UpdateOutput_shows|].
  rewrite Et. unfold take_hall. cbn. rewrite <- H, <- Hh. by destruct (output_ t).
Qed.

Inductive plant_op := op_configure (p : SimulationParameters) | op_reset | op_duties (d : ThreePhase) | op_bridge (on : bool)
  | op_dc (v : float) | op_input (i : SimulationInput) | op_shaft (mode : ShaftMode) (speed : float)
  | op_state (a : RotorAngle) (speed : float) | op_step (dt : float).
Definition run_op (o : plant_op) (s : MotorSimulation) : option MotorSimulation :=
  match o with
  | op_configure p => snd <$> Configure p s
  | op_reset => Reset s
  | op_duties d => Some (SetPhaseDuties d s)
  | op_bridge on => Some (SetBridgeEnabled on s)
  | op_dc v => Some (SetDcLinkVoltage v s)
  | op_input i => Some (SetInput i s)
  | op_shaft mode speed => SetShaftMode mode speed s
  | op_state a speed => SetMechanicalState a speed s
  | op_step dt => snd <$> Step dt s
  end.
Definition run_ops (l : list plant_op) (s : MotorSimulation) : option MotorSimulation :=
  foldl (fun s o => s ← s; run_op o s) (Some s) l.

Lemma Pmsm_Step_parameters i t m : pmsm_parameters (Pmsm_Step i t m) = pmsm_parameters m.
Proof. unfold Pmsm_Step. by destruct (negb _). Qed.
Lemma Pmsm_Validate_parameters m n : pmsm_parameters m = pmsm_parameters n -> Pmsm_Validate m = Pmsm_Validate n.
Proof. unfold Pmsm_Validate. by intros ->. Qed.
Lemma Mech_Step_parameters e l t m n : Mech_Step e l t m = Some n -> mech_parameters n = mech_parameters m.
Proof. unfold Mech_Step. destruct (Advance _ _); [|done]. by intros [= <-]. Qed.
Lemma Mech_Validate_parameters m n : mech_parameters m = mech_parameters n -> Mech_Validate m = Mech_Validate n.
Proof. unfold Mech_Validate. by intros ->. Qed.

Lemma Reset_shows s t : ready s -> Reset s = Some t -> shows t.
Proof.
  intros ((m & E & V & P) & M & D). unfold Reset. set (s0 := _.{inverter_ := _}).
  destruct (UpdateOutput s0) as [u|] eqn:U; [|done]. cbn [mbind option_bind].
  destruct (Hall_Reset _ _) as [h|]; [|done]. intros [= <-]. eapply UpdateOutput_shows; [|exact U].
  split; [|done]. exists (Pmsm_Reset m). unfold s0. cbn. by rewrite E.
Qed.

(** A configuration is applied as a whole, at standstill with the bridge off,
    or refused without any change. *)
Lemma Configure_atomic p s st t : Configure p s = Some (st, t) ->
  (st <> kOk /\ t = s) \/
  (st = kOk /\ shows t /\ parameters_ t = p /\ input_ t = input_ s /\ speed_ (mechanics_ t) = f_zero /\
   angle_ (mechanics_ t) = RotorAngle_init /\ mode_ (mechanics_ t) = kFree /\ bridge_on (inverter_ t) = false /\
   model_ t = Some (PmsmModel_of (sp_pmsm p)) /\ sp_motor_type p = kPmsm).
Proof.
  unfold Configure. destruct (f_leb (sp_dc_link p) f_zero) eqn:D; [intros [= <- <-]; by left|].
  destruct (decide _) as [M|M]; [intros [= <- <-]; by left|]. apply dec_stable in M.
  destruct (sp_motor_type p) eqn:T; [|intros [= <- <-]; by left..].
  destruct (decide _) as [V|V]; [intros [= <- <-]; by left|]. apply dec_stable in V.
  set (s0 := s.{parameters_ := p}.{model_ := _}.{pole_pairs_ := _}.{mechanics_ := _}.{hall_ := _}).
  destruct (Reset s0) as [u|] eqn:R; [|done]. cbn [mbind option_bind]. intros [= <- <-]. right. split; [done|].
  split; [eapply Reset_shows; [|exact R]; split; [by eexists|done]|].
  revert R. unfold Reset. set (s1 := s0.{model_ := _}.{mechanics_ := _}.{inverter_ := _}).
  destruct (UpdateOutput s1) as [v|] eqn:U; [|done]. cbn [mbind option_bind].
  destruct (Hall_Reset _ _) as [h|]; [|done]. intros [= <-]. destruct (UpdateOutput_states s1 v U) as [-> _]. done.
Qed.

Lemma Step_shows dt s st t : shows s -> Step dt s = Some (st, t) -> shows t.
Proof.
  intros S. pose proof S as [(m & E & V & P) Mv D A W Me Dc C Ph Tq Hl]. unfold Step. rewrite E.
  destruct (f_leb dt f_zero); [intros [= _ <-]; exact S|].
  destruct (Advance _ _) as [mid|]; [|done]. cbn [mbind option_bind].
  destruct (Mech_Step _ _ _ _) as [n|] eqn:N; [|done]. cbn [mbind option_bind].
  match goal with |- context [UpdateOutput ?x] => set (s0 := x) end.
  destruct (UpdateOutput s0) as [u|] eqn:U; [|done]. cbn [mbind option_bind].
  destruct (Hall_Update _ _ _ _) as [h|]; [|done]. intros [= _ <-]. eapply UpdateOutput_shows; [|exact U].
  split; [|split; [|exact D]].
  - eexists. split; [reflexivity|]. rewrite Pmsm_Step_parameters.
    split; [|exact P]. rewrite <- V. apply Pmsm_Validate_parameters, Pmsm_Step_parameters.
  - rewrite <- Mv. apply Mech_Validate_parameters. by eapply Mech_Step_parameters.
Qed.

Lemma SetShaftMode_shows mode speed s t : shows s -> SetShaftMode mode speed s = Some t -> shows t.
Proof.
  intros S. pose proof S as [V Mv D _ _ _ _ _ _ _ Hl]. unfold SetShaftMode. intros U.
  apply (UpdateOutput_shows_kept _ t) in U; [exact U| |exact Hl]. split; [exact V|]. split; [|exact D].
  rewrite <- Mv. apply Mech_Validate_parameters. by destruct mode.
Qed.
Lemma SetMechanicalState_shows a speed s t : shows s -> SetMechanicalState a speed s = Some t -> shows t.
Proof.
  intros S. pose proof S as [V Mv D _ _ _ _ _ _ _ Hl]. unfold SetMechanicalState.
  match goal with |- context [UpdateOutput ?x] => set (s0 := x) end.
  destruct (UpdateOutput s0) as [u|] eqn:U; [|done]. cbn [mbind option_bind].
  destruct (Hall_Reset _ _) as [h|]; [|done]. intros [= <-]. eapply UpdateOutput_shows; [|exact U].
  split; [exact V|]. split; [|exact D]. rewrite <- Mv. apply Mech_Validate_parameters. unfold s0. cbn. unfold SetState. cbn.
  by destruct (mode_ (mechanics_ s)).
Qed.
Lemma SetDcLinkVoltage_shows v s : shows s -> shows (SetDcLinkVoltage v s).
Proof.
  intros S. unfold SetDcLinkVoltage. destruct (f_gtb v f_zero) eqn:G; [|done].
  pose proof S as [V Mv D A W Me Dc C Ph Tq Hl]. split; try done. cbn.
  change (f_ltb f_zero v = true) in G. float_order.
Qed.

Definition plant_ok (s : MotorSimulation) : Prop := model_ s = None \/ shows s.
Lemma run_op_ok o s t : plant_ok s -> run_op o s = Some t -> plant_ok t.
Proof.
  intros [U|S]; destruct o; cbn [run_op].
  1,10: destruct (Configure p s) as [[st u]|] eqn:E; cbn; [|done]; intros [= <-];
        apply Configure_atomic in E as [[_ ->]|(_ & Sh & _)]; [by left + by right|by right].
  - unfold Reset. destruct (UpdateOutput _) as [u|] eqn:E; [|done]. cbn [mbind option_bind].
    destruct (Hall_Reset _ _); [|done]. intros [= <-]. left. apply UpdateOutput_states in E as [-> _]. cbn. by rewrite U.
  - intros [= <-]. by left.
  - intros [= <-]. by left.
  - intros [= <-]. left. unfold SetDcLinkVoltage. by case_match.
  - intros [= <-]. by left.
  - unfold SetShaftMode. intros E. left. apply UpdateOutput_states in E as [-> _]. done.
  - unfold SetMechanicalState. destruct (UpdateOutput _) as [u|] eqn:E; [|done]. cbn [mbind option_bind].
    destruct (Hall_Reset _ _); [|done]. intros [= <-]. left. apply UpdateOutput_states in E as [-> _]. done.
  - unfold Step. rewrite U. intros [= <-]. by left.
  - intros R. right. eapply Reset_shows; [by apply shows_ready|done].
  - intros [= <-]. right. by destruct S.
  - intros [= <-]. right. by destruct S.
  - intros [= <-]. right. by apply SetDcLinkVoltage_shows.
  - intros [= <-]. right. by destruct S.
  - intros R. right. by eapply SetShaftMode_shows.
  - intros R. right. by eapply SetMechanicalState_shows.
  - destruct (Step dt s) as [[st u]|] eqn:E; cbn; [|done]. intros [= <-]. right. by eapply Step_shows.
Qed.
Lemma run_ops_none l : foldl (fun s o => s ← s; run_op o s) None l = None.
Proof. by induction l. Qed.

(** After any sequence of calls from the construction on, a configured
    simulation shows its states: what Output() returns is the state at the end of
    the last call, with parameters that passed the checks. *)
Theorem plant_outputs_show_states l t : run_ops l MotorSimulation_init = Some t -> IsConfigured t = true -> shows t.
Proof.
  intros R C. assert (plant_ok t) as [N|]; [|unfold IsConfigured in C; rewrite N in C; by apply bool_decide_eq_true in C as []|done].
  assert (plant_ok MotorSimulation_init) as I by (by left). revert I R. unfold run_ops.
  generalize MotorSimulation_init. induction l as [|o l IH]; intros s I; cbn [foldl mbind option_bind]; [by intros [= <-]|].
  destruct (run_op o s) as [u|] eqn:E; [|by rewrite run_ops_none]. apply IH. by eapply run_op_ok.
Qed.

(** ** Settings the drive accepts are a motor the simulation runs *)
Lemma accepted_motor settings limits : SettingsStore.Validate settings limits = SettingsTypes.kSuccess ->
  num settings pole_pairs <> 0 /\ f_leb (fl stator_r settings) f_zero = false /\ f_leb (fl l_d settings) f_zero = false /\
  f_leb (fl l_q settings) f_zero = false /\ f_ltb (fl flux_pm settings) f_zero = false /\ f_leb (fl motor_j settings) f_zero = false.
Proof.
  unfold SettingsStore.Validate. cbv zeta.
  destruct (_ || _) eqn:A; [done|]. destruct (_ || _) eqn:B in |- *; [done|]. destruct (_ || _) eqn:C in |- *; [done|].
  intros _. repeat rewrite orb_false_iff in A. repeat rewrite orb_false_iff in C.
  destruct A as [_ A]. apply Z.eqb_neq in A. decompose [and] C. done.
Qed.
Lemma Reset_defined s : hall_offset_ (hall_ s) = f_zero -> is_Some (Reset s).
Proof.
  intros H. unfold Reset, UpdateOutput. set (s0 := s.{model_ := _}.{mechanics_ := _}.{inverter_ := _}).
  assert (exists e, ElectricalAngle (pole_pairs_ s0) (mechanics_ s0) = Some e) as (e & E) by (by eexists).
  rewrite E. cbn [mbind option_bind]. unfold Hall_Reset, Code, Position.
  assert (hall_offset_ (hall_ (s0.{output_ := output_ s0})) = f_zero) as Ho by (by cbn).
  cbn [hall_ set_field]. cbn. rewrite H. assert (exists o, FromAngle f_zero = Some o) as (o & ->) by (eexists; by vm_compute).
  by eexists.
Qed.
Theorem accepted_settings_configure settings limits s : SettingsStore.Validate settings limits = SettingsTypes.kSuccess ->
  num settings motor_type = 0 -> exists t, Configure_settings settings s = Some (kOk, t) /\ shows t /\ parameters_ t = ParametersFromSettings settings.
Proof.
  intros V T. destruct (accepted_motor settings limits V) as (P & R & D & Q & F & J).
  assert (exists r, Configure_settings settings s = Some (kOk, r)) as (t & E).
  { unfold Configure_settings, Configure, ParametersFromSettings. rewrite T. cbn [sp_dc_link sp_mechanics sp_motor_type sp_pmsm sp_hall_offset].
    change (f_leb (f_of_Z 48) f_zero) with false. cbv iota.
    unfold Mech_Validate, MechanicalModel_of. cbn [mech_parameters inertia viscous_friction coulomb_friction]. rewrite J.
    change (f_ltb f_zero f_zero) with false. cbn [orb]. destruct (decide _) as [N|_]; [done|]. cbn [motor_type_of].
    unfold Pmsm_Validate, PmsmModel_of. cbn [pmsm_parameters p_pole_pairs p_resistance p_l_d p_l_q p_flux_pm].
    apply Z.eqb_neq in P. rewrite P, R, D, Q, F. cbn [orb]. destruct (decide _) as [N|_]; [done|].
    match goal with |- context [Reset ?x] => destruct (Reset_defined x) as [r ->]; [done|] end. by eexists. }
  exists t. split; [done|]. apply Configure_atomic in E as [[N _]|(_ & Sh & Pt & _)]; done.
Qed.
End SimPlantLaws.
