(* ===== verification/SimBoard.v ===== *)
(** * The simulated hardware

    hardware/zephyr_sim/hardware_interface.cpp: the control cycle on the
    simulated motor of SimPlant.v, in the order of the interrupts of the battery
    case controller, with the duty plan delayed by one half period, the
    overcurrent trip of each sample, the Hall capture and the virtual time.  The
    power stage is that of PowerStage.v.  The handlers of the application are
    parameters, as in FocStm32.v. *)
From Stdlib Require Import ZArith Lia Bool SpecFloat.
From stdpp Require Import base decidable list option.
From S2P Require Import Prelude Float32 FloatRound PowerStage CurrentControl Transforms RotorAngle SettingsData Observers Isr SettingsTypes SettingsStore Timing SimPlant.
Import PowerStage CurrentControl SettingsData Observers SimPlant.
Import Isr(ControlCycleSamples, mkSamples, sample_currents, sample_dc_link, sample_overcurrent, sample_timestamp, DutyPlan,
  DutyPlan_init, neutral).

#[local] Open Scope Z_scope.
#[local] Open Scope unimoc_scope.

Module SimBoard.

Definition kHalfPeriodsPerCycle : Z := 4.
Definition kHallQueue : Z := 16.
Definition ControlCycleSamples_init : ControlCycleSamples := mkSamples (replicate 4 zero3) f_zero false 0.

Record PlantTrace := mkPlantTrace {
  t_i_a : float; t_i_b : float; t_i_c : float; t_i_d : float; t_i_q : float; t_electrical_angle : float;
  t_electrical_speed : float; t_mechanical_speed : float; t_torque : float }.
Definition PlantTrace_init : PlantTrace := mkPlantTrace f_zero f_zero f_zero f_zero f_zero f_zero f_zero f_zero f_zero.

(** The namespace-level variables of the file; [g_timer] is what
    [k_timer_start()] was last called with [us], none after [k_timer_stop()]. *)
Record Board := mkBoard {
  g_power_stage : SimPowerStage; g_plant : MotorSimulation; g_plant_trace : PlantTrace; g_initialized : bool;
  g_half_period : float; g_samples : ControlCycleSamples; g_plan : DutyPlan; g_carry : ThreePhase; g_applied : list ThreePhase;
  g_overcurrent_limit : float; g_current_override : bool; g_override_currents : ThreePhase; g_cycle_count : Z;
  g_hall_events : HallEventQueue; g_last_hall_code : Z; g_hall_override : option Z; g_half_period_ns : Z;
  timer_initialized : bool; g_timer : option Z; g_free_running : bool; g_paused : bool; g_cycle_ns : Z; g_elapsed_ns : Z;
  g_elapsed_us : Z; probes : Timing.Probes }.
#[export] Instance eta_Board : Eta Board := fun s =>
  mkBoard (g_power_stage s) (g_plant s) (g_plant_trace s) (g_initialized s) (g_half_period s) (g_samples s) (g_plan s) (g_carry s)
    (g_applied s) (g_overcurrent_limit s) (g_current_override s) (g_override_currents s) (g_cycle_count s) (g_hall_events s)
    (g_last_hall_code s) (g_hall_override s) (g_half_period_ns s) (timer_initialized s) (g_timer s) (g_free_running s) (g_paused s)
    (g_cycle_ns s) (g_elapsed_ns s) (g_elapsed_us s) (probes s).
Definition Board_init : Board :=
  mkBoard (mkSim true false false) MotorSimulation_init PlantTrace_init false f_zero ControlCycleSamples_init DutyPlan_init neutral
    (replicate 4 neutral) (S754_infinity false) false zero3 0 (HallEventQueue_init kHallQueue) 0 None 0 false None false false 0 0 0
    (Timing.mkProbes Timing.Probe_init Timing.Probe_init Timing.Probe_init).

(** ** The settings profile *)
Definition kSettingsProfile (sw_major sw_minor : Z) : SettingsStore.SettingsProfile :=
  SettingsStore.mkSettingsProfile
    (set_fl dc_link_trip (f_of_Z 58) (set_fl dc_link_regen_derate_start (f_of_Z 55)
      (set_fl battery_charge_current_max (f_of_Z 20) (set_fl battery_drive_current_max (f_of_Z 50)
      (set_fl pmsm_flux_obs_r_speed f_one (set_num hall_enable 1 (set_fl svm_duty_max (f_dec 97 100)
      (set_fl svm_duty_min (f_dec 3 100) (set_fl pwm_frequency (f_of_Z 32000) (set_num node_id 10
      (NvmSettings_init sw_major sw_minor)))))))))))
    (SettingsStore.mkHardwareCapabilities (f_of_Z 60) (f_of_Z 50) (f_of_Z 50) (f_of_Z 20) (f_of_Z 60)).

(** ** Measurements *)
Definition MeasuredCurrents (s : Board) : ThreePhase :=
  if g_current_override s then g_override_currents s else phase_currents (output_ (g_plant s)).
Definition MeasuredHallCode (s : Board) : Z := default (code (hall (output_ (g_plant s)))) (g_hall_override s).
Definition CaptureHall (time_ns : Z) (s : Board) : option Board :=
  let kCode := MeasuredHallCode s in
  if kCode =? g_last_hall_code s then Some s
  else
    let h := hall (output_ (g_plant s)) in
    edge_ns ← (if bool_decide (g_hall_override s = None) && edge h
               then age ← f_to_u64 (f_mul (edge_age h) (f_of_Z 1000000000)); Some (u64 (time_ns - age)) else Some time_ns);
    Some (s.{g_last_hall_code := kCode}.{g_hall_events := (Push kHallQueue (mkHallEvent kCode (u32 edge_ns)) (g_hall_events s)).2}).
Definition VirtualTimeNs (s : Board) : Z := u64 (g_cycle_count s * g_cycle_ns s).
Definition RestartHallCapture (s : Board) : option Board :=
  let s := s.{g_hall_events := Clear (g_hall_events s)}.{g_last_hall_code := 0} in
  CaptureHall (u64 (g_cycle_count s * g_cycle_ns s)) s.
Definition Exceeds (currents : ThreePhase) (s : Board) : bool :=
  let kLimit := g_overcurrent_limit s in
  f_gtb (Abs (phase_a currents)) kLimit || f_gtb (Abs (phase_b currents)) kLimit || f_gtb (Abs (phase_c currents)) kLimit.
Definition UpdatePlantTrace (s : Board) : Board :=
  let o := output_ (g_plant s) in
  s.{g_plant_trace := mkPlantTrace (phase_a (phase_currents o)) (phase_b (phase_currents o)) (phase_c (phase_currents o))
      (axis_d (rotor_current o)) (axis_q (rotor_current o)) (RotorAngle.AngleInRevolution (electrical_angle o)) (electrical_speed o)
      (mechanical_speed o) (electromagnetic_torque o)}.
Definition Trip (s : Board) : Board := s.{g_power_stage := PowerStageTrip (g_power_stage s)}.

(** ** The control cycle *)
Section Cycle.
(** The application: the control cycle gets the samples, and may trip the power
    stage and set a plan; the observer sees the state of the power
    stage and takes Hall events out of the queue
    ([None]: an undefined conversion in it). *)
Context {C : Type} (control : ControlCycleSamples -> C -> C * bool * option DutyPlan)
  (observe : PowerStageState -> HallEventQueue -> C -> option (C * HallEventQueue)) (kTiming : bool).

Definition ControlCycleHandler (cs : C * Board) : C * Board :=
  let '(c, s) := cs in
  let '(c, trip, plan) := control (g_samples s) c in
  let s := if trip : bool then Trip s else s in
  (c, match plan with Some p => s.{g_plan := p} | None => s end).
Definition ObserverHandler (cs : C * Board) : option (C * Board) :=
  let '(c, s) := cs in
  '(c, q) ← observe (GetPowerStageState (g_power_stage s)) (g_hall_events s) c;
  Some (c, s.{g_hall_events := q}).
(** The readings of the cycle counter before, between and after the handlers. *)
Definition handlers (kStart kControlEnd kObserverEnd : Z) (cs : C * Board) : option (C * Board) :=
  '(c, s) ← ObserverHandler (ControlCycleHandler cs);
  Some (c, if kTiming then
        s.{probes := Timing.mkProbes
             (Timing.Record_ (u32 (kControlEnd - kStart)) (Timing.sample_isr (probes s)))
             (Timing.Record_ (u32 (kControlEnd - kStart)) (Timing.control_cycle (probes s)))
             (Timing.Record_ (u32 (kObserverEnd - kControlEnd)) (Timing.observer (probes s)))}
      else s).

(** One half period: the duty of the plan, the plant, the Hall capture, the
    sample and its check. *)
Definition half_period (kStartNs k : Z) (acc : Board * (list ThreePhase * bool)) : option (Board * (list ThreePhase * bool)) :=
  let '(s, (samples, overcurrent)) := acc in
  let duty := if k =? 0 then g_carry s else array_get neutral (g_plan s) (k - 1) in
  let s := s.{g_applied := array_set k duty (g_applied s)} in
  let s := s.{g_plant := SetPhaseDuties duty (SetBridgeEnabled (enabled (g_power_stage s)) (g_plant s))} in
  '(_, plant) ← Step (g_half_period s) (g_plant s);
  s ← CaptureHall (u64 (kStartNs + u64 ((k + 1) * g_half_period_ns s))) (s.{g_plant := plant});
  let currents := MeasuredCurrents s in
  let samples := array_set k currents samples in
  Some (if Exceeds currents s then (Trip s, (samples, true)) else (s, (samples, overcurrent))).
Definition half_periods (kStartNs : Z) (s : Board) : option (Board * (list ThreePhase * bool)) :=
  foldl (fun acc k => acc ← acc; half_period kStartNs k acc) (Some (s, (replicate 4 zero3, false))) [0; 1; 2; 3].
Definition RunCycle (kStart kControlEnd kObserverEnd : Z) (cs : C * Board) : option (C * Board) :=
  if negb (g_initialized cs.2) then Some cs
  else
    '(c, s) ← handlers kStart kControlEnd kObserverEnd cs;
    let kStartNs := u64 (g_cycle_count s * g_cycle_ns s) in
    '(s, (samples, overcurrent)) ← half_periods kStartNs s;
    let next := mkSamples samples (dc_link_voltage (output_ (g_plant s))) overcurrent
                  (u32 (u64 (kStartNs + u64 (kHalfPeriodsPerCycle * g_half_period_ns s)))) in
    let s := s.{g_carry := array_get neutral (g_plan s) (kHalfPeriodsPerCycle - 1)}.{g_samples := next} in
    let s := UpdatePlantTrace s in
    Some (c, s.{g_cycle_count := u32 (g_cycle_count s + 1)}).

(** ** The timer of the cycle *)
Definition ScheduleNext (s : Board) : Board :=
  let s := s.{g_elapsed_ns := u64 (g_elapsed_ns s + g_cycle_ns s)} in
  let kDueUs := g_elapsed_ns s / 1000 in
  s.{g_timer := Some (u64 (kDueUs - g_elapsed_us s))}.{g_elapsed_us := kDueUs}.
Definition OnCycleTimer (kStart kControlEnd kObserverEnd : Z) (cs : C * Board) : option (C * Board) :=
  '(c, s) ← RunCycle kStart kControlEnd kObserverEnd cs;
  Some (c, if g_free_running s then ScheduleNext s else s).
Definition StartTimer (s : Board) : Board :=
  ScheduleNext (s.{g_free_running := true}.{g_elapsed_ns := 0}.{g_elapsed_us := 0}).
Definition StopTimer (s : Board) : Board := s.{g_free_running := false}.{g_timer := None}.

Definition ResetCycleState (s : Board) : Board :=
  s.{g_samples := mkSamples (replicate 4 zero3) (dc_link_voltage (output_ (g_plant s))) false 0}.{g_plan := DutyPlan_init}
   .{g_carry := neutral}.{g_applied := replicate 4 neutral}.{g_cycle_count := 0}.
(** The plant takes the factory settings when nothing configured it before. *)
Definition configure_plant (sw_major sw_minor : Z) (s : Board) : option Board :=
  if negb (IsConfigured (g_plant s)) then
    '(_, plant) ← Configure_settings (SettingsStore.factory_settings (kSettingsProfile sw_major sw_minor)) (g_plant s);
    Some (s.{g_plant := plant})
  else Some s.
(** The last part of Initialize(), with the times of the PWM frequency. *)
Definition bring_up (cycle_ns half_period_ns : Z) (half_period : float) (s : Board) : option (bool * Board) :=
  let s := s.{g_initialized := true}.{g_half_period := half_period}.{g_cycle_ns := cycle_ns}.{g_half_period_ns := half_period_ns} in
  s ← RestartHallCapture (ResetCycleState s);
  Some (true, if negb (g_paused s) then StartTimer s else s).
Definition Initialize (sw_major sw_minor : Z) (pwm_frequency : float) (s : Board) : option (bool * Board) :=
  kPwmHz ← f_to_u64 pwm_frequency;
  if kPwmHz =? 0 then Some (false, s)
  else
    s ← configure_plant sw_major sw_minor (StopTimer (s.{timer_initialized := true}));
    bring_up (4000000000 / u64 (2 * kPwmHz)) (1000000000 / u64 (2 * kPwmHz)) (f_div f_one (f_mul (f_of_Z 2) pwm_frequency)) s.
Definition Stop (s : Board) : Board := if g_initialized s then StopTimer s else s.

(** ** The interfaces of the platform *)
Definition GetPhaseCurrents (s : Board) : ThreePhase := MeasuredCurrents s.
Definition GetPhaseVoltages (s : Board) : ThreePhase := phase_voltages (output_ (g_plant s)).
Definition SetOvercurrentLimit (limit : float) (s : Board) : Board := s.{g_overcurrent_limit := limit}.
Definition PopHallEvent (s : Board) : option HallEvent * Board :=
  let '(e, q) := Pop kHallQueue (g_hall_events s) in (e, s.{g_hall_events := q}).
Definition GetControlCycleSamples (s : Board) : ControlCycleSamples := g_samples s.
Definition SetDutyPlan (plan : DutyPlan) (s : Board) : Board := s.{g_plan := plan}.

(** ** The controls of the simulation (sim_control.hpp) *)
Definition sim_SetExternalEnable (present : bool) (s : Board) : Board :=
  s.{g_power_stage := SetExternalEnable present (g_power_stage s)}.
Definition SetPhaseCurrentOverride (a b c : float) (s : Board) : Board :=
  s.{g_override_currents := mkThreePhase a b c}.{g_current_override := true}.
Definition ClearPhaseCurrentOverride (s : Board) : Board := s.{g_current_override := false}.
Definition SetHallCodeOverride (code : Z) (s : Board) : Board := s.{g_hall_override := Some code}.
Definition ClearHallCodeOverride (s : Board) : Board := s.{g_hall_override := None}.
Definition SetFreeRunning (running : bool) (s : Board) : Board :=
  if Bool.eqb running (g_free_running s) then s else if running then StartTimer s else StopTimer s.
Definition SetPaused (paused : bool) (s : Board) : Board :=
  let s := s.{g_paused := paused} in SetFreeRunning (negb paused && g_initialized s) s.
Definition sim_Reset (s : Board) : option Board :=
  plant ← SimPlant.Reset (g_plant s);
  let g := g_power_stage s in
  RestartHallCapture (ResetCycleState (s.{g_plant := plant}.{g_current_override := false}
    .{g_power_stage := (g.{enabled := false}).{fault := negb (external_enable g)}})).
Record Snapshot := mkSnapshot { snap_cycles : Z; snap_time_ns : Z; snap_plant : SimulationOutput; snap_applied : list ThreePhase }.
Definition TakeSnapshot (s : Board) : Snapshot :=
  mkSnapshot (g_cycle_count s) (VirtualTimeNs s) (output_ (g_plant s)) (g_applied s).
(** AdvanceCycles(): [count] times StepCycle(). *)
Fixpoint AdvanceCycles (count : nat) (cs : C * Board) : option (C * Board) :=
  match count with O => Some cs | S n => cs ← RunCycle 0 0 0 cs; AdvanceCycles n cs end.
End Cycle.
End SimBoard.
