(* ===== verification/SimBoardLaws.v ===== *)
(** * Laws of the simulated hardware

    The simulated cycle keeps the promises of the hardware layer: it plays the
    duty plans entry by entry with the same delay of one half period as the
    battery case controller (FocPipeline.v), trips on every sample above the
    limit, captures every change of the Hall code, and schedules its cycles
    without drift. *)
From Stdlib Require Import ZArith Lia Bool SpecFloat.
From stdpp Require Import base decidable list option.
From S2P Require Import Prelude Float32 FloatRound PowerStage CurrentControl Transforms RotorAngle SettingsData Observers Isr SettingsTypes SettingsStore Timing SimPlant SimPlantLaws SimBoard.
Import PowerStage CurrentControl SettingsData Observers SimPlant SimPlantLaws SimBoard.
Import Isr(ControlCycleSamples, mkSamples, sample_currents, sample_dc_link, sample_overcurrent, sample_timestamp, DutyPlan,
  DutyPlan_init, neutral).
#[local] Existing Instance Isr.eta_SubStepBuffer.

#[local] Open Scope Z_scope.
#[local] Open Scope unimoc_scope.

Module SimBoardLaws.

(** ** Hall capture *)
Lemma CaptureHall_spec ns s t : CaptureHall ns s = Some t ->
  t = s.{g_last_hall_code := g_last_hall_code t}.{g_hall_events := g_hall_events t} /\
  g_last_hall_code t = MeasuredHallCode s /\
  (MeasuredHallCode s = g_last_hall_code s -> t = s) /\
  (MeasuredHallCode s <> g_last_hall_code s -> exists time, in_u 32 time /\
     g_hall_events t = (Push kHallQueue (mkHallEvent (MeasuredHallCode s) time) (g_hall_events s)).2 /\
     (edge (hall (output_ (g_plant s))) = false -> time = u32 ns)).
Proof.
  unfold CaptureHall. destruct (Z.eqb_spec (MeasuredHallCode s) (g_last_hall_code s)) as [E|N].
  - intros [= <-]. split; [by destruct s|]. done.
  - set (b := bool_decide _ && _). destruct b eqn:B.
    + destruct (f_to_u64 _) as [age|]; [|done]. cbn [mbind option_bind]. intros [= <-].
      split; [done|]. split; [done|]. split; [done|]. intros _. eexists. split; [|split; [reflexivity|]].
      * apply (wrap_in_u 32). lia.
      * apply andb_true_iff in B as [_ B]. intros F. congruence.
    + cbn [mbind option_bind]. intros [= <-]. split; [done|]. split; [done|]. split; [done|]. intros _.
      exists (u32 ns). split; [apply (wrap_in_u 32); lia|]. done.
Qed.

Section Cycle.
Context {C : Type} (control : ControlCycleSamples -> C -> C * bool * option DutyPlan)
  (observe : PowerStageState -> HallEventQueue -> C -> option (C * HallEventQueue)) (kTiming : bool).

Definition plan_ok (p : DutyPlan) : Prop := length p = 4%nat.
Definition duty_of (s : Board) (k : Z) : ThreePhase := if k =? 0 then g_carry s else array_get neutral (g_plan s) (k - 1).

(** What a half period changes. *)
Lemma half_period_spec ns k s smp oc t smp' oc' : half_period ns k (s, (smp, oc)) = Some (t, (smp', oc')) ->
  g_applied t = array_set k (duty_of s k) (g_applied s) /\ g_plan t = g_plan s /\ g_carry t = g_carry s /\
  g_overcurrent_limit t = g_overcurrent_limit s /\ g_initialized t = g_initialized s /\ g_cycle_count t = g_cycle_count s /\
  g_half_period t = g_half_period s /\
  smp' = array_set k (MeasuredCurrents t) smp /\
  oc' = oc || Exceeds (MeasuredCurrents t) t /\
  g_power_stage t = (if Exceeds (MeasuredCurrents t) t then PowerStageTrip (g_power_stage s) else g_power_stage s) /\
  exists st, Step (g_half_period s) (SetPhaseDuties (duty_of s k) (SetBridgeEnabled (enabled (g_power_stage s)) (g_plant s))) =
    Some (st, g_plant t).
Proof.
  unfold half_period. fold (duty_of s k). set (d := duty_of s k). cbv zeta.
  match goal with |- context [Step ?a ?b] => change (Step a b) with
    (Step (g_half_period s) (SetPhaseDuties d (SetBridgeEnabled (enabled (g_power_stage s)) (g_plant s)))) end.
  destruct (Step _ _) as [[st plant]|] eqn:St; [|done]. cbn [mbind option_bind].
  destruct (CaptureHall _ _) as [u|] eqn:Cp; [|done]. cbn [mbind option_bind].
  apply CaptureHall_spec in Cp as (E & _). destruct (Exceeds (MeasuredCurrents u) u) eqn:X; intros [= <- <- <-].
  - assert (Exceeds (MeasuredCurrents (Trip u)) (Trip u) = true) as X' by exact X. rewrite X', orb_true_r.
    split; [by rewrite E|]. do 6 (split; [by rewrite E|]). split; [done|]. split; [done|]. split; [by rewrite E|]. exists st. by rewrite E.
  - rewrite X, orb_false_r.
    split; [by rewrite E|]. do 6 (split; [by rewrite E|]). split; [done|]. split; [done|]. split; [by rewrite E|]. exists st. by rewrite E.
Qed.

Lemma four {A} (l : list A) : length l = 4%nat -> exists a b c d, l = [a; b; c; d].
Proof. destruct l as [|a [|b [|c [|d [|]]]]]; try done. intros _. by exists a, b, c, d. Qed.

Definition tripped (oc : bool) (p : SimPowerStage) : Prop := oc = true -> enabled p = false /\ fault p = true.
Lemma tripped_step oc x p : tripped oc p -> tripped (oc || x) (if x : bool then PowerStageTrip p else p).
Proof. destruct x; [intros _ _; done|by rewrite orb_false_r]. Qed.

(** The four half periods: the duties are the entry carried over and the first
    three of the plan, and the overcurrent flag is that of the four samples. *)
Lemma half_periods_spec ns s t smp oc : half_periods ns s = Some (t, (smp, oc)) ->
  length (g_applied s) = 4%nat -> plan_ok (g_plan s) ->
  g_applied t = g_carry s :: take 3 (g_plan s) /\ g_plan t = g_plan s /\ g_carry t = g_carry s /\
  g_initialized t = g_initialized s /\ g_cycle_count t = g_cycle_count s /\ g_half_period t = g_half_period s /\
  g_overcurrent_limit t = g_overcurrent_limit s /\ length smp = 4%nat /\
  oc = existsb (fun i => Exceeds i s) smp /\ tripped oc (g_power_stage t) /\
  (oc = false -> g_power_stage t = g_power_stage s).
Proof.
  unfold half_periods. cbn [foldl mbind option_bind]. intros H La Lp.
  destruct (half_period ns 0 _) as [[s1 [m1 o1]]|] eqn:E1; [|done]. cbn [mbind option_bind] in H.
  destruct (half_period ns 1 _) as [[s2 [m2 o2]]|] eqn:E2; [|done]. cbn [mbind option_bind] in H.
  destruct (half_period ns 2 _) as [[s3 [m3 o3]]|] eqn:E3; [|done]. cbn [mbind option_bind] in H.
  apply half_period_spec in E1 as (A1 & P1 & C1 & L1 & I1 & N1 & H1 & M1 & O1 & W1 & _).
  apply half_period_spec in E2 as (A2 & P2 & C2 & L2 & I2 & N2 & H2 & M2 & O2 & W2 & _).
  apply half_period_spec in E3 as (A3 & P3 & C3 & L3 & I3 & N3 & H3 & M3 & O3 & W3 & _).
  apply half_period_spec in H as (A4 & P4 & C4 & L4 & I4 & N4 & H4 & M4 & O4 & W4 & _).
  destruct (four _ La) as (a & b & c & d & Ea), (four _ Lp) as (p & q & r & u & Ep).
  assert (forall i x, g_overcurrent_limit x = g_overcurrent_limit s -> Exceeds i x = Exceeds i s) as Ex
    by (intros i x X; unfold Exceeds; by rewrite X).
  rewrite (Ex _ s1) in * by congruence. rewrite (Ex _ s2) in * by congruence.
  rewrite (Ex _ s3) in * by congruence. rewrite (Ex _ t) in * by congruence.
  split. { rewrite A4, A3, A2, A1, Ea. unfold duty_of. rewrite P3, P2, P1, Ep. reflexivity. }
  do 6 (split; [congruence|]).
  assert (smp = [MeasuredCurrents s1; MeasuredCurrents s2; MeasuredCurrents s3; MeasuredCurrents t]) as -> by (by rewrite M4, M3, M2, M1).
  split; [done|]. split. { rewrite O4, O3, O2, O1. cbn [existsb]. rewrite orb_false_l, orb_false_r. by rewrite !orb_assoc. }
  split.
  - rewrite O4, W4. apply tripped_step. rewrite O3, W3. apply tripped_step. rewrite O2, W2. apply tripped_step.
    rewrite O1, W1. apply tripped_step. done.
  - rewrite O4, O3, O2, O1, !orb_false_iff. intros ((((_ & X1) & X2) & X3) & X4). rewrite W4, X4, W3, X3, W2, X2, W1, X1. done.
Qed.

Lemma half_periods_plan ns s t a : half_periods ns s = Some (t, a) -> g_plan t = g_plan s.
Proof.
  unfold half_periods. generalize (replicate 4 zero3, false). generalize [0; 1; 2; 3]. intros l a0.
  revert s a0. induction l as [|k l IH]; intros s a0; cbn [foldl mbind option_bind]; [by intros [= <- _]|].
  destruct (half_period ns k (s, a0)) as [[u a1]|] eqn:E.
  - destruct a0, a1. apply half_period_spec in E as (_ & E & _). intros H. rewrite <- E. by eapply IH.
  - intros H. exfalso. revert H. clear. induction l as [|j l IH]; [done|exact IH].
Qed.

Record board_ok (s : Board) : Prop := mkBoardOk {
  ok_applied : length (g_applied s) = 4%nat; ok_plan : plan_ok (g_plan s) }.

Lemma handlers_spec k1 k2 k3 c s c' s' : handlers control observe kTiming k1 k2 k3 (c, s) = Some (c', s') ->
  g_applied s' = g_applied s /\ g_carry s' = g_carry s /\ g_initialized s' = g_initialized s /\ g_cycle_count s' = g_cycle_count s /\
  g_overcurrent_limit s' = g_overcurrent_limit s /\ g_half_period s' = g_half_period s /\
  g_plan s' = default (g_plan s) (control (g_samples s) c).2 /\
  g_power_stage s' = if (control (g_samples s) c).1.2 then PowerStageTrip (g_power_stage s) else g_power_stage s.
Proof.
  unfold handlers, ObserverHandler, ControlCycleHandler. destruct (control (g_samples s) c) as [[c1 trip] plan]. cbn [fst snd].
  destruct (observe _ _ _) as [[c2 q]|]; [|done]. cbn [mbind option_bind]. intros [= _ <-]. destruct trip, plan, kTiming; by repeat split.
Qed.

(** One control cycle. *)
Lemma RunCycle_spec k1 k2 k3 c s c' t : board_ok s -> g_initialized s = true ->
  RunCycle control observe kTiming k1 k2 k3 (c, s) = Some (c', t) -> plan_ok (g_plan t) ->
  g_plan t = default (g_plan s) (control (g_samples s) c).2 /\
  g_applied t = g_carry s :: take 3 (g_plan t) /\ g_carry t = array_get neutral (g_plan t) 3 /\
  board_ok t /\ g_initialized t = true /\ g_cycle_count t = u32 (g_cycle_count s + 1) /\
  g_overcurrent_limit t = g_overcurrent_limit s /\
  length (sample_currents (g_samples t)) = 4%nat /\
  sample_overcurrent (g_samples t) = existsb (fun i => Exceeds i s) (sample_currents (g_samples t)) /\
  sample_dc_link (g_samples t) = dc_link_voltage (output_ (g_plant t)) /\
  (sample_overcurrent (g_samples t) || (control (g_samples s) c).1.2 = true ->
   enabled (g_power_stage t) = false /\ fault (g_power_stage t) = true) /\
  (sample_overcurrent (g_samples t) || (control (g_samples s) c).1.2 = false -> g_power_stage t = g_power_stage s).
Proof.
  intros [La Lp] I. unfold RunCycle. cbn [snd]. rewrite I. cbn [negb].
  destruct (handlers _ _ _ _ _ _ _) as [[c1 s1]|] eqn:Hd; [|done]. cbn [mbind option_bind]. apply handlers_spec in Hd as (A & Cr & In & N & L & Hp & P & W).
  destruct (half_periods _ s1) as [[s2 [smp oc]]|] eqn:E; [|done]. cbn [mbind option_bind]. intros [= <- <-] Lp2.
  assert (g_plan s2 = g_plan s1) as P21 by (by eapply half_periods_plan).
  assert (plan_ok (g_plan s1)) as Lp1 by (rewrite <- P21; exact Lp2). clear Lp2 P21.
  apply half_periods_spec in E as (A2 & P2 & C2 & I2 & N2 & H2 & L2 & Ls & O & T & F); [|congruence|done].
  cbn. rewrite P2, P in *. split; [done|]. split; [by rewrite A2, Cr|]. split; [done|].
  split. { split; cbn; [|exact Lp1]. rewrite A2. cbn [length]. unfold plan_ok in Lp1. rewrite length_take, Lp1. done. }
  split; [congruence|]. split; [by rewrite N2, N|]. split; [congruence|]. split; [done|].
  split; [rewrite O; unfold Exceeds; by rewrite L|]. split; [done|].
  destruct oc; cbn [orb].
  - split; [intros _; by apply T|done].
  - rewrite (F eq_refl), W. by destruct (control (g_samples s) c).1.2.
Qed.
(** [n] control cycles with the plan in force at the end of each and the duties
    its half periods had. *)
Fixpoint play (n : nat) (cs : C * Board) : option (C * Board * list (DutyPlan * list ThreePhase)) :=
  match n with
  | O => Some (cs, [])
  | S n =>
      cs ← RunCycle control observe kTiming 0 0 0 cs;
      '(cs', log) ← play n cs;
      Some (cs', (g_plan cs.2, g_applied cs.2) :: log)
  end.

End Cycle.

(** ** Virtual time *)
(** The delays of [n] expiries add up to the exact time rounded down to the
    kernel tick: the mean rate is exact and no error accumulates. *)
Fixpoint expiries (n : nat) (s : Board) : list Z * Board :=
  match n with
  | O => ([], s)
  | S n => let t := ScheduleNext s in let '(l, u) := expiries n t in (default 0 (g_timer t) :: l, u)
  end.
Theorem timer_without_drift n s : 0 < g_cycle_ns s -> 0 <= g_elapsed_ns s -> g_elapsed_us s = g_elapsed_ns s / 1000 ->
  g_elapsed_ns s + Z.of_nat n * g_cycle_ns s < 2 ^ 64 ->
  let '(delays, t) := expiries n s in
  g_elapsed_ns t = g_elapsed_ns s + Z.of_nat n * g_cycle_ns s /\ g_elapsed_us t = g_elapsed_ns t / 1000 /\
  g_elapsed_us s + foldr Z.add 0 delays = g_elapsed_us t /\
  Forall (fun d => g_cycle_ns s / 1000 <= d <= g_cycle_ns s / 1000 + 1) delays.
Proof.
  revert s. induction n as [|n IH]; intros s Hc Hz He Hb; cbn [expiries]; [cbn; repeat split; try done; lia|].
  assert (g_elapsed_ns (ScheduleNext s) = g_elapsed_ns s + g_cycle_ns s) as En.
  { change (g_elapsed_ns (ScheduleNext s)) with (u64 (g_elapsed_ns s + g_cycle_ns s)). apply (wrap_id 64). unfold in_u. nia. }
  assert (g_elapsed_us (ScheduleNext s) = g_elapsed_ns (ScheduleNext s) / 1000) as Eu by done.
  assert (g_cycle_ns (ScheduleNext s) = g_cycle_ns s) as Ec by done.
  specialize (IH (ScheduleNext s)). rewrite Ec, En in IH. rewrite En in Eu. specialize (IH Hc ltac:(lia) Eu ltac:(lia)).
  assert (g_timer (ScheduleNext s) = Some ((g_elapsed_ns s + g_cycle_ns s) / 1000 - g_elapsed_us s)) as Et.
  { change (g_timer (ScheduleNext s)) with (Some (u64 (g_elapsed_ns (ScheduleNext s) / 1000 - g_elapsed_us s))). rewrite En, He.
    f_equal. apply (wrap_id 64). unfold in_u. pose proof (Z.div_le_mono (g_elapsed_ns s) (g_elapsed_ns s + g_cycle_ns s) 1000).
    pose proof (Z.div_pos (g_elapsed_ns s) 1000). pose proof (Z.div_le_upper_bound (g_elapsed_ns s + g_cycle_ns s) 1000 (2 ^ 64 - 1)). lia. }
  destruct (expiries n (ScheduleNext s)) as [l t]. rewrite Et. cbn [default foldr id].
  destruct IH as (A & B & S & F). split; [lia|]. split; [done|]. split; [lia|].
  constructor; [|done]. rewrite He.
  pose proof (Z.div_mod (g_elapsed_ns s) 1000 ltac:(lia)). pose proof (Z.mod_pos_bound (g_elapsed_ns s) 1000 ltac:(lia)).
  pose proof (Z.div_mod (g_cycle_ns s) 1000 ltac:(lia)). pose proof (Z.mod_pos_bound (g_cycle_ns s) 1000 ltac:(lia)).
  pose proof (Z.div_mod (g_elapsed_ns s + g_cycle_ns s) 1000 ltac:(lia)).
  pose proof (Z.mod_pos_bound (g_elapsed_ns s + g_cycle_ns s) 1000 ltac:(lia)). lia.
Qed.

(** ** Reset and bring-up *)
(** After a reset the board is at cycle 0 of virtual time, with the power stage
    off, no plan, the motor at standstill without current, and the queue holds
    nothing but the present Hall code (nothing at all for the code 0). *)
Theorem sim_Reset_state s t : shows (g_plant s) -> sim_Reset s = Some t ->
  shows (g_plant t) /\ g_cycle_count t = 0 /\ VirtualTimeNs t = 0 /\ board_ok t /\ g_carry t = neutral /\ g_plan t = DutyPlan_init /\
  enabled (g_power_stage t) = false /\ fault (g_power_stage t) = negb (external_enable (g_power_stage t)) /\
  mechanical_speed (output_ (g_plant t)) = f_zero /\ rotor_current (output_ (g_plant t)) = zero_rotor /\
  g_last_hall_code t = MeasuredHallCode t /\
  (MeasuredHallCode t = 0 -> g_hall_events t = Clear (g_hall_events s)) /\
  (MeasuredHallCode t <> 0 ->
     g_hall_events t = (Push kHallQueue (mkHallEvent (MeasuredHallCode t) 0) (Clear (g_hall_events s))).2).
Proof.
  intros Sh. unfold sim_Reset. destruct (SimPlant.Reset (g_plant s)) as [plant|] eqn:R; [|done]. cbn [mbind option_bind].
  unfold RestartHallCapture. cbn zeta.
  match goal with |- context [CaptureHall _ ?x] => set (u := x) end. change (u64 (_ * _)) with (u64 (0 * g_cycle_ns s)).
  intros E. pose proof (Reset_shows (g_plant s) plant (shows_ready _ Sh) R) as Shp.
  assert (edge (hall (output_ plant)) = false /\ speed_ (mechanics_ plant) = f_zero /\ out_current (model_output (model_ plant)) = zero_rotor)
    as (Eg & Sp & Cu).
  { revert R. unfold SimPlant.Reset. set (s1 := (g_plant s).{model_ := _}.{mechanics_ := _}.{inverter_ := _}).
    destruct (UpdateOutput s1) as [v|] eqn:U; [|done]. cbn [mbind option_bind].
    destruct (SimPlant.Hall_Reset _ _) as [h|] eqn:Hh; [|done]. intros [= <-]. apply UpdateOutput_states in U as [-> _]. cbn.
    split; [|split; [done|]].
    - revert Hh. unfold SimPlant.Hall_Reset. destruct (Code _ _); [|done]. by intros [= <-].
    - unfold s1. cbn. by destruct (model_ (g_plant s)). }
  apply CaptureHall_spec in E as (Et & El & Es & En).
  assert (g_plant t = plant) as Pt by (by rewrite Et).
  assert (MeasuredHallCode t = MeasuredHallCode u) as M by (by rewrite Et).
  rewrite Pt, M. split; [exact Shp|]. split; [by rewrite Et|].
  split. { unfold VirtualTimeNs. replace (g_cycle_count t) with 0 by (by rewrite Et). done. }
  split; [split; by rewrite Et|]. do 4 (split; [by rewrite Et|]).
  split. { rewrite (proj2 (sh_mech _ Shp)). exact Sp. }
  split. { rewrite (sh_current _ Shp). exact Cu. }
  split; [exact El|]. split.
  - intros Z. assert (t = u) as -> by (by apply Es). done.
  - intros Z. destruct (En Z) as (time & _ & -> & T). rewrite (T Eg). done.
Qed.

(** The profile of the simulation is one the settings store takes, its factory
    settings pass its own limits, and they configure the motor. *)
Lemma sim_profile_valid :
  SettingsStore.IsValidProfile (kSettingsProfile 0 1) = true /\
  SettingsStore.Validate (SettingsStore.factory_settings (kSettingsProfile 0 1)) (SettingsStore.capabilities (kSettingsProfile 0 1))
    = SettingsTypes.kSuccess.
Proof. split; vm_compute; reflexivity. Qed.
Lemma sim_profile_motor : num (SettingsStore.factory_settings (kSettingsProfile 0 1)) motor_type = 0.
Proof. vm_compute. reflexivity. Qed.
Lemma sim_factory_motor s : exists t,
  Configure_settings (SettingsStore.factory_settings (kSettingsProfile 0 1)) s = Some (kOk, t) /\ shows t.
Proof.
  destruct (accepted_settings_configure _ _ s (proj2 sim_profile_valid) sim_profile_motor) as (t & E & Sh & _).
  exists t. split; [exact E|exact Sh].
Qed.
End SimBoardLaws.
