(* ===== verification/SimPlatform.v ===== *)
(** * The simulated platform on the bus

    hardware/zephyr_sim/cyphal_platform.cpp: the registers of the simulated
    plant, the plant message, and the settings the plant follows, over the board
    of SimBoard.v.  The command line options and the node that carries registers
    and messages are outside; a published message is recorded with its port. *)
From Stdlib Require Import ZArith Lia Bool SpecFloat.
From stdpp Require Import base decidable list option strings.
From S2P Require Import Prelude Float32 FloatRound PowerStage CurrentControl Transforms RotorAngle SettingsData Observers Isr SettingsTypes SettingsStore Registers OuterLoop SlowUpdate DriveMessages SimPlant SimBoard.
Import PowerStage CurrentControl SettingsData Observers Registers SimPlant SimBoard.
Import Isr(ControlCycleSamples, DutyPlan, CurrentControlIsr).

#[local] Open Scope Z_scope.
#[local] Open Scope unimoc_scope.

Module SimPlatform.

Record PlantInputs := mkPlantInputs {
  shaft_mode : ShaftMode; imposed_speed : float; in_load_torque : float; in_dc_link_voltage : float; in_external_enable : bool;
  follow_settings : bool }.
#[export] Instance eta_PlantInputs : Eta PlantInputs := fun s =>
  mkPlantInputs (shaft_mode s) (imposed_speed s) (in_load_torque s) (in_dc_link_voltage s) (in_external_enable s) (follow_settings s).
Definition PlantInputs_init : PlantInputs := mkPlantInputs kFree f_zero f_zero (f_of_Z 48) true true.

(** unimoc.sim.Plant.0.1 *)
Record PlantMessage := mkPlantMessage {
  m_control_cycles : Z; m_i_a : float; m_i_b : float; m_i_c : float; m_mechanical_angle : float; m_mechanical_speed : float;
  m_electrical_angle : float; m_torque : float; m_dc_link_voltage : float; m_hall_code : Z }.

Definition kPubSimPlant : Z := 213.
Definition kUnsetPortId : Z := 0xFFFF.
Record Platform := mkPlatform {
  g_inputs : PlantInputs; g_applied_settings : NvmSettings; plant_port_id : Z; g_plant_period_us : Z; g_next_plant_us : Z;
  published : list (Z * PlantMessage) }.
#[export] Instance eta_Platform : Eta Platform := fun s =>
  mkPlatform (g_inputs s) (g_applied_settings s) (plant_port_id s) (g_plant_period_us s) (g_next_plant_us s) (published s).
Definition Platform_init (settings : NvmSettings) : Platform := mkPlatform PlantInputs_init settings kPubSimPlant 0 0 [].

Definition ApplyInputs (p : Platform) (b : Board) : option Board :=
  let i := g_inputs p in
  plant ← SetShaftMode (shaft_mode i) (imposed_speed i) (g_plant b);
  let plant := SetDcLinkVoltage (in_dc_link_voltage i) (SetInput (mkSimulationInput (in_load_torque i) f_zero) plant) in
  Some (sim_SetExternalEnable (in_external_enable i) (b.{g_plant := plant})).

Inductive SimRegister := reg_ShaftMode | reg_ImposedSpeed | reg_LoadTorque | reg_DcLinkVoltage | reg_ExternalEnable
  | reg_FollowSettings | reg_PlantId | reg_PlantType | reg_Paused | reg_Advance | reg_CycleCount | reg_CyclePeriodNs | reg_Reset.
Definition registers : list SimRegister :=
  [reg_ShaftMode; reg_ImposedSpeed; reg_LoadTorque; reg_DcLinkVoltage; reg_ExternalEnable; reg_FollowSettings; reg_PlantId;
   reg_PlantType; reg_Paused; reg_Advance; reg_CycleCount; reg_CyclePeriodNs; reg_Reset].
Definition kMaxAdvanceCycles : Z := 16000.
Definition kNames : list string :=
  ["unimoc.sim.shaft_mode"; "unimoc.sim.imposed_speed"; "unimoc.sim.load_torque"; "unimoc.sim.dc_link_voltage";
   "unimoc.sim.external_enable"; "unimoc.sim.plant_follows_settings"; "uavcan.pub.sim_plant.id"; "uavcan.pub.sim_plant.type";
   "unimoc.sim.paused"; "unimoc.sim.advance"; "unimoc.sim.cycle_count"; "unimoc.sim.cycle_period_ns"; "unimoc.sim.reset"]%string.
Definition kInf : float := S754_infinity false.
Definition no_limit (help : string) : RegisterDescription := mkRegisterDescription EmptyString (f_neg kInf) kInf kImmediate help.
Definition kDescriptions : list RegisterDescription := [
  mkRegisterDescription EmptyString f_zero f_one kImmediate "Shaft of the plant: 0 free (load torque), 1 imposed speed";
  mkRegisterDescription "rad/s" (f_neg kInf) kInf kImmediate "Mechanical speed of the shaft in imposed-speed mode";
  mkRegisterDescription "N m" (f_neg kInf) kInf kImmediate "Load torque on the free shaft; positive opposes positive rotation";
  mkRegisterDescription "V" f_zero kInf kImmediate "DC-link voltage of the simulated battery";
  no_limit "External enable of the power stage (the E-stop loop); 0 blocks it";
  no_limit "1: the simulated motor takes the motor parameters of the settings";
  mkRegisterDescription EmptyString f_zero (f_of_Z 65535) kImmediate "Plant truth subject (unimoc.sim.Plant.0.1); 65535: off";
  no_limit "DSDL type of the port";
  no_limit "1 stops the control cycles (virtual time); readiness timeouts run on";
  mkRegisterDescription "cycles" f_zero (f_of_Z 16000) kImmediate "Runs this many control cycles of a paused simulation";
  mkRegisterDescription "cycles" (f_neg kInf) kInf kImmediate "Control cycles since the start (virtual time)";
  mkRegisterDescription "ns" (f_neg kInf) kInf kImmediate "Virtual duration of one control cycle";
  mkRegisterDescription EmptyString f_one f_one kImmediate "1: plant to standstill, virtual time 0, controller restarted"].
Definition Count : nat := length kNames.
Definition Name (index : nat) : string := default EmptyString (kNames !! index).
Definition Describe (index : nat) : option RegisterDescription := kDescriptions !! index.

Section Platform.
Context {C : Type} (control : ControlCycleSamples -> C -> C * bool * option DutyPlan)
  (observe : PowerStageState -> HallEventQueue -> C -> option (C * HallEventQueue)) (kTiming : bool)
  (start_runtime : NvmSettings -> float -> C * Board -> option (bool * (C * Board)))
  (sw_major sw_minor : Z).
#[local] Abbreviation AdvanceCycles := (AdvanceCycles control observe kTiming).

Definition ResetSimulation (p : Platform) (cb : C * Board) : option (bool * (C * Board)) :=
  let '(c, b) := cb in
  if decide (GetPowerStageState (g_power_stage b) = kEnabled) then Some (false, (c, b))
  else
    b ← sim_Reset (Stop b);
    b ← ApplyInputs p b;
    start_runtime (g_applied_settings p)
      (SettingsStore.max_phase_current (SettingsStore.capabilities (kSettingsProfile sw_major sw_minor))) (c, b).

(** The value of a register, and whether it can be written. *)
Definition Read (r : SimRegister) (p : Platform) (b : Board) : RegisterValue * bool :=
  let i := g_inputs p in
  match r with
  | reg_ShaftMode => (SetNatural8 (match shaft_mode i with kFree => 0 | kImposedSpeed => 1 end), true)
  | reg_ImposedSpeed => (SetReal32 (imposed_speed i), true)
  | reg_LoadTorque => (SetReal32 (in_load_torque i), true)
  | reg_DcLinkVoltage => (SetReal32 (in_dc_link_voltage i), true)
  | reg_ExternalEnable => (SetBit (in_external_enable i), true)
  | reg_FollowSettings => (SetBit (follow_settings i), true)
  | reg_PlantId => (SetNatural16 (plant_port_id p), true)
  | reg_PlantType => (SetString (DriveMessages.bytes_of "unimoc.sim.Plant.0.1"), false)
  | reg_Paused => (SetBit (g_paused b), true)
  | reg_Advance => (SetNatural32 0, true)
  | reg_CycleCount => (SetNatural32 (g_cycle_count b), false)
  | reg_CyclePeriodNs => (SetNatural32 (u32 (g_cycle_ns b)), false)
  | reg_Reset => (SetNatural8 0, true)
  end.

Definition State : Type := Platform * (C * Board).
Definition with_inputs (i : PlantInputs) (s : State) : option (RegisterWriteResult * State) :=
  let '(p, (c, b)) := s in
  let p := p.{g_inputs := i} in
  b ← ApplyInputs p b;
  Some (kAccepted, (p, (c, b))).
Definition Write (r : SimRegister) (value : RegisterValue) (s : State) : option (RegisterWriteResult * State) :=
  let '(p, (c, b)) := s in
  let i := g_inputs p in
  match GetNumber value with
  | None => Some (kTypeMismatch, s)
  | Some kValue =>
      if negb (is_finite kValue) then Some (kOutOfRange, s)
      else match r with
      | reg_ShaftMode =>
          if negb (f_eqb kValue f_zero) && negb (f_eqb kValue f_one) then Some (kOutOfRange, s)
          else with_inputs (i.{shaft_mode := if f_eqb kValue f_zero then kFree else kImposedSpeed}) s
      | reg_ImposedSpeed => with_inputs (i.{imposed_speed := kValue}) s
      | reg_LoadTorque => with_inputs (i.{in_load_torque := kValue}) s
      | reg_DcLinkVoltage =>
          if f_leb kValue f_zero then Some (kOutOfRange, s) else with_inputs (i.{in_dc_link_voltage := kValue}) s
      | reg_ExternalEnable => with_inputs (i.{in_external_enable := negb (f_eqb kValue f_zero)}) s
      | reg_FollowSettings =>
          Some (kAccepted, (p.{g_inputs := i.{follow_settings := negb (f_eqb kValue f_zero)} }, (c, b)))
      | reg_PlantId =>
          match GetInteger value with
          | None => Some (kOutOfRange, s)
          | Some kId =>
              if ((8191 <? kId) && negb (kId =? kUnsetPortId)) || (kId <? 0) then Some (kOutOfRange, s)
              else Some (kAccepted, (p.{plant_port_id := u16 kId}, (c, b)))
          end
      | reg_PlantType | reg_CycleCount | reg_CyclePeriodNs => Some (kReadOnly, s)
      | reg_Paused => Some (kAccepted, (p, (c, SetPaused (negb (f_eqb kValue f_zero)) b)))
      | reg_Advance =>
          match GetInteger value with
          | None => Some (kOutOfRange, s)
          | Some kCycles =>
              if negb (g_paused b) || (kCycles <? 0) || (kMaxAdvanceCycles <? kCycles) then Some (kOutOfRange, s)
              else cb ← AdvanceCycles (Z.to_nat kCycles) (c, b); Some (kAccepted, (p, cb))
          end
      | reg_Reset =>
          if negb (f_eqb kValue f_one) then Some (kOutOfRange, s)
          else
            '(done, cb) ← ResetSimulation p (c, b);
            Some (if done : bool then kAccepted else kOutOfRange, (p, cb))
      end
  end.

Definition SetPlantRate (settings : NvmSettings) (p : Platform) : option Platform :=
  let kRate := fl telemetry_rate settings in
  period ← (if f_gtb kRate f_zero then f_to_u64 (f_div (f_of_Z 1000000) kRate) else Some 0);
  Some (p.{g_plant_period_us := period}).
(** [kNodeId], [kWheel]: the options, negative when not given. *)
Definition CyphalPlatformSettingsOverrides (kNodeId kWheel : Z) (settings : NvmSettings) : NvmSettings :=
  let settings := if 0 <=? kNodeId then set_num node_id (Z.min kNodeId 255) settings else settings in
  if 0 <=? kWheel then set_num cart_wheel (Z.min kWheel 255) settings else settings.
(** UnimocSimNodeIdOption(), UnimocSimCartWheelOption(): [None] without the option. *)
Definition option_value (given : option Z) : Z := match given with Some v => i32 v | None => -1 end.
Definition CyphalPlatformStart (settings : NvmSettings) (s : State) : option State :=
  let '(p, (c, b)) := s in
  p ← SetPlantRate settings (p.{g_applied_settings := settings});
  b ← ApplyInputs p b;
  Some (p, (c, b)).
Definition CyphalPlatformSettingsApplied (settings : NvmSettings) (s : State) : option State :=
  let '(p, (c, b)) := s in
  p ← SetPlantRate settings (p.{g_applied_settings := settings});
  if negb (follow_settings (g_inputs p)) then Some (p, (c, b))
  else
    '(_, plant) ← Configure_settings settings (g_plant b);
    b ← ApplyInputs p (b.{g_plant := plant});
    Some (p, (c, b)).

(** [std::fmod]: the exact remainder, with the sign of the dividend. *)
Definition fmod (x y : float) : float :=
  match x with
  | S754_zero _ => x
  | S754_finite s _ _ => binary_normalize 24 128 (Z.rem (fval x) (fval y)) (-149) s
  | _ => S754_nan
  end.
Definition plant_angle (a : RotorAngle.RotorAngle) : float :=
  let angle := fmod (RotorAngle.AbsoluteAngle a) f_two_pi in
  if f_ltb angle f_zero then f_add angle f_two_pi else angle.
Definition plant_message (snapshot : Snapshot) : PlantMessage :=
  let o := snap_plant snapshot in
  mkPlantMessage (snap_cycles snapshot) (phase_a (phase_currents o)) (phase_b (phase_currents o)) (phase_c (phase_currents o))
    (RotorAngle.AbsoluteAngle (mechanical_angle o)) (mechanical_speed o) (plant_angle (electrical_angle o))
    (electromagnetic_torque o) (dc_link_voltage o) (code (hall o)).
Definition CyphalPlatformSpin (now_us : Z) (s : State) : State :=
  let '(p, (c, b)) := s in
  if (g_plant_period_us p =? 0) || (now_us <? g_next_plant_us p) then s
  else
    let p := p.{g_next_plant_us := u64 (now_us + g_plant_period_us p)} in
    (p.{published := published p ++ [(plant_port_id p, plant_message (TakeSnapshot b))] }, (c, b)).
End Platform.

(** ** The application of main.cpp on the simulated board *)
Record App := mkApp { app_isr : CurrentControlIsr; app_slow : SlowUpdate.SlowUpdate; app_outer : OuterLoop.OuterLoop }.
Definition App_init : App := mkApp Isr.CurrentControlIsr_init SlowUpdate.SlowUpdate_init OuterLoop.OuterLoop_init.
Definition kTimestampFrequency : Z := 1000000000.
Definition GetTimerClockFrequency : Z := 170000000.
(** The calls of TripPowerStage() and SetDutyPlan() of the control cycle. *)
#[local] Instance trip_recorder : PowerStageOps bool := {|
  enable_ tripped := (negb tripped, tripped); disable_ _ := true; trip_ _ := true; clear_fault_ tripped := tripped;
  get_state_ tripped := if tripped then kFault else kEnabled |}.
Definition sim_control (samples : ControlCycleSamples) (a : App) : App * bool * option DutyPlan :=
  let '(c, tripped) := Isr.OnControlCycle samples (app_isr a) false in
  (mkApp c (app_slow a) (app_outer a), tripped, if Isr.hardware_ (app_isr a) then Isr.hardware_plan c else None).
Fixpoint pop_all (fuel : nat) (q : HallEventQueue) : list HallEvent :=
  match fuel with
  | O => []
  | S n => match Pop kHallQueue q with (Some e, q) => e :: pop_all n q | (None, _) => [] end
  end.
Definition sim_observe (stage : PowerStageState) (q : HallEventQueue) (a : App) : option (App * HallEventQueue) :=
  let waiting := pop_all (Z.to_nat kHallQueue) q in
  '(_, rest, i, slow) ← SlowUpdate.RunOnce kTimestampFrequency (bool_decide (stage = kEnabled)) waiting (app_isr a) (app_slow a);
  let '(_, outer) := OuterLoop.OnObserverCycle i (app_outer a) in
  Some (mkApp i slow outer, Nat.iter (length waiting - length rest) (fun q => (Pop kHallQueue q).2) q).
(** StartRuntime() on the board: stop, the limit, and the bring-up with the
    frequency of the settings. *)
Definition sim_start_runtime (sw_major sw_minor : Z) (settings : NvmSettings) (limit : float) (ab : App * Board)
    : option (bool * (App * Board)) :=
  let '(a, b) := ab in
  '(ok, b) ← Initialize sw_major sw_minor (fl pwm_frequency settings) (SetOvercurrentLimit limit (Stop b));
  '(started, i, slow, outer) ← SlowUpdate.StartRuntime kTimestampFrequency (fun _ _ => ok) GetTimerClockFrequency settings limit
    (app_isr a) (app_slow a) (app_outer a);
  Some (started, (mkApp i slow outer, b)).
End SimPlatform.
