(* ===== verification/SimPlatformLaws.v ===== *)
(** * Laws of the simulated platform

    The registers of the plant: what is written is read back, a refused write
    changes nothing, accepted values lie inside the described limits, and the
    plant always runs with the inputs the registers show. *)
From Stdlib Require Import ZArith Lia Bool SpecFloat.
From stdpp Require Import base decidable list option strings.
From S2P Require Import Prelude Float32 FloatRound PowerStage CurrentControl Transforms RotorAngle SettingsData Observers Isr SettingsTypes SettingsStore Registers OuterLoop SlowUpdate SimPlant SimPlantLaws SimBoard SimBoardLaws SimPlatform.
Import PowerStage CurrentControl SettingsData Observers Registers SimPlant SimPlantLaws SimBoard SimBoardLaws SimPlatform.
Import Isr(ControlCycleSamples, DutyPlan, CurrentControlIsr).

#[local] Open Scope Z_scope.
#[local] Open Scope unimoc_scope.

Module SimPlatformLaws.

(** ** The plant has the inputs of the registers *)
Record has_inputs (i : PlantInputs) (b : Board) : Prop := mkHasInputs {
  hi_mode : mode_ (mechanics_ (g_plant b)) = shaft_mode i;
  hi_speed : imposed_speed_ (mechanics_ (g_plant b)) = imposed_speed i;
  hi_load : input_ (g_plant b) = mkSimulationInput (in_load_torque i) f_zero;
  hi_dc : sp_dc_link (parameters_ (g_plant b)) = in_dc_link_voltage i;
  hi_enable : external_enable (g_power_stage b) = in_external_enable i }.

(** What the cycle keeps of the plant: its inputs and parameters. *)
Definition same_inputs (s t : MotorSimulation) : Prop :=
  mode_ (mechanics_ t) = mode_ (mechanics_ s) /\ imposed_speed_ (mechanics_ t) = imposed_speed_ (mechanics_ s) /\
  input_ t = input_ s /\ sp_dc_link (parameters_ t) = sp_dc_link (parameters_ s) /\ IsConfigured t = IsConfigured s.
Lemma same_inputs_refl s : same_inputs s s.
Proof. by repeat split. Qed.
Lemma same_inputs_trans s t u : same_inputs s t -> same_inputs t u -> same_inputs s u.
Proof. intros (A1 & A2 & A3 & A4 & A5) (B1 & B2 & B3 & B4 & B5). repeat split; congruence. Qed.
Lemma has_inputs_same i b c : same_inputs (g_plant b) (g_plant c) -> external_enable (g_power_stage c) = external_enable (g_power_stage b) ->
  has_inputs i b -> has_inputs i c.
Proof. intros (A1 & A2 & A3 & A4 & _) E []. split; congruence. Qed.

Lemma Step_same dt s st t : Step dt s = Some (st, t) -> same_inputs s t.
Proof.
  unfold Step. destruct (model_ s) as [m|] eqn:M; [|intros [= _ <-]; apply same_inputs_refl].
  destruct (f_leb dt f_zero); [intros [= _ <-]; apply same_inputs_refl|].
  destruct (RotorAngle.Advance _ _) as [mid|]; [|done]. cbn [mbind option_bind].
  destruct (Mech_Step _ _ _ _) as [n|] eqn:N; [|done]. cbn [mbind option_bind].
  match goal with |- context [UpdateOutput ?x] => set (s0 := x) end.
  destruct (UpdateOutput s0) as [u|] eqn:U; [|done]. cbn [mbind option_bind].
  destruct (SimPlant.Hall_Update _ _ _ _) as [h|]; [|done]. intros [= _ <-]. apply UpdateOutput_states in U as [-> _].
  assert (mode_ n = mode_ (mechanics_ s) /\ imposed_speed_ n = imposed_speed_ (mechanics_ s)) as [A B].
  { revert N. unfold Mech_Step. destruct (RotorAngle.Advance _ _); [|done]. by intros [= <-]. }
  split; [exact A|]. split; [exact B|]. split; [done|]. split; [done|]. unfold IsConfigured. cbn. by rewrite M.
Qed.
Lemma Reset_same s t : SimPlant.Reset s = Some t -> same_inputs s t.
Proof.
  unfold SimPlant.Reset. match goal with |- context [UpdateOutput ?x] => set (s0 := x) end.
  destruct (UpdateOutput s0) as [u|] eqn:U; [|done]. cbn [mbind option_bind].
  destruct (SimPlant.Hall_Reset _ _) as [h|]; [|done]. intros [= <-]. apply UpdateOutput_states in U as [-> _].
  do 4 (split; [done|]). unfold IsConfigured. cbn. by destruct (model_ s).
Qed.
Lemma half_period_same ns k s a t a' : half_period ns k (s, a) = Some (t, a') -> same_inputs (g_plant s) (g_plant t) /\
  external_enable (g_power_stage t) = external_enable (g_power_stage s).
Proof.
  destruct a as [smp oc], a' as [smp' oc']. intros H.
  apply half_period_spec in H as (_ & _ & _ & _ & _ & _ & _ & _ & _ & P & st & St). apply Step_same in St.
  split; [exact St|]. rewrite P. by destruct (Exceeds _ _).
Qed.
Lemma half_periods_same ns s t a : half_periods ns s = Some (t, a) -> same_inputs (g_plant s) (g_plant t) /\
  external_enable (g_power_stage t) = external_enable (g_power_stage s).
Proof.
  unfold half_periods. generalize (replicate 4 zero3, false). generalize [0; 1; 2; 3]. intros l a0.
  revert s a0. induction l as [|k l IH]; intros s a0; cbn [foldl mbind option_bind].
  - intros [= <- _]. split; [apply same_inputs_refl|done].
  - destruct (half_period ns k (s, a0)) as [[u a1]|] eqn:E.
    + apply half_period_same in E as [E1 E2]. intros H. destruct (IH u a1 H) as [F1 F2].
      split; [by eapply same_inputs_trans|congruence].
    + intros H. exfalso. revert H. clear. induction l as [|j l IH]; [done|exact IH].
Qed.

Section Platform.
Context {C : Type} (control : ControlCycleSamples -> C -> C * bool * option DutyPlan)
  (observe : PowerStageState -> HallEventQueue -> C -> option (C * HallEventQueue)) (kTiming : bool)
  (start_runtime : NvmSettings -> float -> C * Board -> option (bool * (C * Board))) (sw_major sw_minor : Z).
(** The start of the controller restarts the board and leaves the inputs of the
    plant alone. *)
Hypothesis start_keeps : forall settings limit c b ok c' b', IsConfigured (g_plant b) = true ->
  start_runtime settings limit (c, b) = Some (ok, (c', b')) ->
  same_inputs (g_plant b) (g_plant b') /\ external_enable (g_power_stage b') = external_enable (g_power_stage b).

Lemma handlers_same k1 k2 k3 cs cs' : handlers control observe kTiming k1 k2 k3 cs = Some cs' ->
  g_plant cs'.2 = g_plant cs.2 /\ external_enable (g_power_stage cs'.2) = external_enable (g_power_stage cs.2).
Proof.
  destruct cs as [c s]. unfold handlers, ObserverHandler, ControlCycleHandler.
  destruct (control (g_samples s) c) as [[c1 trip] plan]. destruct (observe _ _ _) as [[c2 q]|]; [|done]. cbn [mbind option_bind].
  intros [= <-]. destruct trip, plan, kTiming; done.
Qed.
Lemma RunCycle_same k1 k2 k3 cs cs' : RunCycle control observe kTiming k1 k2 k3 cs = Some cs' ->
  same_inputs (g_plant cs.2) (g_plant cs'.2) /\ external_enable (g_power_stage cs'.2) = external_enable (g_power_stage cs.2).
Proof.
  unfold RunCycle. destruct (negb _); [intros [= <-]; split; [apply same_inputs_refl|done]|].
  destruct (handlers _ _ _ _ _ _ _) as [[c1 s1]|] eqn:Hd; [|done]. cbn [mbind option_bind].
  apply handlers_same in Hd as [H1 H2]. cbn [snd] in H1, H2.
  destruct (half_periods _ s1) as [[s2 [smp oc]]|] eqn:E; [|done]. cbn [mbind option_bind]. intros [= <-].
  apply half_periods_same in E as [E1 E2]. rewrite H1 in E1. split; [exact E1|]. cbn. congruence.
Qed.
Lemma AdvanceCycles_same n cs cs' : AdvanceCycles control observe kTiming n cs = Some cs' ->
  same_inputs (g_plant cs.2) (g_plant cs'.2) /\ external_enable (g_power_stage cs'.2) = external_enable (g_power_stage cs.2).
Proof.
  revert cs. induction n as [|n IH]; intros cs; cbn [AdvanceCycles]; [intros [= <-]; split; [apply same_inputs_refl|done]|].
  destruct (RunCycle _ _ _ _ _ _ cs) as [u|] eqn:R; [|done]. cbn [mbind option_bind]. intros H.
  apply RunCycle_same in R as [R1 R2]. destruct (IH u H) as [H1 H2]. split; [by eapply same_inputs_trans|congruence].
Qed.

Definition inputs_ok (i : PlantInputs) : Prop := f_ltb f_zero (in_dc_link_voltage i) = true.
Definition platform_ok (s : @State C) : Prop :=
  let '(p, (_, b)) := s in
  inputs_ok (g_inputs p) /\ IsConfigured (g_plant b) = true /\ has_inputs (g_inputs p) b.
Lemma ApplyInputs_inputs p b c : inputs_ok (g_inputs p) -> ApplyInputs p b = Some c ->
  has_inputs (g_inputs p) c /\ IsConfigured (g_plant c) = IsConfigured (g_plant b).
Proof.
  intros I. unfold ApplyInputs. destruct (SetShaftMode _ _ _) as [u|] eqn:S; [|done]. cbn [mbind option_bind]. intros [= <-].
  unfold SetShaftMode in S. apply UpdateOutput_states in S as [-> _]. unfold SetDcLinkVoltage. change (f_gtb ?x f_zero) with (f_ltb f_zero x).
  rewrite I. split; [|done]. split; try done; cbn.
  - by destruct (shaft_mode (g_inputs p)).
  - by destruct (shaft_mode (g_inputs p)).
  - by destruct (in_external_enable (g_inputs p)).
Qed.
Lemma with_inputs_ok i (s : @State C) r t : platform_ok s -> inputs_ok i -> with_inputs i s = Some (r, t) ->
  platform_ok t /\ r = kAccepted /\ g_inputs t.1 = i.
Proof.
  destruct s as [p [c b]]. intros (_ & Cf & _) I. unfold with_inputs. destruct (ApplyInputs _ b) as [u|] eqn:A; [|done].
  cbn [mbind option_bind]. intros [= <- <-]. apply ApplyInputs_inputs in A as [A1 A2]; [|done]. cbn in *.
  split; [|done]. split; [done|]. split; [congruence|done].
Qed.
Lemma SetPaused_same paused b : g_plant (SetPaused paused b) = g_plant b /\ g_power_stage (SetPaused paused b) = g_power_stage b.
Proof. unfold SetPaused, SetFreeRunning. repeat case_match; done. Qed.
Lemma Stop_same b : g_plant (Stop b) = g_plant b /\ g_power_stage (Stop b) = g_power_stage b.
Proof. unfold Stop. by destruct (g_initialized b). Qed.
Lemma sim_Reset_same b c : sim_Reset b = Some c -> same_inputs (g_plant b) (g_plant c) /\
  external_enable (g_power_stage c) = external_enable (g_power_stage b).
Proof.
  unfold sim_Reset. destruct (SimPlant.Reset _) as [u|] eqn:R; [|done]. cbn [mbind option_bind]. unfold RestartHallCapture. cbn zeta.
  match goal with |- context [CaptureHall _ ?x] => set (v := x) end. intros E. apply CaptureHall_spec in E as [-> _].
  split; [by apply Reset_same|done].
Qed.
Lemma Write_ok r v (s : @State C) res t : platform_ok s ->
  Write control observe kTiming start_runtime sw_major sw_minor r v s = Some (res, t) -> platform_ok t.
Proof.
  intros Ok. destruct s as [p [c b]]. pose proof Ok as (I & Cf & Hi). unfold Write.
  destruct (GetNumber v) as [x|]; [|by intros [= _ <-]]. destruct (is_finite x) eqn:Fx; cbn [negb]; [|by intros [= _ <-]].
  destruct r; try (intros [= _ <-]; exact Ok).
  - destruct (_ && _); [by intros [= _ <-]|]. intros W. by eapply with_inputs_ok in W as [? _].
  - intros W. by eapply with_inputs_ok in W as [? _].
  - intros W. by eapply with_inputs_ok in W as [? _].
  - destruct (f_leb x f_zero) eqn:L; [by intros [= _ <-]|]. intros W. eapply with_inputs_ok in W as [? _]; [done|exact Ok|].
    unfold inputs_ok. cbn. apply is_finite_not_nan in Fx. float_order.
  - intros W. by eapply with_inputs_ok in W as [? _].
  - intros [= _ <-]. split; [done|]. split; [done|]. by destruct Hi.
  - destruct (GetInteger v); [|by intros [= _ <-]]. destruct (_ || _); [by intros [= _ <-]|]. intros [= _ <-].
    split; [done|]. split; [done|]. by destruct Hi.
  - intros [= _ <-]. split; [done|]. destruct (SetPaused_same (negb (f_eqb x f_zero)) b) as [E1 E2]. rewrite E1. split; [done|].
    destruct Hi. split; rewrite ?E1, ?E2; done.
  - destruct (GetInteger v) as [n|]; [|by intros [= _ <-]]. destruct (_ || _); [by intros [= _ <-]|].
    destruct (AdvanceCycles _ _ _ _ _) as [[c' b']|] eqn:A; [|done]. cbn [mbind option_bind]. intros [= _ <-].
    apply AdvanceCycles_same in A as [A1 A2]. cbn [snd] in *. split; [done|]. split; [by rewrite (proj2 (proj2 (proj2 (proj2 A1))))|].
    by eapply has_inputs_same.
  - destruct (negb _); [by intros [= _ <-]|]. unfold ResetSimulation. destruct (decide _); [by intros [= _ <-]|].
    destruct (sim_Reset (Stop b)) as [b1|] eqn:R; [|done]. cbn [mbind option_bind].
    destruct (ApplyInputs p b1) as [b2|] eqn:A; [|done]. cbn [mbind option_bind].
    destruct (start_runtime _ _ _) as [[ok [c3 b3]]|] eqn:S; [|done]. cbn [mbind option_bind]. intros [= _ <-].
    apply sim_Reset_same in R as [R1 _]. rewrite (proj1 (Stop_same b)) in R1. apply ApplyInputs_inputs in A as [A1 A2]; [|done].
    assert (IsConfigured (g_plant b2) = true) as C2 by (rewrite A2, (proj2 (proj2 (proj2 (proj2 R1)))); done).
    apply start_keeps in S as [S1 S2]; [|done]. split; [done|]. split; [by rewrite (proj2 (proj2 (proj2 (proj2 S1))))|].
    by eapply has_inputs_same.
Qed.

Lemma SetPlantRate_inputs settings p q : SetPlantRate settings p = Some q -> g_inputs q = g_inputs p.
Proof. unfold SetPlantRate. cbn zeta. case_match; [|by intros [= <-]]. destruct (f_to_u64 _); [|done]. by intros [= <-]. Qed.
Lemma Start_ok settings p c b t : inputs_ok (g_inputs p) -> IsConfigured (g_plant b) = true ->
  CyphalPlatformStart settings (p, (c, b)) = Some t -> platform_ok t.
Proof.
  intros I Cf. unfold CyphalPlatformStart. destruct (SetPlantRate _ _) as [q|] eqn:Q; [|done]. cbn [mbind option_bind].
  apply SetPlantRate_inputs in Q. cbn in Q. destruct (ApplyInputs q b) as [u|] eqn:A; [|done]. cbn [mbind option_bind]. intros [= <-].
  apply ApplyInputs_inputs in A as [A1 A2]; [|by rewrite Q]. split; [by rewrite Q|]. split; [congruence|done].
Qed.
Lemma SettingsApplied_ok settings (s t : @State C) : platform_ok s -> CyphalPlatformSettingsApplied settings s = Some t -> platform_ok t.
Proof.
  destruct s as [p [c b]]. intros (I & Cf & Hi). unfold CyphalPlatformSettingsApplied.
  destruct (SetPlantRate _ _) as [q|] eqn:Q; [|done]. cbn [mbind option_bind]. apply SetPlantRate_inputs in Q. cbn in Q.
  destruct (negb _); [intros [= <-]; split; [by rewrite Q|]; split; [done|by rewrite Q]|].
  destruct (Configure_settings settings (g_plant b)) as [[st plant]|] eqn:E; [|done]. cbn [mbind option_bind].
  destruct (ApplyInputs q _) as [u|] eqn:A; [|done]. cbn [mbind option_bind]. intros [= <-].
  apply ApplyInputs_inputs in A as [A1 A2]; [|by rewrite Q]. split; [by rewrite Q|]. split; [|done]. rewrite A2. cbn.
  apply Configure_atomic in E as [[_ ->]|(_ & Sh & _)]; [done|]. destruct (sh_valid _ Sh) as (m & M & _).
  unfold IsConfigured. by rewrite M.
Qed.

(** What happens to the platform between two spins. *)
Inductive platform_event := pe_write (r : SimRegister) (v : RegisterValue) | pe_applied (settings : NvmSettings) | pe_spin (now_us : Z)
  | pe_cycle.
Definition platform_step (e : platform_event) (s : @State C) : option (@State C) :=
  match e with
  | pe_write r v => snd <$> Write control observe kTiming start_runtime sw_major sw_minor r v s
  | pe_applied settings => CyphalPlatformSettingsApplied settings s
  | pe_spin now => Some (CyphalPlatformSpin now s)
  | pe_cycle => let '(p, cb) := s in cb ← RunCycle control observe kTiming 0 0 0 cb; Some (p, cb)
  end.
Definition platform_run (l : list platform_event) (s : @State C) : option (@State C) :=
  foldl (fun s e => s ← s; platform_step e s) (Some s) l.

(** C31. After any sequence of register writes, settings, spins and control cycles
    the plant runs with the inputs the registers show. *)
Theorem plant_has_register_inputs l s t : platform_ok s -> platform_run l s = Some t -> platform_ok t.
Proof.
  unfold platform_run. revert s. induction l as [|e l IH]; intros s Ok; cbn [foldl mbind option_bind]; [by intros [= <-]|].
  destruct (platform_step e s) as [u|] eqn:E.
  - apply IH. destruct e; cbn [platform_step] in E.
    + destruct (Write _ _ _ _ _ _ _ _ _) as [[res u']|] eqn:W; [|done]. injection E as <-. by eapply Write_ok.
    + by eapply SettingsApplied_ok.
    + injection E as <-. destruct s as [p [c b]]. unfold CyphalPlatformSpin. by destruct (_ || _).
    + destruct s as [p [c b]]. destruct Ok as (I & Cf & Hi). destruct (RunCycle _ _ _ _ _ _ _) as [[c' b']|] eqn:R; [|done].
      injection E as <-. apply RunCycle_same in R as [R1 R2]. cbn [snd] in *. split; [done|].
      split; [by rewrite (proj2 (proj2 (proj2 (proj2 R1))))|]. by eapply has_inputs_same.
  - intros H. exfalso. revert H. clear. induction l as [|j l IH]; [done|exact IH].
Qed.

(** ** Reading back, refusing, describing *)
(** A refused write leaves everything as it was; only a reset whose restart of
    the controller fails is refused after its work. *)
Lemma refused_unchanged r v (s : @State C) res t : Write control observe kTiming start_runtime sw_major sw_minor r v s = Some (res, t) ->
  res <> kAccepted -> r <> reg_Reset -> t = s.
Proof.
  destruct s as [p [c b]]. unfold Write. destruct (GetNumber v) as [x|]; [|by intros [= <- <-]].
  destruct (negb (is_finite x)); [by intros [= <- <-]|]. unfold with_inputs.
  destruct r; try done; intros W N _; try (by injection W as <- <-);
    repeat match goal with
    | H : (if ?b then _ else _) = Some _ |- _ => destruct b
    | H : match GetInteger v with _ => _ end = _ |- _ => destruct (GetInteger v)
    | H : mbind _ ?o = Some _ |- _ => destruct o; cbn [mbind option_bind] in H
    end; try done; by injection W as <- <-.
Qed.
(** What is written is read back. *)
Definition read_back (r : SimRegister) (v got : RegisterValue) : Prop :=
  match r, GetNumber v with
  | reg_ShaftMode, Some x => GetNumber got = Some (if f_eqb x f_zero then f_zero else f_one)
  | (reg_ImposedSpeed | reg_LoadTorque | reg_DcLinkVoltage), Some x => got = SetReal32 x
  | (reg_ExternalEnable | reg_FollowSettings | reg_Paused), Some x => got = SetBit (negb (f_eqb x f_zero))
  | reg_PlantId, _ => GetInteger v = GetInteger got
  | (reg_Advance | reg_Reset), _ => True
  | _, _ => False
  end.
Lemma write_read r v (s : @State C) t : Write control observe kTiming start_runtime sw_major sw_minor r v s = Some (kAccepted, t) ->
  read_back r v (Read r t.1 t.2.2).1.
Proof.
  destruct s as [p [c b]]. unfold Write, read_back. destruct (GetNumber v) as [x|] eqn:G; [|done].
  destruct (negb (is_finite x)); [done|]. unfold with_inputs.
  destruct r; try done; intros W;
    repeat match goal with
    | H : (if ?b then _ else _) = Some _ |- _ => let E := fresh "E" in destruct b eqn:E
    | H : mbind _ ?o = Some _ |- _ => destruct o; cbn [mbind option_bind] in H
    end; try done; try (injection W as <-; cbn; done).
  - injection W as <-. cbn. by destruct (f_eqb x f_zero).
  - destruct (GetInteger v) as [k|]; [|done]. destruct (_ || _) eqn:L; [done|]. injection W as <-. cbn [Read fst snd plant_port_id].
    apply orb_false_iff in L as [L1 L2]. apply Z.ltb_ge in L2. unfold kUnsetPortId in L1.
    assert (0 <= k <= 65535) as B.
    { apply andb_false_iff in L1 as [L1|L1]; [apply Z.ltb_ge in L1|apply negb_false_iff, Z.eqb_eq in L1]; lia. }
    rewrite (wrap_id 16) by (unfold in_u; lia). symmetry. by apply integral_of_Z.
  - injection W as <-. cbn. unfold SetPaused, SetFreeRunning. repeat case_match; done.
Qed.
End Platform.
(** An accepted value lies inside the limits that Describe() names. *)
Lemma f_eqb_both x y : f_eqb x y = true -> f_leb x y = true /\ f_leb y x = true.
Proof.
  unfold f_eqb, SFeqb, f_leb, SFleb. rewrite (SFcompare_swap x y). by destruct (SFcompare x y) as [[]|].
Qed.
Lemma GetInteger_number v z x : GetInteger v = Some z -> GetNumber v = Some x -> is_nan x = false -> f_eqb (f_of_Z z) x = true.
Proof.
  intros H G N. assert (f_eqb x x = true) as R.
  { clear - N. unfold f_eqb, SFeqb. destruct x as [[]|[]| |[] m e]; try done; cbn; by rewrite Z.compare_refl, pos_compare_cont_eq, Pos.compare_refl. }
  assert ((x ← GetNumber v; integral x) = Some z \/ f_of_Z z = x) as [I|<-].
  { destruct v as [| | | |l|l|l|l|l|l|l|l|l|l|l]; try (by left); cbn [GetInteger GetNumber First option_map] in *;
      destruct l as [|y l]; try done; cbn in *; right; injection G as <-; try (by injection H as <-).
    revert H. case_match; [done|]. by intros [= <-]. }
  - rewrite G in I. cbn [mbind option_bind] in I. unfold integral in I. destruct (negb _); [done|].
    destruct (f_trunc x) as [k|]; [|done]. cbn [mbind option_bind] in I.
    destruct (f_eqb (f_of_Z k) x) eqn:E; [|done]. cbn [andb] in I. destruct (f_leb _ _); [|done]. by injection I as <-.
  - exact R.
Qed.
Definition index_of (r : SimRegister) : nat :=
  match r with reg_ShaftMode => 0 | reg_ImposedSpeed => 1 | reg_LoadTorque => 2 | reg_DcLinkVoltage => 3 | reg_ExternalEnable => 4
  | reg_FollowSettings => 5 | reg_PlantId => 6 | reg_PlantType => 7 | reg_Paused => 8 | reg_Advance => 9 | reg_CycleCount => 10
  | reg_CyclePeriodNs => 11 | reg_Reset => 12 end%nat.
Lemma index_of_registers r : registers !! index_of r = Some r.
Proof. by destruct r. Qed.
Lemma finite_in_all x : is_finite x = true -> f_leb (f_neg kInf) x = true /\ f_leb x kInf = true.
Proof. by destruct x. Qed.
Lemma integer_in z n x : f_eqb (f_of_Z z) x = true -> 0 <= z <= n -> n < 2 ^ 24 -> f_leb f_zero x = true /\ f_leb x (f_of_Z n) = true.
Proof.
  intros E B N. apply f_eqb_both in E as [E1 E2]. destruct (f_of_Z_small z) as [Fz Vz]; [lia|].
  assert (f_leb f_zero (f_of_Z z) = true) as Z0 by (apply f_leb_val; [done|done|rewrite fval_zero, Vz; nia]).
  assert (f_leb (f_of_Z z) (f_of_Z n) = true) as Zn by (apply f_of_Z_le; lia).
  split; eapply f_leb_trans; eauto.
Qed.
Lemma accepted_described {C : Type} control observe kTiming start_runtime sw_major sw_minor r v x d (s : @State C) t :
  Write control observe kTiming start_runtime sw_major sw_minor r v s = Some (kAccepted, t) -> GetNumber v = Some x ->
  Describe (index_of r) = Some d -> f_leb (minimum d) x = true /\ f_leb x (maximum d) = true.
Proof.
  destruct s as [p [c b]]. unfold Write. intros W G. rewrite G in W. destruct (is_finite x) eqn:F; cbn [negb] in W; [|done].
  pose proof (finite_in_all x F) as All. pose proof (is_finite_not_nan x F) as Nn. unfold with_inputs in W.
  destruct r; intros [= <-]; cbn [minimum maximum no_limit]; try exact All; try done.
  - destruct (f_eqb x f_zero) eqn:E0; cbn [negb andb] in W.
    + apply f_eqb_both in E0 as [A B]. split; [done|]. by eapply f_leb_trans; [exact A|].
    + destruct (f_eqb x f_one) eqn:E1; cbn [negb] in W; [|done]. apply f_eqb_both in E1 as [A B]. split; [by eapply f_leb_trans; [|exact B]|done].
  - destruct (f_leb x f_zero) eqn:L; [done|]. split; [|apply All]. apply f_ltb_leb. float_order.
  - destruct (GetInteger v) as [z|] eqn:Z; [|done]. destruct (_ || _) eqn:L; [done|].
    apply orb_false_iff in L as [L1 L2]. apply Z.ltb_ge in L2. unfold kUnsetPortId in L1.
    apply (integer_in z 65535); [by eapply GetInteger_number| |lia].
    apply andb_false_iff in L1 as [L1|L1]; [apply Z.ltb_ge in L1|apply negb_false_iff, Z.eqb_eq in L1]; lia.
  - destruct (GetInteger v) as [z|] eqn:Z; [|done]. destruct (_ || _) eqn:L; [done|].
    apply orb_false_iff in L as [L L3]. apply orb_false_iff in L as [L1 L2]. apply Z.ltb_ge in L2, L3. unfold kMaxAdvanceCycles in L3.
    apply (integer_in z 16000); [by eapply GetInteger_number|lia|lia].
  - destruct (f_eqb x f_one) eqn:E1; cbn [negb] in W; [|done]. apply f_eqb_both in E1 as [A B]. done.
Qed.
(** The lower limit of the DC link is described as 0 and refused. *)
Lemma zero_dc_link_refused {C : Type} control observe kTiming start_runtime sw_major sw_minor (s : @State C) :
  Write control observe kTiming start_runtime sw_major sw_minor reg_DcLinkVoltage (SetReal32 f_zero) s = Some (kOutOfRange, s) /\
  minimum <$> Describe (index_of reg_DcLinkVoltage) = Some f_zero.
Proof. by destruct s as [p [c b]]. Qed.
(** Node-IDs of the command line from 2^31 on are taken for a missing option. *)
Lemma large_option_ignored settings z : 2 ^ 31 <= z < 2 ^ 32 ->
  CyphalPlatformSettingsOverrides (option_value (Some z)) (-1) settings = settings.
Proof.
  intros H. unfold CyphalPlatformSettingsOverrides, option_value, i32.
  replace ((z + 2 ^ 31) mod 2 ^ 32) with (z - 2 ^ 31).
  - destruct (Z.leb_spec 0 (z - 2 ^ 31 - 2 ^ 31)); [lia|done].
  - rewrite <- (Z.mod_unique_pos (z + 2 ^ 31) (2 ^ 32) 1 (z - 2 ^ 31)); lia.
Qed.

(** ** The application on the simulated board *)
Lemma bring_up_same cycle_ns half_ns half b k c : bring_up cycle_ns half_ns half b = Some (k, c) ->
  g_plant c = g_plant b /\ g_power_stage c = g_power_stage b.
Proof.
  unfold bring_up, RestartHallCapture. cbv zeta. match goal with |- context [CaptureHall _ ?x] => set (v := x) end.
  assert (g_plant v = g_plant b /\ g_power_stage v = g_power_stage b) as [V1 V2] by done. clearbody v.
  destruct (CaptureHall _ v) as [w|] eqn:E; [|done]. cbn [mbind option_bind]. apply CaptureHall_spec in E as [E _].
  assert (g_plant w = g_plant b /\ g_power_stage w = g_power_stage b) as [W1 W2] by (rewrite E; done).
  destruct (negb (g_paused w)); intros [= _ <-]; done.
Qed.
Lemma Initialize_same sw_major sw_minor f b k c : IsConfigured (g_plant b) = true ->
  Initialize sw_major sw_minor f b = Some (k, c) -> g_plant c = g_plant b /\ g_power_stage c = g_power_stage b.
Proof.
  intros Cf. unfold Initialize. destruct (f_to_u64 f) as [hz|]; [|done]. cbn [mbind option_bind].
  destruct (hz =? 0); [by intros [= _ <-]|].
  assert (configure_plant sw_major sw_minor (StopTimer (b.{timer_initialized := true})) =
    Some (StopTimer (b.{timer_initialized := true}))) as ->.
  { unfold configure_plant. cbn [g_plant StopTimer set_field]. by rewrite Cf. }
  cbn [mbind option_bind]. intros H. apply bring_up_same in H as [-> ->]. done.
Qed.
Lemma sim_start_keeps sw_major sw_minor settings limit a b ok a' b' : IsConfigured (g_plant b) = true ->
  sim_start_runtime sw_major sw_minor settings limit (a, b) = Some (ok, (a', b')) ->
  same_inputs (g_plant b) (g_plant b') /\ external_enable (g_power_stage b') = external_enable (g_power_stage b).
Proof.
  intros Cf. unfold sim_start_runtime. destruct (Stop_same b) as [S1 S2].
  destruct (Initialize _ _ _ _) as [[k b2]|] eqn:I; [|done]. cbn [mbind option_bind].
  destruct (SlowUpdate.StartRuntime _ _ _ _ _ _ _ _) as [[[[st i] slow] outer]|]; [|done]. cbn [mbind option_bind]. intros [= _ _ <-].
  apply Initialize_same in I as [I1 I2]; [|cbn; by rewrite S1]. cbn in I1, I2. rewrite I1, I2, S1, S2. split; [apply same_inputs_refl|done].
Qed.
End SimPlatformLaws.
