(* ===== verification/SimDemo.v ===== *)
(** * The simulated drive at work

    The application of main.cpp on the simulated board with the factory settings
    of the simulation: bring-up, a current reference, control cycles against the
    motor, and the registers of the platform, all evaluated. *)
From Stdlib Require Import ZArith Lia Bool SpecFloat.
From stdpp Require Import base decidable list option.
From S2P Require Import Prelude Float32 FloatRound PowerStage CurrentControl Transforms RotorAngle SettingsData Observers Isr SettingsTypes SettingsStore Registers OuterLoop SlowUpdate SimPlant SimPlantLaws SimBoard SimBoardLaws SimPlatform SimPlatformLaws.
Import PowerStage CurrentControl SettingsData Observers Registers SimPlant SimPlantLaws SimBoard SimBoardLaws SimPlatform SimPlatformLaws.
Import Isr(ControlCycleSamples, sample_overcurrent, DutyPlan, CurrentControlIsr).

#[local] Open Scope Z_scope.
#[local] Open Scope unimoc_scope.

Module SimDemo.

Definition factory : NvmSettings := SettingsStore.factory_settings (kSettingsProfile 0 1).
(** main() on a paused simulation, then a released power stage and a reference
    of 2 A on the estimated q axis. *)
Definition started : option (bool * (App * Board)) :=
  sim_start_runtime 0 1 factory (f_of_Z 60) (App_init, SetPaused true Board_init).
Definition demo : App * Board :=
  match started with
  | Some (_, (a, b)) =>
      (mkApp (Isr.SetCurrentRef (mkRotor f_zero (f_of_Z 2)) (app_isr a)) (app_slow a) (app_outer a),
       b.{g_power_stage := (PowerStageEnable (g_power_stage b)).2})
  | None => (App_init, Board_init)
  end.
Definition demo_runs (n : nat) : option (App * Board * list (DutyPlan * list ThreePhase)) :=
  play sim_control sim_observe true n demo.
Lemma sim_demo_started : g_initialized demo.2 = true /\ length (g_applied demo.2) = 4%nat /\ length (g_plan demo.2) = 4%nat /\
  enabled (g_power_stage demo.2) = true /\ g_cycle_ns demo.2 = 62500 /\ g_last_hall_code demo.2 = 5 /\ g_timer demo.2 = None.
Proof. vm_compute. done. Qed.
Lemma demo_plans : (match demo_runs 3 with
  | Some (_, log) => forallb (fun e : DutyPlan * list ThreePhase => (length e.1 =? 4)%nat) log && negb (bool_decide (map fst log = [])) | None => false end) = true.
Proof. vm_compute. reflexivity. Qed.
Lemma demo_log : exists cs log, play sim_control sim_observe true 3 (demo.1, demo.2) = Some (cs, log) /\ Forall (fun entry : DutyPlan * list ThreePhase => plan_ok entry.1) log.
Proof.
  pose proof demo_plans as D. unfold demo_runs in D. rewrite (surjective_pairing demo) in D.
  destruct (play _ _ _ _ _) as [[cs log]|]; [|done]. apply andb_true_iff in D as [D _]. exists cs, log. split; [done|].
  apply Forall_forall. intros e He. rewrite forallb_forall in D. by apply Nat.eqb_eq, D.
Qed.

(** Forty cycles (2.5 ms): the current of the motor has the length of the
    reference to 2 %, at the centre of the Hall sector where the estimate starts;
    the motor accelerates forward, and no trip occurred. *)
Lemma demo_closed_loop :
  match demo_runs 40 with
  | Some (a, b, _) =>
      let i := rotor_current (output_ (g_plant b)) in
      let length := Hypot (axis_d i) (axis_q i) in
      f_ltb (f_dec 196 100) length && f_ltb length (f_dec 204 100) && f_ltb f_zero (mechanical_speed (output_ (g_plant b))) &&
      negb (sample_overcurrent (g_samples b)) && bool_decide (GetPowerStageState (g_power_stage b) = kEnabled) && (VirtualTimeNs b =? 2500000)
  | None => false
  end = true.
Proof. vm_compute. reflexivity. Qed.

(** ** The registers of the platform *)
Definition defined {A} (o : option A) : bool := match o with Some _ => true | None => false end.
Lemma defined_Some {A} (o : option A) : defined o = true -> is_Some o.
Proof. by destruct o. Qed.
#[local] Abbreviation run := (platform_run sim_control sim_observe true (sim_start_runtime 0 1) 0 1).
Definition demo_platform : @State App := default (Platform_init factory, demo) (CyphalPlatformStart factory (Platform_init factory, demo)).
Definition demo_events : list platform_event :=
  [pe_write reg_ImposedSpeed (SetReal32 (f_of_Z 100)); pe_write reg_ShaftMode (SetNatural8 1); pe_cycle;
   pe_write reg_Advance (SetNatural32 2); pe_write reg_DcLinkVoltage (SetReal32 f_zero); pe_applied factory; pe_spin 5].
Lemma demo_configured : IsConfigured (g_plant demo.2) = true /\ is_Some (CyphalPlatformStart factory (Platform_init factory, demo)).
Proof. split; [vm_compute; reflexivity|]. apply defined_Some. vm_compute. reflexivity. Qed.
Lemma demo_platform_ok : platform_ok demo_platform.
Proof.
  destruct demo_configured as [C [t E]]. unfold demo_platform. rewrite E. cbn [default].
  rewrite (surjective_pairing demo) in E. eapply Start_ok; [..|exact E]; [vm_compute; reflexivity|exact C].
Qed.
Lemma demo_events_run : is_Some (run demo_events demo_platform).
Proof. apply defined_Some. vm_compute. reflexivity. Qed.
Lemma plant_has_register_inputs_witness : exists t, run demo_events demo_platform = Some t /\ platform_ok t.
Proof.
  destruct demo_events_run as [t R]. exists t. split; [exact R|].
  exact (plant_has_register_inputs sim_control sim_observe true (sim_start_runtime 0 1) 0 1
    (fun settings limit a b ok a' b' => sim_start_keeps 0 1 settings limit a b ok a' b') demo_events demo_platform t demo_platform_ok R).
Defined.
(** The three cycles, the imposed speed, the refused voltage and a published message. *)
Lemma demo_registers :
  match run demo_events demo_platform with
  | Some (p, (_, b)) =>
      (g_cycle_count b =? 3) && f_eqb (mechanical_speed (output_ (g_plant b))) (f_of_Z 100) &&
      f_eqb (in_dc_link_voltage (g_inputs p)) (f_of_Z 48) && (length (published p) =? 1)%nat
  | None => false
  end = true.
Proof. vm_compute. reflexivity. Qed.

(** The outputs of the motor after calls in any order. *)
Definition demo_plant_ops : list plant_op :=
  [op_configure SimulationParameters_init; op_bridge true; op_duties (mkThreePhase (f_dec 6 10) f_half f_half);
   op_step (f_dec 1 10000); op_shaft kImposedSpeed (f_of_Z 10); op_dc (f_of_Z 24); op_step (f_dec 1 10000); op_reset].
Lemma demo_plant_run : match run_ops demo_plant_ops MotorSimulation_init with Some t => IsConfigured t | None => false end = true.
Proof. vm_compute. reflexivity. Qed.
Lemma plant_outputs_show_states_witness : exists t, run_ops demo_plant_ops MotorSimulation_init = Some t /\ shows t.
Proof.
  pose proof demo_plant_run as D. destruct (run_ops demo_plant_ops MotorSimulation_init) as [t|] eqn:R; [|discriminate].
  exists t. split; [reflexivity|]. exact (plant_outputs_show_states demo_plant_ops t R D).
Defined.
End SimDemo.
