(* ===== verification/SimEbike.v ===== *)
(** * Rider and display of the simulated board

    hardware/zephyr_sim/ebike_io.cpp: the crank that turns with a set cadence
    and reports its pulses as ages, and the display that polls the controller
    with request frames.  The state is the file's [g_sim]; the spin lock makes
    every function one step; [uptime_us] is the kernel time it reads. *)
From Stdlib Require Import ZArith Lia Bool SpecFloat.
From stdpp Require Import base decidable list option.
From S2P Require Import Prelude Float32 FloatRound Units Kunteng Ebike.

#[local] Open Scope Z_scope.
#[local] Open Scope unimoc_scope.

Module SimEbike.

Definition kDisplayPollUs : Z := 100000.
Definition kPulsesPerRev : float := f_of_Z 36.
Definition kPulseAngle : float := f_div (f_mul f_two_pi f_one) kPulsesPerRev.

Record SimEbike := mkSimEbike {
  cadence : float; torque : float; angle : float; display_on : bool; display : Kunteng.DisplayRequest; next_poll_us : Z;
  last_us : Z; started : bool; manual_time : bool; manual_us : Z; rx : list Z; rx_size : nat; rx_read : nat;
  status : list Z; status_count : Z }.
#[export] Instance eta_SimEbike : Eta SimEbike := fun s =>
  mkSimEbike (cadence s) (torque s) (angle s) (display_on s) (display s) (next_poll_us s) (last_us s) (started s) (manual_time s)
    (manual_us s) (rx s) (rx_size s) (rx_read s) (status s) (status_count s).
Definition SimEbike_init : SimEbike :=
  mkSimEbike f_zero f_zero f_zero false Ebike.DisplayRequest_init 0 0 false false 0 (replicate Kunteng.kDisplayFrameSize 0) 0 0
    (replicate Kunteng.kControllerFrameSize 0) 0.

(** The kernel's time, or the time a test has set. *)
Definition NowUs (uptime_us : Z) (s : SimEbike) : Z := if manual_time s then manual_us s else uptime_us.

Definition ReadCrankTorque (s : SimEbike) : float := torque s.

(** [static_cast<int>(std::floor(x))]; [None] outside the type. *)
Definition floor_Z (x : float) : option Z :=
  match x with
  | S754_zero _ => Some 0
  | S754_finite s m e =>
      let v := cond_Zopp s (Zpos m) in Some (if 0 <=? e then v * 2 ^ e else v / 2 ^ (- e))
  | _ => None
  end.
Definition floor_int (x : float) : option Z :=
  z ← floor_Z x; if (- 2 ^ 31 <=? z) && (z <? 2 ^ 31) then Some z else None.

(** The loop over the pulses the crank has passed. *)
Definition pulse_age (kBefore kAfter kElapsed : float) (pulse : Z) : float :=
  let kFraction := f_div (f_sub (f_mul (f_of_Z pulse) kPulseAngle) kBefore) (f_sub kAfter kBefore) in
  f_mul kElapsed (f_sub f_one kFraction).
Fixpoint pulse_ages (room : nat) (kBefore kAfter kElapsed : float) (pulse kLast : Z) : list float :=
  match room with
  | O => []
  | S n => if pulse <=? kLast then pulse_age kBefore kAfter kElapsed pulse :: pulse_ages n kBefore kAfter kElapsed (pulse + 1) kLast
           else []
  end.

Definition ReadCadencePulses (capacity : nat) (uptime_us : Z) (s : SimEbike) : option (list float * SimEbike) :=
  let kNow := NowUs uptime_us s in
  if started s && (last_us s <? kNow) then
    let kElapsed := Units.convert 1 1000000 (f_mul f_one (f_of_Z (u64 (kNow - last_us s)))) in
    let kBefore := angle s in
    let kAfter := f_add kBefore (f_mul (cadence s) kElapsed) in
    first ← floor_int (f_div kBefore kPulseAngle);
    last ← floor_int (f_div kAfter kPulseAngle);
    Some (pulse_ages capacity kBefore kAfter kElapsed (first + 1) last, s.{angle := kAfter}.{started := true}.{last_us := kNow})
  else Some ([], s.{started := true}.{last_us := kNow}).

(** The bytes of the frame that are still to be read. *)
Fixpoint read_rx (room : nat) (s : SimEbike) : list Z * SimEbike :=
  match room with
  | O => ([], s)
  | S n => if (rx_read s <? rx_size s)%nat
           then let '(l, t) := read_rx n (s.{rx_read := S (rx_read s)}) in (default 0 (rx s !! rx_read s) :: l, t)
           else ([], s)
  end.
Definition poll_due (kNow : Z) (s : SimEbike) : bool :=
  display_on s && (next_poll_us s <=? kNow) && (rx_size s <=? rx_read s)%nat.
Definition ReadDisplay (capacity : nat) (uptime_us : Z) (s : SimEbike) : list Z * SimEbike :=
  let kNow := NowUs uptime_us s in
  let s :=
    if poll_due kNow s then
      let s := s.{rx := Kunteng.EncodeDisplayRequest (display s) Kunteng.kDefaultChecksumSeed} in
      s.{rx_size := length (rx s)}.{rx_read := 0%nat}.{next_poll_us := u64 (kNow + kDisplayPollUs)}
    else s in
  read_rx capacity s.

Definition WriteDisplay (bytes : list Z) (s : SimEbike) : SimEbike :=
  if (length bytes =? Kunteng.kControllerFrameSize)%nat
  then s.{status := bytes}.{status_count := u32 (status_count s + 1)} else s.

Definition SetPedal (cadence' torque' : float) (s : SimEbike) : SimEbike := s.{cadence := cadence'}.{torque := torque'}.
Definition SetDisplay (level max_speed_kmh : Z) (light : bool) (s : SimEbike) : SimEbike :=
  let d := display s in
  s.{display := Kunteng.mkDisplayRequest level light (Kunteng.wheel_size_code d) max_speed_kmh (Kunteng.motor_characteristic d)
                  (Kunteng.power_assist_mode d) (Kunteng.max_current_code d) (Kunteng.raw d)}
   .{display_on := true}.{next_poll_us := 0}.
Definition SilenceDisplay (s : SimEbike) : SimEbike :=
  s.{display_on := false}.{status := replicate Kunteng.kControllerFrameSize 0}.{status_count := 0}.
Definition LastDisplayStatus (s : SimEbike) : list Z := status s.
Definition DisplayStatusCount (s : SimEbike) : Z := status_count s.
Definition UseManualTime (manual : bool) (s : SimEbike) : SimEbike := s.{manual_time := manual}.{started := false}.
Definition SetTime (now_us : Z) (s : SimEbike) : SimEbike := s.{manual_us := now_us}.

(** ** The crank *)
(** The pulses the crank has passed since its angle was zero. *)
Definition turns (s : SimEbike) : option Z := floor_int (f_div (angle s) kPulseAngle).

Lemma pulse_ages_take room b a t pulse kLast : 0 <= kLast - pulse + 1 ->
  pulse_ages room b a t pulse kLast = take room (map (pulse_age b a t) (seqZ pulse (kLast - pulse + 1))).
Proof.
  revert pulse. induction room as [|n IH]; intros pulse H; [done|]. cbn [pulse_ages].
  destruct (Z.leb_spec pulse kLast) as [L|L].
  - rewrite seqZ_cons by lia. cbn [map take]. rewrite IH by lia. do 3 f_equal.
    rewrite <-Z.add_1_r. do 2 f_equal. lia.
  - replace (kLast - pulse + 1) with 0 by lia. done.
Qed.
Lemma pulse_ages_none room b a t pulse kLast : kLast < pulse -> pulse_ages room b a t pulse kLast = [].
Proof. intros H. destruct room; [done|]. cbn [pulse_ages]. destruct (Z.leb_spec pulse kLast); [lia|done]. Qed.

(** One read: the pulses reported are exactly those between the angle before
    and the angle after, each once, in order, as many as fit. *)
Lemma sim_cadence_spec capacity uptime_us s ages t : ReadCadencePulses capacity uptime_us s = Some (ages, t) ->
  started s = true -> last_us s < NowUs uptime_us s -> exists first last, turns s = Some first /\ turns t = Some last /\
  length ages = Nat.min capacity (Z.to_nat (last - first)) /\
  ages = take capacity (map (pulse_age (angle s) (angle t)
           (Units.convert 1 1000000 (f_mul f_one (f_of_Z (u64 (NowUs uptime_us s - last_us s)))))) (seqZ (first + 1) (last - first))).
Proof.
  unfold ReadCadencePulses, turns. intros H St L%Z.ltb_lt. rewrite St, L in H. cbn [andb] in H. cbv zeta in H.
  apply bind_Some in H as (first & F & H). apply bind_Some in H as (last & La & [= <- <-]).
  exists first, last. split; [done|]. split; [done|]. cbn [angle set_field].
  destruct (Z.le_gt_cases (first + 1) (last + 1)) as [O|O].
  - rewrite pulse_ages_take by lia. replace (last - (first + 1) + 1) with (last - first) by lia. split; [|done].
    rewrite length_take, length_map, length_seqZ. lia.
  - rewrite pulse_ages_none by lia. rewrite Z2Nat.nonpos, Nat.min_0_r by lia. split; [done|].
    replace (seqZ (first + 1) (last - first)) with (@nil Z); [cbn [map]; by rewrite take_nil|].
    symmetry. apply nil_length_inv. rewrite length_seqZ. lia.
Qed.

(** Over any sequence of reads the pulses add up: none is lost and none is
    reported twice, as long as no read has more pulses than room. *)
Fixpoint reads (capacity : nat) (times : list Z) (s : SimEbike) : option (nat * SimEbike) :=
  match times with
  | [] => Some (0%nat, s)
  | now :: times =>
      '(ages, t) ← ReadCadencePulses capacity now s;
      if (length ages <? capacity)%nat then '(n, u) ← reads capacity times t; Some ((length ages + n)%nat, u) else None
  end.
Definition forward (s t : SimEbike) : Prop := forall a b, turns s = Some a -> turns t = Some b -> a <= b.
Fixpoint all_forward (capacity : nat) (times : list Z) (s : SimEbike) : Prop :=
  match times with
  | [] => True
  | now :: times => match ReadCadencePulses capacity now s with Some (_, t) => forward s t /\ all_forward capacity times t | None => True end
  end.
Lemma reads_turns capacity times s n t first : reads capacity times s = Some (n, t) -> turns s = Some first -> started s = true ->
  all_forward capacity times s -> turns t = Some (first + Z.of_nat n).
Proof.
  revert s n first. induction times as [|now times IH]; intros s n first; cbn [reads all_forward].
  - intros [= <- <-] T _ _. by rewrite Z.add_0_r.
  - intros H T St. apply bind_Some in H as ([ages u] & R & H). rewrite R. destruct (Nat.ltb_spec (length ages) capacity) as [Lt|]; [|done].
    apply bind_Some in H as ([m v] & Rs & [= <- <-]). intros [Fw A].
    assert (started u = true /\ turns u = Some (first + Z.of_nat (length ages))) as [Su Tu].
    { destruct (Z.lt_ge_cases (last_us s) (NowUs now s)) as [L|L].
      - pose proof (sim_cadence_spec _ _ _ _ _ R St L) as (a & b & Ta & Tb & Len & _).
        pose proof (Fw _ _ Ta Tb). rewrite T in Ta. injection Ta as <-. rewrite Tb. split; [|f_equal; lia].
        unfold ReadCadencePulses in R. rewrite St, (proj2 (Z.ltb_lt _ _) L) in R. cbv zeta in R. cbn [andb] in R.
        apply bind_Some in R as (? & _ & R). by apply bind_Some in R as (? & _ & [= _ <-]).
      - unfold ReadCadencePulses in R. rewrite St, (proj2 (Z.ltb_ge _ _) L) in R. cbn [andb] in R. injection R as <- <-.
        cbn [length]. rewrite Z.add_0_r. done. }
    rewrite (IH _ _ _ Rs Tu Su A). f_equal. lia.
Qed.

(** The angle is a float that grows for ever: after 2^18 rad (about 42,000
    turns) the millisecond of a rider at 6 rad/s is below half a unit in the
    last place, and the crank stands still however long it is read. *)
Definition stalled_angle : float := f_of_Z (2 ^ 18).
Definition rider_cadence : float := f_of_Z 6.
Definition millisecond : float := Units.convert 1 1000000 (f_mul f_one (f_of_Z (u64 1000))).
Lemma stalled_sum : f_add stalled_angle (f_mul rider_cadence millisecond) = stalled_angle.
Proof. vm_compute. reflexivity. Qed.
Lemma stalled_floor : floor_int (f_div stalled_angle kPulseAngle) = Some 1501974.
Proof. vm_compute. reflexivity. Qed.
(** A read that does not move the angle reports nothing. *)
Lemma read_stuck capacity uptime_us s kElapsed z : started s = true -> last_us s < NowUs uptime_us s ->
  Units.convert 1 1000000 (f_mul f_one (f_of_Z (u64 (NowUs uptime_us s - last_us s)))) = kElapsed ->
  f_add (angle s) (f_mul (cadence s) kElapsed) = angle s -> floor_int (f_div (angle s) kPulseAngle) = Some z ->
  ReadCadencePulses capacity uptime_us s = Some ([], s.{angle := angle s}.{started := true}.{last_us := NowUs uptime_us s}).
Proof.
  intros St L E A F. unfold ReadCadencePulses. rewrite St, (proj2 (Z.ltb_lt _ _)) by done. cbv zeta. cbn [andb]. rewrite E, A, F.
  cbn [mbind option_bind]. by rewrite pulse_ages_none by lia.
Qed.
Definition stalled (now : Z) : SimEbike :=
  SimEbike_init.{angle := stalled_angle}.{cadence := rider_cadence}.{started := true}.{last_us := now}.
Lemma stalled_read k : ReadCadencePulses 8 (1000 * Z.of_nat (S k)) (stalled (1000 * Z.of_nat k)) = Some ([], stalled (1000 * Z.of_nat (S k))).
Proof.
  apply (read_stuck 8 (1000 * Z.of_nat (S k)) (stalled (1000 * Z.of_nat k)) millisecond 1501974);
    [reflexivity| | |exact stalled_sum|exact stalled_floor]; cbn [NowUs stalled manual_time last_us set_field SimEbike_init]; [lia|].
  replace (1000 * Z.of_nat (S k) - 1000 * Z.of_nat k) with 1000 by lia. reflexivity.
Qed.
Lemma crank_stalls (n : nat) : reads 8 (map (fun i => 1000 * Z.of_nat i) (seq 1 n)) (stalled 0) = Some (0%nat, stalled (1000 * Z.of_nat n)).
Proof.
  assert (forall k n, reads 8 (map (fun i => 1000 * Z.of_nat i) (seq (S k) n)) (stalled (1000 * Z.of_nat k)) =
    Some (0%nat, stalled (1000 * Z.of_nat (k + n)))) as G; [|exact (G 0%nat n)].
  clear n. intros k n. revert k. induction n as [|n IH]; intros k; [by rewrite Nat.add_0_r|]. cbn [seq map reads].
  rewrite stalled_read. cbn [mbind option_bind length Nat.ltb Nat.leb]. rewrite IH. cbn [mbind option_bind]. by rewrite Nat.add_succ_r.
Qed.

(** ** The display *)
Definition pending (s : SimEbike) : list Z := drop (rx_read s) (take (rx_size s) (rx s)).
Definition rx_ok (s : SimEbike) : Prop := (rx_size s <= length (rx s))%nat.

Lemma read_rx_S n s : read_rx (S n) s =
  if (rx_read s <? rx_size s)%nat
  then let '(l, t) := read_rx n (s.{rx_read := S (rx_read s)}) in (default 0 (rx s !! rx_read s) :: l, t) else ([], s).
Proof. done. Qed.
Lemma read_rx_spec room s : rx_ok s -> exists k,
  (read_rx room s).2 = s.{rx_read := k} /\ (read_rx room s).1 = take room (pending s) /\
  pending (s.{rx_read := k}) = drop room (pending s) /\ (rx_size s <= k <-> length (pending s) <= room)%nat.
Proof.
  intros Ok. revert s Ok. induction room as [|n IH]; intros s Ok.
  - exists (rx_read s). split_and!; [by destruct s|done|done|].
    unfold pending. rewrite length_drop, length_take. unfold rx_ok in Ok. lia.
  - rewrite read_rx_S. destruct (Nat.ltb_spec (rx_read s) (rx_size s)) as [L|L].
    + match goal with |- context [read_rx n ?v] => destruct (IH v Ok) as (k & E1 & E2 & E3 & E4) end.
      destruct (read_rx n _) as [l t]. cbn [fst snd] in *. subst l t. exists k.
      assert (exists b, rx s !! rx_read s = Some b) as [b B] by (apply lookup_lt_is_Some; unfold rx_ok in Ok; lia).
      assert (pending s = b :: pending (s.{rx_read := S (rx_read s)})) as Ep.
      { unfold pending. cbn [rx rx_read rx_size set_field]. apply drop_S. by rewrite lookup_take_lt. }
      rewrite Ep, B. cbn [take drop length default]. split_and!; try done. cbn in E4 |- *. lia.
    + exists (rx_read s). assert (pending s = []) as ->.
      { apply nil_length_inv. unfold pending. rewrite length_drop, length_take. lia. }
      split_and!; [by destruct s|by rewrite take_nil| |cbn; lia].
      rewrite drop_nil. apply nil_length_inv. unfold pending. cbn [rx rx_read rx_size set_field]. rewrite length_drop, length_take. lia.
Qed.

(** What a read hands out of: a new frame when the poll is due. *)
Definition frame (s : SimEbike) : list Z := Kunteng.EncodeDisplayRequest (display s) Kunteng.kDefaultChecksumSeed.
Definition offered (kNow : Z) (s : SimEbike) : list Z := if poll_due kNow s then frame s else pending s.

Lemma sim_display_spec capacity uptime_us s : rx_ok s ->
  let '(bytes, t) := ReadDisplay capacity uptime_us s in let kNow := NowUs uptime_us s in
  bytes = take capacity (offered kNow s) /\ pending t = drop capacity (offered kNow s) /\ rx_ok t /\
  next_poll_us t = (if poll_due kNow s then u64 (kNow + kDisplayPollUs) else next_poll_us s) /\
  display t = display s /\ manual_time t = manual_time s /\ manual_us t = manual_us s.
Proof.
  intros Ok. unfold ReadDisplay, offered, frame. cbv zeta. generalize (Kunteng.EncodeDisplayRequest (display s) Kunteng.kDefaultChecksumSeed).
  intros f. destruct (poll_due (NowUs uptime_us s) s).
  - match goal with |- context [read_rx _ ?u] => destruct (read_rx_spec capacity u) as (k & E1 & E2 & E3 & _) end;
      [exact (le_n _)|].
    destruct (read_rx _ _) as [l t]. cbn [fst snd] in *. subst l t. rewrite E3.
    match goal with |- context [drop capacity (pending ?u)] => assert (pending u = f) as -> end.
    { unfold pending. cbn [rx rx_read rx_size set_field]. rewrite drop_0. apply take_ge. exact (le_n _). }
    split_and!; try done. exact (le_n _).
  - destruct (read_rx_spec capacity s Ok) as (k & E1 & E2 & E3 & _).
    destruct (read_rx _ _) as [l t]. cbn [fst snd] in *. subst l t. by rewrite E3.
Qed.

(** The bytes of a sequence of reads, each with its room and its time. *)
Fixpoint display_reads (l : list (nat * Z)) (s : SimEbike) : list Z * SimEbike :=
  match l with
  | [] => ([], s)
  | (capacity, now) :: l =>
      let '(bytes, t) := ReadDisplay capacity now s in let '(more, u) := display_reads l t in (bytes ++ more, u)
  end.
Definition room (l : list (nat * Z)) : nat := sum_list (map fst l).

(** Until the next poll is due the reads take the frame off piece by piece. *)
Lemma display_reads_rest l s : rx_ok s -> Forall (fun r => NowUs r.2 s < next_poll_us s) l ->
  (display_reads l s).1 = take (room l) (pending s).
Proof.
  revert s. induction l as [|[c now] l IH]; intros s Ok F; [done|]. apply Forall_cons_1 in F as [F1 F2]. cbn [snd] in F1.
  cbn [display_reads]. pose proof (sim_display_spec c now s Ok) as R. destruct (ReadDisplay c now s) as [bytes t]. cbv zeta in R.
  unfold offered, poll_due in R. rewrite (proj2 (Z.leb_gt _ _) F1), andb_false_r in R. cbn [andb] in R.
  destruct R as (-> & P & Okt & N & _ & M1 & M2). specialize (IH t Okt).
  destruct (display_reads l t) as [more u]. cbn [fst] in *. rewrite IH, P.
  - unfold room. cbn [map fst sum_list]. rewrite <-take_take_drop. done.
  - revert F2. apply Forall_impl. intros r. unfold NowUs. by rewrite M1, M2, N.
Qed.

Lemma default_seed_byte : in_u 8 Kunteng.kDefaultChecksumSeed.
Proof. unfold in_u, Kunteng.kDefaultChecksumSeed. lia. Qed.

(** A display that has just been set up, or whose last frame was read, sends
    one whole request frame into whatever rooms the reads of the next 100 ms
    offer, and the protocol decoder delivers exactly that request. *)
Lemma display_request_reaches_decoder capacity now l s d : rx_ok s -> poll_due (NowUs now s) s = true ->
  0 <= NowUs now s < 2 ^ 64 - kDisplayPollUs -> Forall (fun r => NowUs r.2 s < NowUs now s + kDisplayPollUs) l ->
  (Kunteng.kDisplayFrameSize <= room ((capacity, now) :: l))%nat ->
  Kunteng.request_ok (display s) -> Kunteng.wf d -> Kunteng.count_ d = 0 -> Kunteng.seed_ d = Kunteng.kDefaultChecksumSeed ->
  (Kunteng.PushAll (display_reads ((capacity, now) :: l) s).1 d).1 = replicate 12 None ++ [Some (Kunteng.Decode (frame s))].
Proof.
  intros Ok Due Hn Hl Hr Rq W C S. cbn [display_reads]. pose proof (sim_display_spec capacity now s Ok) as R.
  destruct (ReadDisplay capacity now s) as [bytes t]. cbv zeta in R. unfold offered in R. rewrite Due in R.
  destruct R as (-> & P & Okt & N & _ & M1 & M2). rewrite wrap_id in N by (unfold in_u, kDisplayPollUs in *; lia).
  assert (Forall (fun r => NowUs r.2 t < next_poll_us t) l) as Fl.
  { revert Hl. apply Forall_impl. intros r. unfold NowUs. by rewrite M1, M2, N. }
  pose proof (display_reads_rest l t Okt Fl) as E. destruct (display_reads l t) as [more u]. cbn [fst] in *. rewrite E, P.
  rewrite take_take_drop. pose proof (Kunteng.stream_accepts_frame (display s) d Rq W C) as A. cbv zeta in A. rewrite S in A.
  assert (length (frame s) = Kunteng.kDisplayFrameSize) as Lf.
{ destruct (Kunteng.encode_shape (display s) Kunteng.kDefaultChecksumSeed Rq) as [Lf _]; [by apply default_seed_byte|exact Lf]. }
  fold (frame s) in A. change (room _) with (capacity + room l)%nat in Hr. rewrite take_ge by lia.
  destruct (Kunteng.PushAll (frame s) d) as [out d']. cbn [fst]. apply A.
Qed.

(** Only whole status frames are taken; the last one is the one shown. *)
Lemma status_frames (frames : list (list Z)) s :
  status_count (foldl (fun s f => WriteDisplay f s) s frames) =
    foldl (fun n f => if (length f =? Kunteng.kControllerFrameSize)%nat then u32 (n + 1) else n) (status_count s) frames /\
  LastDisplayStatus (foldl (fun s f => WriteDisplay f s) s frames) =
    default (status s) (list.last (filter (fun f => length f = Kunteng.kControllerFrameSize) frames)).
Proof.
  revert s. induction frames as [|f l IH]; intros s; [done|]. cbn [foldl]. destruct (IH (WriteDisplay f s)) as [-> ->].
  unfold WriteDisplay. rewrite filter_cons. destruct (Nat.eqb_spec (length f) Kunteng.kControllerFrameSize) as [E|E];
    [rewrite decide_True by done|by rewrite decide_False].
  split; [done|]. cbn [status set_field]. destruct (filter _ l) as [|g m]; [done|].
  change (list.last (f :: g :: m)) with (list.last (g :: m)). destruct (list.last (g :: m)) eqn:X; [done|]. by apply last_None in X.
Qed.

(** The factory display of the simulation asks for assist level 3 and 25 km/h
    with the light on; the decoder says so after the reads of three bytes. *)
Lemma sim_display_example :
  let s := SetDisplay 3 25 true SimEbike_init in
  let reads := map (fun i => (3%nat, 1000 * Z.of_nat i)) (seq 0 5) in
  match list.last (omap id (Kunteng.PushAll (display_reads reads s).1 Kunteng.init_DisplayDecoder).1) with
  | Some r => (Kunteng.assist_level r, Kunteng.max_speed r, Kunteng.light r) = (3, 25, true)
  | None => False
  end.
Proof. vm_compute. reflexivity. Qed.
End SimEbike.
