(* ===== verification/Threads.v ===== *)
(** * Threads of the firmware and the log line to the bus

    hardware/zephyr_common/control_thread.cpp: the control thread and its
    wake-up; cyphal_log_backend.c: the Zephyr log backend that keeps lines for
    the Cyphal thread; cyphal_runtime.cpp: what the Cyphal thread does around
    the drive node.  Semaphores, message queues and the formatter of Zephyr are
    classes with the laws its documentation states. *)
From Stdlib Require Import ZArith Lia Bool.
From stdpp Require Import base decidable list option.
From S2P Require Import Prelude Float32 DriveMessages CyphalNode CanardTransport.
Import DriveMessages(Severity, sev_kError, sev_kWarning, sev_kInfo, sev_kDebug).

#[local] Open Scope Z_scope.
#[local] Open Scope unimoc_scope.

Module Threads.

(** ** The control thread *)
(** A semaphore of kernel.h with a limit: giving at the limit changes nothing,
    taking at zero blocks ([None]). *)
Class Semaphore (S : Type) := { k_sem_give : S -> S; k_sem_take : S -> option S }.
Class SemaphoreLaws (S : Type) `{!Semaphore S} (limit : nat) := {
  sem_count : S -> nat;
  sem_give_law s : sem_count (k_sem_give s) = Nat.min limit (Datatypes.S (sem_count s));
  sem_take_law s : match k_sem_take s with
                   | Some t => sem_count s = Datatypes.S (sem_count t)
                   | None => sem_count s = 0%nat
                   end }.

Section Control.
Context {S W : Type} `{!Semaphore S}.
(** [ControlThreadHandler()] on the state of the application. *)
Variable ControlThreadHandler : W -> W.

Definition NotifyControlThread (s : S * W) : S * W := (k_sem_give s.1, s.2).
(** One turn of the loop of [ControlThread()]; [None]: the thread is blocked. *)
Definition ControlThread (s : S * W) : option (S * W) :=
  sem ← k_sem_take s.1; Some (sem, ControlThreadHandler s.2).

(** The interleavings of the interrupt that notifies and the thread that runs. *)
Inductive control_event := ev_notify | ev_turn.
#[export] Instance control_event_eq_dec : EqDecision control_event.
Proof. solve_decision. Defined.
Definition control_step (e : control_event) (s : S * W) : option (S * W) :=
  match e with ev_notify => Some (NotifyControlThread s) | ev_turn => ControlThread s end.
Fixpoint control_run (l : list control_event) (s : S * W) : option (S * W) :=
  match l with [] => Some s | e :: l => s ← control_step e s; control_run l s end.
Definition turns (l : list control_event) : nat := length (filter (fun e => e = ev_turn) l).

Context `{!SemaphoreLaws S 1}.

Lemma notify_count s : sem_count (NotifyControlThread s).1 = Nat.min 1 (Datatypes.S (sem_count s.1)).
Proof. apply sem_give_law. Qed.
Lemma control_run_app l m s : control_run (l ++ m) s = (s ← control_run l s; control_run m s).
Proof. revert s. induction l as [|e l IH]; intros s; [done|]. cbn. destruct (control_step e s); [apply IH|done]. Qed.
Lemma control_run_turns l s t : control_run l s = Some t -> t.2 = Nat.iter (turns l) ControlThreadHandler s.2.
Proof.
  revert s. induction l as [|e l IH]; intros s; cbn [control_run]; [by intros [= ->]|]. intros H.
  apply bind_Some in H as (u & E & H). apply IH in H. rewrite H. unfold turns. rewrite filter_cons. destruct e; cbn in E.
  - rewrite decide_False by done. by injection E as <-.
  - rewrite decide_True by done. apply bind_Some in E as (sem & _ & [= <-]). cbn [length snd]. by rewrite Nat.iter_succ_r.
Qed.

(** No wake-up is lost: when the thread is blocked again, it has started a turn
    after the last notification. *)
Lemma wake_up_served l m s t : control_run (l ++ ev_notify :: m) s = Some t -> k_sem_take t.1 = None -> ev_turn ∈ m.
Proof.
  intros R B. destruct (decide (ev_turn ∈ m)) as [|N]; [done|exfalso].
  rewrite control_run_app in R. apply bind_Some in R as (u & _ & R). cbn [control_run control_step mbind option_bind] in R.
  assert (forall (m : list control_event) (v : S * W), ev_turn ∉ m -> (1 <= sem_count v.1)%nat -> control_run m v = Some t -> (1 <= sem_count t.1)%nat) as G.
  { clear. intros m. induction m as [|e m IH]; intros v N C; cbn [control_run]; [by intros [= <-]|].
    apply not_elem_of_cons in N as [N1 N2]. destruct e; [|done]. cbn [control_step mbind option_bind]. apply IH; [done|].
    rewrite notify_count. lia. }
  specialize (G m _ N ltac:(rewrite notify_count; lia) R).
  pose proof (sem_take_law t.1) as T. rewrite B in T. lia.
Qed.

(** Notifications that wait are merged: the thread never turns more often than
    it is notified. *)
Lemma wake_ups_merged l s t : control_run l s = Some t ->
  (turns l + sem_count t.1 <= length (filter (fun e => e = ev_notify) l) + sem_count s.1)%nat.
Proof.
  revert s. induction l as [|e l IH]; intros s; cbn [control_run]; [intros [= <-]; cbn; lia|]. intros H.
  apply bind_Some in H as (u & E & H). apply IH in H. unfold turns in *. rewrite !filter_cons. destruct e; cbn in E.
  - rewrite decide_False, decide_True by done. injection E as <-. rewrite notify_count in H. cbn [length]. lia.
  - rewrite decide_True, decide_False by done. apply bind_Some in E as (sem & T & [= <-]). pose proof (sem_take_law s.1) as L.
    rewrite T in L. cbn [length fst] in *. lia.
Qed.
End Control.

(** A counter with a limit is such a semaphore. *)
#[export] Instance counter_semaphore : Semaphore nat := {|
  k_sem_give s := Nat.min 1 (S s); k_sem_take s := match s with O => None | S n => Some n end |}.
#[export, refine] Instance counter_semaphore_laws : SemaphoreLaws nat 1 := {| sem_count s := s |}.
Proof. - done. - by intros [|n]. Defined.

(** ** The log backend *)
Definition kLineLength : nat := 112.
Definition kQueueLength : nat := 8.
Definition LOG_LEVEL_NONE : Z := 0.
Definition LOG_LEVEL_ERR : Z := 1.
Definition LOG_LEVEL_WRN : Z := 2.
Definition LOG_LEVEL_INF : Z := 3.

Record LogLine := mkLogLine { level : Z; text : list Z }.
#[export] Instance eta_LogLine : Eta LogLine := fun l => mkLogLine (level l) (text l).

(** The message queue of kernel.h, as far as a call without waiting goes. *)
Class LogQueue (Q : Type) := { k_msgq_put : LogLine -> Q -> Q; k_msgq_get : Q -> option LogLine * Q }.
Class LogQueueLaws (Q : Type) `{!LogQueue Q} := {
  queued : Q -> list LogLine;
  msgq_put_law l q : queued (k_msgq_put l q) = if (length (queued q) <? kQueueLength)%nat then queued q ++ [l] else queued q;
  msgq_get_law q : match queued q with
                   | [] => (k_msgq_get q).1 = None /\ queued (k_msgq_get q).2 = []
                   | l :: r => (k_msgq_get q).1 = Some l /\ queued (k_msgq_get q).2 = r
                   end }.

Section Backend.
Context {Q : Type} `{!LogQueue Q}.
(** [CONFIG_UNIMOC_CYPHAL_LOG_LEVEL]. *)
Variable log_level : Z.

(** The static variables of the file. *)
Record LogBackend := mkLogBackend { line : LogLine; line_length : nat; cyphal_log_queue : Q }.
#[export] Instance eta_LogBackend : Eta LogBackend := fun s => mkLogBackend (line s) (line_length s) (cyphal_log_queue s).
Definition LogBackend_init (q : Q) : LogBackend := mkLogBackend (mkLogLine 0 (replicate (S kLineLength) 0)) 0 q.

Definition put_char (c : Z) (s : LogBackend) : LogBackend :=
  s.{line := (line s).{text := <[line_length s := c]> (text (line s))} }.
Definition char_step (s : LogBackend) (c : Z) : LogBackend :=
  if negb (c =? 13) && negb (c =? 10) && (line_length s <? kLineLength)%nat
  then (put_char c s).{line_length := S (line_length s)} else s.
Definition CharOut (data : list Z) (s : LogBackend) : LogBackend := foldl char_step s data.

(** [chunks]: the pieces in which the formatter hands out the text of the message. *)
Definition Process (kLevel : Z) (chunks : list (list Z)) (s : LogBackend) : LogBackend :=
  if (kLevel =? LOG_LEVEL_NONE) || (log_level <? kLevel) then s
  else
    let s := (s.{line_length := 0%nat}).{line := (line s).{level := kLevel} } in
    let s := foldl (fun s data => CharOut data s) s chunks in
    let s := put_char 0 s in
    s.{cyphal_log_queue := k_msgq_put (line s) (cyphal_log_queue s)}.

(** The copy of [UnimocCyphalLogGet()]: at most [room] characters before the terminator. *)
Fixpoint copy_text (room : nat) (t : list Z) : list Z :=
  match room, t with
  | S n, c :: t => if c =? 0 then [] else c :: copy_text n t
  | _, _ => []
  end.
Definition UnimocCyphalLogGet (size : nat) (s : LogBackend) : option (Z * list Z) * LogBackend :=
  if (size =? 0)%nat then (None, s)
  else let '(got, q) := k_msgq_get (cyphal_log_queue s) in
       (l ← got; Some (level l, copy_text (size - 1) (text l)), s.{cyphal_log_queue := q}).

(** *** What a line holds *)
(** The text of a message without line ends, cut to the length of a line. *)
Definition line_of (chunks : list (list Z)) : list Z := take kLineLength (filter (fun c => c <> 13 /\ c <> 10) (concat chunks)).
Definition line_ok (s : LogBackend) : Prop := length (text (line s)) = S kLineLength /\ (line_length s <= kLineLength)%nat.
Definition written (s : LogBackend) : list Z := take (line_length s) (text (line s)).

Lemma char_step_spec s c : line_ok s ->
  line_ok (char_step s c) /\ level (line (char_step s c)) = level (line s) /\ cyphal_log_queue (char_step s c) = cyphal_log_queue s /\
  written (char_step s c) = take kLineLength (written s ++ filter (fun c => c <> 13 /\ c <> 10) [c]).
Proof.
  intros [L N]. unfold char_step. assert (length (written s) = line_length s) as Lw by (unfold written; rewrite length_take; lia).
  rewrite filter_cons, filter_nil.
  destruct (Z.eqb_spec c 13) as [->|N1]; [|destruct (Z.eqb_spec c 10) as [->|N2]]; cbn [negb andb].
  1,2: rewrite decide_False by tauto; rewrite app_nil_r, (take_ge (written s)) by lia; split_and!; done.
  rewrite decide_True by done. destruct (Nat.ltb_spec (line_length s) kLineLength) as [K|K].
  - split_and!; try done; cbn [line text line_length set_field put_char].
    + split; cbn [line text line_length set_field put_char]; [by rewrite length_insert|lia].
    + unfold written at 1. cbn [line text line_length set_field put_char].
      rewrite (take_S_r _ _ c) by (apply list_lookup_insert_eq; lia). rewrite take_insert_ge by lia.
      rewrite (take_ge (written s ++ _)); [done|]. rewrite length_app, Lw. cbn [length]. lia.
  - split_and!; try done. rewrite take_app_le by lia. rewrite (take_ge (written s)) by lia. done.
Qed.

Lemma CharOut_cons c l s : CharOut (c :: l) s = CharOut l (char_step s c).
Proof. done. Qed.
Lemma CharOut_spec data s : line_ok s ->
  line_ok (CharOut data s) /\ level (line (CharOut data s)) = level (line s) /\ cyphal_log_queue (CharOut data s) = cyphal_log_queue s /\
  written (CharOut data s) = take kLineLength (written s ++ filter (fun c => c <> 13 /\ c <> 10) data).
Proof.
  revert s. induction data as [|c l IH]; intros s Ok.
  - unfold CharOut. cbn [foldl]. split_and!; try done. rewrite filter_nil, app_nil_r, take_ge; [done|]. unfold written. rewrite length_take. destruct Ok. lia.
  - rewrite CharOut_cons. destruct (char_step_spec s c Ok) as (O & E1 & E2 & E3). destruct (IH _ O) as (O' & F1 & F2 & F3).
    split; [done|]. split; [by rewrite F1|]. split; [by rewrite F2|]. rewrite F3, E3.
    change (c :: l) with ([c] ++ l). rewrite list.filter_app, app_assoc. generalize (written s ++ filter (fun c => c <> 13 /\ c <> 10) [c]).
    intros a. generalize (filter (fun c => c <> 13 /\ c <> 10) l). intros b.
    destruct (Nat.le_ge_cases (length a) kLineLength) as [La|La]; [by rewrite (take_ge a)|].
    rewrite take_app_le by (rewrite length_take; lia). rewrite take_app_le by lia. by rewrite take_take, Nat.min_id.
Qed.

Lemma chunks_spec chunks s : line_ok s -> let t := foldl (fun s data => CharOut data s) s chunks in
  line_ok t /\ level (line t) = level (line s) /\ cyphal_log_queue t = cyphal_log_queue s /\
  written t = take kLineLength (written s ++ filter (fun c => c <> 13 /\ c <> 10) (concat chunks)).
Proof.
  cbv zeta. revert s. induction chunks as [|d l IH]; intros s Ok; cbn [foldl concat].
  - apply (CharOut_spec [] s Ok).
  - destruct (CharOut_spec d s Ok) as (O & E1 & E2 & E3). destruct (IH _ O) as (O' & F1 & F2 & F3).
    split; [done|]. split; [by rewrite F1|]. split; [by rewrite F2|]. rewrite F3, E3, list.filter_app, app_assoc.
    generalize (written s ++ filter (fun c => c <> 13 /\ c <> 10) d) as a. intros a. generalize (filter (fun c => c <> 13 /\ c <> 10) (concat l)). intros b.
    destruct (Nat.le_ge_cases (length a) kLineLength) as [La|La]; [by rewrite (take_ge a)|].
    rewrite take_app_le by (rewrite length_take; lia). rewrite take_app_le by lia. by rewrite take_take, Nat.min_id.
Qed.

(** *** The queue of lines it implements *)
Definition shown : Type := Z * list Z.
Definition line_shows (l : LogLine) (x : shown) : Prop := level l = x.1 /\ exists rest, text l = x.2 ++ 0 :: rest.
Definition clean (chunks : list (list Z)) : Prop := Forall (fun c => c <> 0) (concat chunks).

Lemma copy_text_spec n t rest : Forall (fun c => c <> 0) t -> copy_text n (t ++ 0 :: rest) = take n t.
Proof.
  revert n. induction t as [|c t IH]; intros [|n] F; [done|done|done|]. apply Forall_cons_1 in F as [F1 F2].
  cbn [app copy_text take]. rewrite (proj2 (Z.eqb_neq c 0) F1). by rewrite IH.
Qed.
Lemma line_of_clean chunks : clean chunks -> Forall (fun c => c <> 0) (line_of chunks).
Proof. intros C. unfold line_of. apply Forall_take. unfold clean in C. induction (concat chunks) as [|c l IH]; [done|].
  apply Forall_cons_1 in C as [C1 C2]. rewrite filter_cons. case_decide; [constructor|]; auto. Qed.

(** The specification: a queue of at most eight lines. *)
Definition spec_process (kLevel : Z) (chunks : list (list Z)) (q : list shown) : list shown :=
  if (kLevel =? LOG_LEVEL_NONE) || (log_level <? kLevel) then q
  else if (length q <? kQueueLength)%nat then q ++ [(kLevel, line_of chunks)] else q.
Definition spec_get (size : nat) (q : list shown) : option shown * list shown :=
  if (size =? 0)%nat then (None, q)
  else match q with [] => (None, []) | (l, t) :: q => (Some (l, take (size - 1) t), q) end.

Context `{!LogQueueLaws Q}.
Definition refines (s : LogBackend) (q : list shown) : Prop :=
  line_ok s /\ Forall2 line_shows (queued (cyphal_log_queue s)) q /\ Forall (fun x => Forall (fun c => c <> 0) x.2) q.

Lemma Process_line kLevel chunks s : line_ok s ->
  let t := put_char 0 (foldl (fun s data => CharOut data s) ((s.{line_length := 0%nat}).{line := (line s).{level := kLevel} }) chunks) in
  line_ok t /\ cyphal_log_queue t = cyphal_log_queue s /\ line_shows (line t) (kLevel, line_of chunks).
Proof.
  intros Ok. cbv zeta. set (s0 := (s.{line_length := 0%nat}).{line := (line s).{level := kLevel} }).
  assert (line_ok s0) as O by (destruct Ok; split; [done|cbn; lia]).
  destruct (chunks_spec chunks s0 O) as (O1 & E1 & E2 & E3). set (s1 := foldl _ s0 chunks) in *. clearbody s1.
  destruct O1 as [O1 O2]. split; [split; [by cbn; rewrite length_insert|done]|]. split; [done|]. split; [done|]. cbn [fst snd].
  change (written s0) with (@nil Z) in E3. cbn [app] in E3. fold (line_of chunks) in E3. rewrite <-E3.
  exists (drop (S (line_length s1)) (text (line s1))). unfold written. cbn [line text set_field put_char].
  rewrite insert_take_drop by lia. done.
Qed.

Lemma Process_refines kLevel chunks s q : refines s q -> clean chunks -> refines (Process kLevel chunks s) (spec_process kLevel chunks q).
Proof.
  intros (Ok & F & C) Cl. unfold Process, spec_process. destruct (_ || _); [done|]. cbv zeta.
  destruct (Process_line kLevel chunks s Ok) as (O & E & Sh). cbv zeta in O, E, Sh.
  set (t := put_char 0 _) in *. clearbody t. split; [done|]. cbn [cyphal_log_queue set_field].
  rewrite msgq_put_law, E, (Forall2_length F). destruct (length q <? kQueueLength)%nat; [|done]. split.
  - apply Forall2_app; [done|]. by constructor.
  - apply Forall_app. split; [done|]. constructor; [by apply line_of_clean|done].
Qed.

Lemma Get_refines size s q : refines s q ->
  (UnimocCyphalLogGet size s).1 = (spec_get size q).1 /\ refines (UnimocCyphalLogGet size s).2 (spec_get size q).2.
Proof.
  intros (Ok & F & C). unfold UnimocCyphalLogGet, spec_get. destruct (size =? 0)%nat; [done|].
  pose proof (msgq_get_law (cyphal_log_queue s)) as G. destruct (queued (cyphal_log_queue s)) as [|l ql] eqn:Eq.
  - apply Forall2_nil_inv_l in F as ->. destruct (k_msgq_get _) as [o r]. cbn [fst snd] in G. destruct G as [-> G].
    split; [done|]. split; [done|]. cbn [snd cyphal_log_queue set_field]. by rewrite G.
  - apply Forall2_cons_inv_l in F as ([lv t] & q' & [S1 [rest S2]] & F & ->). apply Forall_cons_1 in C as [C1 C2].
    destruct (k_msgq_get _) as [o r]. cbn [fst snd] in *. destruct G as [-> G]. cbn [mbind option_bind fst snd].
    split; [by rewrite S1, S2, copy_text_spec|]. split; [done|]. cbn [cyphal_log_queue set_field]. by rewrite G.
Qed.

(** *** The lines on the bus *)
(** [while (UnimocCyphalLogGet(&level, text.data(), text.size()))] of the
    Cyphal thread: at most [fuel] lines, each as a level and a text. *)
Fixpoint log_lines (fuel : nat) (size : nat) (s : LogBackend) : list shown * LogBackend :=
  match fuel with
  | O => ([], s)
  | S n => match UnimocCyphalLogGet size s with
           | (None, s) => ([], s)
           | (Some x, s) => let '(l, s) := log_lines n size s in (x :: l, s)
           end
  end.
Lemma log_lines_all fuel s q : refines s q -> (length q < fuel)%nat ->
  (log_lines fuel 128 s).1 = map (fun x => (x.1, take 127 x.2)) q /\ refines (log_lines fuel 128 s).2 [].
Proof.
  revert s q. induction fuel as [|n IH]; intros s q R L; [lia|]. cbn [log_lines].
  destruct (Get_refines 128 s q R) as [G1 G2]. destruct (UnimocCyphalLogGet 128 s) as [o t]. cbn [fst snd] in *. unfold spec_get in *.
  change (128 =? 0)%nat with false in *. cbn match in *. destruct q as [|[lv x] q]; cbn [fst snd] in *; subst o; [done|].
  destruct (IH t q G2 ltac:(cbn in L; lia)) as [I1 I2]. destruct (log_lines n 128 t) as [l u]. cbn [fst snd] in *. by rewrite I1.
Qed.

Inductive log_event := log_message (kLevel : Z) (chunks : list (list Z)) | log_drained.
Definition log_step (e : log_event) (s : LogBackend) : list shown * LogBackend :=
  match e with log_message k c => ([], Process k c s) | log_drained => log_lines (S kQueueLength) 128 s end.
Fixpoint log_run (l : list log_event) (s : LogBackend) : list shown :=
  match l with [] => [] | e :: l => let '(out, s) := log_step e s in out ++ log_run l s end.
(** The specification: each drain hands out the accepted messages since the
    last one, at most eight, in order, each cut to 112 characters. *)
Fixpoint spec_run (l : list log_event) (waiting : list shown) : list shown :=
  match l with
  | [] => []
  | log_message k c :: l => spec_run l (spec_process k c waiting)
  | log_drained :: l => waiting ++ spec_run l []
  end.
Definition message_clean (e : log_event) : Prop := match e with log_message _ c => clean c | log_drained => True end.

Lemma spec_process_ok k c (q : list shown) : (length q <= kQueueLength)%nat -> Forall (fun x : shown => length x.2 <= kLineLength)%nat q ->
  (length (spec_process k c q) <= kQueueLength)%nat /\ Forall (fun x : shown => length x.2 <= kLineLength)%nat (spec_process k c q).
Proof.
  intros L F. unfold spec_process. destruct (_ || _); [done|]. destruct (Nat.ltb_spec (length q) kQueueLength); [|by split].
  split; [rewrite length_app; cbn [length]; lia|]. apply Forall_app. split; [done|]. constructor; [|done]. cbn [snd].
  unfold line_of. rewrite length_take. lia.
Qed.

(** The log backend and the drain of the thread implement that queue. *)
Lemma log_relayed_from l s (q : list shown) : refines s q -> Forall message_clean l ->
  (length q <= kQueueLength)%nat -> Forall (fun x : shown => length x.2 <= kLineLength)%nat q -> log_run l s = spec_run l q.
Proof.
  revert s q. induction l as [|e l IH]; intros s q R C L F; [done|]. apply Forall_cons_1 in C as [C1 C2].
  destruct e as [k c|]; cbn [log_run log_step spec_run app].
  - destruct (spec_process_ok k c q L F). apply IH; [by apply Process_refines|done..].
  - destruct (log_lines_all (S kQueueLength) s q R ltac:(lia)) as [E R']. destruct (log_lines _ _ s) as [out t]. cbn [fst snd] in *.
    rewrite (IH t [] R' C2); [|cbn; lia|done]. f_equal. rewrite E. clear -F. induction F as [|[lv x] q Fx F IH]; [done|].
    cbn [map fst snd] in *. rewrite IH, take_ge; [done|]. unfold kLineLength in Fx. lia.
Qed.
Theorem log_relayed l q : queued q = [] -> Forall message_clean l -> log_run l (LogBackend_init q) = spec_run l [].
Proof.
  intros E C. apply log_relayed_from; [|done|cbn; lia|done]. split; [|cbn; rewrite E; by split].
  split; cbn [text line LogBackend_init line_length]; [by rewrite length_replicate|lia].
Qed.
End Backend.

#[export] Instance list_log_queue : LogQueue (list LogLine) := {|
  k_msgq_put l q := if (length q <? kQueueLength)%nat then q ++ [l] else q;
  k_msgq_get q := match q with [] => (None, []) | l :: r => (Some l, r) end |}.
#[export, refine] Instance list_log_queue_laws : LogQueueLaws (list LogLine) := {| queued q := q |}.
Proof. - done. - by intros [|l q]. Defined.
Lemma log_relayed_witness :
  log_run 3 [log_message 2 [[72; 105; 13; 10]; [33]]; log_message 4 [[68]]; log_message 1 [[69]]; log_drained] (LogBackend_init ([] : list LogLine))
    = [(2, [72; 105; 33]); (1, [69])].
Proof. rewrite (log_relayed 3); [reflexivity|done|]. repeat constructor; done. Defined.

(** ** The Cyphal thread *)
Definition ToSeverity (kLevel : Z) : Severity :=
  if kLevel =? LOG_LEVEL_ERR then sev_kError else if kLevel =? LOG_LEVEL_WRN then sev_kWarning
  else if kLevel =? LOG_LEVEL_INF then sev_kInfo else sev_kDebug.
Definition TraceTickPeriodUs (dt_slow : float) : float := f_mul dt_slow (f_of_Z 1000000).

Section Interfaces.
Context {M : Type}.
(** [controller]: the CAN controller, with the result of its bring-up;
    [platform]: [CyphalPlatformInterfaces()]. *)
Definition add_media (interfaces : list M) (media : option M) : list M :=
  match media with
  | Some m => if (length interfaces <? CanardTransport.kMaxInterfaces)%nat then interfaces ++ [m] else interfaces
  | None => interfaces
  end.
Definition CollectInterfaces (controller : M) (kResult : Z) (platform : list (option M)) : list M :=
  foldl add_media (if kResult =? 0 then [controller] else []) platform.

(** The interfaces of the node: the controller first if it came up, then those
    of the platform in their order, cut to what the transport can hold. *)
Lemma CollectInterfaces_spec controller kResult platform :
  CollectInterfaces controller kResult platform =
  take CanardTransport.kMaxInterfaces ((if kResult =? 0 then [controller] else []) ++ omap id platform).
Proof.
  unfold CollectInterfaces. assert (length (if (kResult =? 0)%Z then [controller] else []) <= CanardTransport.kMaxInterfaces)%nat as L
    by (unfold CanardTransport.kMaxInterfaces; case_if; cbn; lia).
  revert L. generalize (if kResult =? 0 then [controller] else []). induction platform as [|[m|] l IH]; intros a L; cbn [foldl].
  - cbn. by rewrite app_nil_r, take_ge.
  - cbn [add_media omap list_omap id]. destruct (Nat.ltb_spec (length a) CanardTransport.kMaxInterfaces).
    + rewrite IH by (rewrite length_app; cbn [length]; lia). by rewrite <-app_assoc.
    + rewrite IH by done. rewrite !take_app_le by lia. done.
  - by rewrite IH.
Qed.
End Interfaces.

(** What the thread does with the lines of the log: a diagnostic record each. *)
Section Relay.
Context {T : Type} `{!CyphalNode.TransportOps T} {dsdl : CyphalNode.NodeDsdl}.
Definition relay (lines : list shown) (node : CyphalNode.CyphalNode T) : CyphalNode.CyphalNode T :=
  foldl (fun node x => (CyphalNode.Log (ToSeverity x.1) x.2 node).2) node lines.
(** The messages of the thread reach the node in order, with the severity of
    their level, and the node itself is otherwise as it was while it has no ID. *)
Lemma relay_without_id lines node : CyphalNode.NodeId node = DriveMessages.kNodeIdUnset -> relay lines node = node.
Proof.
  intros N. induction lines as [|x l IH]; [done|]. unfold relay. cbn [foldl]. unfold CyphalNode.Log at 2. rewrite N, Z.eqb_refl.
  exact IH.
Qed.
End Relay.

End Threads.
