(* ===== verification/Json.v ===== *)
(** * JSON text

    A reader for JSON (RFC 8259) over bytes: the specification of what the
    text of a file means.  Numbers are kept as their token.  [reads] is the
    form the laws take: a text is read to its value whatever follows it. *)
From Stdlib Require Import ZArith Lia Bool.
From stdpp Require Import base decidable list option.
From S2P Require Import Prelude.

#[local] Open Scope Z_scope.

Module Json.

#[warnings="-register-all"]
Inductive json :=
| J_null | J_bool (b : bool) | J_num (token : list Z) | J_str (s : list Z) | J_arr (l : list json) | J_obj (l : list (list Z * json)).

Definition is_ws (c : Z) : bool := (c =? 32) || (c =? 10) || (c =? 13) || (c =? 9).
Definition num_char (c : Z) : bool := (48 <=? c) && (c <=? 57) || (c =? 43) || (c =? 45) || (c =? 46) || (c =? 69) || (c =? 101).
Fixpoint skip_ws (l : list Z) : list Z := match l with c :: r => if is_ws c then skip_ws r else l | [] => [] end.
Definition hex_value (c : Z) : option Z :=
  if (48 <=? c) && (c <=? 57) then Some (c - 48) else if (97 <=? c) && (c <=? 102) then Some (c - 87)
  else if (65 <=? c) && (c <=? 70) then Some (c - 55) else None.
Definition hex4 (a b c d : Z) : option Z :=
  a ← hex_value a; b ← hex_value b; c ← hex_value c; d ← hex_value d; Some (a * 4096 + b * 256 + c * 16 + d).

(** The characters up to the closing quote; an escaped code point is one byte. *)
Fixpoint read_chars (l : list Z) : option (list Z * list Z) :=
  match l with
  | [] => None
  | c :: r =>
      if c =? 34 then Some ([], r)
      else if c <? 32 then None
      else if c =? 92 then
        match r with
        | e :: r =>
            if (e =? 34) || (e =? 92) || (e =? 47) then '(s, t) ← read_chars r; Some (e :: s, t)
            else if e =? 117 then
              match r with
              | w :: x :: y :: z :: r =>
                  code ← hex4 w x y z; if code <? 128 then '(s, t) ← read_chars r; Some (code :: s, t) else None
              | _ => None
              end
            else None
        | [] => None
        end
      else '(s, t) ← read_chars r; Some (c :: s, t)
  end.
Fixpoint read_token (l : list Z) : list Z * list Z :=
  match l with c :: r => if num_char c then let '(s, t) := read_token r in (c :: s, t) else ([], l) | [] => ([], []) end.
(** A fixed text, such as [null]. *)
Fixpoint strip (w l : list Z) : option (list Z) :=
  match w, l with
  | [], _ => Some l
  | a :: w, c :: l => if a =? c then strip w l else None
  | _, [] => None
  end.
Definition kNull : list Z := [110; 117; 108; 108].
Definition kTrue : list Z := [116; 114; 117; 101].
Definition kFalse : list Z := [102; 97; 108; 115; 101].

Definition empty_array (l : list Z) : option (list Z) :=
  match skip_ws l with c :: t => if c =? 93 then Some t else None | [] => None end.

(** [read_elems] and [read_members]: after the bracket or a comma, up to and
    with the closing bracket; [fuel] bounds the nesting and the lengths. *)
Fixpoint read_value (fuel : nat) (l : list Z) : option (json * list Z) :=
  match fuel with
  | O => None
  | S n =>
      match skip_ws l with
      | [] => None
      | c :: r =>
          if c =? 34 then '(s, t) ← read_chars r; Some (J_str s, t)
          else if c =? 91 then
            match empty_array r with
            | Some t => Some (J_arr [], t)
            | None => '(v, t) ← read_elems n r; Some (J_arr v, t)
            end
          else if c =? 123 then '(v, t) ← read_members n r; Some (J_obj v, t)
          else if num_char c then let '(s, t) := read_token (c :: r) in Some (J_num s, t)
          else match strip kNull (c :: r) with Some t => Some (J_null, t) | None =>
               match strip kTrue (c :: r) with Some t => Some (J_bool true, t) | None =>
               match strip kFalse (c :: r) with Some t => Some (J_bool false, t) | None => None end end end
      end
  end
with read_elems (fuel : nat) (l : list Z) : option (list json * list Z) :=
  match fuel with
  | O => None
  | S n =>
      '(v, t) ← read_value n l;
      match skip_ws t with
      | c :: r => if c =? 44 then '(w, u) ← read_elems n r; Some (v :: w, u) else if c =? 93 then Some ([v], r) else None
      | [] => None
      end
  end
with read_members (fuel : nat) (l : list Z) : option (list (list Z * json) * list Z) :=
  match fuel with
  | O => None
  | S n =>
      match skip_ws l with
      | c :: r =>
          if c =? 34 then
            '(k, t) ← read_chars r;
            match skip_ws t with
            | d :: t =>
                if d =? 58 then
                  '(v, t) ← read_value n t;
                  match skip_ws t with
                  | e :: r => if e =? 44 then '(w, u) ← read_members n r; Some ((k, v) :: w, u)
                              else if e =? 125 then Some ([(k, v)], r) else None
                  | [] => None
                  end
                else None
            | [] => None
            end
          else None
      | [] => None
      end
  end.

(** ** Laws *)
Definition stops (rest : list Z) : Prop := match rest with [] => True | c :: _ => num_char c = false end.
Definition reads (text : list Z) (v : json) : Prop :=
  exists k, forall n rest, (k <= n)%nat -> stops rest -> read_value n (text ++ rest) = Some (v, rest).
Definition reads_elems (text : list Z) (v : list json) : Prop :=
  exists k, forall n rest, (k <= n)%nat -> read_elems n (text ++ rest) = Some (v, rest).
Definition reads_members (text : list Z) (v : list (list Z * json)) : Prop :=
  exists k, forall n rest, (k <= n)%nat -> read_members n (text ++ rest) = Some (v, rest).
Definition reads_string (text s : list Z) : Prop := forall rest, read_chars (text ++ rest) = Some (s, rest).
Definition ws (l : list Z) : Prop := Forall (fun c => is_ws c = true) l.

Lemma skip_ws_app w l : ws w -> skip_ws (w ++ l) = skip_ws l.
Proof. induction 1 as [|c w H W IH]; [done|]. cbn [app skip_ws]. by rewrite H. Qed.

Lemma reads_ws w t v : ws w -> reads t v -> reads (w ++ t) v.
Proof.
  intros W [k H]. exists k. intros n rest Hn S. specialize (H n rest Hn S). destruct n as [|n]; [done|].
  rewrite <-app_assoc. cbn [read_value] in *. by rewrite skip_ws_app.
Qed.
Lemma reads_str t s : reads_string t s -> reads (34 :: t) (J_str s).
Proof. intros H. exists 1%nat. intros [|n] rest Hn _; [lia|]. cbn. by rewrite H. Qed.
Lemma reads_null : reads kNull J_null.
Proof. exists 1%nat. by intros [|n] rest Hn _; [lia|]. Qed.
Lemma reads_bool (b : bool) : reads (if b then kTrue else kFalse) (J_bool b).
Proof. exists 1%nat. by intros [|n] rest Hn _; [lia|]; destruct b. Qed.

Lemma read_token_app t rest : Forall (fun c => num_char c = true) t -> stops rest -> read_token (t ++ rest) = (t, rest).
Proof.
  intros F S. induction F as [|c t H F IH]; cbn [app read_token]; [|by rewrite H, IH].
  destruct rest as [|c r]; [done|]. cbn [read_token]. by rewrite S.
Qed.
Lemma num_char_plain c : num_char c = true -> is_ws c = false /\ (c =? 34) = false /\ (c =? 91) = false /\ (c =? 123) = false.
Proof. unfold num_char, is_ws. intros H. bool_prop. split_and!; repeat (apply orb_false_iff; split); apply Z.eqb_neq; lia. Qed.
Lemma reads_num t : t <> [] -> Forall (fun c => num_char c = true) t -> reads t (J_num t).
Proof.
  intros N F. exists 1%nat. intros [|n] rest Hn S; [lia|]. destruct F as [|c t H F]; [done|].
  destruct (num_char_plain c H) as (P1 & P2 & P3 & P4). cbn [app read_value skip_ws]. rewrite P1, P2, P3, P4, H.
  change (c :: t ++ rest) with ((c :: t) ++ rest). rewrite read_token_app; [done|by constructor|done].
Qed.

Lemma reads_elems_last t w v : ws w -> reads t v -> reads_elems (t ++ w ++ [93]) [v].
Proof.
  intros W [k H]. exists (S k). intros [|n] rest Hn; [lia|]. cbn [read_elems]. rewrite <-!app_assoc, H; [|lia|].
  - cbn [mbind option_bind]. by rewrite skip_ws_app.
  - destruct W as [|c w Hc W]; [done|]. cbn. unfold is_ws, num_char in *. bool_prop.
    repeat (apply orb_false_iff; split); first [apply Z.eqb_neq|apply andb_false_iff; rewrite !Z.leb_gt]; lia.
Qed.
Lemma reads_elems_cons t u v l : reads t v -> reads_elems u l -> reads_elems (t ++ [44] ++ u) (v :: l).
Proof.
  intros [k H] [j G]. exists (S (Nat.max k j)). intros [|n] rest Hn; [lia|]. cbn [read_elems].
  rewrite <-!app_assoc, H; [|lia|done]. cbn [mbind option_bind app skip_ws is_ws Z.eqb orb Pos.eqb]. by rewrite G by lia.
Qed.
Lemma read_array n t : read_value (S n) (91 :: t) =
  match empty_array t with Some t => Some (J_arr [], t) | None => '(v, t) ← read_elems n t; Some (J_arr v, t) end.
Proof. done. Qed.
Lemma reads_arr_nil w : ws w -> reads (91 :: w ++ [93]) (J_arr []).
Proof.
  intros W. exists 1%nat. intros [|n] rest Hn _; [lia|]. cbn [app]. rewrite read_array. unfold empty_array.
  by rewrite <-app_assoc, skip_ws_app.
Qed.
Lemma reads_arr t l : reads_elems t l -> reads (91 :: t) (J_arr l).
Proof.
  intros [k H]. exists (S (S (S k))). intros [|[|[|n]]] rest Hn _; [lia..|]. cbn [app]. rewrite read_array.
  specialize (H (S (S n)) rest ltac:(lia)). rewrite H. cbn [mbind option_bind]. unfold empty_array.
  destruct (skip_ws (t ++ rest)) as [|c u] eqn:E; [done|]. destruct (Z.eqb_spec c 93) as [->|]; [|done].
  cbn [read_elems read_value] in H. by rewrite E in H.
Qed.

Lemma reads_members_last k t w v s : ws w -> reads_string k s -> reads t v -> reads_members (34 :: k ++ [58] ++ t ++ w ++ [125]) [(s, v)].
Proof.
  intros W K [j H]. exists (S j). intros [|n] rest Hn; [lia|]. cbn [app read_members skip_ws is_ws Z.eqb Pos.eqb orb].
  rewrite <-!app_assoc, K. cbn [mbind option_bind app skip_ws is_ws Z.eqb Pos.eqb orb]. rewrite <-!app_assoc, H; [|lia|].
  - cbn [mbind option_bind]. by rewrite skip_ws_app.
  - destruct W as [|c w Hc W]; [done|]. cbn. unfold is_ws, num_char in *. bool_prop.
    repeat (apply orb_false_iff; split); first [apply Z.eqb_neq|apply andb_false_iff; rewrite !Z.leb_gt]; lia.
Qed.
Lemma reads_members_cons k t u v l s : reads_string k s -> reads t v -> reads_members u l ->
  reads_members (34 :: k ++ [58] ++ t ++ [44] ++ u) ((s, v) :: l).
Proof.
  intros K [j H] [i G]. exists (S (Nat.max i j)). intros [|n] rest Hn; [lia|]. cbn [app read_members skip_ws is_ws Z.eqb Pos.eqb orb].
  rewrite <-!app_assoc, K. cbn [mbind option_bind app skip_ws is_ws Z.eqb Pos.eqb orb]. rewrite <-!app_assoc, H; [|lia|done].
  cbn [mbind option_bind app skip_ws is_ws Z.eqb Pos.eqb orb]. by rewrite G by lia.
Qed.
Lemma reads_members_ws w u l : ws w -> reads_members u l -> reads_members (w ++ u) l.
Proof.
  intros W [k H]. exists k. intros n rest Hn. specialize (H n rest Hn). destruct n as [|n]; [done|].
  rewrite <-app_assoc. cbn [read_members] in *. by rewrite skip_ws_app.
Qed.
Lemma reads_obj t l : reads_members t l -> reads (123 :: t) (J_obj l).
Proof. intros [k H]. exists (S k). intros [|n] rest Hn _; [lia|]. cbn [app read_value skip_ws is_ws Z.eqb Pos.eqb orb]. by rewrite H by lia. Qed.
End Json.
