(* ===== verification/RegisterFile.v ===== *)
(** * The register description file

    hardware/zephyr_sim/register_file.cpp: the registers of the node as a JSON
    file, byte by byte, and what a JSON reader (Json.v) finds in it. *)
From Stdlib Require Import ZArith Lia Bool SpecFloat String.
From stdpp Require Import base decidable list option.
From S2P Require Import Prelude Float32 SettingsData Registers DriveMessages CyphalNode Json.
Import SettingsData(RegisterDescription, EffectName, unit_symbol, minimum, maximum, effect, help).
Import Registers(RegisterValue, V_string, V_unstructured, V_bit, V_natural8, V_natural16, V_natural32, V_real32).
Import CyphalNode(RegisterFlags, is_mutable, is_persistent).
Import Json.

#[local] Open Scope string_scope.
#[local] Open Scope list_scope.
#[local] Open Scope Z_scope.

Module RegisterFile.

Definition kSchemaVersion : Z := 1.

(** ** Text *)
Abbreviation fputs s := (DriveMessages.bytes_of s).
(** Quotes and a quoted key of the format strings. *)
Definition quote (text : list Z) : list Z := [34] ++ text ++ [34].
Definition key (k : string) : list Z := quote (fputs k) ++ fputs ": ".

(** [%u], [%zu] and PRIu64; [%04x] and PRIx64 with 16 digits. *)
Fixpoint dec_digits (fuel : nat) (n : Z) : list Z :=
  match fuel with
  | O => []
  | S f => if n <? 10 then [48 + n] else dec_digits f (n / 10) ++ [48 + n mod 10]
  end.
Definition decimal (n : Z) : list Z := dec_digits 20 n.
Definition hex_char (n : Z) : Z := if n <? 10 then 48 + n else 87 + n.
Definition hex_pad (digits : nat) (n : Z) : list Z :=
  map (fun i => hex_char (Z.land (Z.shiftr n (4 * Z.of_nat i)) 15)) (rev (seq 0 digits)).

Definition string_char (kChar : Z) : list Z :=
  if (kChar =? 34) || (kChar =? 92) then [92; kChar]
  else if kChar <? 32 then [92; 117] ++ hex_pad 4 kChar
  else [kChar].
Definition PutString (text : list Z) : list Z := [34] ++ concat (map string_char text) ++ [34].

(** [std::to_chars()] of a float: the shortest text that reads back exactly,
    always short enough for the buffer of 32 characters. *)
Class FloatText := {
  to_chars : float -> list Z;
  from_chars : list Z -> option float;
  to_chars_tokens x : is_finite x = true -> to_chars x <> [] /\ Forall (fun c => num_char c = true) (to_chars x);
  to_chars_exact x : f_valid x = true -> is_finite x = true -> from_chars (to_chars x) = Some x }.

Section File.
Context {float_text : FloatText}.

Definition PutNumber (number : float) : list Z := if is_finite number then to_chars number else fputs "null".

(** The elements of an array with their separator. *)
Fixpoint put_separated {E} (separator : list Z) (put : E -> list Z) (first : bool) (l : list E) : list Z :=
  match l with [] => [] | x :: l => (if first then [] else separator) ++ put x ++ put_separated separator put false l end.
Definition put_array {E} (put : E -> list Z) (l : list E) : list Z := [91] ++ put_separated (fputs ", ") put true l ++ [93].
Definition bool_text (b : bool) : list Z := if b then fputs "true" else fputs "false".

(** The field that [kField] starts. *)
Definition kField (type : string) (size : nat) : list Z :=
  key "type" ++ quote (fputs type) ++ fputs ", " ++ key "size" ++ decimal (Z.of_nat size) ++ fputs ", " ++ key "default".
Definition PutValue (value : RegisterValue) : list Z :=
  match value with
  | V_string t => kField "string" (length t) ++ PutString t
  | V_unstructured t => kField "unstructured" (length t) ++ put_array decimal t
  | V_bit t => kField "bit" (length t) ++ put_array bool_text t
  | V_natural8 t => kField "natural8" (length t) ++ put_array decimal t
  | V_natural16 t => kField "natural16" (length t) ++ put_array decimal t
  | V_natural32 t => kField "natural32" (length t) ++ put_array decimal t
  | V_real32 t => kField "real32" (length t) ++ put_array PutNumber t
  | _ => kField "empty" 0 ++ fputs "null"
  end.

Record Register := mkRegister { name : list Z; flags : RegisterFlags; value : RegisterValue; description : RegisterDescription }.
Definition PutRegister (r : Register) : list Z :=
  let d := description r in
  fputs "    {" ++ key "name" ++ PutString (name r) ++ fputs ", " ++ PutValue (value r) ++
  fputs ", " ++ key "mutable" ++ bool_text (is_mutable (flags r)) ++ fputs ", " ++ key "persistent" ++ bool_text (is_persistent (flags r)) ++
  (if bool_decide (fputs (unit_symbol d) = []) then [] else fputs ", " ++ key "unit" ++ PutString (fputs (unit_symbol d))) ++
  (if is_finite (minimum d) then fputs ", " ++ key "min" ++ PutNumber (minimum d) else []) ++
  (if is_finite (maximum d) then fputs ", " ++ key "max" ++ PutNumber (maximum d) else []) ++
  (if is_mutable (flags r) then fputs ", " ++ key "applies" ++ PutString (fputs (EffectName (effect d))) else []) ++
  fputs ", " ++ key "help" ++ PutString (fputs (help d)) ++ fputs "}".

(** [APP_VERSION_STRING], from the build. *)
Variable version : list Z.
Definition newline : list Z := [10].
Definition firmware_text (vcs_revision_id : Z) : list Z :=
  fputs "{" ++ key "name" ++ quote (fputs "unimoc") ++ fputs ", " ++ key "version" ++ quote version ++
  fputs ", " ++ key "vcs_revision" ++ quote (hex_pad 16 vcs_revision_id) ++
  fputs ", " ++ key "target" ++ quote (fputs "native_sim") ++ fputs "}".
Definition registers_text (registers : list Register) : list Z :=
  fputs "[" ++ newline ++ put_separated (fputs "," ++ newline) PutRegister true registers ++ newline ++ fputs "  " ++ fputs "]".
Definition file_text (vcs_revision_id : Z) (registers : list Register) : list Z :=
  fputs "{" ++ (newline ++ fputs "  ") ++ key "schema" ++ decimal kSchemaVersion ++
  fputs "," ++ (newline ++ fputs "  ") ++ key "firmware" ++ firmware_text vcs_revision_id ++
  fputs "," ++ (newline ++ fputs "  ") ++ key "registers" ++ registers_text registers ++
  newline ++ fputs "}" ++ newline.

(** The registers of the node, provider by provider. *)
Section Node.
Context {T A : Type} `{!CyphalNode.TransportOps T} `{!CyphalNode.Application T A}.
Variable Describe : nat -> nat -> RegisterDescription.
Definition node_registers (w : CyphalNode.CyphalNode T * A) : list Register :=
  concat (map (fun p => map (fun i => let '(f, v) := CyphalNode.Read p i w.2 in mkRegister (CyphalNode.Name p i w.2) f v (Describe p i))
                          (seq 0 (CyphalNode.Count p w.2))) (CyphalNode.providers_ w.1)).
(** The result, and the content of the file; [opened], [error], [closed]: what
    [fopen()], [ferror()] and [fclose()] answer. *)
Definition WriteRegisterFile (opened error closed : bool) (w : CyphalNode.CyphalNode T * A) (info : CyphalNode.NodeInfo)
    : bool * option (list Z) :=
  if negb opened then (false, None)
  else (closed && negb error, Some (file_text (CyphalNode.vcs_revision_id info) (node_registers w))).
End Node.
End File.

(** ** What a reader finds *)
Definition byte_text (l : list Z) : Prop := Forall (in_u 8) l.
(** Characters that stand for themselves in a JSON string. *)
Definition plain_char (c : Z) : bool := (32 <=? c) && negb (c =? 34) && negb (c =? 92).
Definition plain (l : list Z) : Prop := forallb plain_char l = true.

Lemma read_plain l rest : plain l -> read_chars (l ++ 34 :: rest) = Some (l, rest).
Proof.
  unfold plain. induction l as [|c l IH]; [done|]. cbn [forallb app read_chars]. intros [H P]%andb_prop.
  unfold plain_char in H. apply andb_prop in H as [H H3]. apply andb_prop in H as [H1 H2].
  apply negb_true_iff in H2, H3. apply Z.leb_le in H1. rewrite H2, H3, (proj2 (Z.ltb_ge c 32)) by lia. by rewrite IH.
Qed.

Lemma control_escape c : 0 <= c < 32 -> exists w x y z, hex_pad 4 c = [w; x; y; z] /\ hex4 w x y z = Some c.
Proof.
  intros H. assert (forallb (fun c => match hex_pad 4 c with [w; x; y; z] => bool_decide (hex4 w x y z = Some c) | _ => false end)
    (seqZ 0 32) = true) as F by (vm_compute; reflexivity).
  pose proof (forall_seqZ _ _ _ F c ltac:(lia)) as G. cbv beta in G. destruct (hex_pad 4 c) as [|w [|x [|y [|z [|]]]]]; try done.
  apply bool_decide_eq_true in G. eauto 10.
Qed.

Lemma read_escaped s rest : byte_text s -> read_chars (concat (map string_char s) ++ 34 :: rest) = Some (s, rest).
Proof.
  induction 1 as [|c s H F IH]; [done|]. cbn [map concat]. unfold string_char at 1. unfold in_u in H.
  destruct ((c =? 34) || (c =? 92)) eqn:Q.
  - cbn [app read_chars Z.eqb Z.ltb Pos.eqb Z.compare Pos.compare Pos.compare_cont].
    assert ((c =? 34) || (c =? 92) || (c =? 47) = true) as -> by (by rewrite Q). by rewrite IH.
  - apply orb_false_iff in Q as [Q1 Q2]. destruct (Z.ltb_spec c 32) as [L|L].
    + destruct (control_escape c ltac:(lia)) as (w & x & y & z & -> & E).
      cbn [app read_chars Z.eqb Z.ltb Pos.eqb Z.compare Pos.compare Pos.compare_cont orb]. rewrite E. cbn [mbind option_bind].
      rewrite (proj2 (Z.ltb_lt c 128)) by lia. by rewrite IH.
    + cbn [app read_chars]. rewrite Q1, Q2, (proj2 (Z.ltb_ge c 32)) by lia. by rewrite IH.
Qed.

Lemma reads_PutString s : byte_text s -> reads (PutString s) (J_str s).
Proof. intros H. apply (reads_str (concat (map string_char s) ++ [34])). intros rest. rewrite <-app_assoc. by apply read_escaped. Qed.
Lemma reads_quote s : plain s -> reads (quote s) (J_str s).
Proof. intros H. apply (reads_str (s ++ [34])). intros rest. rewrite <-app_assoc. by apply read_plain. Qed.

(** *** Numbers *)
Definition dec_value (l : list Z) : Z := foldl (fun v c => v * 10 + (c - 48)) 0 l.
Lemma dec_digits_spec fuel n : 0 <= n < 10 ^ Z.of_nat fuel -> (0 < fuel)%nat ->
  dec_value (dec_digits fuel n) = n /\ dec_digits fuel n <> [] /\ Forall (fun c => num_char c = true) (dec_digits fuel n).
Proof.
  revert n. induction fuel as [|f IH]; intros n H L; [lia|]. cbn [dec_digits].
  assert (forall d, 0 <= d < 10 -> num_char (48 + d) = true) as D.
  { intros d Hd. unfold num_char. by rewrite (proj2 (Z.leb_le _ _)), (proj2 (Z.leb_le _ _)) by lia. }
  destruct (Z.ltb_spec n 10) as [S|S].
  - split_and!; [unfold dec_value; cbn; lia|done|]. constructor; [apply D; lia|constructor].
  - pose proof (Z.div_mod n 10 ltac:(lia)) as E. pose proof (Z.mod_pos_bound n 10 ltac:(lia)) as B.
    destruct f as [|f]; [cbn in H; lia|]. rewrite Nat2Z.inj_succ, Z.pow_succ_r in H by lia.
    destruct (IH (n / 10)) as (V & N & F); [split; [apply Z.div_pos; lia|apply Z.div_lt_upper_bound; lia]|lia|].
    split_and!.
    + unfold dec_value in *. rewrite foldl_app, V. cbn [foldl]. lia.
    + by intros [_ ?]%app_eq_nil.
    + apply Forall_app. split; [done|]. constructor; [by apply D|constructor].
Qed.
Definition natural (n : Z) : Prop := 0 <= n < 2 ^ 64.
Lemma decimal_spec n : natural n -> dec_value (decimal n) = n /\ reads (decimal n) (J_num (decimal n)).
Proof.
  intros H. destruct (dec_digits_spec 20 n) as (V & N & F); [unfold natural in H; change (10 ^ Z.of_nat 20) with (10 ^ 20); lia|lia|].
  split; [done|]. by apply reads_num.
Qed.
Lemma reads_bool_text b : reads (bool_text b) (J_bool b).
Proof. destruct b; apply (reads_bool true) || apply (reads_bool false). Qed.

(** *** Arrays and objects *)
Lemma separated_false {E} sep (put : E -> list Z) x l : ws sep ->
  put_separated ([44] ++ sep) put false (x :: l) = [44] ++ sep ++ put x ++ put_separated ([44] ++ sep) put false l.
Proof. intros _. cbn [put_separated]. by rewrite <-!app_assoc. Qed.

Lemma reads_separated {E} sep (put : E -> list Z) (value : E -> json) close x l : ws sep -> ws close ->
  Forall (fun x => reads (put x) (value x)) (x :: l) ->
  reads_elems (put x ++ put_separated ([44] ++ sep) put false l ++ close ++ [93]) (map value (x :: l)).
Proof.
  intros S C. revert x. induction l as [|y l IH]; intros x [Hx F]%Forall_cons_1.
  - by apply reads_elems_last.
  - rewrite separated_false by done. rewrite <-!app_assoc. apply (reads_elems_cons (put x)); [done|].
    destruct (IH y F) as [k G]. exists k. intros n rest Hn. specialize (G n rest Hn). destruct n as [|n]; [done|].
    rewrite <-!app_assoc in *. cbn [read_elems] in *. destruct n as [|n]; [done|]. cbn [read_value] in *. by rewrite skip_ws_app.
Qed.

Lemma reads_array {E} sep (put : E -> list Z) (value : E -> json) open close l : ws sep -> ws open -> ws close ->
  Forall (fun x => reads (put x) (value x)) l ->
  reads ([91] ++ open ++ put_separated ([44] ++ sep) put true l ++ close ++ [93]) (J_arr (map value l)).
Proof.
  intros S O C F. destruct l as [|x l].
  - cbn [put_separated map app]. rewrite app_assoc. apply reads_arr_nil. by apply Forall_app.
  - cbn [put_separated app]. rewrite <-app_assoc. pose proof (reads_separated sep put value close x l S C F) as [k G]. apply reads_arr.
    exists k. intros n rest Hn. specialize (G n rest Hn). destruct n as [|n]; [done|].
    rewrite <-!app_assoc in *. cbn [read_elems] in *. destruct n as [|n]; [done|]. cbn [read_value] in *. by rewrite skip_ws_app.
Qed.
Lemma reads_put_array {E} (put : E -> list Z) (value : E -> json) l :
  Forall (fun x => reads (put x) (value x)) l -> reads (put_array put l) (J_arr (map value l)).
Proof. intros F. apply (reads_array [32] put value [] [] l); [repeat constructor..|done]. Qed.

(** The rest of an object after one of its values. *)
Definition reads_rest (u : list Z) (l : list (list Z * json)) : Prop :=
  forall k t v, plain (fputs k) -> reads t v -> reads_members (key k ++ t ++ u) ((fputs k, v) :: l).

Lemma key_reads k t : key k ++ t = 34 :: (fputs k ++ [34]) ++ [58] ++ [32] ++ t.
Proof. unfold key, quote. by rewrite <-!app_assoc. Qed.
Lemma rest_end w : ws w -> reads_rest (w ++ [125]) [].
Proof.
  intros W k t v P R. rewrite key_reads, (app_assoc [32] t). apply reads_members_last; [done| |].
  - intros rest. rewrite <-app_assoc. by apply read_plain.
  - apply reads_ws; [repeat constructor|done].
Qed.
Lemma rest_cons sep k t v u l : ws sep -> plain (fputs k) -> reads t v -> reads_rest u l ->
  reads_rest ([44] ++ sep ++ key k ++ t ++ u) ((fputs k, v) :: l).
Proof.
  intros W P R H k' t' v' P' R'. rewrite key_reads, (app_assoc [32] t'). apply reads_members_cons.
  - intros rest. rewrite <-app_assoc. by apply read_plain.
  - apply reads_ws; [repeat constructor|done].
  - apply reads_members_ws; [done|]. by apply H.
Qed.
Lemma reads_object open k t v u l : ws open -> plain (fputs k) -> reads t v -> reads_rest u l ->
  reads ([123] ++ open ++ key k ++ t ++ u) (J_obj ((fputs k, v) :: l)).
Proof. intros O P R H. apply reads_obj, reads_members_ws; [done|]. by apply H. Qed.

(** ** The meaning of the file *)
Section Meaning.
Context {float_text : FloatText}.

Definition json_number (x : float) : json := if is_finite x then J_num (to_chars x) else J_null.
Definition json_default (v : RegisterValue) : string * nat * json :=
  match v with
  | V_string t => ("string", length t, J_str t)
  | V_unstructured t => ("unstructured", length t, J_arr (map (fun n => J_num (decimal n)) t))
  | V_bit t => ("bit", length t, J_arr (map J_bool t))
  | V_natural8 t => ("natural8", length t, J_arr (map (fun n => J_num (decimal n)) t))
  | V_natural16 t => ("natural16", length t, J_arr (map (fun n => J_num (decimal n)) t))
  | V_natural32 t => ("natural32", length t, J_arr (map (fun n => J_num (decimal n)) t))
  | V_real32 t => ("real32", length t, J_arr (map json_number t))
  | _ => ("empty", 0%nat, J_null)
  end.
Definition json_value (v : RegisterValue) : list (list Z * json) :=
  let '(type, size, default) := json_default v in
  [(fputs "type", J_str (fputs type)); (fputs "size", J_num (decimal (Z.of_nat size))); (fputs "default", default)].
Definition json_register (r : Register) : json :=
  let d := description r in
  J_obj ((fputs "name", J_str (name r)) :: json_value (value r) ++
    [(fputs "mutable", J_bool (is_mutable (flags r))); (fputs "persistent", J_bool (is_persistent (flags r)))] ++
    (if bool_decide (fputs (unit_symbol d) = []) then [] else [(fputs "unit", J_str (fputs (unit_symbol d)))]) ++
    (if is_finite (minimum d) then [(fputs "min", json_number (minimum d))] else []) ++
    (if is_finite (maximum d) then [(fputs "max", json_number (maximum d))] else []) ++
    (if is_mutable (flags r) then [(fputs "applies", J_str (fputs (EffectName (effect d))))] else []) ++
    [(fputs "help", J_str (fputs (help d)))]).
Definition json_file (version : list Z) (vcs_revision_id : Z) (registers : list Register) : json :=
  J_obj [(fputs "schema", J_num (decimal kSchemaVersion));
         (fputs "firmware", J_obj [(fputs "name", J_str (fputs "unimoc")); (fputs "version", J_str version);
            (fputs "vcs_revision", J_str (hex_pad 16 vcs_revision_id)); (fputs "target", J_str (fputs "native_sim"))]);
         (fputs "registers", J_arr (map json_register registers))].

(** The elements are in the range of their type (numbers below 2^64 print alike). *)
Definition value_ok (v : RegisterValue) : Prop :=
  match v with
  | V_string t => byte_text t
  | V_unstructured t | V_natural8 t | V_natural16 t | V_natural32 t => Forall natural t
  | _ => True
  end /\ ((json_default v).1.2 <= 256)%nat.
Definition register_ok (r : Register) : Prop := byte_text (name r) /\ value_ok (value r).

Lemma bytes_of_bytes s : byte_text (fputs s).
Proof.
  unfold byte_text, DriveMessages.bytes_of. apply Forall_fmap, list.Forall_forall. intros c _. unfold compose, in_u.
  pose proof (Ascii.nat_ascii_bounded c). lia.
Qed.
Lemma reads_PutNumber x : reads (PutNumber x) (json_number x).
Proof.
  unfold PutNumber, json_number. destruct (is_finite x) eqn:E; [|exact reads_null].
  destruct (to_chars_tokens x E). by apply reads_num.
Qed.
Lemma size_natural n : (n <= 256)%nat -> natural (Z.of_nat n).
Proof. unfold natural. lia. Qed.
Lemma reads_decimals l : Forall natural l -> reads (put_array decimal l) (J_arr (map (fun n => J_num (decimal n)) l)).
Proof. intros F. apply reads_put_array. eapply Forall_impl; [|exact F]. intros n H. by apply decimal_spec. Qed.

(** The fields of a value, before the rest of the object. *)
Lemma kField_rest type size t v u l : plain (fputs type) -> (size <= 256)%nat -> reads t v -> reads_rest u l ->
  reads_rest ([44; 32] ++ (kField type size ++ t) ++ u)
    ((fputs "type", J_str (fputs type)) :: (fputs "size", J_num (decimal (Z.of_nat size))) :: (fputs "default", v) :: l).
Proof.
  intros P S R H. unfold kField. rewrite <-!app_assoc.
  apply (rest_cons [32] "type"); [repeat constructor|done|by apply reads_quote|].
  apply (rest_cons [32] "size"); [repeat constructor|done|by apply decimal_spec, size_natural|].
  apply (rest_cons [32] "default"); [repeat constructor|done|done|done].
Qed.
Lemma PutValue_rest v u l : value_ok v -> reads_rest u l -> reads_rest ([44; 32] ++ PutValue v ++ u) (json_value v ++ l).
Proof.
  intros [V S] H. destruct v; cbn [json_default fst snd] in S; cbn [PutValue json_value json_default app];
    (apply kField_rest; [reflexivity|exact S| |exact H]); try (by apply reads_decimals); try exact reads_null.
  - by apply reads_PutString.
  - apply (reads_put_array bool_text J_bool). apply list.Forall_forall. intros b _. apply reads_bool_text.
  - apply reads_put_array. apply list.Forall_forall. intros x _. apply reads_PutNumber.
Qed.

Lemma rest_opt (b : bool) k t v u l : plain (fputs k) -> reads t v -> reads_rest u l ->
  reads_rest ((if b then [44; 32] ++ key k ++ t else []) ++ u) ((if b then [(fputs k, v)] else []) ++ l).
Proof. intros P R H. destruct b; [|exact H]. rewrite <-!app_assoc. by apply (rest_cons [32]); [repeat constructor|..]. Qed.
Lemma rest_opt_not (b : bool) k t v u l : plain (fputs k) -> reads t v -> reads_rest u l ->
  reads_rest ((if b then [] else [44; 32] ++ key k ++ t) ++ u) ((if b then [] else [(fputs k, v)]) ++ l).
Proof. intros P R H. pose proof (rest_opt (negb b) k t v u l P R H). by destruct b. Qed.

Lemma PutRegister_reads r : register_ok r -> reads (PutRegister r) (json_register r).
Proof.
  intros [N V]. unfold PutRegister, json_register. cbv zeta.
  change (fputs "    {") with ([32; 32; 32; 32] ++ [123]). change (fputs ", ") with [44; 32]. change (fputs "}") with ([] ++ [125] : list Z).
  rewrite <-(app_assoc [32; 32; 32; 32]). apply reads_ws; [repeat constructor|].
  apply (reads_object [] "name"); [constructor|done|by apply reads_PutString|]. apply PutValue_rest; [done|]. cbn [app].
  apply (rest_cons [32] "mutable"); [repeat constructor|done|apply reads_bool_text|].
  apply (rest_cons [32] "persistent"); [repeat constructor|done|apply reads_bool_text|].
  apply rest_opt_not; [done|apply reads_PutString, bytes_of_bytes|].
  apply rest_opt; [done|apply reads_PutNumber|]. apply rest_opt; [done|apply reads_PutNumber|].
  apply rest_opt; [done|apply reads_PutString, bytes_of_bytes|].
  apply (rest_cons [32] "help" _ _ [125] []); [repeat constructor|done|apply reads_PutString, bytes_of_bytes|].
  apply (rest_end []). constructor.
Qed.

Lemma hex_pad_plain n v : plain (hex_pad n v).
Proof.
  unfold plain, hex_pad. apply forallb_forall. intros c (i & <- & _)%in_map_iff.
  assert (forallb (fun d => plain_char (hex_char d)) (seqZ 0 16) = true) as F by (vm_compute; reflexivity).
  apply (forall_seqZ _ _ _ F). pose proof (Z.mod_pos_bound (Z.shiftr v (4 * Z.of_nat i)) (2 ^ 4) ltac:(lia)) as B.
  change 15 with (Z.ones 4). rewrite Z.land_ones by lia. lia.
Qed.

Lemma firmware_reads version vcs : plain version -> reads (firmware_text version vcs)
  (J_obj [(fputs "name", J_str (fputs "unimoc")); (fputs "version", J_str version);
          (fputs "vcs_revision", J_str (hex_pad 16 vcs)); (fputs "target", J_str (fputs "native_sim"))]).
Proof.
  intros P. unfold firmware_text. change (fputs "{") with [123]. change (fputs "}") with ([] ++ [125] : list Z).
  change (fputs ", ") with [44; 32]. apply (reads_object [] "name"); [constructor|done|by apply reads_quote|].
  apply (rest_cons [32] "version"); [repeat constructor|done|by apply reads_quote|].
  apply (rest_cons [32] "vcs_revision"); [repeat constructor|done|apply reads_quote, hex_pad_plain|].
  apply (rest_cons [32] "target"); [repeat constructor|done|by apply reads_quote|]. apply rest_end. constructor.
Qed.
Lemma registers_reads registers : Forall register_ok registers ->
  reads (registers_text registers) (J_arr (map json_register registers)).
Proof.
  intros F. unfold registers_text, newline. change (fputs "[") with [91]. change (fputs ",") with [44]. change (fputs "]") with [93].
  change (fputs "  ") with [32; 32]. rewrite (app_assoc [10] [32; 32]).
  apply (reads_array [10] PutRegister json_register [10] ([10] ++ [32; 32])); [repeat constructor..|].
  eapply Forall_impl; [|exact F]. intros r. apply PutRegister_reads.
Qed.

(** The whole file, up to the newline at its end. *)
Lemma file_text_reads version vcs registers : plain version -> Forall register_ok registers ->
  exists text, file_text version vcs registers = text ++ newline /\ reads text (json_file version vcs registers).
Proof.
  intros P F. exists (fputs "{" ++ (newline ++ fputs "  ") ++ key "schema" ++ decimal kSchemaVersion ++
    fputs "," ++ (newline ++ fputs "  ") ++ key "firmware" ++ firmware_text version vcs ++
    fputs "," ++ (newline ++ fputs "  ") ++ key "registers" ++ registers_text registers ++ newline ++ fputs "}").
  split; [unfold file_text; by rewrite <-!app_assoc|]. unfold json_file.
  apply (reads_object (newline ++ fputs "  ") "schema"); [repeat constructor|done|by apply decimal_spec|].
  apply (rest_cons (newline ++ fputs "  ") "firmware"); [repeat constructor|done|by apply firmware_reads|].
  apply (rest_cons (newline ++ fputs "  ") "registers"); [repeat constructor|done|by apply registers_reads|].
  apply rest_end. repeat constructor.
Qed.

(** *** Back to the registers *)
Fixpoint field (k : list Z) (l : list (list Z * json)) : option json :=
  match l with [] => None | (k', v) :: l => if bool_decide (k = k') then Some v else field k l end.
Definition as_string (j : json) : option (list Z) := match j with J_str s => Some s | _ => None end.
Definition as_bool (j : json) : option bool := match j with J_bool b => Some b | _ => None end.
Definition as_natural (j : json) : option Z := match j with J_num t => Some (dec_value t) | _ => None end.
Definition as_float (j : json) : option float := match j with J_num t => from_chars t | _ => None end.
Definition as_array {E} (f : json -> option E) (j : json) : option (list E) := match j with J_arr l => mapM f l | _ => None end.
Definition value_of (type : list Z) (j : json) : option RegisterValue :=
  if bool_decide (type = fputs "string") then V_string <$> as_string j
  else if bool_decide (type = fputs "unstructured") then V_unstructured <$> as_array as_natural j
  else if bool_decide (type = fputs "bit") then V_bit <$> as_array as_bool j
  else if bool_decide (type = fputs "natural8") then V_natural8 <$> as_array as_natural j
  else if bool_decide (type = fputs "natural16") then V_natural16 <$> as_array as_natural j
  else if bool_decide (type = fputs "natural32") then V_natural32 <$> as_array as_natural j
  else if bool_decide (type = fputs "real32") then V_real32 <$> as_array as_float j
  else None.
Definition register_of (j : json) : option (list Z * RegisterFlags * RegisterValue) :=
  match j with
  | J_obj l =>
      n ← field (fputs "name") l ≫= as_string; t ← field (fputs "type") l ≫= as_string; d ← field (fputs "default") l ≫= value_of t;
      m ← field (fputs "mutable") l ≫= as_bool; p ← field (fputs "persistent") l ≫= as_bool;
      Some (n, CyphalNode.mkFlags m p, d)
  | _ => None
  end.
Definition registers_of (j : json) : option (list (list Z * RegisterFlags * RegisterValue)) :=
  match j with J_obj l => field (fputs "registers") l ≫= as_array register_of | _ => None end.

(** The kinds the registers of the drive have, with finite numbers. *)
Definition value_exact (v : RegisterValue) : Prop :=
  match v with
  | V_real32 t => Forall (fun x => f_valid x = true /\ is_finite x = true) t
  | V_string _ | V_unstructured _ | V_bit _ | V_natural8 _ | V_natural16 _ | V_natural32 _ => True
  | _ => False
  end.

Lemma mapM_back {E F} (f : F -> option E) (g : E -> F) l : Forall (fun x => f (g x) = Some x) l -> mapM f (map g l) = Some l.
Proof. induction 1 as [|x l H _ IH]; [done|]. cbn. rewrite H. cbn. by rewrite IH. Qed.
Lemma naturals_back l : Forall natural l -> mapM as_natural (map (fun n => J_num (decimal n)) l) = Some l.
Proof. intros F. apply mapM_back. eapply Forall_impl; [|exact F]. intros n H. cbn [as_natural]. by destruct (decimal_spec n H) as [-> _]. Qed.

Lemma value_of_json v : value_ok v -> value_exact v -> value_of (fputs (json_default v).1.1) (json_default v).2 = Some v.
Proof.
  intros [V _] X. destruct v; try done; cbn [json_default fst snd]; unfold value_of;
    repeat (rewrite bool_decide_eq_false_2 by done); rewrite bool_decide_eq_true_2 by done; cbn [as_array as_string fmap option_fmap option_map];
    try (by rewrite naturals_back); try done.
  - rewrite (mapM_back as_bool J_bool); [done|]. by apply list.Forall_forall.
  - rewrite (mapM_back as_float json_number); [done|]. eapply Forall_impl; [|exact X]. intros x [Hv Hf]. unfold json_number. rewrite Hf.
    by apply to_chars_exact.
Qed.
Lemma register_of_json r : register_ok r -> value_exact (value r) -> register_of (json_register r) = Some (name r, flags r, value r).
Proof.
  intros [_ V] X. pose proof (value_of_json _ V X) as E. unfold json_register, json_value. cbv zeta.
  destruct (json_default (value r)) as [[type size] d]. cbn [fst snd] in E. unfold register_of. cbn [app].
  assert (forall k v l, field k ((k, v) :: l) = Some v) as F1 by (intros; cbn; by rewrite bool_decide_eq_true_2).
  assert (forall k k' v l, k <> k' -> field k ((k', v) :: l) = field k l) as F2 by (intros; cbn; by rewrite bool_decide_eq_false_2).
  repeat (rewrite F1 || rewrite F2 by done). cbn [mbind option_bind as_string]. rewrite E. cbn [mbind option_bind as_bool].
  by destruct (flags r).
Qed.

(** C33. The file that is written can be read: a JSON reader gets through the whole
    text up to the newline at its end, and finds in it every register of the
    node, in their order, with its name, its flags and exactly its value. *)
Theorem register_file_roundtrip {T A : Type} `{!CyphalNode.TransportOps T} `{!CyphalNode.Application T A} (version : list Z)
    (Describe : nat -> nat -> RegisterDescription) (error closed : bool) (w : CyphalNode.CyphalNode T * A) (info : CyphalNode.NodeInfo) :
  plain version -> Forall register_ok (node_registers Describe w) -> Forall (fun r => value_exact (value r)) (node_registers Describe w) ->
  exists content, WriteRegisterFile version Describe true error closed w info = (closed && negb error, Some content) /\
  exists k j, (forall n, (k <= n)%nat -> read_value n content = Some (j, newline)) /\
    registers_of j = Some (map (fun r => (name r, flags r, value r)) (node_registers Describe w)).
Proof.
  intros P Ok X. unfold WriteRegisterFile. cbn [negb]. eexists. split; [reflexivity|].
  destruct (file_text_reads version (CyphalNode.vcs_revision_id info) _ P Ok) as (text & -> & [k R]).
  exists k, (json_file version (CyphalNode.vcs_revision_id info) (node_registers Describe w)). split; [intros n Hn; by apply R|].
  unfold registers_of, json_file. cbn [field]. rewrite 2!bool_decide_eq_false_2 by done. rewrite bool_decide_eq_true_2 by done.
  cbn [mbind option_bind as_array]. revert Ok X. generalize (node_registers Describe w). intros l.
  induction l as [|r l IH]; [done|]. intros [O1 O2]%Forall_cons_1 [X1 X2]%Forall_cons_1. cbn [map mapM].
  rewrite (register_of_json r O1 X1). cbn [mbind option_bind]. by rewrite IH.
Qed.
End Meaning.

(** ** The factory settings *)
(** A float text for the example: the bits as a natural number. *)
Lemma bits_range x : f_valid x = true -> is_finite x = true -> in_u 32 (bits_of_float x).
Proof.
  unfold in_u. destruct x as [s| | |s m e]; intros V F; try done; [destruct s; cbn; lia|]. cbn [f_valid] in V. bool_prop.
  cbn [bits_of_float]. destruct s; case_if; bool_prop; lia.
Qed.
Lemma word_decimal z : dec_value (decimal (u32 z)) = u32 z /\ decimal (u32 z) <> [] /\ Forall (fun c => num_char c = true) (decimal (u32 z)).
Proof. apply dec_digits_spec; [|lia]. pose proof (Z.mod_pos_bound z (2 ^ 32) ltac:(lia)). change (10 ^ Z.of_nat 20) with (10 ^ 20). unfold wrap. lia. Qed.
#[export, refine] Instance bits_text : FloatText := {|
  to_chars x := decimal (u32 (bits_of_float x)); from_chars t := Some (float_of_bits (dec_value t)) |}.
Proof.
  - intros x _. apply word_decimal.
  - intros x V F. destruct (word_decimal (bits_of_float x)) as [-> _]. rewrite wrap_id by (by apply bits_range). by rewrite float_of_bits_of_float.
Defined.

(** The registers of the settings on a node without a bus. *)
#[export] Instance no_bus : CyphalNode.TransportOps unit := {|
  CyphalNode.Send _ t := (true, t); CyphalNode.Receive _ t := (CyphalNode.kNoTransfer, CyphalNode.Transfer_init, t);
  CyphalNode.Subscribe _ _ _ t := (true, t); CyphalNode.SetLocalNodeId _ t := t; CyphalNode.LocalNodeId _ := DriveMessages.kNodeIdUnset;
  CyphalNode.Process _ t := t; CyphalNode.BusStatus _ := DriveMessages.mkCanBusStatus DriveMessages.bus_kErrorActive 0 |}.
Definition read_setting (i : nat) (s : SettingsData.NvmSettings) : RegisterValue :=
  match SettingsData.registers !! i with
  | Some e => Registers.ToValue (SettingsData.entry_name e) (SettingsData.entry_field e) s
  | None => Registers.V_empty
  end.
#[export] Instance settings_application : CyphalNode.Application unit SettingsData.NvmSettings := {|
  CyphalNode.Count _ _ := Registers.SettingsRegisterCount; CyphalNode.Name _ i _ := fputs (Registers.Name i);
  CyphalNode.Read _ i s := (CyphalNode.mkFlags true true, read_setting i s);
  CyphalNode.Write _ _ _ w := (Registers.kReadOnly, w); CyphalNode.OnMessage _ _ _ w := w;
  CyphalNode.OnCommand _ _ w := (CyphalNode.mkResult 0 [], w); CyphalNode.OnNodeIdAllocated _ w := w;
  CyphalNode.OnRequest _ _ w := (None, w) |}.
Definition describe_setting (provider i : nat) : RegisterDescription :=
  default (SettingsData.mkRegisterDescription "" f_zero f_zero SettingsData.kImmediate "") (Registers.Describe i).
Definition demo_node : CyphalNode.CyphalNode unit * SettingsData.NvmSettings :=
  ((CyphalNode.AddRegisterProvider 0 (CyphalNode.Node_init tt)).2, SettingsData.NvmSettings_init 0 1).

(** The conditions of the theorem, as functions. *)
Definition byte_textb (l : list Z) : bool := forallb (in_ub 8) l.
Definition value_okb (v : RegisterValue) : bool :=
  match v with
  | V_string t => byte_textb t
  | V_unstructured t | V_natural8 t | V_natural16 t | V_natural32 t => forallb (in_ub 64) t
  | _ => true
  end && ((json_default v).1.2 <=? 256)%nat.
Definition value_exactb (v : RegisterValue) : bool :=
  match v with
  | V_real32 t => forallb (fun x => f_valid x && is_finite x) t
  | V_string _ | V_unstructured _ | V_bit _ | V_natural8 _ | V_natural16 _ | V_natural32 _ => true
  | _ => false
  end.
Definition register_okb (r : Register) : bool := byte_textb (name r) && value_okb (value r) && value_exactb (value r).
Lemma byte_textb_spec l : byte_textb l = true -> byte_text l.
Proof.
  unfold byte_textb, byte_text. induction l as [|c l IH]; cbn [forallb]; [constructor|]. intros [H F]%andb_prop. constructor; [|auto].
  unfold in_ub in H. unfold in_u. bool_prop. lia.
Qed.
Lemma naturalb_spec l : forallb (in_ub 64) l = true -> Forall natural l.
Proof.
  induction l as [|c l IH]; cbn [forallb]; [constructor|]. intros [H F]%andb_prop. constructor; [|auto].
  unfold in_ub in H. unfold natural. bool_prop. lia.
Qed.
Lemma value_exactb_spec v : value_exactb v = true -> value_exact v.
Proof.
  destruct v as [| | | | | | | | | | | | |t|]; try done. cbn [value_exactb value_exact]. induction t as [|x t IH]; [constructor|].
  cbn [forallb]. intros [Hx X]%andb_prop. constructor; [by apply andb_prop|by apply IH].
Qed.
Lemma register_okb_spec r : register_okb r = true -> register_ok r /\ value_exact (value r).
Proof.
  unfold register_okb, value_okb. intros [[N [V S]%andb_prop]%andb_prop X]%andb_prop. apply Nat.leb_le in S.
  split; [split; [by apply byte_textb_spec|split; [|done]]|by apply value_exactb_spec].
  destruct (value r); try done; by apply byte_textb_spec || apply naturalb_spec.
Qed.
Lemma registers_okb_spec l : forallb register_okb l = true -> Forall register_ok l /\ Forall (fun r => value_exact (value r)) l.
Proof.
  induction l as [|r l IH]; [by split|]. cbn [forallb]. intros [H F]%andb_prop. apply register_okb_spec in H as [H1 H2].
  destruct (IH F). split; by constructor.
Qed.
Lemma demo_registers_ok : forallb register_okb (node_registers describe_setting demo_node) = true.
Proof. vm_cast_no_check (eq_refl true). Qed.

(** The description file of the factory settings reads back. *)
Lemma register_file_roundtrip_witness : exists content, WriteRegisterFile (fputs "0.1.0") describe_setting true false true demo_node
    CyphalNode.NodeInfo_init = (true, Some content) /\
  exists k j, (forall n, (k <= n)%nat -> read_value n content = Some (j, newline)) /\
    registers_of j = Some (map (fun r => (name r, flags r, value r)) (node_registers describe_setting demo_node)).
Proof.
  destruct (registers_okb_spec _ demo_registers_ok) as [Ok X].
  apply (register_file_roundtrip (fputs "0.1.0") describe_setting false true demo_node CyphalNode.NodeInfo_init); [reflexivity|exact Ok|exact X].
Defined.
End RegisterFile.
