(* ===== verification/TraceNode.v ===== *)
(** * Traces over Cyphal

    src/trace/trace_node.{hpp,cpp}: the services, the trigger message and the
    trigger publisher of the trace device on the node of the drive.  The device
    (the cymon submodule) and the DSDL code are classes; [None] of a handler
    that answers [option (option _)] is a write past an array. *)
From Stdlib Require Import ZArith Lia Bool.
From stdpp Require Import base decidable list option.
From S2P Require Import Prelude Float32 SettingsData DriveMessages CyphalNode.
Import SettingsData(NvmSettings, num, kUnsetPortId, kMaxServiceId, srv_cymon_variables_id, srv_cymon_buffer_info_id, srv_cymon_setup_id, srv_cymon_arm_id,
  srv_cymon_read_id, pub_cymon_trigger_id, sub_cymon_trigger_id).
Import DriveMessages(Publisher, mkPublisher, port_id, priority, next_transfer_id, Publisher_init, prio_kHigh).
Import CyphalNode(Transfer, transfer_port, payload, AddServer, AddSubscription, AddPublisher, Publish, servers_, listeners_,
  published_subjects_, kServedServices, kMaxServers).

#[local] Open Scope Z_scope.
#[local] Open Scope unimoc_scope.

Module TraceNode.

(** ** The trace device (cymon) *)
Record VariableInfo := mkVariableInfo { var_name : list Z; var_unit : list Z }.
Record TriggerEvent := mkTriggerEvent { source_variable_id : Z; event_mode : Z; trigger_value : float }.
Record BufferInfo := mkBufferInfo { buffer_bytes : Z; max_channels : Z; max_frames : Z; max_read_samples : Z; tick_period_us : float }.
Record CaptureConfig := mkCaptureConfig {
  num_channels : Z; channel_ids : list Z; sample_period_us : float; num_samples : Z; pretrigger_samples : Z }.
Record SetupCaptureResult := mkSetupCaptureResult { error : Z; actual_sample_period_us : float }.
Record ArmTriggerConfig := mkArmTriggerConfig { arm : bool; arm_source : Z; mode : Z; level : float; hysteresis_band : float }.
Record ReadSamplesResult := mkReadSamplesResult {
  state : Z; read_channels : Z; read_samples : Z; read_pretrigger : Z; read_period_us : float; end_of_data : bool; Samples : list float }.
Class Device (D : Type) := {
  kMaxChannels : nat;
  SetTickPeriod : float -> D -> D;
  TakeTriggerEvent : D -> option TriggerEvent * D;
  RequestTrigger : D -> D;
  GetVariable : Z -> D -> VariableInfo;
  HandleGetBufferInfo : D -> BufferInfo;
  HandleSetupCapture : CaptureConfig -> D -> SetupCaptureResult * D;
  HandleArmTrigger : ArmTriggerConfig -> D -> Z * D;
  HandleReadSamples : Z -> Z -> D -> ReadSamplesResult }.

(** ** The messages (generated code) *)
Record SetupRequest := mkSetupRequest { ids : list Z; period : float; samples_wanted : Z; pretrigger_wanted : Z }.
Class TraceDsdl := {
  Variables_deserialize : list Z -> option Z;
  Variables_serialize : list Z * list Z -> Z -> option (list Z);
  BufferInfo_serialize : BufferInfo -> Z -> option (list Z);
  Setup_deserialize : list Z -> option SetupRequest;
  Setup_serialize : Z * float -> Z -> option (list Z);
  Arm_deserialize : list Z -> option ArmTriggerConfig;
  Arm_serialize : Z -> Z -> option (list Z);
  Read_deserialize : list Z -> option (Z * Z);
  Read_serialize : ReadSamplesResult -> Z -> option (list Z);
  TriggerEvent_serialize : TriggerEvent -> Z -> option (list Z);
  name_capacity : nat; unit_capacity : nat; samples_capacity : nat; TriggerEvent_buffer : Z;
  Variables_extent : Z; BufferInfo_extent : Z; Setup_extent : Z; Arm_extent : Z; Read_extent : Z; TriggerEvent_extent : Z }.
(** What the calls promise: an encoding fits its buffer, and a page of samples
    the array of the response. *)
Class TraceLaws (D : Type) `{!Device D} `{!TraceDsdl} := {
  Variables_fits r cap b : Variables_serialize r cap = Some b -> Z.of_nat (length b) <= cap;
  BufferInfo_fits r cap b : BufferInfo_serialize r cap = Some b -> Z.of_nat (length b) <= cap;
  Setup_fits r cap b : Setup_serialize r cap = Some b -> Z.of_nat (length b) <= cap;
  Arm_fits r cap b : Arm_serialize r cap = Some b -> Z.of_nat (length b) <= cap;
  Read_fits r cap b : Read_serialize r cap = Some b -> Z.of_nat (length b) <= cap;
  Samples_fit offset frames (d : D) : (length (Samples (HandleReadSamples offset frames d)) <= samples_capacity)%nat }.

Definition CopyText (text : list Z) (capacity : nat) : list Z := take capacity text.

Section Node.
Context {T D : Type} `{!CyphalNode.TransportOps T} {dsdl : CyphalNode.NodeDsdl} `{!Device D} {messages : TraceDsdl}.
(** The number of this object among the handlers and listeners of the node. *)
Variable self : nat.

Record TraceNode := mkTraceNode {
  device_ : D; variables_port_ : Z; buffer_info_port_ : Z; setup_port_ : Z; arm_port_ : Z; read_port_ : Z; trigger_subject_ : Z;
  trigger_publisher_ : Publisher }.
#[export] Instance eta_TraceNode : Eta TraceNode := fun s =>
  mkTraceNode (device_ s) (variables_port_ s) (buffer_info_port_ s) (setup_port_ s) (arm_port_ s) (read_port_ s) (trigger_subject_ s)
    (trigger_publisher_ s).
Definition TraceNode_of (device : D) : TraceNode :=
  mkTraceNode device kUnsetPortId kUnsetPortId kUnsetPortId kUnsetPortId kUnsetPortId kUnsetPortId Publisher_init.
Abbreviation Node := (CyphalNode.CyphalNode T).

(** [added = node_->Add...(...) && added]: every port is tried. *)
Definition and_then (f : Node -> bool * Node) (r : bool * Node) : bool * Node := let '(a, n) := f r.2 in (a && r.1, n).
Definition Start (settings : NvmSettings) (tick_period_us : float) (s : TraceNode) (n : Node) : bool * (TraceNode * Node) :=
  let s := s.{device_ := SetTickPeriod tick_period_us (device_ s)} in
  let s := s.{variables_port_ := num settings srv_cymon_variables_id}.{buffer_info_port_ := num settings srv_cymon_buffer_info_id}
            .{setup_port_ := num settings srv_cymon_setup_id}.{arm_port_ := num settings srv_cymon_arm_id}
            .{read_port_ := num settings srv_cymon_read_id}.{trigger_subject_ := num settings sub_cymon_trigger_id}
            .{trigger_publisher_ := mkPublisher (num settings pub_cymon_trigger_id) prio_kHigh 0} in
  let r := AddServer (variables_port_ s) Variables_extent self n in
  let r := and_then (AddServer (buffer_info_port_ s) BufferInfo_extent self) r in
  let r := and_then (AddServer (setup_port_ s) Setup_extent self) r in
  let r := and_then (AddServer (arm_port_ s) Arm_extent self) r in
  let r := and_then (AddServer (read_port_ s) Read_extent self) r in
  let r := and_then (AddSubscription (trigger_subject_ s) TriggerEvent_extent self) r in
  let '(added, n) := and_then (AddPublisher (trigger_publisher_ s)) r in
  (added, (s, n)).

Definition SetTickPeriod_ (tick_period_us : float) (s : TraceNode) : TraceNode := s.{device_ := SetTickPeriod tick_period_us (device_ s)}.

Definition Spin (s : TraceNode) (n : Node) : TraceNode * Node :=
  let '(event, d) := TakeTriggerEvent (device_ s) in
  let s := s.{device_ := d} in
  match event with
  | None => (s, n)
  | Some e =>
      match TriggerEvent_serialize (mkTriggerEvent (source_variable_id e) (u8 (event_mode e)) (trigger_value e)) TriggerEvent_buffer with
      | Some bytes => let '(_, p, n) := Publish (trigger_publisher_ s) bytes n in (s.{trigger_publisher_ := p}, n)
      | None => (s, n)
      end
  end.

Definition OnGetVariableList (request : list Z) (room : Z) (s : TraceNode) : option (list Z) :=
  index ← Variables_deserialize request;
  let kVariable := GetVariable index (device_ s) in
  Variables_serialize (CopyText (var_name kVariable) name_capacity, CopyText (var_unit kVariable) unit_capacity) room.
Definition OnGetBufferInfo (room : Z) (s : TraceNode) : option (list Z) := BufferInfo_serialize (HandleGetBufferInfo (device_ s)) room.
(** The IDs are an array of [kMaxChannels], zero where nothing was copied. *)
Definition capture_config (setup : SetupRequest) : CaptureConfig :=
  let copied := take (Nat.min (length (ids setup)) kMaxChannels) (ids setup) in
  mkCaptureConfig (u8 (Z.of_nat (length (ids setup)))) (copied ++ replicate (kMaxChannels - length copied) 0) (period setup)
    (samples_wanted setup) (pretrigger_wanted setup).
Definition OnSetupCapture (request : list Z) (room : Z) (s : TraceNode) : option (list Z) * TraceNode :=
  match Setup_deserialize request with
  | None => (None, s)
  | Some setup =>
      let '(kResult, d) := HandleSetupCapture (capture_config setup) (device_ s) in
      (Setup_serialize (u8 (error kResult), actual_sample_period_us kResult) room, s.{device_ := d})
  end.
Definition OnArmTrigger (request : list Z) (room : Z) (s : TraceNode) : option (list Z) * TraceNode :=
  match Arm_deserialize request with
  | None => (None, s)
  | Some config => let '(kResult, d) := HandleArmTrigger config (device_ s) in (Arm_serialize (u8 kResult) room, s.{device_ := d})
  end.
Definition OnReadSamples (request : list Z) (room : Z) (s : TraceNode) : option (option (list Z)) :=
  match Read_deserialize request with
  | None => Some None
  | Some (frame_offset, frames) =>
      let kResult := HandleReadSamples frame_offset frames (device_ s) in
      if (samples_capacity <? length (Samples kResult))%nat then None else Some (Read_serialize kResult room)
  end.

Definition OnRequest (request : Transfer) (room : Z) (s : TraceNode) : option (option (list Z) * TraceNode) :=
  let port := transfer_port request in
  if port =? variables_port_ s then Some (OnGetVariableList (payload request) room s, s)
  else if port =? buffer_info_port_ s then Some (OnGetBufferInfo room s, s)
  else if port =? setup_port_ s then Some (OnSetupCapture (payload request) room s)
  else if port =? arm_port_ s then Some (OnArmTrigger (payload request) room s)
  else if port =? read_port_ s then r ← OnReadSamples (payload request) room s; Some (r, s)
  else Some (None, s).
Definition OnMessage (transfer : Transfer) (s : TraceNode) : TraceNode :=
  if transfer_port transfer =? trigger_subject_ s then s.{device_ := RequestTrigger (device_ s)} else s.

(** ** The services *)
Inductive service := sv_variables | sv_buffer_info | sv_setup | sv_arm | sv_read.
Definition services : list service := [sv_variables; sv_buffer_info; sv_setup; sv_arm; sv_read].
Definition port_of (v : service) (s : TraceNode) : Z :=
  match v with sv_variables => variables_port_ s | sv_buffer_info => buffer_info_port_ s | sv_setup => setup_port_ s
  | sv_arm => arm_port_ s | sv_read => read_port_ s end.
Definition serve (v : service) (request : list Z) (room : Z) (s : TraceNode) : option (option (list Z) * TraceNode) :=
  match v with
  | sv_variables => Some (OnGetVariableList request room s, s)
  | sv_buffer_info => Some (OnGetBufferInfo room s, s)
  | sv_setup => Some (OnSetupCapture request room s)
  | sv_arm => Some (OnArmTrigger request room s)
  | sv_read => r ← OnReadSamples request room s; Some (r, s)
  end.

(** A service that was added has a port of its own. *)
Lemma AddServer_true id extent h (n n' : Node) : AddServer id extent h n = (true, n') ->
  (id = kUnsetPortId /\ n' = n) \/
  (id <> kUnsetPortId /\ (forall h', (id, h') ∉ servers_ n) /\ servers_ n' = servers_ n ++ [(id, h)]).
Proof.
  unfold AddServer. destruct (Z.eqb_spec id kUnsetPortId) as [E|E]; [intros [= <-]; by left|].
  destruct (_ || _ || _) eqn:G; [done|]. destruct (CyphalNode.subscribe _ _ _ _) as [ok m] eqn:S. destruct ok; [|done]. cbn [negb].
  intros [= <-]. right. split; [done|]. apply orb_false_iff in G as [[_ [_ G]%orb_false_iff]%orb_false_iff _]. split.
  - intros h' I. apply list_elem_of_In in I. apply not_true_iff_false in G. apply G, existsb_exists. exists (id, h'). split; [done|]. apply Z.eqb_refl.
  - unfold CyphalNode.subscribe in S. destruct (CyphalNode.Subscribe _ _ _ _). by injection S as _ <-.
Qed.
Lemma and_then_true f r n : and_then f r = (true, n) -> f r.2 = (true, n) /\ r.1 = true.
Proof. unfold and_then. destruct (f r.2) as [a m] eqn:E. intros [= Hab <-]. by destruct a. Qed.

(** The ports of the services tried one after the other. *)
Fixpoint add_servers (l : list (Z * Z)) (n : Node) : bool * Node :=
  match l with
  | [] => (true, n)
  | (id, extent) :: l => let '(a, n) := AddServer id extent self n in let '(b, n) := add_servers l n in (a && b, n)
  end.
Lemma add_servers_true l n n' : add_servers l n = (true, n') ->
  servers_ n' = servers_ n ++ map (fun x => (x.1, self)) (filter (fun x => x.1 <> kUnsetPortId) l) /\
  NoDup (filter (fun id => id <> kUnsetPortId) (map fst l)) /\
  (forall id h, id ∈ map fst l -> id <> kUnsetPortId -> (id, h) ∉ servers_ n).
Proof.
  revert n. induction l as [|[id extent] l IH]; intros n; cbn [add_servers map fst].
  - intros [= <-]. split; [by rewrite app_nil_r|]. split; [constructor|]. intros ? ? I. by apply elem_of_nil in I.
  - destruct (AddServer id extent self n) as [a m] eqn:A. destruct (add_servers l m) as [b m'] eqn:B. intros [= Hab <-].
    apply andb_prop in Hab as [-> ->]. apply IH in B as (B1 & B2 & B3). apply AddServer_true in A as [[-> ->]|(N & Fr & A)].
    + rewrite !filter_cons. cbn [fst]. rewrite !decide_False by tauto. split; [done|]. split; [done|].
      intros i h [->|I]%elem_of_cons Hn; [done|]. by apply B3.
    + rewrite !filter_cons. cbn [fst]. rewrite !decide_True by done. rewrite A in B1, B3. split; [by rewrite B1, <-app_assoc|]. split.
      * constructor; [|done]. intros [_ I]%list_elem_of_filter. eapply (B3 id self I N). apply elem_of_app. right. by apply list_elem_of_singleton.
      * intros i h [->|I]%elem_of_cons Hn; [apply Fr|]. intros J. apply (B3 i h I Hn). apply elem_of_app. by left.
Qed.

Lemma distinct_ports {E} (f : E -> Z) l x y : NoDup (filter (fun id => id <> kUnsetPortId) (map f l)) ->
  x ∈ l -> y ∈ l -> f x = f y -> f x <> kUnsetPortId -> x = y.
Proof.
  induction l as [|a l IH]; [by intros _ ?%elem_of_nil|]. cbn [map]. rewrite filter_cons. intros N Ix Iy E1 Hu.
  assert (forall z, z ∈ l -> f z = f a -> f a <> kUnsetPortId -> False) as Fr.
  { intros z Iz Ez Ha. rewrite decide_True in N by done. apply list.NoDup_cons in N as [N _]. apply N. apply list_elem_of_filter. split; [done|].
    rewrite <-Ez. apply list_elem_of_In, in_map, list_elem_of_In. done. }
  assert (NoDup (filter (fun id => id <> kUnsetPortId) (map f l))) as N' by (case_decide; [by apply list.NoDup_cons in N as [_ N]|done]).
  apply elem_of_cons in Ix as [->|Ix], Iy as [->|Iy]; [done| | |by apply IH].
  - exfalso. by apply (Fr y Iy).
  - exfalso. apply (Fr x Ix E1). by rewrite <-E1.
Qed.

Lemma OnRequest_serve v (request : Transfer) room s :
  (forall w, port_of w s = port_of v s -> w = v) -> transfer_port request = port_of v s -> OnRequest request room s = serve v (payload request) room s.
Proof.
  intros Inj E. assert (forall w, w <> v -> (port_of v s =? port_of w s) = false) as Ne by (intros w N; apply Z.eqb_neq; intros X; apply N, Inj; done).
  unfold OnRequest. rewrite E. change (variables_port_ s) with (port_of sv_variables s).
  change (buffer_info_port_ s) with (port_of sv_buffer_info s). change (setup_port_ s) with (port_of sv_setup s).
  change (arm_port_ s) with (port_of sv_arm s). change (read_port_ s) with (port_of sv_read s).
  destruct v; repeat (rewrite Ne by done); by rewrite Z.eqb_refl.
Qed.

Lemma Start_servers settings tick s n s' n' : Start settings tick s n = (true, (s', n')) ->
  exists m, add_servers [(variables_port_ s', Variables_extent); (buffer_info_port_ s', BufferInfo_extent); (setup_port_ s', Setup_extent);
                         (arm_port_ s', Arm_extent); (read_port_ s', Read_extent)] n = (true, m) /\
  exists k, AddSubscription (trigger_subject_ s') TriggerEvent_extent self m = (true, k) /\ AddPublisher (trigger_publisher_ s') k = (true, n') /\
  device_ s' = SetTickPeriod tick (device_ s).
Proof.
  unfold Start. destruct (and_then (AddPublisher _) _) as [added k7] eqn:E7. intros [= -> <- <-].
  cbn [variables_port_ buffer_info_port_ setup_port_ arm_port_ read_port_ trigger_subject_ trigger_publisher_ device_ set_field] in *.
  apply and_then_true in E7 as [E7 F7]. destruct (and_then (AddSubscription _ _ _) _) as [a6 k6] eqn:E6. cbn [fst snd] in *. subst a6.
  apply and_then_true in E6 as [E6 F6]. destruct (and_then (AddServer (num settings srv_cymon_read_id) _ _) _) as [a5 k5] eqn:E5. cbn [fst snd] in *. subst a5.
  apply and_then_true in E5 as [E5 F5]. destruct (and_then (AddServer (num settings srv_cymon_arm_id) _ _) _) as [a4 k4] eqn:E4. cbn [fst snd] in *. subst a4.
  apply and_then_true in E4 as [E4 F4]. destruct (and_then (AddServer (num settings srv_cymon_setup_id) _ _) _) as [a3 k3] eqn:E3. cbn [fst snd] in *. subst a3.
  apply and_then_true in E3 as [E3 F3]. destruct (and_then (AddServer (num settings srv_cymon_buffer_info_id) _ _) _) as [a2 k2] eqn:E2. cbn [fst snd] in *. subst a2.
  apply and_then_true in E2 as [E2 F2]. destruct (AddServer (num settings srv_cymon_variables_id) _ _ _) as [a1 k1] eqn:E1. cbn [fst snd] in *. subst a1.
  exists k5. split; [|by exists k6]. cbn [add_servers]. by rewrite E1, E2, E3, E4, E5.
Qed.

Lemma AddSubscription_servers id extent h (n n' : Node) r : AddSubscription id extent h n = (r, n') -> servers_ n' = servers_ n.
Proof.
  unfold AddSubscription. do 2 (case_if; [by intros [= _ <-]|]). unfold CyphalNode.subscribe. destruct (CyphalNode.Subscribe _ _ _ _) as [ok t].
  by destruct ok; intros [= _ <-].
Qed.
Lemma AddPublisher_servers p (n n' : Node) r : AddPublisher p n = (r, n') -> servers_ n' = servers_ n.
Proof. unfold AddPublisher. do 2 (case_if; [by intros [= _ <-]|]). by intros [= _ <-]. Qed.

(** A start without an error: every service of the settings that is not
    switched off is served by the node under a port of its own, which was free
    before, and a request on that port gets its own answer. *)
Theorem trace_services settings tick s n s' n' : Start settings tick s n = (true, (s', n')) ->
  forall v, port_of v s' <> kUnsetPortId ->
    (forall h, (port_of v s', h) ∉ servers_ n) /\
    (forall request room, transfer_port request = port_of v s' -> OnRequest request room s' = serve v (payload request) room s') /\
    (port_of v s', self) ∈ servers_ n' /\ servers_ n' = servers_ n ++ map (fun id => (id, self))
      (filter (fun id => id <> kUnsetPortId) (map (fun v => port_of v s') services)).
Proof.
  intros St v Hv. apply Start_servers in St as (m & A & k & Sb & Pb & _).
  apply AddSubscription_servers in Sb. apply AddPublisher_servers in Pb. rewrite Pb, Sb. clear Pb Sb. apply add_servers_true in A as (A1 & A2 & A3). cbn [map fst] in A2, A3.
  change [variables_port_ s'; buffer_info_port_ s'; setup_port_ s'; arm_port_ s'; read_port_ s'] with (map (fun v => port_of v s') services) in A2, A3.
  assert (v ∈ services) as Iv by (destruct v; cbn; repeat constructor).
  assert (port_of v s' ∈ map (fun v => port_of v s') services) as Im
    by (apply list_elem_of_In, (in_map (fun v => port_of v s')), list_elem_of_In, Iv).
  split_and!.
  - intros h. by apply A3.
  - intros request room E. apply OnRequest_serve; [|done]. intros w X. apply (distinct_ports (fun v => port_of v s') services); try done.
    + destruct w; cbn; repeat constructor.
    + by rewrite X.
  - assert (map (fun x : Z * Z => (x.1, self)) (filter (fun x => x.1 <> kUnsetPortId)
      [(variables_port_ s', Variables_extent); (buffer_info_port_ s', BufferInfo_extent); (setup_port_ s', Setup_extent);
       (arm_port_ s', Arm_extent); (read_port_ s', Read_extent)]) =
      map (fun id => (id, self)) (filter (fun id => id <> kUnsetPortId) (map (fun v => port_of v s') services))) as F.
    { unfold services. cbn [map port_of]. rewrite !filter_cons, !filter_nil. cbn [fst]. repeat case_decide; done. }
    rewrite F in A1. rewrite A1. apply elem_of_app. right. apply list_elem_of_In.
    apply (in_map (fun id => (id, self))), list_elem_of_In, list_elem_of_filter. done.
  - rewrite A1. f_equal. unfold services. cbn [map port_of]. rewrite !filter_cons, !filter_nil. cbn [fst]. repeat case_decide; done.
Qed.

(** No answer is longer than the buffer, and a page of samples is never written
    past its array. *)
Lemma responses_fit `{!TraceLaws D} request room s :
  match OnRequest request room s with
  | Some (Some bytes, _) => Z.of_nat (length bytes) <= room
  | Some (None, _) => True
  | None => False
  end.
Proof.
  unfold OnRequest. repeat case_if.
  - destruct (OnGetVariableList _ _ _) eqn:E; [|done]. unfold OnGetVariableList in E. apply bind_Some in E as (i & _ & E). by eapply Variables_fits.
  - destruct (OnGetBufferInfo _ _) eqn:E; [|done]. by eapply BufferInfo_fits.
  - unfold OnSetupCapture. destruct (Setup_deserialize _); [|done]. destruct (HandleSetupCapture _ _). destruct (Setup_serialize _ _) eqn:E; [|done].
    by eapply Setup_fits.
  - unfold OnArmTrigger. destruct (Arm_deserialize _); [|done]. destruct (HandleArmTrigger _ _). destruct (Arm_serialize _ _) eqn:E; [|done].
    by eapply Arm_fits.
  - unfold OnReadSamples. destruct (Read_deserialize _) as [[o f]|]; [|done]. pose proof (Samples_fit o f (device_ s)).
    rewrite (proj2 (Nat.ltb_ge _ _)) by done. cbn [mbind option_bind]. destruct (Read_serialize _ _) eqn:E; [|done]. by eapply Read_fits.
  - done.
Qed.

(** A capture of too many channels keeps their number, so that the device can
    refuse it, and names only the first ones. *)
Lemma capture_config_spec setup : (length (ids setup) < 256)%nat ->
  num_channels (capture_config setup) = Z.of_nat (length (ids setup)) /\ length (channel_ids (capture_config setup)) = kMaxChannels /\
  take (length (ids setup)) (channel_ids (capture_config setup)) = take kMaxChannels (ids setup).
Proof.
  intros L. unfold capture_config. cbn [num_channels channel_ids]. split; [apply wrap_id; unfold in_u; lia|].
  set (c := take (Nat.min (length (ids setup)) kMaxChannels) (ids setup)).
  assert (length c = Nat.min (length (ids setup)) kMaxChannels) as Lc by (unfold c; rewrite length_take; lia).
  split; [rewrite length_app, length_replicate; lia|]. destruct (Nat.le_ge_cases (length (ids setup)) kMaxChannels) as [H1|H1].
  - unfold c in *. rewrite Nat.min_l in * by done. rewrite (take_ge (ids setup)) by done. by rewrite take_app_length, (take_ge (ids setup)).
  - unfold c in *. rewrite Nat.min_r in * by done. rewrite Lc, Nat.sub_diag, app_nil_r. by rewrite take_take, Nat.min_r.
Qed.

(** Trigger events leave the device one by one and each is published once, as
    long as it can be encoded and the node has an ID and the port. *)
Lemma Spin_publishes (s : TraceNode) (n : Node) s' n' e d bytes : TakeTriggerEvent (device_ s) = (Some e, d) ->
  TriggerEvent_serialize (mkTriggerEvent (source_variable_id e) (u8 (event_mode e)) (trigger_value e)) TriggerEvent_buffer = Some bytes ->
  Spin s n = (s', n') ->
  device_ s' = d /\
  CyphalNode.sent_ n' = CyphalNode.sent_ n ++
    (if (port_id (trigger_publisher_ s) =? kUnsetPortId) || (CyphalNode.NodeId n =? DriveMessages.kNodeIdUnset) then []
     else [CyphalNode.message (trigger_publisher_ s) bytes n]).
Proof.
  intros Tk Se. unfold Spin. rewrite Tk. rewrite Se. unfold Publish. cbn [trigger_publisher_ set_field].
  destruct (_ || _); [intros [= <- <-]; by rewrite app_nil_r|]. unfold CyphalNode.send.
  destruct (CyphalNode.Send _ _) as [ok t]. by intros [= <- <-].
Qed.
End Node.

(** ** A device on which the laws hold *)
(** It has four channels, answers every page with its last trigger value, and
    its messages are lists of numbers. *)
#[export] Instance demo_device : Device (option TriggerEvent) := {|
  kMaxChannels := 4; SetTickPeriod _ d := d; TakeTriggerEvent d := (d, None);
  RequestTrigger d := Some (mkTriggerEvent 0 0 f_zero); GetVariable _ _ := mkVariableInfo [105] [65];
  HandleGetBufferInfo _ := mkBufferInfo 64 4 4 4 f_one;
  HandleSetupCapture c d := (mkSetupCaptureResult (if num_channels c <=? 4 then 0 else 1) (sample_period_us c), d);
  HandleArmTrigger c d := (0, d);
  HandleReadSamples _ _ d := mkReadSamplesResult 0 1 1 0 f_one true (match d with Some e => [trigger_value e] | None => [] end) |}.
Definition demo_fit (bytes : list Z) (cap : Z) : option (list Z) := if Z.of_nat (length bytes) <=? cap then Some bytes else None.
#[export] Instance demo_messages : TraceDsdl := {|
  Variables_deserialize l := head l; Variables_serialize r cap := demo_fit (r.1 ++ r.2) cap;
  BufferInfo_serialize r cap := demo_fit [buffer_bytes r; max_channels r] cap;
  Setup_deserialize l := Some (mkSetupRequest l f_one 4 0); Setup_serialize r cap := demo_fit [r.1] cap;
  Arm_deserialize l := Some (mkArmTriggerConfig true 0 0 f_zero f_zero); Arm_serialize r cap := demo_fit [r] cap;
  Read_deserialize l := Some (0, 4); Read_serialize r cap := demo_fit [state r; Z.of_nat (length (Samples r))] cap;
  TriggerEvent_serialize e cap := demo_fit [source_variable_id e; event_mode e] cap;
  name_capacity := 40; unit_capacity := 10; samples_capacity := 16; TriggerEvent_buffer := 8;
  Variables_extent := 2; BufferInfo_extent := 0; Setup_extent := 32; Arm_extent := 16; Read_extent := 8; TriggerEvent_extent := 8 |}.
Lemma demo_fit_fits bytes cap b : demo_fit bytes cap = Some b -> Z.of_nat (length b) <= cap.
Proof. unfold demo_fit. destruct (Z.leb_spec (Z.of_nat (length bytes)) cap); [|done]. by intros [= <-]. Qed.
#[export] Instance demo_trace_laws : TraceLaws (option TriggerEvent).
Proof. split; try (intros r cap b; apply demo_fit_fits). intros offset frames [e|]; cbn; lia. Qed.
End TraceNode.
