(* ===== verification/TraceSignals.v ===== *)
(** * The signals of the traces

    src/trace/trace_signals.{hpp,cpp}: the mirror of the control state that the
    traces sample, its registration, and the hand-over of the trace device from
    the thread to the control cycle.  The device itself (the cymon submodule)
    is a class; the addresses of the mirror's members are a type. *)
From Stdlib Require Import ZArith Lia Bool String SpecFloat.
From stdpp Require Import base decidable list option.
From S2P Require Import Prelude Float32 CurrentControl Transforms RotorAngle Observers Isr.
Import CurrentControl Transforms.

#[local] Open Scope string_scope.
#[local] Open Scope list_scope.
#[local] Open Scope Z_scope.
#[local] Open Scope unimoc_scope.

Module TraceSignals.

Inductive Signal := sg_i_d | sg_i_q | sg_i_d_ref | sg_i_q_ref | sg_u_d | sg_u_q | sg_electrical_angle | sg_electrical_speed
  | sg_dc_link_voltage | sg_i_a | sg_i_b | sg_i_c.
Record TraceSignals := mkTraceSignals {
  i_d : float; i_q : float; i_d_ref : float; i_q_ref : float; u_d : float; u_q : float; electrical_angle : float;
  electrical_speed : float; dc_link_voltage : float; i_a : float; i_b : float; i_c : float }.
Definition TraceSignals_init : TraceSignals :=
  mkTraceSignals f_zero f_zero f_zero f_zero f_zero f_zero f_zero f_zero f_zero f_zero f_zero f_zero.
(** The value at an address of the mirror. *)
Definition value_of (g : Signal) (s : TraceSignals) : float :=
  match g with
  | sg_i_d => i_d s | sg_i_q => i_q s | sg_i_d_ref => i_d_ref s | sg_i_q_ref => i_q_ref s | sg_u_d => u_d s | sg_u_q => u_q s
  | sg_electrical_angle => electrical_angle s | sg_electrical_speed => electrical_speed s | sg_dc_link_voltage => dc_link_voltage s
  | sg_i_a => i_a s | sg_i_b => i_b s | sg_i_c => i_c s
  end.

(** The device: a default object, the registration of a variable by its
    address, and a sample of the registered variables. *)
Class TraceDevice (D : Type) := {
  Device_init : D;
  RegisterVariable : string -> string -> Signal -> D -> bool * D;
  Tick : (Signal -> float) -> D -> D }.
(** A registry of [room] variables that are numbered in their order. *)
Class TraceDeviceLaws (D : Type) `{!TraceDevice D} (room : nat) := {
  variables : D -> list Signal;
  variables_init : variables Device_init = [];
  register_law name unit g d : let '(ok, e) := RegisterVariable name unit g d in
    ok = (length (variables d) <? room)%nat /\ variables e = if ok then variables d ++ [g] else variables d;
  tick_law sample d : variables (Tick sample d) = variables d }.

Section Storage.
Context {D : Type} `{!TraceDevice D}.

(** [published]: the pointer the control cycle reads is set. *)
Record TraceStorage := mkTraceStorage { device_storage : option D; published : bool; signals : TraceSignals }.
#[export] Instance eta_TraceStorage : Eta TraceStorage := fun s => mkTraceStorage (device_storage s) (published s) (signals s).
Definition TraceStorage_init : TraceStorage := mkTraceStorage None false TraceSignals_init.

(** [TraceDevice()]: the device is constructed before its address is published. *)
Definition TraceDevice_ (s : TraceStorage) : TraceStorage :=
  if published s then s else (s.{device_storage := Some Device_init}).{published := true}.
Definition Signals (s : TraceStorage) : TraceSignals := signals s.
(** A call on [TraceDevice()]. *)
Definition on_device {A} (dflt : A) (f : D -> A * D) (s : TraceStorage) : A * TraceStorage :=
  let s := TraceDevice_ s in
  match device_storage s with Some d => let '(a, d) := f d in (a, s.{device_storage := Some d}) | None => (dflt, s) end.

Definition kSignals : list (string * string * Signal) :=
  [("i_d", "A", sg_i_d); ("i_q", "A", sg_i_q); ("i_d_ref", "A", sg_i_d_ref); ("i_q_ref", "A", sg_i_q_ref); ("u_d", "V", sg_u_d);
   ("u_q", "V", sg_u_q); ("electrical_angle", "rad", sg_electrical_angle); ("electrical_speed", "rad/s", sg_electrical_speed);
   ("dc_link_voltage", "V", sg_dc_link_voltage); ("i_a", "A", sg_i_a); ("i_b", "A", sg_i_b); ("i_c", "A", sg_i_c)].
Definition register_step (r : bool * TraceStorage) (x : string * string * Signal) : bool * TraceStorage :=
  let '(ok, s) := on_device false (RegisterVariable x.1.1 x.1.2 x.2) r.2 in (ok && r.1, s).
Definition RegisterControlSignals (s : TraceStorage) : bool * TraceStorage := foldl register_step (true, s) kSignals.

(** [None]: the angle is so large that the loop of the wrap does not end. *)
Definition mirror (isr : Isr.CurrentControlIsr) : option TraceSignals :=
  angle ← RotorAngle.WrapAnglePositive (Observers.theta (Isr.mech_obs isr));
  Some (mkTraceSignals (axis_d (Isr.i_dq_last isr)) (axis_q (Isr.i_dq_last isr)) (axis_d (Isr.i_ref isr)) (axis_q (Isr.i_ref isr))
    (axis_d (Isr.u_dq_last isr)) (axis_q (Isr.u_dq_last isr)) angle (Observers.omega (Isr.mech_obs isr)) (Isr.dc_link isr)
    (phase_a (Isr.phase_currents isr)) (phase_b (Isr.phase_currents isr)) (phase_c (Isr.phase_currents isr))).
Definition OnControlCycle (isr : Isr.CurrentControlIsr) (s : TraceStorage) : option TraceStorage :=
  m ← mirror isr;
  let s := s.{signals := m} in
  Some (if published s then s.{device_storage := Tick (fun g => value_of g (signals s)) <$> device_storage s} else s).

(** *** The hand-over *)
(** Thread and control cycle in any order: a published device is there. *)
Definition storage_ok (s : TraceStorage) : Prop := published s = true -> is_Some (device_storage s).
Inductive trace_event := te_register (name unit : string) (g : Signal) | te_cycle (isr : Isr.CurrentControlIsr).
Definition trace_step (e : trace_event) (s : TraceStorage) : option TraceStorage :=
  match e with
  | te_register name unit g => Some (on_device false (RegisterVariable name unit g) s).2
  | te_cycle isr => OnControlCycle isr s
  end.
Lemma TraceDevice_there s : storage_ok s -> exists d, device_storage (TraceDevice_ s) = Some d /\ published (TraceDevice_ s) = true.
Proof.
  intros Ok. unfold TraceDevice_. destruct (published s) eqn:P; [|by eexists]. destruct (Ok P) as [d E]. by exists d.
Qed.
Lemma trace_step_ok e s t : storage_ok s -> trace_step e s = Some t -> storage_ok t.
Proof.
  intros Ok. destruct e as [name unit g|isr]; cbn [trace_step].
  - intros [= <-]. unfold on_device. destruct (TraceDevice_there s Ok) as (d & E & _). rewrite E. destruct (RegisterVariable _ _ _ _). by eexists.
  - unfold OnControlCycle. intros H. apply bind_Some in H as (m & _ & [= <-]). cbn [published set_field]. destruct (published s) eqn:P.
    + intros _. cbn [device_storage set_field]. destruct (Ok P) as [d ->]. by eexists.
    + intros X. cbn [published set_field] in X. congruence.
Qed.

(** The control signals are the first variables, with the IDs 0 to 11 in the
    order of the mirror; a full registry is reported, and what fits is there. *)
Context {room : nat} `{!TraceDeviceLaws D room}.
Definition registered (s : TraceStorage) : list Signal := default [] (variables <$> device_storage s).
Lemma register_steps l r : storage_ok r.2 ->
  published r.2 = true -> (length (registered r.2) <= room)%nat ->
  let t := foldl register_step r l in
  registered t.2 = take room (registered r.2 ++ map snd l) /\ storage_ok t.2 /\ published t.2 = true /\
  t.1 = r.1 && (length (registered r.2) + length l <=? room)%nat.
Proof.
  intros Ok P L. cbv zeta. revert r Ok P L. induction l as [|x l IH]; intros r Ok P L; cbn [foldl map length].
  - rewrite app_nil_r, take_ge by done. rewrite Nat.add_0_r, (proj2 (Nat.leb_le _ _)) by done. by rewrite andb_true_r.
  - destruct r as [b s]. cbn [fst snd] in *. destruct (Ok P) as [d E].
    assert (exists ok e, RegisterVariable x.1.1 x.1.2 x.2 d = (ok, e) /\ register_step (b, s) x = (ok && b, s.{device_storage := Some e})) as
      (ok & e & R & St).
    { unfold register_step, on_device, TraceDevice_. cbn [fst snd]. rewrite P, E. destruct (RegisterVariable _ _ _ _) as [ok e]. by exists ok, e. }
    pose proof (register_law x.1.1 x.1.2 x.2 d) as Law. rewrite R in Law. destruct Law as [Lo Le].
    assert (registered s = variables d) as Rs by (unfold registered; by rewrite E). rewrite Rs in *. rewrite St.
    destruct (IH (ok && b, s.{device_storage := Some e})) as (I1 & I2 & I3 & I4); cbn [fst snd] in *.
    + intros _. by eexists.
    + done.
    + unfold registered. cbn [device_storage set_field fmap option_fmap option_map default]. change (id (variables e)) with (variables e). rewrite Le. subst ok.
      destruct (Nat.ltb_spec (length (variables d)) room); [rewrite length_app; cbn [length]; lia|done].
    + split; [|split; [done|split; [done|]]].
      * rewrite I1. unfold registered at 1. cbn [device_storage set_field fmap option_fmap option_map default]. change (id (variables e)) with (variables e).
        rewrite Le. subst ok. destruct (Nat.ltb_spec (length (variables d)) room); [by rewrite <-app_assoc|].
        rewrite !take_app_le by lia. done.
      * rewrite I4. unfold registered at 1. cbn [device_storage set_field fmap option_fmap option_map default]. change (id (variables e)) with (variables e).
        rewrite Le. subst ok. destruct (Nat.ltb_spec (length (variables d)) room); cbn [andb].
        -- rewrite length_app. cbn [length]. f_equal. f_equal. lia.
        -- symmetry. apply andb_false_iff. right. apply Nat.leb_gt. lia.
Qed.

Lemma register_step_device b s x : register_step (b, s) x = register_step (b, TraceDevice_ s) x.
Proof. unfold register_step, on_device. cbn [fst snd]. unfold TraceDevice_. destruct (published s) eqn:P; [by rewrite P|done]. Qed.

(** Registered once at the start, the control signals are the first variables,
    in the order of the mirror; the answer says whether all of them fit. *)
Lemma control_signals_registered : let '(ok, s) := RegisterControlSignals TraceStorage_init in
  registered s = take room (map snd kSignals) /\ ok = (12 <=? room)%nat /\ storage_ok s /\ published s = true.
Proof.
  assert (RegisterControlSignals TraceStorage_init = foldl register_step (true, TraceDevice_ TraceStorage_init) kSignals) as ->.
  { unfold RegisterControlSignals, kSignals. cbn [foldl]. by rewrite register_step_device. }
  destruct (register_steps kSignals (true, TraceDevice_ TraceStorage_init)) as (R1 & R2 & R3 & R4); [by eexists|done| |].
  { unfold registered. cbn. change (id (variables Device_init)) with (variables Device_init). rewrite variables_init. cbn. lia. }
  assert (registered (TraceDevice_ TraceStorage_init) = []) as E.
  { unfold registered. cbn [device_storage TraceDevice_ TraceStorage_init published set_field fmap option_fmap option_map default].
    exact variables_init. }
  cbn [fst snd] in *. rewrite E in *. destruct (foldl register_step _ kSignals) as [ok s]. cbn [fst snd] in *. done.
Qed.

(** A cycle does not change what is registered; the next sample sees the whole
    mirror of that cycle. *)
Lemma cycle_registered isr s t : OnControlCycle isr s = Some t ->
  registered t = registered s /\ published t = published s /\ Some (signals t) = mirror isr.
Proof.
  unfold OnControlCycle. intros H. apply bind_Some in H as (m & M & [= <-]). cbn [published set_field]. destruct (published s) eqn:P.
  - split; [|split; done]. unfold registered. cbn [device_storage set_field]. destruct (device_storage s) as [d|]; [|done].
    cbn [fmap option_fmap option_map default]. apply tick_law.
  - split; [done|]. split; done.
Qed.
End Storage.

(** A registry of 24 variables with the last sample of each. *)
#[export] Instance demo_registry : TraceDevice (list Signal * list float) := {|
  Device_init := ([], []);
  RegisterVariable _ _ g d := if (length d.1 <? 24)%nat then (true, (d.1 ++ [g], d.2)) else (false, d);
  Tick sample d := (d.1, map sample d.1) |}.
#[export, refine] Instance demo_registry_laws : TraceDeviceLaws (list Signal * list float) 24 := {| variables := fst |}.
Proof. - done. - intros name unit g d. unfold RegisterVariable, demo_registry. by destruct (length d.1 <? 24)%nat eqn:E. - done. Defined.
Example all_signals_fit : (RegisterControlSignals (D := list Signal * list float) TraceStorage_init).1 = true.
Proof. reflexivity. Qed.

Lemma while_exit {E} depth (cond : E -> bool) body x y : while_ depth cond body x = Some y -> cond y = false.
Proof. unfold while_. cbv zeta. destruct (cond (while_loop depth cond body x)) eqn:C; [done|]. intros X. injection X as <-. exact C. Qed.
Lemma wrapped_range (finite : bool) (x y : float) (m : option float) (k : float -> option float) :
  (forall v w, k v = Some w -> f_ltb w f_zero = false) ->
  (if negb finite then Some x else v ← m; w ← k v; Some (if f_ltb w f_two_pi then w else f_zero)) = Some y -> finite = true ->
  f_ltb y f_zero = false /\ f_ltb y f_two_pi = true.
Proof.
  intros K H ->. cbn [negb] in H. apply bind_Some in H as (v & _ & H). apply bind_Some in H as (w & W & H). apply K in W.
  apply (inj Some) in H. subst y. destruct (f_ltb w f_two_pi) eqn:B; by split.
Qed.
Lemma WrapAnglePositive_range x y : RotorAngle.WrapAnglePositive x = Some y -> is_finite x = true ->
  f_ltb y f_zero = false /\ f_ltb y f_two_pi = true.
Proof. unfold RotorAngle.WrapAnglePositive. apply wrapped_range. intros v w W. exact (while_exit _ (fun value => f_ltb value f_zero) _ _ _ W). Qed.
(** The angle of the traces is in [0, 2 pi) for every finite estimate. *)
Lemma mirror_angle isr m : mirror isr = Some m -> is_finite (Observers.theta (Isr.mech_obs isr)) = true ->
  f_ltb (electrical_angle m) f_zero = false /\ f_ltb (electrical_angle m) f_two_pi = true.
Proof.
  unfold mirror. intros H F. destruct (RotorAngle.WrapAnglePositive _) as [a|] eqn:A; [|done]. apply (inj Some) in H. subst m.
  exact (WrapAnglePositive_range _ _ A F).
Qed.
End TraceSignals.
